(* ===== verification/_CoqProject ===== *)
-Q . S2P
Prelude.v
Utf8.v
Math.v
Storage.v
Transactions.v
Prefixed.v
Typed.v
Handles.v
Std.v
Querying.v
Erc20.v
Crypto.v
SecretMsg.v
Encoding.v
Signatures.v
Validation.v
EnclaveDb.v
QueryChain.v
Wire.v
Runtime.v
GuestMemory.v
GuestArena.v
Operations.v
Metering.v
Ecalls.v
Logging.v
SgxVm.v
SgxVmFacts.v
WasmerHost.v
WasmCheck.v
WasmerInstance.v
HostMocks.v
Engines.v
GuestImports.v
GuestLink.v
DebugPrint.v
GuestExports.v
MeteredContract.v
CallPath.v
ContractState.v
GoBindings.v
EndToEnd.v
Cert.v
Report.v
Attestation.v
SigningCert.v
Registration.v
HardwareMode.v
RegistrationHost.v
Staking.v
Queue.v
Escrow.v
Contracts.v
Schema.v
UnitTests.v
