(* ===== verification/Prelude.v ===== *)
(** * A verification development for the Rust code of SecretNetwork

    SecretNetwork runs CosmWasm contracts inside an SGX enclave.  A node of the chain calls, through
    C bindings, a host library, which keeps code, storage and gas and calls the enclave.  A
    transaction reaches the enclave as an encrypted message with a signature; the enclave
    authenticates and decrypts it, runs the contract in a wasm interpreter under a gas limit,
    lets it read and write encrypted storage and query other contracts through calls to the
    untrusted host (ocalls), and encrypts the output for the user.  New nodes obtain the
    chain's seed by remote attestation.  Contracts are written against a standard library
    (numbers, storage traits) and a storage library (namespaces, typed buckets, transactions).
    Paths below are under src/cosmwasm, unless they start with go-cosmwasm.

    ** Files and the code they model

    Shared:
    - Prelude: results with panics ([result]), state passing ([M]), bytes, checked machine
      arithmetic, the tactics [inv_bind] and [inv_M].
    - Utf8: checking and repairing UTF-8, white space ([Text]).

    Libraries for contracts:
    - Math: packages/std/src/math.rs, errors/std_error.rs ([Uint128], [Decimal], their text).
    - Storage: packages/std/src/storage.rs, traits.rs, iterator.rs.  The trait [Storage] is a
      class; what clients may rely on are the classes [StorageLaws] and [RangeLaws];
      [MemoryStorage] is an instance of all three.
    - Transactions: packages/storage/src/transactions.rs.
    - Prefixed: packages/storage/src/length_prefixed.rs, namespace_helpers.rs,
      prefixed_storage.rs; a prefixed store is again an instance of the storage classes.
    - Typed: packages/storage/src/type_helpers.rs, typed.rs, singleton.rs, bucket.rs,
      sequence.rs over any store and any codec ([Serde], [SerdeLaws]).
    - Handles: the read-only and the constructing parts of the same files, as handles over a
      store ([ReadonlyStorage]).
    - Std: packages/std/src/types.rs, coins.rs, init_handle.rs and the host traits.
    - Querying: packages/std/src/query.rs, mock.rs, memory.rs, imports.rs, exports.rs and the
      codecs: queries, the mocks contracts are tested with, and the calling convention.
    - Encoding: packages/std/src/encoding.rs, addresses.rs and the text forms of math.rs, with
      their copies in the enclave (wasmi-runtime/src/cosmwasm/encoding.rs, math.rs, types.rs).
    - Wire: the JSON documents of messages, responses and queries as both sides declare them
      (std/src/init_handle.rs, query.rs, types.rs and wasmi-runtime/src/cosmwasm).
    - GuestMemory, GuestImports, GuestExports: packages/std/src/memory.rs, imports.rs, exports.rs
      and entry_points.rs as programs of the machine of Runtime; GuestArena: an allocator for
      them; GuestLink: a contract linked to the enclave; MeteredContract: the same contract with
      gas metering in it; CallPath: one contract calls another, from the sender's message to the
      receiver's function and back; ContractState: what a contract means on a plain map, and when
      an encrypted store represents such a map.
    - DebugPrint: packages/std/src/debug_print.rs, the import it calls, contracts/debug-print.
    - Schema: packages/schema/src.
    - UnitTests: the assertions of the unit tests of some of these files, on the definitions.

    Contracts (contracts/): Erc20, Staking, Queue, Escrow, and in Contracts burner, hackatom,
    reflect, mint, gov and dist.

    The enclave (packages/wasmi-runtime/src):
    - Crypto: crypto (key_manager.rs, keys.rs, kdf.rs, hmac.rs, sha.rs, aes_siv.rs, ed25519.rs,
      storage.rs), consts.rs.
    - SecretMsg: wasm/types.rs, io.rs and the types of cosmwasm/types.rs.
    - Signatures: crypto/secp256k1.rs, multisig.rs.
    - Validation: wasm/contract_validation.rs.
    - EnclaveDb: wasm/db.rs, errors.rs over any host.
    - QueryChain: recursion_depth.rs (Module [Recursion]), wasm/query_chain.rs.
    - Runtime: wasm/gas.rs, wasm/runtime/contract.rs, externals.rs, engine.rs; a contract is
      any program of memory steps and host calls.
    - Operations: wasm/contract_operations.rs, memory.rs: the entry points [init], [handle]
      and [query] composed from all of the above.
    - Metering: what inject_gas_counter, called there, adds to a module: calls of the host
      function [gas]; a program with such calls against the program without.
    - Ecalls: exports.rs (Module [Buffers]: the table of buffers the host allocates; the
      ecalls), oom_handler.rs (Module [Safety]), results.rs.
    - Logging: lib.rs, logger.rs.
    - Cert, Report, Attestation, Registration: registration/cert.rs, report.rs, attestation.rs
      and hex.rs, and seed_exchange.rs, onchain.rs, offchain.rs with utils.rs and storage.rs;
      SigningCert: percent decoding against a reference encoder, and the chain of certificates
      it is used for; HardwareMode: making and checking a certificate of hardware mode, end to
      end.

    The host (packages/sgx-vm/src and go-cosmwasm/src):
    - SgxVm: wasmi/exports.rs, results.rs, wrapper.rs, context.rs, instance.rs, calls.rs,
      ffi.rs and the errors; SgxVmFacts: its properties over sequences of calls.
    - WasmCheck: features.rs, compatability.rs, checksum.rs, cache.rs of the host and
      wasm/runtime/import_resolver.rs of the enclave, which must agree.
    - WasmerHost, WasmerInstance: the engine that ran contracts on the host before the enclave:
      memory.rs, imports.rs, conversion.rs, the gas of context.rs, backends, middleware,
      modules.rs, and its parts of instance.rs and calls.rs; Engines: it and the enclave on one
      memory.
    - HostMocks: testing (storage.rs, mock.rs, querier.rs, instance.rs).
    - GoBindings: go-cosmwasm/src: lib.rs, memory.rs, db.rs, iterator.rs, querier.rs, api.rs,
      error.
    - EndToEnd: a transaction through the bindings, the host, the enclave and the contract, and
      back to the store of the chain; the ecall of [Module::handle] in wasmi/wrapper.rs.
    - RegistrationHost: enclave.rs, seed.rs, attestation.rs of the host and the entry points of
      lib.rs for registration.

    ** How state and effects are modelled

    A Rust [Result] that may also panic is [result]; a function with [&mut] state maps the
    old state to the new one and a [result], so that writes made before an early return
    stay.  Machine integers are [Z] with the checks, saturation or wrap-around of the source
    written out.  The host of the enclave is the class [Host]: an arbitrary function from the
    history of ocalls to an answer; histories are explicit ([Trace]), so theorems speak about
    which ocalls happened and in which order.  SgxVm defines such a host from a storage
    ([VmStorage]), GoBindings such a storage from the callbacks of the chain ([GoDb]).  Memory that
    crosses the borders is explicit: the table of enclave buffers, the boxes of the host, the
    allocations of the bindings.  The global key manager is an argument ([Keychain]), and in
    Registration a part of the node's state that is loaded at its first use.

    ** Parameters

    Code that is not in the repository is a class of operations, with the documented
    behaviour the theorems use in a second class: [Primitives], [PrimitiveLaws] and [DhLaws]
    (SHA-256, HMAC, HKDF, AES-SIV, X25519, ECDSA, RIPEMD-160; random bytes are arguments),
    [SgxFs] and [UntrustedFs] (files), [Codecs], [Json] and their laws (base64, hex, bech32,
    serde_json), [Prost] (length delimiters), [Serde] (serde-json-wasm), [WasmMemory],
    [WasmLoader] (parity-wasm, pwasm-utils, wasmi), [Host], [Api] and [Querier] (the chain),
    [GoDb] (the callbacks of the chain), [CertTools] with [CertLaws] (DER), [Webpki],
    [ReportJson], [IasConnection], [Quoting], [SgxRuntime] and [SgxUae] (X.509, JSON, TLS and
    HTTP, the SGX instructions, the quoting enclave, the SGX runtime), [JsonText] with its laws
    (JSON text of a document), [GuestMemory.Allocator] (the allocator of a contract) and
    [SgxVm.Allocator] (of the host), and [WasmerMemory] (memory behind wasmer's pointers, with an
    instance over any [WasmMemory] in Engines).  Allocation is a parameter that may fail.  Each
    class has a concrete instance (names starting with [demo_]) at which the theorems are
    applied.  No law says that a hash has no collisions: binding theorems name the two strings
    that would have to collide.  inject_gas_counter is taken at its word: it puts calls of [gas]
    into a module and changes nothing else ([Metering.metered_exports]), and the loader at which the
    theorems are applied does so.

    ** What is shown

    - The whole stack (EndToEnd): any sequence of transactions of a contract through the bindings,
      the host and the enclave, failed ones among them, is a sequence of calls of the contract's
      function on a map, which the encrypted store of the chain represents; a transaction the
      enclave accepts returns, with the output of that function encrypted for its sender.  The
      theorems name their conditions: buffers for values can be allocated in the enclave
      ([buffers_fit]), no two of the contract's keys have one digest ([fields_distinct]), the heap
      is enough ([heap_enough]), and for the second there is gas for the function and for metering,
      or running out of gas is a second outcome.
    - Metering: a metered program makes the same ocalls, up to the gas its queries are given, and
      ends with the same result as the original, or gas is depleted; it always ends.
    - Entry points (Operations): no ocall happens and nothing is returned by [handle] before
      authentication, authorisation and decryption succeeded; a query never writes; the key
      an [init] hands out is the one a later [handle] accepts; memory is bounded.
    - Authentication (Validation, Signatures): contract keys bind address and code; callback
      signatures bind sender, message and funds; a call between contracts is accepted by its
      receiver; multisignatures consist of valid signatures, and the same one may be counted
      repeatedly.
    - Messages (SecretMsg, QueryChain): exact wire format, encryption of every part of an
      output, delivery of nested queries and of their answers, the bound on nesting.
    - State (EnclaveDb, Crypto): the encrypted storage behaves as a map per contract; keys in
      memory are those a restart rebuilds.
    - Registration: the seed is released only to keys of attested enclaves; a new node that
      went through the exchange, called through the bindings, has the chain's keys from its next
      start on; the ecall on the chain returns unless the memory reserve fails; a quote that the host replaced is not reported; quotes are
      read as documented; which comments of a certificate can be read back; in hardware mode,
      on a platform and with a service that do what Intel documents, the certificate a node
      makes for its key is accepted for that key.
    - The border (Ecalls): no buffer is freed twice or read after it was freed, whatever
      pointers the host passes; an ecall returns whatever the contract does, unless the memory
      reserve cannot be built or refilled, which happens outside of what is caught; the reserve,
      once restored, is above its minimum, and a short one is never completed.
    - Execution (Runtime): gas stays within the limit for any contract; regions round trip.
    - The host (SgxVm, SgxVmFacts): it answers ocalls as the enclave's theorems assume of an
      honest host; errors of the chain survive the enclave; gas and writes of sequences of
      calls are accounted for; where a failed allocation hides a value.
    - Uploads (WasmCheck): what a contract that was accepted imports resolves in the enclave,
      to host functions of the right type; stored code stays loadable.
    - Bindings (GoBindings): a call through them leaves in the chain's store what the enclave
      wrote; results and errors reach the caller; which memory is freed, and what leaks.
    - Storage library: a transaction refines the committed store; atomicity; isolation of
      namespaces; exact ranges, and where ranges over namespaces ending in byte 255 fail.
    - Contracts: supply of the ERC20 token, exact transfers; books, share value and payouts
      of the staking derivative over all reachable states; the queue is first in first out
      and can always be drained; the escrow pays once, to the right side; which messages of
      hackatom return.
    - Numbers and texts (Math, Encoding): printing and parsing, rounding; the library and the
      enclave's copy of it parse and print alike, and where their arithmetic differs.
    - The contract's side (GuestLink, GuestExports): a contract linked to the enclave through
      regions of its own memory behaves as if it called the enclave's services directly, and
      its sealed result is that of its function; which regions a range reads too late.
    - Between contracts (CallPath): a message that one contract sends runs the other's function on
      exactly what was sent; a query is answered with what the queried function returns.
    - The border in JSON (Wire): what a contract returns is read as what it meant, queries and
      answers cross, the environment arrives; which documents are refused.
    - Logging: a production build prints nothing below its level, whatever the host asks for.
    - The old engine (WasmerHost, WasmerInstance, Engines): gas is charged exactly and reports add
      up, a query writes nothing through any import, only listed operators compile; the enclave
      reads and writes what it did, with fewer checks.
    - Test backend (HostMocks): it answers as the mocks of the library do, with its gas.
    - Schema: which files are written and cleaned.

    ** Fuel and bounds

    [Runtime.run] takes fuel for the steps of a contract; theorems hold for every amount of fuel,
    and those that say that a call returns give an amount that is enough, and every larger one.
    A contract is a tree of steps in which every path ends, so enough fuel exists
    ([Metering.run_ends]); a loop that only gas would stop is not such a tree.  In EndToEnd an ecall without enough fuel has
    a status other than success, so that nothing is concluded from it.  The endless loops of hackatom take fuel in the
    same way, and are shown never to return.  [Signatures.decode_loop] gets the length of its
    input, which is enough ([decode_loop_enough]).  39 digits print every [u128], and 20 every
    length.

    ** Not modelled

    AES-GCM, all of which is commented out; the typed calls of the wasmer engine, which are
    commented out too; wasm instructions and the compilers; the characters of JSON text beyond
    [JsonText]; the update advice printed by registration; that unwinding finds memory in the
    reserve freed for it; locks between threads of the enclave; build scripts; the Go modules and the
    JavaScript clients, which are not Rust.

    ** What is left

    Of the Rust sources: conversions of one line, declarations of foreign functions and unit
    tests.  Of the compositions: queries that a contract makes during a transaction are answered
    by the querier of the chain, whose own call of the bindings CallPath follows but EndToEnd
    does not nest. *)

From Stdlib Require Export ZArith Lia List.
From Stdlib Require Export Strings.Byte.
From stdpp Require Export base tactics option list list_numbers numbers strings sorting.

(** ** Fallible computations

    A Rust function returning [Result<T, E>] has two ordinary outcomes; a third
    one is a panic (an explicit [panic!], [unwrap] on an error, a slice out of
    range, or an arithmetic overflow where [overflow-checks] is on). *)

Inductive result (E A : Type) : Type :=
| Ok (a : A)
| Err (e : E)
| Panic.
Arguments Ok {E A} a.
Arguments Err {E A} e.
Arguments Panic {E A}.

#[export] Instance result_ret {E} : MRet (result E) := fun A a => Ok a.
#[export] Instance result_bind {E} : MBind (result E) :=
  fun A B f m => match m with Ok a => f a | Err e => Err e | Panic => Panic end.
#[export] Instance result_fmap {E} : FMap (result E) :=
  fun A B f m => match m with Ok a => Ok (f a) | Err e => Err e | Panic => Panic end.

Definition is_ok {E A} (r : result E A) : bool :=
  match r with Ok _ => true | _ => false end.

(** [Result::map_err]. *)
Definition map_err {E F A} (f : E -> F) (r : result E A) : result F A :=
  match r with Ok a => Ok a | Err e => Err (f e) | Panic => Panic end.

(** [Result::unwrap] and [Option::expect]: an error becomes a panic. *)
Definition unwrap {E F A} (r : result E A) : result F A :=
  match r with Ok a => Ok a | _ => Panic end.

Definition ok_or {E A} (e : E) (o : option A) : result E A :=
  match o with Some a => Ok a | None => Err e end.

Definition expect {E A} (o : option A) : result E A :=
  match o with Some a => Ok a | None => Panic end.

(** Iterating a fallible function over a list, stopping at the first failure. *)
Fixpoint mapR {E A B} (f : A -> result E B) (l : list A) : result E (list B) :=
  match l with
  | [] => Ok []
  | x :: xs => y ← f x; ys ← mapR f xs; Ok (y :: ys)
  end.

(** ** State-passing computations

    A function that takes [&mut S] and returns [Result<T, E>] maps a store to
    the store it leaves behind and its outcome.  The store is returned on every
    outcome: an early return keeps the writes made before it. *)

Definition M (S E A : Type) : Type := S -> S * result E A.

#[export] Instance M_ret {S E} : MRet (M S E) := fun A a s => (s, Ok a).
#[export] Instance M_bind {S E} : MBind (M S E) :=
  fun A B f m s =>
    match m s with
    | (s', Ok a) => f a s'
    | (s', Err e) => (s', Err e)
    | (s', Panic) => (s', Panic)
    end.

Definition liftR {S E A} (r : result E A) : M S E A := fun s => (s, r).
Definition getS {S E} : M S E S := fun s => (s, Ok s).
Definition putS {S E} (s : S) : M S E unit := fun _ => (s, Ok tt).
Definition modifyS {S E} (f : S -> S) : M S E unit := fun s => (f s, Ok tt).
Definition readS {S E A} (f : S -> result E A) : M S E A := fun s => (s, f s).
Definition throw {S E A} (e : E) : M S E A := fun s => (s, Err e).

(** ** Bytes *)

Abbreviation byte := Byte.byte.
Abbreviation bytes := (list Byte.byte).

#[export] Instance byte_eq_dec : EqDecision byte := Byte.byte_eq_dec.

Definition Z_of_byte (b : byte) : Z := Z.of_N (Byte.to_N b).

(** The low eight bits of an integer, as [as u8] keeps them. *)
Definition byte_of_Z (z : Z) : byte :=
  match Byte.of_N (Z.to_N (z mod 256)) with Some b => b | None => Byte.x00 end.

(** A byte-string literal [b"..."] and [str::as_bytes]. *)
Definition lit (s : string) : bytes := String.list_byte_of_string s.

(** [Ord] for [Vec<u8>]: lexicographic, a strict prefix being smaller. *)
Fixpoint bytes_cmp (a b : bytes) : comparison :=
  match a, b with
  | [], [] => Eq
  | [], _ :: _ => Lt
  | _ :: _, [] => Gt
  | x :: a', y :: b' =>
      match (Z_of_byte x ?= Z_of_byte y)%Z with Eq => bytes_cmp a' b' | c => c end
  end.

Definition bytes_lt (a b : bytes) : Prop := bytes_cmp a b = Lt.
Definition bytes_ltb (a b : bytes) : bool :=
  match bytes_cmp a b with Lt => true | _ => false end.
Definition bytes_eqb (a b : bytes) : bool := bool_decide (a = b).

(** [to_be_bytes] of a [w]-byte integer and its inverse. *)
Fixpoint be_bytes (w : nat) (z : Z) : bytes :=
  match w with
  | O => []
  | S w' => be_bytes w' (z / 256) ++ [byte_of_Z z]
  end.

Definition from_be_bytes (l : bytes) : Z :=
  foldl (fun acc b => (acc * 256 + Z_of_byte b)%Z) 0%Z l.

(** Machine-integer ranges. *)
Definition U8_MAX : Z := 255.
Definition U32_MAX : Z := 2^32 - 1.
Definition U64_MAX : Z := 2^64 - 1.
Definition U128_MAX : Z := 2^128 - 1.
Definition is_u128 (z : Z) : Prop := (0 <= z <= U128_MAX)%Z.

(** Arithmetic with [overflow-checks = true]: a result out of range panics. *)
Definition checked (max z : Z) : option Z :=
  if ((0 <=? z) && (z <=? max))%Z then Some z else None.
Definition arith {E} (max z : Z) : result E Z := expect (checked max z).

(** Half-open slices [&l[a..b]]; out of range panics. *)
Definition slice {E A} (l : list A) (a b : nat) : result E (list A) :=
  if bool_decide (a <= b <= length l) then Ok (take (b - a) (drop a l)) else Panic.

(** ** Tactics and hint databases *)

Create HintDb secret.

(** Case analysis on the outermost [match] or [if] of a hypothesis. *)
Ltac case_in H :=
  match type of H with
  | context [match ?x with _ => _ end] => destruct x eqn:?
  end.

(** Invert a chain of monadic binds that ended in [Ok]. *)
Ltac inv_bind H :=
  repeat (cbv [mbind result_bind M_bind mret result_ret M_ret fmap result_fmap] in H;
          cbn in H;
          first [ discriminate H
                | progress simplify_eq H
                | case_in H ]).

Ltac byte_cases := intros []; vm_compute; (reflexivity || auto).

(** Invert a chain of state-passing binds that ended in [Ok], keeping its equations. *)
Lemma M_bind_Ok {S E A B} (m : M S E A) (f : A -> M S E B) s s' b :
  (m ≫= f) s = (s', Ok b) -> exists a s1, m s = (s1, Ok a) /\ f a s1 = (s', Ok b).
Proof.
  cbv [mbind M_bind]. destruct (m s) as [s1 [a| |]]; [|done..]. intros H. by exists a, s1.
Qed.

Lemma liftR_Ok {S E A} (r : result E A) (s s' : S) a :
  liftR r s = (s', Ok a) -> s' = s /\ r = Ok a.
Proof. by intros [= -> ->]. Qed.

Lemma readS_Ok {S E A} (f : S -> result E A) (s s' : S) a :
  readS f s = (s', Ok a) -> s' = s /\ f s = Ok a.
Proof. by intros [= -> ->]. Qed.

Lemma mret_Ok {S E A} (a a' : A) (s s' : S) :
  (mret a : M S E A) s = (s', Ok a') -> s' = s /\ a = a'.
Proof. by intros [= -> ->]. Qed.

Lemma result_bind_Ok {E A B} (m : result E A) (f : A -> result E B) b :
  (m ≫= f) = Ok b -> exists a, m = Ok a /\ f a = Ok b.
Proof. destruct m as [a| |]; [|done..]. intros H. by exists a. Qed.

Ltac inv_M H :=
  lazymatch type of H with
  | (_ ≫= _) _ = (_, Ok _) =>
      let a := fresh "a" in let t := fresh "t" in let Ha := fresh "Hm" in
      apply M_bind_Ok in H as (a & t & Ha & H); inv_M Ha; cbv beta in H; inv_M H
  | liftR _ _ = _ => apply liftR_Ok in H as [-> H]; inv_M H
  | readS _ _ = _ => apply readS_Ok in H as [-> H]
  | mret _ _ = _ => apply mret_Ok in H as [-> <-]
  | throw _ _ = _ => discriminate H
  | (_ ≫= _) = Ok _ =>
      let a := fresh "a" in let Ha := fresh "Hm" in
      apply result_bind_Ok in H as (a & Ha & H); inv_M Ha; cbv beta in H; inv_M H
  | ok_or _ ?o = Ok _ => destruct o eqn:?; [|discriminate H]; injection H as ?; subst
  | _ => idtac
  end.

(** ** Lemmas on results *)

Lemma mapR_Ok_length {E A B} (f : A -> result E B) l ys :
  mapR f l = Ok ys -> length ys = length l.
Proof.
  revert ys. induction l as [|x l IH]; intros ys H; cbn in H; [by simplify_eq|].
  destruct (f x); cbn in H; try discriminate.
  destruct (mapR f l) eqn:Hl; cbn in H; simplify_eq; cbn. by rewrite (IH _ eq_refl).
Qed.

Lemma mapR_Ok {E A B} (f : A -> result E B) (g : A -> B) l :
  (forall x, x ∈ l -> f x = Ok (g x)) -> mapR f l = Ok (map g l).
Proof.
  induction l as [|x l IH]; intros H; cbn; [done|].
  rewrite H by left. cbn. rewrite IH; [done|]. intros y Hy. apply H. by right.
Qed.

(** ** Lemmas on bytes *)

Lemma Z_of_byte_range b : (0 <= Z_of_byte b < 256)%Z.
Proof. unfold Z_of_byte. pose proof (Byte.to_N_bounded b). lia. Qed.

Lemma Z_of_byte_inj a b : Z_of_byte a = Z_of_byte b -> a = b.
Proof.
  unfold Z_of_byte. intros H. apply N2Z.inj in H.
  assert (Some a = Some b) as [=]; [|done].
  by rewrite <- (Byte.of_to_N a), <- (Byte.of_to_N b), H.
Qed.

Lemma Z_of_byte_of_Z z : Z_of_byte (byte_of_Z z) = (z mod 256)%Z.
Proof.
  unfold Z_of_byte, byte_of_Z. pose proof (Z.mod_pos_bound z 256 ltac:(lia)).
  destruct (Byte.of_N _) eqn:E.
  - apply Byte.to_of_N in E. rewrite E. lia.
  - apply Byte.of_N_None_iff in E. lia.
Qed.

Lemma byte_of_Z_of_byte b : byte_of_Z (Z_of_byte b) = b.
Proof.
  apply Z_of_byte_inj. rewrite Z_of_byte_of_Z. apply Z.mod_small, Z_of_byte_range.
Qed.
#[export] Hint Resolve Z_of_byte_range : secret.

Lemma be_bytes_length w z : length (be_bytes w z) = w.
Proof. revert z. induction w; intros z; cbn; [done|]. rewrite length_app, IHw; cbn; lia. Qed.

Lemma from_be_bytes_snoc l b : from_be_bytes (l ++ [b]) = (from_be_bytes l * 256 + Z_of_byte b)%Z.
Proof. unfold from_be_bytes. by rewrite foldl_app. Qed.

Lemma from_to_be_bytes w z : from_be_bytes (be_bytes w z) = (z mod 256 ^ Z.of_nat w)%Z.
Proof.
  revert z. induction w as [|w IH]; intros z.
  - cbn. change (256 ^ 0)%Z with 1%Z. by rewrite Z.mod_1_r.
  - cbn [be_bytes]. rewrite from_be_bytes_snoc, IH, Z_of_byte_of_Z.
    rewrite Nat2Z.inj_succ, Z.pow_succ_r by lia.
    rewrite Z.rem_mul_r by lia. lia.
Qed.

Lemma from_be_bytes_range l : (0 <= from_be_bytes l < 256 ^ Z.of_nat (length l))%Z.
Proof.
  induction l as [|b l IH] using rev_ind; [cbn; lia|].
  rewrite from_be_bytes_snoc, length_app. cbn [length].
  rewrite Nat2Z.inj_add, Z.pow_add_r by lia. change (256 ^ Z.of_nat 1)%Z with 256%Z.
  pose proof (Z_of_byte_range b). nia.
Qed.

Lemma to_from_be_bytes l : be_bytes (length l) (from_be_bytes l) = l.
Proof.
  induction l as [|b l IH] using rev_ind; [done|].
  rewrite length_app, Nat.add_comm, from_be_bytes_snoc. cbn [length Nat.add be_bytes].
  pose proof (Z_of_byte_range b). f_equal.
  - rewrite Z.div_add_l, Z.div_small, Z.add_0_r by lia. exact IH.
  - f_equal. apply Z_of_byte_inj. rewrite Z_of_byte_of_Z.
    rewrite Z.add_comm, Z.mod_add, Z.mod_small by lia. done.
Qed.

Lemma u128_be_bytes_roundtrip z : is_u128 z -> from_be_bytes (be_bytes 16 z) = z.
Proof.
  unfold is_u128, U128_MAX. intros. rewrite from_to_be_bytes. apply Z.mod_small.
  change (256 ^ Z.of_nat 16)%Z with (2^128)%Z. lia.
Qed.

(** ** The lexicographic order *)

Lemma bytes_cmp_refl a : bytes_cmp a a = Eq.
Proof. induction a as [|x a IH]; cbn; [done|]. by rewrite Z.compare_refl. Qed.

Lemma bytes_cmp_eq a b : bytes_cmp a b = Eq <-> a = b.
Proof.
  split; [|intros ->; apply bytes_cmp_refl].
  revert b. induction a as [|x a IH]; intros [|y b]; cbn; try done.
  destruct (Z.compare_spec (Z_of_byte x) (Z_of_byte y)); try done.
  intros Hc. f_equal; [by apply Z_of_byte_inj|by apply IH].
Qed.

Lemma bytes_cmp_antisym a b : bytes_cmp b a = CompOpp (bytes_cmp a b).
Proof.
  revert b. induction a as [|x a IH]; intros [|y b]; cbn; try done.
  rewrite (Z.compare_antisym (Z_of_byte x) (Z_of_byte y)).
  destruct (Z.compare (Z_of_byte x) (Z_of_byte y)); cbn; auto.
Qed.

Lemma bytes_lt_trans a b c : bytes_lt a b -> bytes_lt b c -> bytes_lt a c.
Proof.
  unfold bytes_lt. revert b c.
  induction a as [|x a IH]; intros [|y b] [|z c]; cbn; try done.
  destruct (Z.compare_spec (Z_of_byte x) (Z_of_byte y)); try done;
  destruct (Z.compare_spec (Z_of_byte y) (Z_of_byte z)); try done;
  intros; destruct (Z.compare_spec (Z_of_byte x) (Z_of_byte z)); try done; try lia.
  by eapply IH.
Qed.

Lemma bytes_lt_irrefl a : ~ bytes_lt a a.
Proof. unfold bytes_lt. by rewrite bytes_cmp_refl. Qed.

Lemma bytes_lt_total a b : bytes_lt a b \/ a = b \/ bytes_lt b a.
Proof.
  unfold bytes_lt. rewrite (bytes_cmp_antisym a b).
  destruct (bytes_cmp a b) eqn:E; auto. right. left. by apply bytes_cmp_eq.
Qed.

#[export] Instance bytes_lt_transitive : Transitive bytes_lt.
Proof. intros a b c. apply bytes_lt_trans. Qed.
#[export] Instance bytes_lt_irreflexive : Irreflexive bytes_lt.
Proof. intros a. apply bytes_lt_irrefl. Qed.
#[export] Instance bytes_lt_dec a b : Decision (bytes_lt a b).
Proof. unfold bytes_lt. apply _. Defined.

Lemma bytes_ltb_lt a b : bytes_ltb a b = true <-> bytes_lt a b.
Proof. unfold bytes_ltb, bytes_lt. by destruct (bytes_cmp a b). Qed.

Lemma bytes_ltb_ge a b : bytes_ltb a b = false <-> ~ bytes_lt a b.
Proof. rewrite <- bytes_ltb_lt. by destruct (bytes_ltb a b). Qed.

Lemma bytes_cmp_app p a b : bytes_cmp (p ++ a) (p ++ b) = bytes_cmp a b.
Proof. induction p as [|x p IH]; cbn; [done|]. by rewrite Z.compare_refl. Qed.

Lemma bytes_lt_app p a b : bytes_lt (p ++ a) (p ++ b) <-> bytes_lt a b.
Proof. unfold bytes_lt. by rewrite bytes_cmp_app. Qed.

Lemma bytes_le_app_r p a : ~ bytes_lt (p ++ a) p.
Proof.
  rewrite <- (app_nil_r p) at 2. rewrite bytes_lt_app. by destruct a.
Qed.
#[export] Hint Resolve bytes_lt_irrefl bytes_le_app_r : secret.

(** ** Checked arithmetic and slices *)

Lemma checked_Some max z z' : checked max z = Some z' <-> z' = z /\ (0 <= z <= max)%Z.
Proof.
  unfold checked. destruct (andb _ _) eqn:E.
  - apply andb_true_iff in E as [?%Z.leb_le ?%Z.leb_le]. split; [by intros [=->]|by intros [-> _]].
  - apply andb_false_iff in E as [?%Z.leb_gt|?%Z.leb_gt]; split; try done; intros [_ ?]; lia.
Qed.

Lemma checked_in_range max z : (0 <= z <= max)%Z -> checked max z = Some z.
Proof. intros. by apply checked_Some. Qed.

Lemma arith_Ok {E} max z z' : arith (E:=E) max z = Ok z' <-> z' = z /\ (0 <= z <= max)%Z.
Proof.
  unfold arith, expect. rewrite <- checked_Some.
  destruct (checked max z); split; intros; by simplify_eq.
Qed.

Lemma arith_in_range {E} max z : (0 <= z <= max)%Z -> arith (E:=E) max z = Ok z.
Proof. intros. by apply arith_Ok. Qed.

Lemma arith_not_Err {E} max z (e : E) : arith max z <> Err e.
Proof. unfold arith, expect. by destruct (checked max z). Qed.

Lemma slice_ok {E A} (l : list A) a b :
  a <= b <= length l -> slice (E:=E) l a b = Ok (take (b - a) (drop a l)).
Proof. intros. unfold slice. by rewrite bool_decide_true. Qed.

Lemma slice_panic {E A} (l : list A) a b :
  ~ (a <= b <= length l) -> slice (E:=E) l a b = Panic.
Proof. intros. unfold slice. by rewrite bool_decide_false. Qed.

Lemma slice_full_prefix {E A} (l1 l2 : list A) :
  slice (E:=E) (l1 ++ l2) 0 (length l1) = Ok l1.
Proof.
  rewrite slice_ok by (rewrite length_app; lia).
  by rewrite drop_0, Nat.sub_0_r, take_app_length.
Qed.
