(* ===== verification/Utf8.v ===== *)
(** * Text in Rust's standard library

    [str::from_utf8], [str::trim] and [{:?}] on the bytes of a string, as the enclave and
    the contracts use them. *)

From stdpp Require Import base tactics list numbers strings ssreflect.
From S2P Require Import Prelude.

Local Open Scope list_scope.

(** ** Text: [str::from_utf8], [str::trim] and [{:?}] of a string *)

Module Text.

Definition between (lo hi : Z) (b : byte) : bool := ((lo <=? Z_of_byte b) && (Z_of_byte b <=? hi))%Z.
Definition continuation (b : byte) : bool := between 128 191 b.

Definition utf8_pair (a b : byte) : bool := between 194 223 a && continuation b.
Definition utf8_triple (a b c : byte) : bool :=
  continuation c &&
  ((between 224 224 a && between 160 191 b) || (between 225 236 a && continuation b) ||
   (between 237 237 a && between 128 159 b) || (between 238 239 a && continuation b)).
Definition utf8_quad (a b c d : byte) : bool :=
  continuation c && continuation d &&
  ((between 240 240 a && between 144 191 b) || (between 241 243 a && continuation b) ||
   (between 244 244 a && between 128 143 b)).

Fixpoint from_utf8 (l : bytes) : bool :=
  match l with
  | [] => true
  | a :: l1 =>
      if between 0 127 a then from_utf8 l1
      else match l1 with
      | [] => false
      | b :: l2 =>
          if utf8_pair a b then from_utf8 l2
          else match l2 with
          | [] => false
          | c :: l3 =>
              if utf8_triple a b c then from_utf8 l3
              else match l3 with
              | [] => false
              | d :: l4 => if utf8_quad a b c d then from_utf8 l4 else false
              end
          end
      end
  end.

(** [Utf8Error]: the length of the valid prefix, and the length of the faulty sequence
    after it unless the input just ends too early. *)
Definition second3 (a b : byte) : bool :=
  (between 224 224 a && between 160 191 b) || (between 225 236 a && continuation b) ||
  (between 237 237 a && between 128 159 b) || (between 238 239 a && continuation b).
Definition second4 (a b : byte) : bool :=
  (between 240 240 a && between 144 191 b) || (between 241 243 a && continuation b) ||
  (between 244 244 a && between 128 143 b).

Fixpoint utf8_error (i : nat) (l : bytes) : option (nat * option nat) :=
  match l with
  | [] => None
  | a :: l1 =>
      if between 0 127 a then utf8_error (i + 1) l1
      else if between 194 223 a then
        match l1 with
        | [] => Some (i, None)
        | b :: l2 => if continuation b then utf8_error (i + 2) l2 else Some (i, Some 1%nat)
        end
      else if between 224 239 a then
        match l1 with
        | [] => Some (i, None)
        | b :: l2 =>
            if second3 a b then
              match l2 with
              | [] => Some (i, None)
              | c :: l3 => if continuation c then utf8_error (i + 3) l3 else Some (i, Some 2%nat)
              end
            else Some (i, Some 1%nat)
        end
      else if between 240 244 a then
        match l1 with
        | [] => Some (i, None)
        | b :: l2 =>
            if second4 a b then
              match l2 with
              | [] => Some (i, None)
              | c :: l3 =>
                  if continuation c then
                    match l3 with
                    | [] => Some (i, None)
                    | d :: l4 => if continuation d then utf8_error (i + 4) l4 else Some (i, Some 3%nat)
                    end
                  else Some (i, Some 2%nat)
              end
            else Some (i, Some 1%nat)
        end
      else Some (i, Some 1%nat)
  end.

(** [String::from_utf8_lossy]: every faulty sequence becomes U+FFFD. *)
Definition replacement : bytes := [Byte.xef; Byte.xbf; Byte.xbd].

Fixpoint from_utf8_lossy (l : bytes) : bytes :=
  match l with
  | [] => []
  | a :: l1 =>
      if between 0 127 a then a :: from_utf8_lossy l1
      else if between 194 223 a then
        match l1 with
        | b :: l2 => if continuation b then a :: b :: from_utf8_lossy l2
                     else replacement ++ from_utf8_lossy l1
        | [] => replacement
        end
      else if between 224 239 a then
        match l1 with
        | b :: l2 =>
            if second3 a b then
              match l2 with
              | c :: l3 => if continuation c then a :: b :: c :: from_utf8_lossy l3
                           else replacement ++ from_utf8_lossy l2
              | [] => replacement
              end
            else replacement ++ from_utf8_lossy l1
        | [] => replacement
        end
      else if between 240 244 a then
        match l1 with
        | b :: l2 =>
            if second4 a b then
              match l2 with
              | c :: l3 =>
                  if continuation c then
                    match l3 with
                    | d :: l4 => if continuation d then a :: b :: c :: d :: from_utf8_lossy l4
                                 else replacement ++ from_utf8_lossy l3
                    | [] => replacement
                    end
                  else replacement ++ from_utf8_lossy l2
              | [] => replacement
              end
            else replacement ++ from_utf8_lossy l1
        | [] => replacement
        end
      else replacement ++ from_utf8_lossy l1
  end.

(** The characters with the Unicode property White_Space, as UTF-8. *)
Definition space1 (a : byte) : bool := between 9 13 a || between 32 32 a.
Definition space2 (a b : byte) : bool := between 194 194 a && (between 133 133 b || between 160 160 b).
Definition space3 (a b c : byte) : bool :=
  (between 225 225 a && between 154 154 b && between 128 128 c) ||
  (between 226 226 a && between 128 128 b &&
     (between 128 138 c || between 168 169 c || between 175 175 c)) ||
  (between 226 226 a && between 129 129 b && between 159 159 c) ||
  (between 227 227 a && between 128 128 b && between 128 128 c).

Fixpoint trim_front (s1 : byte -> bool) (s2 : byte -> byte -> bool) (s3 : byte -> byte -> byte -> bool)
    (l : bytes) : bytes :=
  match l with
  | [] => []
  | a :: l1 =>
      if s1 a then trim_front s1 s2 s3 l1
      else match l1 with
      | [] => l
      | b :: l2 =>
          if s2 a b then trim_front s1 s2 s3 l2
          else match l2 with
          | [] => l
          | c :: l3 => if s3 a b c then trim_front s1 s2 s3 l3 else l
          end
      end
  end.

Definition trim (l : bytes) : bytes :=
  let front := trim_front space1 space2 space3 l in
  rev (trim_front space1 (fun b a => space2 a b) (fun c b a => space3 a b c) (rev front)).

(** [{:?}] of printable text: quotes and backslashes are escaped. *)
Definition debug (s : string) : bytes :=
  let escape b := if bool_decide (b = Byte.x22) || bool_decide (b = Byte.x5c) then [Byte.x5c; b] else [b] in
  Byte.x22 :: concat (map escape (lit s)) ++ [Byte.x22].

End Text.

(** ** The three readings of a byte string agree *)

Lemma between_true lo hi b : Text.between lo hi b = true <-> (lo <= Z_of_byte b <= hi)%Z.
Proof. unfold Text.between. by rw andb_true_iff !Z.leb_le. Qed.

Lemma between_false lo hi b : Text.between lo hi b = false <-> ~ (lo <= Z_of_byte b <= hi)%Z.
Proof. rw -between_true. by destruct (Text.between lo hi b). Qed.

Ltac split_ranges :=
  repeat match goal with
  | H : Text.between _ _ _ = true |- _ => apply between_true in H
  | H : Text.between _ _ _ = false |- _ => apply between_false in H
  | |- context [Text.between ?lo ?hi ?b] => destruct (Text.between lo hi b) eqn:?
  end.

(** What each lead byte lets through. *)
Lemma utf8_pair_lead a b : Text.between 194 223 a = true -> Text.utf8_pair a b = Text.continuation b.
Proof. intros H. unfold Text.utf8_pair. by rw H. Qed.

Lemma utf8_pair_other a b : Text.between 194 223 a = false -> Text.utf8_pair a b = false.
Proof. intros H. unfold Text.utf8_pair. by rw H. Qed.

Lemma utf8_triple_split a b c : Text.utf8_triple a b c = Text.second3 a b && Text.continuation c.
Proof. unfold Text.utf8_triple, Text.second3. apply andb_comm. Qed.

Lemma utf8_quad_split a b c d :
  Text.utf8_quad a b c d = Text.second4 a b && (Text.continuation c && Text.continuation d).
Proof. unfold Text.utf8_quad, Text.second4. apply andb_comm. Qed.

Lemma second3_other a b : Text.between 224 239 a = false -> Text.second3 a b = false.
Proof. intros H. unfold Text.second3. split_ranges; cbn; lia || done. Qed.

Lemma second4_other a b : Text.between 240 244 a = false -> Text.second4 a b = false.
Proof. intros H. unfold Text.second4. split_ranges; cbn; lia || done. Qed.

Lemma lead_exclusive a :
  (Text.between 194 223 a = true -> Text.between 224 239 a = false /\ Text.between 240 244 a = false) /\
  (Text.between 224 239 a = true -> Text.between 194 223 a = false /\ Text.between 240 244 a = false) /\
  (Text.between 240 244 a = true -> Text.between 194 223 a = false /\ Text.between 224 239 a = false).
Proof. split_and!; intros H; split; split_ranges; lia || done. Qed.

(** Induction that gives the hypothesis for every shorter list. *)
Lemma bytes_ind_len (P : bytes -> Prop) :
  (forall l, (forall l', (length l' < length l)%nat -> P l') -> P l) -> forall l, P l.
Proof.
  intros H l. remember (length l) as n eqn:E. revert l E.
  induction (lt_wf n) as [n _ IH]. intros l ->. apply H. intros l' Hl. by eapply IH.
Qed.

(** One step of all three readings. *)
Ltac utf8_step IH :=
  repeat match goal with
  | |- context [if Text.between 0 127 ?a then _ else _] => destruct (Text.between 0 127 a) eqn:?
  | |- context [if Text.between 194 223 ?a then _ else _] => destruct (Text.between 194 223 a) eqn:?
  | |- context [if Text.between 224 239 ?a then _ else _] => destruct (Text.between 224 239 a) eqn:?
  | |- context [if Text.between 240 244 ?a then _ else _] => destruct (Text.between 240 244 a) eqn:?
  | H : Text.between 194 223 ?a = true |- context [Text.utf8_pair ?a ?b] => rw (utf8_pair_lead a b H)
  | H : Text.between 194 223 ?a = false |- context [Text.utf8_pair ?a ?b] => rw (utf8_pair_other a b H)
  | H : Text.between 224 239 ?a = false |- context [Text.second3 ?a ?b] => rw (second3_other a b H)
  | H : Text.between 240 244 ?a = false |- context [Text.second4 ?a ?b] => rw (second4_other a b H)
  | |- context [Text.utf8_triple] => rw utf8_triple_split
  | |- context [Text.utf8_quad] => rw utf8_quad_split
  | |- context [Text.second3 ?a ?b] => destruct (Text.second3 a b) eqn:?
  | |- context [Text.second4 ?a ?b] => destruct (Text.second4 a b) eqn:?
  | |- context [Text.continuation ?b] => destruct (Text.continuation b) eqn:?
  | |- context [match ?l with [] => _ | _ :: _ => _ end] => is_var l; destruct l
  end; cbn [andb];
  try (apply IH; cbn; lia); try done.

Lemma lead_tail a :
  (Text.between 194 223 a = true -> Text.between 224 239 a = false) /\
  (Text.between 194 223 a = true -> Text.between 240 244 a = false) /\
  (Text.between 224 239 a = true -> Text.between 240 244 a = false) /\
  (Text.between 224 239 a = true -> Text.between 194 223 a = false).
Proof. pose proof (lead_exclusive a). naive_solver. Qed.

Lemma from_utf8_error l i : Text.from_utf8 l = true <-> Text.utf8_error i l = None.
Proof.
  revert i. induction l as [l IH] using bytes_ind_len. intros i.
  destruct l as [|a l1]; [done|]. cbn [Text.from_utf8 Text.utf8_error].
  destruct (lead_tail a) as (E1 & E2 & E3 & E4). 
  destruct (Text.between 0 127 a) eqn:?; [apply IH; cbn; lia|].
  destruct (Text.between 194 223 a) eqn:H2; [specialize (E1 eq_refl); specialize (E2 eq_refl)|];
  (destruct (Text.between 224 239 a) eqn:H3; [specialize (E3 eq_refl)|]); try done; utf8_step IH.
Qed.

Lemma from_utf8_lossy_valid l : Text.from_utf8 l = true -> Text.from_utf8_lossy l = l.
Proof.
  induction l as [l IH] using bytes_ind_len. destruct l as [|a l1]; [done|].
  cbn [Text.from_utf8 Text.from_utf8_lossy].
  destruct (lead_tail a) as (E1 & E2 & E3 & E4).
  destruct (Text.between 0 127 a) eqn:?; [intros H; f_equal; apply IH; [cbn; lia|done]|].
  destruct (Text.between 194 223 a) eqn:H2; [specialize (E1 eq_refl); specialize (E2 eq_refl)|];
  (destruct (Text.between 224 239 a) eqn:H3; [specialize (E3 eq_refl)|]); try done; utf8_step IH;
  intros H; repeat f_equal; apply IH; cbn; lia || done.
Qed.
