(* ===== verification/Math.v ===== *)
(** * Uint128 and Decimal: cosmwasm/packages/std/src/math.rs

    The two numeric types contracts compute with, their fallible and panicking
    arithmetic, and the decimal text form they are serialized in.  A [u128] is a
    [Z]; the arithmetic panics on overflow because every contract is built with
    [overflow-checks = true]. *)

From Stdlib Require Import Strings.Ascii Strings.String.
From stdpp Require Import base tactics list numbers strings ssreflect.
From S2P Require Import Prelude.

(** ** The error type: std/src/errors/std_error.rs *)

Inductive StdError : Type :=
| GenericErr (msg : string)
| InvalidBase64 (msg : string)
| InvalidUtf8 (msg : string)
| NotFound (kind : string)
| ParseErr (target msg : string)
| SerializeErr (source msg : string)
| Unauthorized
| Underflow (minuend subtrahend : string).

Abbreviation StdResult := (result StdError).

Definition generic_err (msg : string) : StdError := GenericErr msg.
Definition unauthorized : StdError := Unauthorized.

(** ** Decimal text of integers (core::fmt and core::num) *)

Inductive ParseIntError : Type := PIE_Empty | PIE_InvalidDigit | PIE_Overflow.

Definition display_parse_int_error (e : ParseIntError) : string :=
  match e with
  | PIE_Empty => "cannot parse integer from empty string"
  | PIE_InvalidDigit => "invalid digit found in string"
  | PIE_Overflow => "number too large to fit in target type"
  end.

Definition digit_char (d : Z) : ascii := ascii_of_N (Z.to_N (48 + d)).

Definition to_digit (c : ascii) : option Z :=
  let n := Z.of_N (N_of_ascii c) in
  if ((48 <=? n) && (n <=? 57))%Z then Some (n - 48)%Z else None.

(** One step of [u128::from_str]: multiply by ten, add the digit, both checked. *)
Definition parse_step (acc : result ParseIntError Z) (c : ascii) : result ParseIntError Z :=
  match acc with
  | Ok r =>
      match to_digit c with
      | None => Err PIE_InvalidDigit
      | Some d =>
          match checked U128_MAX (r * 10) with
          | None => Err PIE_Overflow
          | Some r10 => ok_or PIE_Overflow (checked U128_MAX (r10 + d))
          end
      end
  | e => e
  end.

Definition parse_digits (ds : list ascii) : result ParseIntError Z :=
  foldl parse_step (Ok 0%Z) ds.

(** [str::parse::<u128>]: an optional leading plus sign, then digits. *)
Definition parse_u128 (s : list ascii) : result ParseIntError Z :=
  match s with
  | [] => Err PIE_Empty
  | c :: rest =>
      let digits := if bool_decide (c = "+"%char) then rest else s in
      match digits with
      | [] => Err PIE_Empty
      | _ => parse_digits digits
      end
  end.

(** The [w] low decimal digits of [z], as [{:0w}] prints a number below [10^w]. *)
Fixpoint dec_pad (w : nat) (z : Z) : list ascii :=
  match w with
  | O => []
  | S w' => dec_pad w' (z / 10) ++ [digit_char (z mod 10)]
  end.

Fixpoint strip_zeros (l : list ascii) : list ascii :=
  match l with
  | c :: l' => if bool_decide (c = "0"%char) then strip_zeros l' else l
  | [] => []
  end.

(** [u128::to_string]; 39 digits hold every [u128]. *)
Definition u128_chars (z : Z) : list ascii :=
  match strip_zeros (dec_pad 39 z) with [] => ["0"%char] | l => l end.

Definition u128_to_string (z : Z) : string := string_of_list_ascii (u128_chars z).

(** [str::trim_end_matches('0')]. *)
Definition trim_end_zeros (l : list ascii) : list ascii := rev (strip_zeros (rev l)).

(** [str::split(c)]: the maximal pieces between separators, at least one. *)
Fixpoint split_on (c : ascii) (l : list ascii) : list (list ascii) :=
  match l with
  | [] => [[]]
  | x :: l' =>
      if bool_decide (x = c) then [] :: split_on c l'
      else match split_on c l' with
           | p :: ps => (x :: p) :: ps
           | [] => [[x]]
           end
  end.

(** ** Uint128 *)

Record Uint128 : Type := mkUint128 { u128 : Z }.

#[export] Instance Uint128_eq_dec : EqDecision Uint128.
Proof. solve_decision. Defined.

Module Uint.

Definition wf (u : Uint128) : Prop := is_u128 (u128 u).

Definition zero : Uint128 := mkUint128 0.
Definition is_zero (u : Uint128) : bool := (u128 u =? 0)%Z.

Definition try_from (val : string) : StdResult Uint128 :=
  match parse_u128 (list_ascii_of_string val) with
  | Ok u => Ok (mkUint128 u)
  | Err e => Err (generic_err (String.append "Parsing coin: " (display_parse_int_error e)))
  | Panic => Panic
  end.

Definition to_string (u : Uint128) : string := u128_to_string (u128 u).

Definition add {E} (a b : Uint128) : result E Uint128 :=
  mkUint128 <$> arith U128_MAX (u128 a + u128 b).

Definition sub (a b : Uint128) : StdResult Uint128 :=
  let min := u128 a in
  let sub := u128 b in
  if (sub >? min)%Z
  then Err (Underflow (u128_to_string min) (u128_to_string sub))
  else Ok (mkUint128 (min - sub)).

Definition multiply_ratio {E} (u : Uint128) (nominator denominator : Z) : result E Uint128 :=
  if (denominator =? 0)%Z then Panic
  else product ← arith U128_MAX (u128 u * nominator);
       Ok (mkUint128 (product / denominator)).

Definition min (a b : Uint128) : Uint128 := if (u128 a <=? u128 b)%Z then a else b.
Definition ltb (a b : Uint128) : bool := (u128 a <? u128 b)%Z.

End Uint.

(** ** Decimal *)

Definition DECIMAL_FRACTIONAL : Z := 1000000000000000000.

Record Decimal : Type := mkDecimal { atomics : Z }.

#[export] Instance Decimal_eq_dec : EqDecision Decimal.
Proof. solve_decision. Defined.

Module Dec.

Definition wf (d : Decimal) : Prop := is_u128 (atomics d).

Definition MAX : Decimal := mkDecimal U128_MAX.
Definition one : Decimal := mkDecimal DECIMAL_FRACTIONAL.
Definition zero : Decimal := mkDecimal 0.
Definition is_zero (d : Decimal) : bool := (atomics d =? 0)%Z.

Definition percent {E} (x : Z) : result E Decimal :=
  mkDecimal <$> arith U128_MAX (x * 10000000000000000).

Definition permille {E} (x : Z) : result E Decimal :=
  mkDecimal <$> arith U128_MAX (x * 1000000000000000).

Definition from_ratio {E} (nominator denominator : Z) : result E Decimal :=
  if (denominator =? 0)%Z then Panic
  else scaled ← arith U128_MAX (nominator * DECIMAL_FRACTIONAL);
       Ok (mkDecimal (scaled / denominator)).

Definition add {E} (a b : Decimal) : result E Decimal :=
  mkDecimal <$> arith U128_MAX (atomics a + atomics b).

(** [FromStr]: at most one dot, at most 18 fractional digits, no rounding. *)
Definition from_str (input : string) : StdResult Decimal :=
  match split_on "." (list_ascii_of_string input) with
  | [p0] =>
      whole ← map_err (fun _ => generic_err "Error parsing whole") (parse_u128 p0);
      whole_as_atomics ← ok_or (generic_err "Value too big")
                               (checked U128_MAX (whole * DECIMAL_FRACTIONAL));
      Ok (mkDecimal whole_as_atomics)
  | [p0; p1] =>
      whole ← map_err (fun _ => generic_err "Error parsing whole") (parse_u128 p0);
      fractional ← map_err (fun _ => generic_err "Error parsing fractional") (parse_u128 p1);
      exp ← (if (length p1 <=? 18)%nat then Ok (18 - length p1)%nat
             else Err (generic_err "Cannot parse more than 18 fractional digits"));
      fractional_factor ← ok_or (generic_err "Cannot compute fractional factor")
                                (checked U128_MAX (10 ^ Z.of_nat exp));
      whole_as_atomics ← ok_or (generic_err "Value too big")
                               (checked U128_MAX (whole * DECIMAL_FRACTIONAL));
      frac_atomics ← arith U128_MAX (fractional * fractional_factor);
      atomics ← ok_or (generic_err "Value too big")
                      (checked U128_MAX (whole_as_atomics + frac_atomics));
      Ok (mkDecimal atomics)
  | _ => Err (generic_err "Unexpected number of dots")
  end.

(** [Display]. *)
Definition fmt_chars (d : Decimal) : list ascii :=
  let whole := (atomics d / DECIMAL_FRACTIONAL)%Z in
  let fractional := (atomics d mod DECIMAL_FRACTIONAL)%Z in
  if (fractional =? 0)%Z then u128_chars whole
  else u128_chars whole ++ "."%char :: trim_end_zeros (dec_pad 18 fractional).

Definition to_string (d : Decimal) : string := string_of_list_ascii (fmt_chars d).

End Dec.

(** [impl Mul<Decimal> for Uint128] and its mirror image. *)
Definition mul_dec {E} (u : Uint128) (rhs : Decimal) : result E Uint128 :=
  if Uint.is_zero u || Dec.is_zero rhs then Ok Uint.zero
  else Uint.multiply_ratio u (atomics rhs) DECIMAL_FRACTIONAL.

Definition dec_mul {E} (d : Decimal) (rhs : Uint128) : result E Uint128 := mul_dec rhs d.

(** ** Lemmas: reading back printed digits *)

Section Digits.

Local Open Scope Z_scope.

Definition is_digit (c : ascii) : Prop := is_Some (to_digit c).
Definition dval (l : list ascii) : Z :=
  foldl (fun acc c => acc * 10 + default 0 (to_digit c)) 0 l.

Lemma to_digit_char d : 0 <= d < 10 -> to_digit (digit_char d) = Some d.
Proof.
  intros H. assert (d ∈ seqZ 0 10) as Hd by (apply elem_of_seqZ; lia).
  revert d Hd H. by vm_compute; intros d Hd _;
    repeat (apply elem_of_cons in Hd as [->|Hd]; [reflexivity|]); apply elem_of_nil in Hd.
Qed.

Lemma is_digit_char d : 0 <= d < 10 -> is_digit (digit_char d).
Proof. intros. rw /is_digit to_digit_char //. Qed.

Lemma to_digit_range c d : to_digit c = Some d -> 0 <= d < 10.
Proof.
  unfold to_digit. destruct (andb _ _) eqn:E; [|done]. intros [= <-].
  apply andb_true_iff in E as [?%Z.leb_le ?%Z.leb_le]. lia.
Qed.

Lemma dval_snoc l c : dval (l ++ [c]) = dval l * 10 + default 0 (to_digit c).
Proof. unfold dval. by rw foldl_app. Qed.

Lemma digit_default_range c : 0 <= default 0 (to_digit c) < 10.
Proof. destruct (to_digit c) eqn:E; cbn; [by eapply to_digit_range|lia]. Qed.

Lemma dval_range l : 0 <= dval l < 10 ^ Z.of_nat (length l).
Proof.
  induction l as [|c l IH] using rev_ind; [cbn; lia|].
  rw dval_snoc length_app. cbn [length]. rw Nat2Z.inj_add Z.pow_add_r; [|lia..].
  change (10 ^ Z.of_nat 1) with 10. pose proof (digit_default_range c). lia.
Qed.

Lemma dval_app l1 l2 : dval (l1 ++ l2) = dval l1 * 10 ^ Z.of_nat (length l2) + dval l2.
Proof.
  induction l2 as [|c l2 IH] using rev_ind.
  - rw app_nil_r. cbn. lia.
  - rw app_assoc !dval_snoc IH length_app. cbn [length].
    rw Nat2Z.inj_add Z.pow_add_r; [|lia..]. change (10 ^ Z.of_nat 1) with 10. lia.
Qed.

Lemma dval_cons c l :
  dval (c :: l) = default 0 (to_digit c) * 10 ^ Z.of_nat (length l) + dval l.
Proof. change (c :: l) with ([c] ++ l). rw dval_app. cbn. lia. Qed.

Lemma parse_digits_ok l :
  Forall is_digit l -> dval l <= U128_MAX -> parse_digits l = Ok (dval l).
Proof.
  induction l as [|c l IH] using rev_ind; [done|].
  intros [Hl [[d Hd] _]%Forall_cons]%Forall_app. rw dval_snoc Hd. cbn [from_option id].
  intros Hb. pose proof (to_digit_range _ _ Hd). pose proof (dval_range l).
  unfold parse_digits in *. rw foldl_app IH; [|done|lia]. cbn. rw Hd.
  rw !checked_in_range; [done|lia|lia].
Qed.

Lemma digit_not_plus c : is_digit c -> c <> "+"%char.
Proof. intros [? H] ->. discriminate H. Qed.

Lemma digit_not_dot c : is_digit c -> c <> "."%char.
Proof. intros [? H] ->. discriminate H. Qed.

Lemma parse_u128_ok l :
  l <> [] -> Forall is_digit l -> dval l <= U128_MAX -> parse_u128 l = Ok (dval l).
Proof.
  intros Hne Hd Hb. destruct l as [|c l]; [done|]. unfold parse_u128.
  rw bool_decide_false; [by apply parse_digits_ok|].
  apply digit_not_plus. by apply Forall_cons in Hd as [? _].
Qed.

Lemma dec_pad_length w z : length (dec_pad w z) = w.
Proof. revert z. induction w; intros z; cbn; [done|]. rw length_app IHw /=. lia. Qed.

Lemma dec_pad_digits w z : Forall is_digit (dec_pad w z).
Proof.
  revert z. induction w; intros z; cbn; [constructor|].
  apply Forall_app; split; [done|]. constructor; [|constructor].
  apply is_digit_char, Z.mod_pos_bound. lia.
Qed.

Lemma dec_pad_dval w z : dval (dec_pad w z) = z mod 10 ^ Z.of_nat w.
Proof.
  revert z. induction w as [|w IH]; intros z; cbn [dec_pad].
  - change (10 ^ Z.of_nat 0) with 1. by rw Z.mod_1_r.
  - rw dval_snoc IH to_digit_char; [|apply Z.mod_pos_bound; lia]. cbn [from_option id].
    rw Nat2Z.inj_succ Z.pow_succ_r; [|lia]. rw (Z.rem_mul_r z 10); lia.
Qed.

Lemma strip_zeros_dval l : dval (strip_zeros l) = dval l.
Proof.
  induction l as [|c l IH]; cbn [strip_zeros]; [done|].
  case_bool_decide as Hc; [|done]. rw dval_cons Hc IH.
  change (to_digit "0") with (Some 0). cbn [from_option id]. lia.
Qed.

Lemma strip_zeros_digits l : Forall is_digit l -> Forall is_digit (strip_zeros l).
Proof.
  induction l as [|c l IH]; cbn [strip_zeros]; [done|].
  intros [? ?]%Forall_cons. case_bool_decide; [auto|by constructor].
Qed.

Lemma strip_zeros_split l : exists k, l = replicate k "0"%char ++ strip_zeros l.
Proof.
  induction l as [|c l [k IH]]; cbn [strip_zeros]; [by exists 0%nat|].
  case_bool_decide as Hc; [|by exists 0%nat]. exists (S k). cbn. by rw -IH Hc.
Qed.

Lemma u128_chars_spec z :
  is_u128 z ->
  u128_chars z <> [] /\ Forall is_digit (u128_chars z) /\ dval (u128_chars z) = z.
Proof.
  intros Hz. unfold u128_chars.
  assert (dval (strip_zeros (dec_pad 39 z)) = z) as Hv.
  { rw strip_zeros_dval dec_pad_dval. apply Z.mod_small.
    unfold is_u128, U128_MAX in Hz. split; [lia|].
    eapply Z.le_lt_trans; [apply Hz|]. by vm_compute. }
  pose proof (strip_zeros_digits _ (dec_pad_digits 39 z)) as Hd.
  destruct (strip_zeros _) as [|c l]; [|done]. cbn in Hv. subst z.
  split; [done|]. split; [|done]. repeat constructor. by exists 0.
Qed.

Lemma parse_u128_chars z : is_u128 z -> parse_u128 (u128_chars z) = Ok z.
Proof.
  intros Hz. destruct (u128_chars_spec z Hz) as (Hne & Hd & Hv).
  rw parse_u128_ok ?Hv //. apply Hz.
Qed.

Lemma rev_zeros k : rev (replicate k "0"%char) = replicate k "0"%char.
Proof. induction k as [|k IH]; [done|]. cbn. by rw IH -replicate_cons_app. Qed.

Lemma trim_end_zeros_split l :
  exists k, l = trim_end_zeros l ++ replicate k "0"%char.
Proof.
  unfold trim_end_zeros. destruct (strip_zeros_split (rev l)) as [k Hk].
  exists k. apply (f_equal (@rev ascii)) in Hk. rw rev_involutive in Hk.
  by rw {1}Hk rev_app_distr rev_zeros.
Qed.

Lemma dval_zeros k : dval (replicate k "0"%char) = 0.
Proof. induction k; cbn [replicate]; [done|]. rw dval_cons IHk. change (to_digit "0") with (Some 0). cbn [from_option id]. lia. Qed.

(** Trimming trailing zeros keeps the value once rescaled. *)
Lemma trim_end_zeros_spec l :
  Forall is_digit l ->
  Forall is_digit (trim_end_zeros l) /\
  (length (trim_end_zeros l) <= length l)%nat /\
  dval l = dval (trim_end_zeros l) * 10 ^ Z.of_nat (length l - length (trim_end_zeros l)).
Proof.
  intros Hd. destruct (trim_end_zeros_split l) as [k Hk].
  rw Hk in Hd. apply Forall_app in Hd as [Hd _]. split; [done|].
  assert (length l = length (trim_end_zeros l) + k)%nat as Hlen.
  { rw {1}Hk length_app length_replicate //. }
  split; [lia|]. rw {1}Hk dval_app dval_zeros length_replicate Hlen.
  replace (length (trim_end_zeros l) + k - length (trim_end_zeros l))%nat with k by lia. lia.
Qed.

Lemma split_on_none c l : Forall (fun x => x <> c) l -> split_on c l = [l].
Proof.
  induction l as [|x l IH]; [done|]. intros [Hx Hl]%Forall_cons. cbn [split_on].
  rw bool_decide_false // IH //.
Qed.

Lemma split_on_sep c l1 l2 :
  Forall (fun x => x <> c) l1 -> split_on c (l1 ++ c :: l2) = l1 :: split_on c l2.
Proof.
  induction l1 as [|x l IH]; cbn [app split_on]; intros H.
  - by rw bool_decide_true.
  - apply Forall_cons in H as [Hx Hl]. rw bool_decide_false // IH //.
Qed.

Lemma digits_no_dot l : Forall is_digit l -> Forall (fun x => x <> "."%char) l.
Proof. intros H. eapply Forall_impl; [exact H|]. apply digit_not_dot. Qed.

End Digits.

(** ** Properties *)

Lemma is_u128_div z d : (0 < d)%Z -> is_u128 z -> is_u128 (z / d).
Proof.
  unfold is_u128. intros Hd [H1 H2]. split; [by apply Z.div_pos|].
  etrans; [apply Z.div_le_upper_bound with (q := z)|]; nia.
Qed.

Lemma dec_from_str_whole l w :
  l <> [] -> Forall is_digit l -> dval l = w -> is_u128 (w * DECIMAL_FRACTIONAL) ->
  (0 <= w)%Z ->
  Dec.from_str (string_of_list_ascii l) = Ok (mkDecimal (w * DECIMAL_FRACTIONAL)).
Proof.
  intros Hne Hd Hv [H1 H2] Hw. unfold Dec.from_str.
  rw list_ascii_of_string_of_list_ascii split_on_none; [|by apply digits_no_dot].
  assert (w <= U128_MAX)%Z by (unfold DECIMAL_FRACTIONAL in *; lia).
  rw parse_u128_ok; [|done..|lia]. cbn. rw Hv.
  by rw checked_in_range.
Qed.

Lemma dec_from_str_parts l1 l2 w v f :
  parse_u128 l1 = Ok w -> parse_u128 l2 = Ok v ->
  Forall (fun x => x <> "."%char) l1 -> Forall (fun x => x <> "."%char) l2 ->
  (0 <= w)%Z -> (0 <= v)%Z -> (v * 10 ^ Z.of_nat (18 - length l2) = f)%Z ->
  (length l2 <= 18)%nat -> is_u128 (w * DECIMAL_FRACTIONAL + f) ->
  Dec.from_str (string_of_list_ascii (l1 ++ "."%char :: l2))
  = Ok (mkDecimal (w * DECIMAL_FRACTIONAL + f)).
Proof.
  intros Hp1 Hp2 Hd1 Hd2 Hw Hv Hf Hlen [H1 H2]. unfold Dec.from_str.
  rw list_ascii_of_string_of_list_ascii split_on_sep // split_on_none //.
  set (m := (18 - length l2)%nat) in *.
  assert (0 < 10 ^ Z.of_nat m <= DECIMAL_FRACTIONAL)%Z as Hm.
  { split; [apply Z.pow_pos_nonneg; lia|]. change DECIMAL_FRACTIONAL with (10 ^ 18)%Z.
    apply Z.pow_le_mono_r; lia. }
  assert (w * DECIMAL_FRACTIONAL <= U128_MAX /\ f <= U128_MAX /\ 0 <= f)%Z as (?&?&?).
  { unfold DECIMAL_FRACTIONAL in *. nia. }
  rw Hp1 Hp2. cbn. rw (proj2 (Nat.leb_le _ _) Hlen). cbn. fold m.
  rw checked_in_range; [|unfold DECIMAL_FRACTIONAL, U128_MAX in *; lia]. cbn.
  rw checked_in_range; [|unfold DECIMAL_FRACTIONAL, U128_MAX in *; lia]. cbn.
  rw arith_in_range; [|lia]. cbn. rw Hf. by rw checked_in_range.
Qed.

Lemma dec_from_str_frac l1 l2 w f :
  l1 <> [] -> l2 <> [] -> Forall is_digit l1 -> Forall is_digit l2 ->
  dval l1 = w -> (dval l2 * 10 ^ Z.of_nat (18 - length l2) = f)%Z ->
  (length l2 <= 18)%nat -> is_u128 (w * DECIMAL_FRACTIONAL + f) ->
  Dec.from_str (string_of_list_ascii (l1 ++ "."%char :: l2))
  = Ok (mkDecimal (w * DECIMAL_FRACTIONAL + f)).
Proof.
  intros Hne1 Hne2 Hd1 Hd2 <- Hf Hlen Hr.
  pose proof (dval_range l1) as [? _]. pose proof (dval_range l2) as [? _].
  assert (0 < 10 ^ Z.of_nat (18 - length l2))%Z by (apply Z.pow_pos_nonneg; lia).
  assert (dval l1 <= U128_MAX /\ dval l2 <= U128_MAX)%Z as [??].
  { destruct Hr. unfold DECIMAL_FRACTIONAL in *. nia. }
  apply (dec_from_str_parts _ _ _ (dval l2)); try done;
    try (by apply parse_u128_ok); by apply digits_no_dot.
Qed.

(** Parsing the text that Display prints for a Decimal gives back the same Decimal, for every
    128-bit value. *)
Theorem decimal_print_parse (d : Decimal) :
  Dec.wf d -> Dec.from_str (Dec.to_string d) = Ok d.
Proof.
  intros Hd. unfold Dec.to_string, Dec.fmt_chars.
  set (w := (atomics d / DECIMAL_FRACTIONAL)%Z). set (f := (atomics d mod DECIMAL_FRACTIONAL)%Z).
  assert (atomics d = w * DECIMAL_FRACTIONAL + f)%Z as Hsplit.
  { rw Z.mul_comm. apply Z.div_mod. done. }
  assert (0 <= f < DECIMAL_FRACTIONAL)%Z as Hf by (apply Z.mod_pos_bound; done).
  assert (is_u128 w) as Hw by (apply is_u128_div; done).
  destruct (u128_chars_spec w Hw) as (Hne & Hdig & Hval).
  destruct d as [a]. cbn [atomics] in *. unfold Dec.wf in Hd. cbn in Hd.
  destruct (Z.eqb_spec f 0) as [Hf0|Hf0].
  - rw (dec_from_str_whole _ w); [|try done..|apply Hw]; [|by rw Hsplit Hf0 Z.add_0_r in Hd].
    f_equal. f_equal. lia.
  - pose proof (trim_end_zeros_spec _ (dec_pad_digits 18 f)) as (Hd2 & Hl2 & Hv2).
    rw dec_pad_length in Hl2, Hv2.
    rw dec_pad_dval Z.mod_small in Hv2; [|done].
    rw (dec_from_str_frac _ _ w f); try done.
    + by rw -Hsplit.
    + intros He. rw He in Hv2. cbn in Hv2. lia.
    + by rw -Hsplit.
Qed.

Lemma decimal_print_parse_witness :
  Dec.wf (mkDecimal 1050000000000000000) /\
  Dec.from_str (Dec.to_string (mkDecimal 1050000000000000000)) = Ok (mkDecimal 1050000000000000000).
Proof.
  split; [by vm_compute|]. apply (decimal_print_parse (mkDecimal 1050000000000000000)). by vm_compute.
Defined.

(** Parsing the text that Display prints for a Uint128 gives back the same number, for every
    128-bit value. *)
Theorem uint128_print_parse (u : Uint128) :
  Uint.wf u -> Uint.try_from (Uint.to_string u) = Ok u.
Proof.
  intros Hu. unfold Uint.try_from, Uint.to_string, u128_to_string.
  rw list_ascii_of_string_of_list_ascii parse_u128_chars //. by destruct u.
Qed.

(** Decimal::from_str accepts a plus sign after the dot: 1.+5 is read as 1.05, because the
    fraction is parsed as an integer and the sign counts as one digit of its length. *)
Theorem decimal_accepts_plus_in_fraction (l1 l2 : list ascii) :
  l1 <> [] -> l2 <> [] -> Forall is_digit l1 -> Forall is_digit l2 ->
  (length l2 <= 17)%nat ->
  is_u128 (dval l1 * DECIMAL_FRACTIONAL + dval l2 * 10 ^ Z.of_nat (17 - length l2)) ->
  Dec.from_str (string_of_list_ascii (l1 ++ "."%char :: "+"%char :: l2))
  = Ok (mkDecimal (dval l1 * DECIMAL_FRACTIONAL + dval l2 * 10 ^ Z.of_nat (17 - length l2))).
Proof.
  intros Hne1 Hne2 Hd1 Hd2 Hlen Hr.
  pose proof (dval_range l1) as [? _]. pose proof (dval_range l2) as [? _].
  assert (0 < 10 ^ Z.of_nat (17 - length l2))%Z by (apply Z.pow_pos_nonneg; lia).
  assert (dval l1 <= U128_MAX /\ dval l2 <= U128_MAX)%Z as [??].
  { destruct Hr. unfold DECIMAL_FRACTIONAL in *. nia. }
  apply (dec_from_str_parts _ ("+"%char :: l2) _ (dval l2)); try done; cbn [length]; try lia.
  - by apply parse_u128_ok.
  - unfold parse_u128. rw bool_decide_true //. destruct l2; [done|]. by apply parse_digits_ok.
  - by apply digits_no_dot.
  - constructor; [done|]. by apply digits_no_dot.
Qed.

(** Multiplying a Uint128 by a Decimal, when the product of the raw numbers fits 128 bits,
    returns the product rounded down, and never more than the operand when the Decimal is at
    most one. *)
Theorem mul_dec_floor (u : Uint128) (d : Decimal) :
  Uint.wf u -> Dec.wf d -> (u128 u * atomics d <= U128_MAX)%Z ->
  exists r, mul_dec (E:=StdError) u d = Ok r /\
    (u128 r * DECIMAL_FRACTIONAL <= u128 u * atomics d < (u128 r + 1) * DECIMAL_FRACTIONAL)%Z /\
    ((atomics d <= DECIMAL_FRACTIONAL)%Z -> (u128 r <= u128 u)%Z).
Proof.
  intros [Hu _] [Hd _] Hb. unfold mul_dec.
  destruct (Uint.is_zero u || Dec.is_zero d) eqn:Hz.
  - exists Uint.zero. split; [done|]. cbn [u128 Uint.zero].
    apply orb_true_iff in Hz as [?%Z.eqb_eq|?%Z.eqb_eq]; unfold DECIMAL_FRACTIONAL; nia.
  - exists (mkUint128 (u128 u * atomics d / DECIMAL_FRACTIONAL)).
    unfold Uint.multiply_ratio. rw arith_in_range; [|lia]. split; [done|]. cbn [u128].
    pose proof (Z.div_mod (u128 u * atomics d) DECIMAL_FRACTIONAL ltac:(done)).
    pose proof (Z.mod_pos_bound (u128 u * atomics d) DECIMAL_FRACTIONAL ltac:(done)).
    split; [unfold DECIMAL_FRACTIONAL in *; lia|]. intros.
    apply Z.div_le_upper_bound; [done|]. nia.
Qed.

Lemma uint128_print_parse_witness :
  Uint.try_from (Uint.to_string (mkUint128 340282366920938463463374607431768211455)) =
  Ok (mkUint128 340282366920938463463374607431768211455).
Proof. apply (uint128_print_parse (mkUint128 340282366920938463463374607431768211455)). done. Defined.

Lemma decimal_accepts_plus_in_fraction_witness :
  Dec.from_str "1.+5" = Ok (mkDecimal 1050000000000000000).
Proof.
  apply (decimal_accepts_plus_in_fraction ["1"%char] ["5"%char]); try done.
  - apply Forall_singleton. by exists 1%Z.
  - apply Forall_singleton. by exists 5%Z.
  - cbn. lia.
Defined.

Lemma mul_dec_floor_witness :
  exists r, mul_dec (E:=StdError) (mkUint128 7) (mkDecimal 1500000000000000000) = Ok r.
Proof.
  destruct (mul_dec_floor (mkUint128 7) (mkDecimal 1500000000000000000)) as (r & E & _);
    [done..|]. by exists r.
Defined.
