(* ===== verification/Storage.v ===== *)
(** * The storage interface and the in-memory store

    The traits [ReadonlyStorage] and [Storage] of cosmwasm/packages/std/src/traits.rs
    as a class of operations, what every implementation promises as two classes of
    laws, and [MemoryStorage] of std/src/storage.rs, a [BTreeMap] kept as a strictly
    sorted association list. *)

From stdpp Require Import base tactics list numbers strings ssreflect sorting.
From S2P Require Import Prelude Math.

(** ** std/src/iterator.rs *)

Inductive Order : Type := Ascending | Descending.
Abbreviation KV := (list Byte.byte * list Byte.byte)%type.

Definition order_try_from (value : Z) : StdResult Order :=
  if (value =? 1)%Z then Ok Ascending
  else if (value =? 2)%Z then Ok Descending
  else Err (generic_err "Order must be 1 or 2").

Definition order_into (o : Order) : Z :=
  match o with Ascending => 1 | Descending => 2 end.

(** ** The traits

    [range] is the sequence the returned iterator yields when it is drained; it is
    [Panic] when producing one of the items panics. *)

Class Storage (S : Type) : Type := {
  get : S -> bytes -> option bytes;
  range : S -> option bytes -> option bytes -> Order -> StdResult (list KV);
  set : S -> bytes -> bytes -> S;
  remove : S -> bytes -> S
}.

(** A key lies in [[start, end)]; a missing bound does not constrain it. *)
Definition ge_start (start : option bytes) (k : bytes) : bool :=
  match start with None => true | Some s => negb (bytes_ltb k s) end.
Definition lt_end (end_ : option bytes) (k : bytes) : bool :=
  match end_ with None => true | Some e => bytes_ltb k e end.
Definition in_bounds (start end_ : option bytes) (k : bytes) : bool :=
  ge_start start k && lt_end end_ k.

(** What [get], [set] and [remove] promise. *)
Class StorageLaws (S : Type) `{Storage S} : Prop := {
  get_set s k v k' : get (set s k v) k' = if decide (k = k') then Some v else get s k';
  get_remove s k k' : get (remove s k) k' = if decide (k = k') then None else get s k'
}.

(** What [range] promises of a well-formed store: exactly the bindings within the
    bounds, each once, in the requested key order. *)
Class RangeLaws (S : Type) `{Storage S} : Type := {
  store_ok : S -> Prop;
  set_ok s k v : store_ok s -> store_ok (set s k v);
  remove_ok s k : store_ok s -> store_ok (remove s k);
  range_ascending s a b :
    store_ok s ->
    exists l, range s a b Ascending = Ok l /\
      StronglySorted bytes_lt (l.*1) /\
      forall k v, (k, v) ∈ l <-> get s k = Some v /\ in_bounds a b k = true;
  range_descending s a b l :
    store_ok s -> range s a b Ascending = Ok l -> range s a b Descending = Ok (reverse l)
}.

(** Two stores that answer every [get] alike. *)
Definition same_contents {S T} `{Storage S, Storage T} (s : S) (t : T) : Prop :=
  forall k, get s k = get t k.

(** ** BTreeMap<Vec<u8>, V>: a strictly sorted association list *)

Section BTree.
Context {V : Type}.

Fixpoint btree_get (m : list (bytes * V)) (k : bytes) : option V :=
  match m with
  | [] => None
  | (k', v) :: m' => if bool_decide (k = k') then Some v else btree_get m' k
  end.

Fixpoint btree_insert (m : list (bytes * V)) (k : bytes) (v : V) : list (bytes * V) :=
  match m with
  | [] => [(k, v)]
  | (k', v') :: m' =>
      match bytes_cmp k k' with
      | Lt => (k, v) :: m
      | Eq => (k, v) :: m'
      | Gt => (k', v') :: btree_insert m' k v
      end
  end.

Definition btree_remove (m : list (bytes * V)) (k : bytes) : list (bytes * V) :=
  List.filter (fun kv => negb (bytes_eqb kv.1 k)) m.

(** [BTreeMap::range] with an included start and an excluded end; the callers
    never pass a start above the end, on which it would panic. *)
Definition btree_range (m : list (bytes * V)) (a b : option bytes) : list (bytes * V) :=
  List.filter (fun kv => in_bounds a b kv.1) m.

Definition btree_ok (m : list (bytes * V)) : Prop := StronglySorted bytes_lt (m.*1).

End BTree.

(** Both stores treat a range whose start is above its end as empty. *)
Definition start_above_end (a b : option bytes) : bool :=
  match a, b with Some s, Some e => bytes_ltb e s | _, _ => false end.

(** ** MemoryStorage *)

Record MemoryStorage : Type := mkMemory { data : list (bytes * bytes) }.

Module Memory.

Definition new : MemoryStorage := mkMemory [].

Definition get (s : MemoryStorage) (k : bytes) : option bytes := btree_get (data s) k.

Definition range (s : MemoryStorage) (a b : option bytes) (o : Order) : StdResult (list KV) :=
  if start_above_end a b then Ok []
  else let iter := btree_range (data s) a b in
       match o with
       | Ascending => Ok iter
       | Descending => Ok (reverse iter)
       end.

Definition set (s : MemoryStorage) (k v : bytes) : MemoryStorage :=
  mkMemory (btree_insert (data s) k v).

Definition remove (s : MemoryStorage) (k : bytes) : MemoryStorage :=
  mkMemory (btree_remove (data s) k).

End Memory.

#[export] Instance memory_storage : Storage MemoryStorage := {|
  get := Memory.get;
  range := Memory.range;
  set := Memory.set;
  remove := Memory.remove
|}.

(** ** Lemmas on sorted association lists *)

Section SortedLists.
Context {V : Type}.
Implicit Types m l : list (bytes * V).

Lemma sorted_cons_inv k v m :
  btree_ok ((k, v) :: m) -> btree_ok m /\ forall k' v', (k', v') ∈ m -> bytes_lt k k'.
Proof.
  unfold btree_ok. cbn. intros [Hs Hf]%StronglySorted_inv. split; [done|].
  intros k' v' Hin. rw Forall_forall in Hf. apply Hf.
  change k' with ((k', v').1). by apply list_elem_of_fmap_2.
Qed.

Lemma sorted_cons_intro k v m :
  btree_ok m -> (forall k' v', (k', v') ∈ m -> bytes_lt k k') -> btree_ok ((k, v) :: m).
Proof.
  unfold btree_ok. cbn. intros Hs Hf. constructor; [done|].
  apply Forall_forall. intros k' ([k'' v''] & -> & Hin)%list_elem_of_fmap. eauto.
Qed.

Lemma sorted_filter (P : bytes * V -> bool) m : btree_ok m -> btree_ok (List.filter P m).
Proof.
  induction m as [|[k v] m IH]; [done|]. intros [Hs Hf]%sorted_cons_inv. cbn.
  destruct (P (k, v)); [|by apply IH]. apply sorted_cons_intro; [by apply IH|].
  intros k' v' Hin. eapply Hf. apply list_elem_of_In in Hin. apply filter_In in Hin as [Hin _].
  by apply list_elem_of_In.
Qed.

Lemma sorted_app m1 m2 :
  btree_ok (m1 ++ m2) <->
  btree_ok m1 /\ btree_ok m2 /\
  forall k1 v1 k2 v2, (k1, v1) ∈ m1 -> (k2, v2) ∈ m2 -> bytes_lt k1 k2.
Proof.
  induction m1 as [|[k v] m IH]; cbn [app].
  - split; [|by intros (_&?&_)]. intros. split; [constructor|]. split; [done|].
    intros * Hin. by apply elem_of_nil in Hin.
  - split.
    + intros [Hs Hf]%sorted_cons_inv. apply IH in Hs as (H1 & H2 & H3).
      split; [apply sorted_cons_intro; [done|]; intros; eapply Hf, elem_of_app; eauto|].
      split; [done|]. intros * [?|Hin]%elem_of_cons Hin2; simplify_eq; [|by eauto].
      eapply Hf, elem_of_app; eauto.
    + intros ([Hs Hf]%sorted_cons_inv & H2 & H3). apply sorted_cons_intro.
      * apply IH. split_and!; [done..|]. intros. eapply H3; [by right|done].
      * intros k' v' [?|?]%elem_of_app; [eauto|]. eapply H3; [left|done].
Qed.

(** A strictly sorted list is determined by its elements. *)
Lemma sorted_ext m1 m2 :
  btree_ok m1 -> btree_ok m2 -> (forall x, x ∈ m1 <-> x ∈ m2) -> m1 = m2.
Proof.
  revert m2. induction m1 as [|[k1 v1] m1 IH]; intros [|[k2 v2] m2] H1 H2 Hext; [done|..].
  - exfalso. assert ((k2, v2) ∈ @nil (bytes * V)) as ?%elem_of_nil; [|done]. apply Hext. by left.
  - exfalso. assert ((k1, v1) ∈ @nil (bytes * V)) as ?%elem_of_nil; [|done]. apply Hext. by left.
  - apply sorted_cons_inv in H1 as [H1 F1], H2 as [H2 F2].
    assert ((k1, v1) = (k2, v2)) as E.
    { assert ((k1, v1) ∈ (k2, v2) :: m2) as A by (apply Hext; left).
      assert ((k2, v2) ∈ (k1, v1) :: m1) as B by (apply Hext; left).
      apply elem_of_cons in A as [A|A]; [done|]. apply elem_of_cons in B as [B|B]; [done|].
      destruct (bytes_lt_irrefl k1). eapply bytes_lt_trans; eauto. }
    simplify_eq. f_equal. apply IH; [done..|]. intros [k v]. split; intros Hin.
    + assert ((k, v) ∈ (k2, v2) :: m2) as A by (apply Hext; by right).
      apply elem_of_cons in A as [A|A]; [|done]. simplify_eq.
      destruct (bytes_lt_irrefl k2). eauto.
    + assert ((k, v) ∈ (k2, v2) :: m1) as A by (apply Hext; by right).
      apply elem_of_cons in A as [A|A]; [|done]. simplify_eq.
      destruct (bytes_lt_irrefl k2). eauto.
Qed.

Lemma btree_get_elem m k v : btree_ok m -> btree_get m k = Some v <-> (k, v) ∈ m.
Proof.
  induction m as [|[k' v'] m IH]; intros Hs; cbn.
  - split; [done|]. by intros ?%elem_of_nil.
  - apply sorted_cons_inv in Hs as [Hs Hf]. case_bool_decide as Hk.
    + subst k'. split; [intros [= ->]; left|]. intros [?|Hin]%elem_of_cons; [by simplify_eq|].
      destruct (bytes_lt_irrefl k). eauto.
    + rw IH // elem_of_cons. split; [by right|]. intros [?|?]; [by simplify_eq|done].
Qed.

Lemma btree_get_insert m k v k' :
  btree_get (btree_insert m k v) k' = if decide (k = k') then Some v else btree_get m k'.
Proof.
  induction m as [|[j u] m IH]; cbn.
  - case_bool_decide; case_decide; congruence.
  - destruct (bytes_cmp k j) eqn:E; cbn.
    + apply bytes_cmp_eq in E as <-. repeat case_bool_decide; repeat case_decide; congruence.
    + repeat case_bool_decide; repeat case_decide; congruence.
    + rw IH. case_bool_decide as Hj; [|done]. subst j. case_decide as Hk; [|done].
      subst k'. rw bytes_cmp_refl in E. done.
Qed.

Lemma btree_get_remove m k k' :
  btree_get (btree_remove m k) k' = if decide (k = k') then None else btree_get m k'.
Proof.
  unfold btree_remove, bytes_eqb. induction m as [|[j u] m IH]; cbn.
  - by case_decide.
  - case_bool_decide as Hj; cbn; rw IH; repeat case_decide; repeat case_bool_decide; congruence.
Qed.

Lemma btree_insert_elem m k v x : x ∈ btree_insert m k v -> x = (k, v) \/ x ∈ m.
Proof.
  induction m as [|[j u] m IH]; cbn.
  - intros [->|?%elem_of_nil]%elem_of_cons; [by left|done].
  - destruct (bytes_cmp k j); intros [->|Hin]%elem_of_cons; auto.
    + right. by right.
    + right. left.
    + destruct (IH Hin); [by left|]. right. by right.
Qed.

Lemma btree_insert_ok m k v : btree_ok m -> btree_ok (btree_insert m k v).
Proof.
  induction m as [|[j u] m IH]; intros Hs; cbn.
  - apply sorted_cons_intro; [constructor|]. by intros ?? ?%elem_of_nil.
  - pose proof (sorted_cons_inv _ _ _ Hs) as [Hs' Hf].
    destruct (bytes_cmp k j) eqn:E.
    + apply bytes_cmp_eq in E as ->. by apply sorted_cons_intro.
    + apply sorted_cons_intro; [done|]. intros k' v' [?|?]%elem_of_cons; [by simplify_eq|].
      eapply bytes_lt_trans; [exact E|eauto].
    + apply sorted_cons_intro; [by apply IH|].
      intros k' v' [?|?]%btree_insert_elem; [|by eauto]. simplify_eq.
      unfold bytes_lt. by rw bytes_cmp_antisym E.
Qed.

Lemma btree_range_elem m a b k v :
  (k, v) ∈ btree_range m a b <-> (k, v) ∈ m /\ in_bounds a b k = true.
Proof. unfold btree_range. by rw !list_elem_of_In filter_In. Qed.

Lemma reverse_elem (l : list (bytes * V)) x : x ∈ reverse l <-> x ∈ l.
Proof. apply elem_of_reverse. Qed.

End SortedLists.

#[export] Hint Resolve btree_insert_ok sorted_filter : secret.

Lemma in_bounds_empty a b k : start_above_end a b = true -> in_bounds a b k = false.
Proof.
  unfold start_above_end, in_bounds, ge_start, lt_end. destruct a as [s|], b as [e|]; try done.
  intros Hes%bytes_ltb_lt. destruct (bytes_ltb k e) eqn:He; [|apply andb_false_r].
  apply bytes_ltb_lt in He. replace (bytes_ltb k s) with true; [done|].
  symmetry. apply bytes_ltb_lt. by eapply bytes_lt_trans.
Qed.

(** ** MemoryStorage keeps the promises *)

#[export] Instance memory_laws : StorageLaws MemoryStorage.
Proof.
  split; intros [m] *; cbn; [apply btree_get_insert|apply btree_get_remove].
Qed.

Lemma memory_range_ascending (m : list (bytes * bytes)) a b :
  btree_ok m ->
  exists l, Memory.range (mkMemory m) a b Ascending = Ok l /\ btree_ok l /\
    forall k v, (k, v) ∈ l <-> btree_get m k = Some v /\ in_bounds a b k = true.
Proof.
  intros Hs. unfold Memory.range. destruct (start_above_end a b) eqn:E.
  - exists []. split_and!; [done|constructor|]. intros k v. rw in_bounds_empty //.
    split; [by intros ?%elem_of_nil|by intros [_ ?]].
  - exists (btree_range m a b). split_and!; [done|by apply sorted_filter|].
    intros k v. by rw btree_range_elem btree_get_elem.
Qed.

#[export] Instance memory_range_laws : RangeLaws MemoryStorage.
Proof.
  refine {| store_ok s := btree_ok (data s) |}; cbn.
  - intros [m] k v Hs. by apply btree_insert_ok.
  - intros [m] k Hs. by apply sorted_filter.
  - intros [m] a b Hs. by apply memory_range_ascending.
  - intros [m] a b l Hs. unfold Memory.range. destruct (start_above_end a b); by intros [= <-].
Defined.

(** Ranges of stores with the same contents agree, whatever the stores are. *)
Lemma range_same_contents {S T} `{RangeLaws S, RangeLaws T} (s : S) (t : T) a b o :
  store_ok s -> store_ok t -> same_contents s t -> range s a b o = range t a b o.
Proof.
  intros Hs Ht Heq.
  destruct (range_ascending s a b Hs) as (l & El & Sl & Ml).
  destruct (range_ascending t a b Ht) as (l' & El' & Sl' & Ml').
  assert (l = l') as <-.
  { apply sorted_ext; [done..|]. intros [k v]. by rw Ml Ml' Heq. }
  destruct o; [by rw El El'|].
  by rw (range_descending s a b l Hs El) (range_descending t a b l Ht El').
Qed.
