(* ===== verification/Transactions.v ===== *)
(** * Storage transactions: cosmwasm/packages/storage/src/transactions.rs

    A read-only base store, a cache of local changes and the log replayed on
    commit; the iterator that merges the cache over the base; [transactional]. *)

From stdpp Require Import base tactics list numbers strings ssreflect sorting relations.
From S2P Require Import Prelude Math Storage.

Inductive Op : Type :=
| OpSet (key value : bytes)
| OpDelete (key : bytes).

Inductive Delta : Type :=
| DeltaSet (value : bytes)
| DeltaDelete.

Definition to_delta (op : Op) : Delta :=
  match op with OpSet _ value => DeltaSet value | OpDelete _ => DeltaDelete end.

Definition op_key (op : Op) : bytes :=
  match op with OpSet key _ => key | OpDelete key => key end.

Definition op_apply {S} `{Storage S} (op : Op) (storage : S) : S :=
  match op with
  | OpSet key value => set storage key value
  | OpDelete key => remove storage key
  end.

Abbreviation RepLog := (list Op).

(** [RepLog::new] and [RepLog::append]. *)
Definition log_new : RepLog := [].
Definition log_append (log : RepLog) (op : Op) : RepLog := log ++ [op].

(** [RepLog::commit]: the operations, in the order they were appended. *)
Definition commit {S} `{Storage S} (ops_log : RepLog) (storage : S) : S :=
  foldl (fun st op => op_apply op st) storage ops_log.

(** ** MergeOverlay *)

Module Merge.

Record MergeOverlay : Type := mkMerge {
  left : list (bytes * Delta);
  right : list KV;
  order : Order
}.

Definition new (left : list (bytes * Delta)) (right : list KV) (order : Order) : MergeOverlay :=
  mkMerge left right order.

(** The comparison of [pick_match]: [Less] means the left side comes first. *)
Definition order_cmp (o : Order) (lkey rkey : bytes) : comparison :=
  match o with
  | Ascending => bytes_cmp lkey rkey
  | Descending => bytes_cmp rkey lkey
  end.

(** [Iterator::next], with [pick_match] and [take_left] inlined at their calls:
    a deleted key makes [take_left] call [next] again, on a shorter left side. *)
Fixpoint next_from (o : Order) (l : list (bytes * Delta)) (r : list KV) {struct l}
  : option KV * (list (bytes * Delta) * list KV) :=
  match l with
  | [] =>
      match r with
      | [] => (None, ([], []))
      | x :: r' => (Some x, ([], r'))
      end
  | (lkey, lval) :: l' =>
      let take_left (r0 : list KV) :=
        match lval with
        | DeltaSet value => (Some (lkey, value), (l', r0))
        | DeltaDelete => next_from o l' r0
        end in
      match r with
      | [] => take_left []
      | (rkey, rval) :: r' =>
          match order_cmp o lkey rkey with
          | Lt => take_left r
          | Eq => take_left r'
          | Gt => (Some (rkey, rval), (l, r'))
          end
      end
  end.

Definition next (m : MergeOverlay) : option KV * MergeOverlay :=
  match next_from (order m) (left m) (right m) with
  | (x, (l, r)) => (x, mkMerge l r (order m))
  end.

(** Draining the iterator; [fuel] bounds the calls of [next]. *)
Fixpoint drain (fuel : nat) (m : MergeOverlay) : option (list KV) :=
  match fuel with
  | O => None
  | S fuel' =>
      match next m with
      | (None, _) => Some []
      | (Some x, m') => (fun l => x :: l) <$> drain fuel' m'
      end
  end.

(** One call per remaining item, and one that returns [None]. *)
Definition enough (m : MergeOverlay) : nat := S (length (left m) + length (right m)).

Definition collect (m : MergeOverlay) : list KV := default [] (drain (enough m) m).

End Merge.

(** ** StorageTransaction *)

Record StorageTransaction (S : Type) : Type := mkTx {
  storage : S;
  local_state : list (bytes * Delta);
  rep_log : RepLog
}.
Arguments mkTx {S} storage local_state rep_log.
Arguments storage {S} s.
Arguments local_state {S} s.
Arguments rep_log {S} s.

Module Tx.
Section Tx.
Context {S : Type} `{Storage S}.

Definition new (storage : S) : StorageTransaction S := mkTx storage [] log_new.

Definition prepare (tx : StorageTransaction S) : RepLog := rep_log tx.

Definition rollback (tx : StorageTransaction S) : unit := tt.

Definition get (tx : StorageTransaction S) (key : bytes) : option bytes :=
  match btree_get (local_state tx) key with
  | Some (DeltaSet value) => Some value
  | Some DeltaDelete => None
  | None => Storage.get (storage tx) key
  end.

Definition range (tx : StorageTransaction S) (start end_ : option bytes) (o : Order)
  : StdResult (list KV) :=
  let local :=
    if start_above_end start end_ then []
    else let local_raw := btree_range (local_state tx) start end_ in
         match o with Ascending => local_raw | Descending => reverse local_raw end in
  base ← Storage.range (storage tx) start end_ o;
  Ok (Merge.collect (Merge.new local base o)).

Definition apply_local (tx : StorageTransaction S) (op : Op) : StorageTransaction S :=
  mkTx (storage tx) (btree_insert (local_state tx) (op_key op) (to_delta op))
       (log_append (rep_log tx) op).

Definition set (tx : StorageTransaction S) (key value : bytes) : StorageTransaction S :=
  apply_local tx (OpSet key value).

Definition remove (tx : StorageTransaction S) (key : bytes) : StorageTransaction S :=
  apply_local tx (OpDelete key).

(** [transactional]: the callback runs on a fresh transaction over [storage]; its
    log is committed only when it returns [Ok]. *)
Definition transactional {T} (callback : M (StorageTransaction S) StdError T)
  : M S StdError T :=
  fun storage =>
    match callback (new storage) with
    | (stx, Ok res) => (commit (prepare stx) storage, Ok res)
    | (_, Err e) => (storage, Err e)
    | (_, Panic) => (storage, Panic)
    end.

(** The states a callback can reach: the fields are private, so only [set] and
    [remove] change a transaction. *)
Inductive tx_step : StorageTransaction S -> StorageTransaction S -> Prop :=
| step_set tx key value : tx_step tx (set tx key value)
| step_remove tx key : tx_step tx (remove tx key).

End Tx.
End Tx.

#[export] Instance tx_storage {S} `{Storage S} : Storage (StorageTransaction S) := {|
  get := Tx.get;
  range := Tx.range;
  set := Tx.set;
  remove := Tx.remove
|}.

(** ** The merge is correct *)

Section MergeCorrect.
Import Merge.

Definition ord_lt (o : Order) (a b : bytes) : Prop :=
  match o with Ascending => bytes_lt a b | Descending => bytes_lt b a end.

#[local] Instance ord_lt_trans o : Transitive (ord_lt o).
Proof. destruct o; intros a b c; cbn; eauto using bytes_lt_trans. Qed.

Lemma ord_lt_irrefl o a : ~ ord_lt o a a.
Proof. destruct o; apply bytes_lt_irrefl. Qed.

Lemma order_cmp_Lt o a b : order_cmp o a b = Lt <-> ord_lt o a b.
Proof. by destruct o. Qed.

Lemma order_cmp_Eq o a b : order_cmp o a b = Eq -> a = b.
Proof. destruct o; cbn; intros E%bytes_cmp_eq; congruence. Qed.

Lemma order_cmp_Gt o a b : order_cmp o a b = Gt -> ord_lt o b a.
Proof. destruct o; cbn; unfold bytes_lt; rw bytes_cmp_antisym; by destruct bytes_cmp. Qed.

Definition keys_sorted {V} (o : Order) (l : list (bytes * V)) : Prop :=
  StronglySorted (ord_lt o) (l.*1).

Lemma keys_sorted_cons {V} o k (v : V) l :
  keys_sorted o ((k, v) :: l) <->
  keys_sorted o l /\ forall k' v', (k', v') ∈ l -> ord_lt o k k'.
Proof.
  unfold keys_sorted. cbn. split.
  - intros [Hs Hf]%StronglySorted_inv. split; [done|]. intros k' v' Hin.
    rw Forall_forall in Hf. apply Hf. apply list_elem_of_fmap. by exists (k', v').
  - intros [Hs Hf]. constructor; [done|]. apply Forall_forall.
    intros k' ([? ?] & -> & ?)%list_elem_of_fmap. eauto.
Qed.

(** The bindings visible through the overlay. *)
Definition visible (l : list (bytes * Delta)) (r : list KV) (k v : bytes) : Prop :=
  (k, DeltaSet v) ∈ l \/ ((forall d, (k, d) ∉ l) /\ (k, v) ∈ r).

(** What one call of [next] achieves. *)
Definition next_spec o l r (res : option KV * (list (bytes * Delta) * list KV)) : Prop :=
  match res with
  | (None, _) => forall k v, ~ visible l r k v
  | (Some (k, v), (l', r')) =>
      visible l r k v /\ keys_sorted o l' /\ keys_sorted o r' /\
      length l' + length r' < length l + length r /\
      (forall k' v', visible l' r' k' v' -> ord_lt o k k') /\
      (forall k' v', visible l r k' v' <-> (k', v') = (k, v) \/ visible l' r' k' v')
  end.

Lemma visible_nil_l r k v : visible [] r k v <-> (k, v) ∈ r.
Proof.
  unfold visible. split.
  - by intros [?%elem_of_nil|[_ ?]].
  - intros. right. split; [|done]. by intros d ?%elem_of_nil.
Qed.

(** Dropping a head of the left side whose key is below every key of the right. *)
Lemma visible_cons_below o k d l r :
  keys_sorted o ((k, d) :: l) -> (forall k' v', (k', v') ∈ r -> ord_lt o k k') ->
  forall k' v', visible ((k, d) :: l) r k' v' <->
    (d = DeltaSet v' /\ k' = k) \/ visible l r k' v'.
Proof.
  intros [Hs Hf]%keys_sorted_cons Hr k' v'. unfold visible. split.
  - intros [[?|?]%elem_of_cons|[Hn ?]]; [left; by simplify_eq|by right; left|].
    right. right. split; [|done]. intros d' ?. eapply Hn. by right.
  - intros [[-> ->]|[?|[Hn Hin]]]; [left; left|left; by right|]. right. split; [|done].
    intros d' [?|?]%elem_of_cons; [|by eapply Hn]. simplify_eq.
    by eapply (ord_lt_irrefl o), Hr.
Qed.

(** The same when the right side starts with that key: its entry is hidden. *)
Lemma visible_cons_same o k d l rv r :
  keys_sorted o ((k, d) :: l) -> keys_sorted o ((k, rv) :: r) ->
  forall k' v', visible ((k, d) :: l) ((k, rv) :: r) k' v' <->
                visible ((k, d) :: l) r k' v'.
Proof.
  intros Hl Hr k' v'. unfold visible. split.
  - intros [?|[Hn [?|?]%elem_of_cons]]; [by left| |by right].
    simplify_eq. destruct (Hn d). left.
  - intros [?|[Hn ?]]; [by left|]. right. split; [done|]. by right.
Qed.

Lemma visible_ge o l r k :
  (forall k' v', (k', v') ∈ l -> ord_lt o k k') ->
  (forall k' v', (k', v') ∈ r -> ord_lt o k k') ->
  forall k' v', visible l r k' v' -> ord_lt o k k'.
Proof. intros Hl Hr k' v' [?|[_ ?]]; eauto. Qed.

Lemma next_take_left o k d l r :
  keys_sorted o ((k, d) :: l) -> keys_sorted o r ->
  (forall k' v', (k', v') ∈ r -> ord_lt o k k') ->
  next_spec o l r (next_from o l r) ->
  next_spec o ((k, d) :: l) r
    match d with
    | DeltaSet value => (Some (k, value), (l, r))
    | DeltaDelete => next_from o l r
    end.
Proof.
  intros Hl Hr Hlt IH. pose proof (visible_cons_below o k d l r Hl Hlt) as Hv.
  pose proof (proj1 (keys_sorted_cons _ _ _ _) Hl) as [Hs Hf].
  destruct d as [value|]; cbn.
  - split_and!; [by left; left|done..|lia|by apply visible_ge|].
    intros k' v'. rw Hv. split.
    + intros [[? ?]|?]; [left; by simplify_eq|by right].
    + intros [?|?]; [left; by simplify_eq|by right].
  - assert (forall k' v', visible ((k, DeltaDelete) :: l) r k' v' <-> visible l r k' v') as Hv'.
    { intros. rw Hv. split; [by intros [[? _]|?]|by right]. }
    destruct (next_from o l r) as [[[k' v']|] [l' r']]; cbn in IH |- *.
    + destruct IH as (H1 & H2 & H3 & H4 & H5 & H6).
      split_and!; [by apply Hv'|done..|lia|done|]. intros. by rw Hv' H6.
    + intros k' v'. by rw Hv'.
Qed.

Lemma next_spec_weaken o l r1 r2 res :
  (forall k v, visible l r1 k v <-> visible l r2 k v) -> length r2 <= length r1 ->
  next_spec o l r2 res -> next_spec o l r1 res.
Proof.
  intros Hv Hlen. destruct res as [[[k v]|] [l' r']]; cbn.
  - intros (H1 & H2 & H3 & H4 & H5 & H6). split_and!; [by apply Hv|done..|lia|done|].
    intros. by rw Hv H6.
  - intros Hn k v. by rw Hv.
Qed.

Lemma next_from_correct o l r :
  keys_sorted o l -> keys_sorted o r -> next_spec o l r (next_from o l r).
Proof.
  revert r. induction l as [|[lk d] l IH]; intros r Hl Hr.
  - destruct r as [|[k v] r]; cbn.
    + intros k v. rw visible_nil_l. by intros ?%elem_of_nil.
    + apply keys_sorted_cons in Hr as [Hr Hf].
      split_and!; [by apply visible_nil_l; left|done..|cbn; lia| |].
      * intros k' v'. rw visible_nil_l. eauto.
      * intros k' v'. by rw !visible_nil_l elem_of_cons.
  - pose proof (proj1 (keys_sorted_cons _ _ _ _) Hl) as [Hs Hf].
    destruct r as [|[rk rv] r]; cbn [next_from].
    + apply next_take_left; [done|constructor| |by apply IH; [|constructor]].
      by intros ?? ?%elem_of_nil.
    + pose proof (proj1 (keys_sorted_cons _ _ _ _) Hr) as [Hrs Hrf].
      destruct (order_cmp o lk rk) eqn:E.
      * apply order_cmp_Eq in E as <-.
        apply (next_spec_weaken o _ _ r); [by apply (visible_cons_same o)|cbn; lia|].
        apply next_take_left; [done..|by apply IH].
      * apply order_cmp_Lt in E. apply next_take_left; [done..| |by apply IH].
        intros k' v' [?|?]%elem_of_cons; [by simplify_eq|]. etrans; [exact E|eauto].
      * apply order_cmp_Gt in E. cbn.
        assert (forall k' v', (k', v') ∈ (lk, d) :: l -> ord_lt o rk k') as Hrl.
        { intros k' v' [?|?]%elem_of_cons; [by simplify_eq|]. etrans; [exact E|eauto]. }
        split_and!; [|done..|lia|by apply visible_ge|].
        -- right. split; [|left]. intros d' Hin. by eapply (ord_lt_irrefl o), Hrl.
        -- intros k' v'. unfold visible. rw (elem_of_cons r). split.
           ++ intros [?|[Hn [?|?]]]; [by right; left|by left|by right; right].
           ++ intros [?|[?|[Hn ?]]]; [|by left|right; by split; [|right]].
              simplify_eq. right. split; [|by left]. intros d' Hin.
              by eapply (ord_lt_irrefl o), Hrl.
Qed.

(** Draining ends within the bound and yields the visible bindings in order. *)
Lemma drain_correct o l r fuel :
  keys_sorted o l -> keys_sorted o r -> length l + length r < fuel ->
  exists res, drain fuel (mkMerge l r o) = Some res /\ keys_sorted o res /\
    forall k v, (k, v) ∈ res <-> visible l r k v.
Proof.
  revert l r. induction fuel as [|fuel IH]; intros l r Hl Hr Hlen; [lia|].
  cbn [drain]. unfold next. cbn [left right order].
  pose proof (next_from_correct o l r Hl Hr) as Hn.
  destruct (next_from o l r) as [[[k v]|] [l' r']]; cbn in Hn.
  - destruct Hn as (H1 & H2 & H3 & H4 & H5 & H6).
    destruct (IH l' r' H2 H3) as (res & -> & Hs & Hv); [lia|].
    exists ((k, v) :: res). split; [done|]. split.
    + apply keys_sorted_cons. split; [done|]. intros k' v' ?%Hv. eauto.
    + intros k' v'. by rw elem_of_cons H6 Hv.
  - exists []. split; [done|]. split; [constructor|]. intros k v. split.
    + by intros ?%elem_of_nil.
    + intros ?. by destruct (Hn k v).
Qed.

Lemma collect_correct o l r :
  keys_sorted o l -> keys_sorted o r ->
  keys_sorted o (collect (mkMerge l r o)) /\
  forall k v, (k, v) ∈ collect (mkMerge l r o) <-> visible l r k v.
Proof.
  intros Hl Hr. unfold collect, enough. cbn [left right].
  destruct (drain_correct o l r (S (length l + length r)) Hl Hr) as (res & -> & ?); [lia|done].
Qed.

End MergeCorrect.

(** ** A transaction is a store *)

#[export] Instance tx_laws {S} `{Storage S} : StorageLaws (StorageTransaction S).
Proof.
  split; intros tx k *; cbn; unfold Tx.get; cbn; rw btree_get_insert; by case_decide.
Qed.

Section TxRange.
Context {S : Type} `{HS : Storage S} {HR : RangeLaws S}.

Definition tx_ok (tx : StorageTransaction S) : Prop :=
  store_ok (storage tx) /\ btree_ok (local_state tx).

Lemma keys_sorted_reverse {V} (l : list (bytes * V)) :
  btree_ok l -> keys_sorted Descending (reverse l).
Proof.
  induction l as [|[k v] l IH]; [constructor|]. intros [Hs Hf]%sorted_cons_inv.
  unfold keys_sorted. rw fmap_reverse fmap_cons reverse_cons -fmap_reverse.
  apply StronglySorted_app_2; [|by apply IH|by repeat constructor].
  intros x1 x2 ([k' v'] & -> & Hin)%list_elem_of_fmap ->%list_elem_of_singleton.
  rw elem_of_reverse in Hin. change (bytes_lt k k'). by eapply Hf.
Qed.

Lemma keys_sorted_descending {V} (l : list (bytes * V)) :
  keys_sorted Descending l -> btree_ok (reverse l).
Proof.
  unfold keys_sorted, btree_ok. rw fmap_reverse. generalize (l.*1). clear l.
  induction l as [|k l IH]; [constructor|]. intros [Hs Hf]%StronglySorted_inv.
  rw reverse_cons. apply StronglySorted_app_2; [|by apply IH|by repeat constructor].
  intros x1 x2 Hin ->%list_elem_of_singleton. rw elem_of_reverse in Hin.
  rw Forall_forall in Hf. by apply Hf.
Qed.

(** The local side of [range], in each direction. *)
Definition local_range (tx : StorageTransaction S) a b : list (bytes * Delta) :=
  if start_above_end a b then [] else btree_range (local_state tx) a b.

Lemma local_range_elem tx a b k d :
  (k, d) ∈ local_range tx a b <-> (k, d) ∈ local_state tx /\ in_bounds a b k = true.
Proof.
  unfold local_range. destruct (start_above_end a b) eqn:E; [|apply btree_range_elem].
  rw in_bounds_empty //. split; [by intros ?%elem_of_nil|by intros [_ ?]].
Qed.

Lemma local_range_ok tx a b : btree_ok (local_state tx) -> btree_ok (local_range tx a b).
Proof.
  intros. unfold local_range. destruct (start_above_end a b); [constructor|by apply sorted_filter].
Qed.

Lemma tx_range_eq tx a b o :
  Tx.range tx a b o =
  (base ← range (storage tx) a b o;
   Ok (Merge.collect (Merge.mkMerge
         match o with Ascending => local_range tx a b | Descending => reverse (local_range tx a b) end
         base o))).
Proof. unfold Tx.range, local_range. by destruct (start_above_end a b), o. Qed.

(** Merging the local range over the base range shows what [get] shows. *)
Lemma visible_get tx a b base k v :
  tx_ok tx ->
  (forall k v, (k, v) ∈ base <-> get (storage tx) k = Some v /\ in_bounds a b k = true) ->
  visible (local_range tx a b) base k v <-> Tx.get tx k = Some v /\ in_bounds a b k = true.
Proof.
  intros [Hs Hl] Hb. unfold visible, Tx.get. rw local_range_elem Hb.
  setoid_rewrite local_range_elem. rw -!(btree_get_elem _ _ _ Hl).
  setoid_rewrite <- (btree_get_elem _ _ _ Hl).
  destruct (btree_get (local_state tx) k) as [[v'|]|] eqn:E.
  - split.
    + intros [[? ?]|[Hn [_ ?]]]; [by simplify_eq|]. by destruct (Hn (DeltaSet v')).
    + intros [? ?]. left. by simplify_eq.
  - split; [|by intros [? _]].
    intros [[? ?]|[Hn [_ ?]]]; [done|]. by destruct (Hn DeltaDelete).
  - split; [by intros [[? ?]|[_ ?]]|]. intros ?. right. split; [|done]. by intros ? [? _].
Qed.

Lemma visible_reverse l r k v : visible (reverse l) (reverse r) k v <-> visible l r k v.
Proof. unfold visible. setoid_rewrite elem_of_reverse. done. Qed.

Lemma tx_range_ascending tx a b :
  tx_ok tx ->
  exists l, Tx.range tx a b Ascending = Ok l /\ btree_ok l /\
    forall k v, (k, v) ∈ l <-> Tx.get tx k = Some v /\ in_bounds a b k = true.
Proof.
  intros Htx. destruct (range_ascending (storage tx) a b (proj1 Htx)) as (base & Eb & Sb & Mb).
  destruct (collect_correct Ascending (local_range tx a b) base) as [Hs Hv];
    [by apply local_range_ok, Htx|done|].
  rw tx_range_eq Eb. eexists. split; [reflexivity|]. split; [exact Hs|].
  intros k v. rw Hv. by apply visible_get.
Qed.

Lemma tx_range_descending tx a b l :
  tx_ok tx -> Tx.range tx a b Ascending = Ok l -> Tx.range tx a b Descending = Ok (reverse l).
Proof.
  intros Htx. destruct (range_ascending (storage tx) a b (proj1 Htx)) as (base & Eb & Sb & Mb).
  rw !tx_range_eq Eb (range_descending _ _ _ _ (proj1 Htx) Eb). cbn [mbind result_bind].
  intros [= <-]. f_equal.
  pose proof (local_range_ok tx a b (proj2 Htx)) as Hl.
  destruct (collect_correct Ascending (local_range tx a b) base Hl Sb) as [Hs Hv].
  destruct (collect_correct Descending (reverse (local_range tx a b)) (reverse base)) as [Hs' Hv'];
    [by apply keys_sorted_reverse..|].
  rw -(reverse_involutive (Merge.collect (Merge.mkMerge (reverse _) _ _))). f_equal.
  apply sorted_ext; [by apply keys_sorted_descending|done|].
  intros [k v]. by rw elem_of_reverse Hv Hv' visible_reverse.
Qed.

#[export] Instance tx_range_laws : RangeLaws (StorageTransaction S).
Proof.
  refine {| store_ok := tx_ok |}.
  - intros tx k v [? ?]. split; [done|]. by apply btree_insert_ok.
  - intros tx k [? ?]. split; [done|]. by apply btree_insert_ok.
  - apply tx_range_ascending.
  - apply tx_range_descending.
Defined.

End TxRange.

(** ** Commit *)

Section Commit.
Context {S : Type} `{HS : Storage S} {HL : StorageLaws S}.

Lemma commit_snoc (log : RepLog) op (s : S) : commit (log ++ [op]) s = op_apply op (commit log s).
Proof. unfold commit. by rw foldl_app. Qed.

Lemma get_op_apply op (s : S) k :
  get (op_apply op s) k =
  if decide (op_key op = k)
  then match to_delta op with DeltaSet v => Some v | DeltaDelete => None end
  else get s k.
Proof. destruct op; cbn; [apply get_set|apply get_remove]. Qed.

(** The invariant of a transaction opened over [s]. *)
Definition tx_inv (s : S) (tx : StorageTransaction S) : Prop :=
  storage tx = s /\ btree_ok (local_state tx) /\
  forall k, get (commit (rep_log tx) s) k = Tx.get tx k.

Lemma tx_inv_new s : tx_inv s (Tx.new s).
Proof. split_and!; [done|constructor|done]. Qed.

Lemma tx_inv_apply s tx op : tx_inv s tx -> tx_inv s (Tx.apply_local tx op).
Proof.
  intros (<- & Hl & Hg). split_and!; [done|by apply btree_insert_ok|].
  intros k. cbn [Tx.apply_local rep_log storage]. rw commit_snoc get_op_apply.
  unfold Tx.get, Tx.apply_local. cbn [local_state storage].
  rw btree_get_insert. case_decide; [by destruct op|]. apply Hg.
Qed.

Lemma tx_inv_reachable s tx : rtc Tx.tx_step (Tx.new s) tx -> tx_inv s tx.
Proof.
  intros Hr. refine (rtc_ind_r (tx_inv s) (Tx.new s) _ _ tx Hr); [apply tx_inv_new|].
  intros tx1 tx2 _ [|] Hinv; by apply tx_inv_apply.
Qed.

Lemma store_ok_commit `{!RangeLaws S} log (s : S) : store_ok s -> store_ok (commit log s).
Proof.
  intros Hs. induction log as [|op log IH] using rev_ind; [done|].
  rw commit_snoc. destruct op; cbn; [by apply set_ok|by apply remove_ok].
Qed.

End Commit.

(** C33: After any sequence of writes and removals, a storage transaction answers every get and
    every range, in both orders, as the base store does once the replay log is committed to
    it. *)
Theorem tx_refines_commit {S} `{Storage S, !StorageLaws S, !RangeLaws S}
    (s : S) (tx : StorageTransaction S) :
  store_ok s -> rtc Tx.tx_step (Tx.new s) tx ->
  (forall k, get tx k = get (commit (Tx.prepare tx) s) k) /\
  (forall a b o, range tx a b o = range (commit (Tx.prepare tx) s) a b o).
Proof.
  intros Hs Hr. destruct (tx_inv_reachable s tx Hr) as (Hst & Hl & Hg).
  split; [by intros k; cbn; rw -Hg|]. intros a b o. apply range_same_contents.
  - cbn. split; [by rw Hst|done].
  - by apply store_ok_commit.
  - intros k. cbn. by rw -Hg.
Qed.

(** C34: transactional is atomic: when the callback succeeds, the store afterwards has the
    contents the transaction showed, and when it fails or panics the store is unchanged. *)
Theorem transactional_atomic {S T} `{Storage S, !StorageLaws S}
    (callback : M (StorageTransaction S) StdError T) (s : S) :
  (forall tx, rtc Tx.tx_step tx (callback tx).1) ->
  match callback (Tx.new s) with
  | (stx, Ok res) =>
      exists s', Tx.transactional callback s = (s', Ok res) /\ same_contents s' stx
  | (_, Err e) => Tx.transactional callback s = (s, Err e)
  | (_, Panic) => Tx.transactional callback s = (s, Panic)
  end.
Proof.
  intros Hcb. specialize (Hcb (Tx.new s)). unfold Tx.transactional.
  destruct (callback (Tx.new s)) as [stx [res|e|]]; [|done..].
  destruct (tx_inv_reachable s stx Hcb) as (_ & _ & Hg). eexists. by split.
Qed.

(** Two writes and a removal over a stored binding. *)
Definition demo_base : MemoryStorage := set Memory.new (lit "k") (lit "base").
Definition demo_tx : StorageTransaction MemoryStorage :=
  set (remove (set (Tx.new demo_base) (lit "a") (lit "1")) (lit "k")) (lit "b") (lit "2").

Lemma tx_refines_commit_witness :
  range demo_tx None None Descending = range (commit (Tx.prepare demo_tx) demo_base) None None Descending.
Proof.
  apply (tx_refines_commit demo_base demo_tx).
  - apply set_ok. constructor.
  - eapply rtc_l; [apply (Tx.step_set _ (lit "a") (lit "1"))|].
    eapply rtc_l; [apply (Tx.step_remove _ (lit "k"))|].
    apply rtc_once. constructor.
Defined.

(** A callback that writes and then fails. *)
Definition demo_failing : M (StorageTransaction MemoryStorage) StdError unit :=
  fun tx => (set tx (lit "k") (lit "lost"), Err (generic_err "failed")).

Lemma transactional_atomic_witness :
  Tx.transactional demo_failing demo_base = (demo_base, Err (generic_err "failed")).
Proof. apply (transactional_atomic demo_failing demo_base). intros tx. apply rtc_once. constructor. Defined.
