(* ===== verification/Prefixed.v ===== *)
(** * Namespaced storage: cosmwasm/packages/storage/src

    length_prefixed.rs (the key encoding), namespace_helpers.rs (prefixed access
    and ranges) and prefixed_storage.rs ([PrefixedStorage] as a store over a store). *)

From stdpp Require Import base tactics list numbers strings ssreflect sorting.
From S2P Require Import Prelude Math Storage.

(** ** length_prefixed.rs *)

(** The low two of the four big-endian bytes of the length; longer than 0xFFFF panics. *)
Definition encode_length (namespace : bytes) : StdResult bytes :=
  if (Z.of_nat (length namespace) >? 65535)%Z then Panic
  else let length_bytes := be_bytes 4 (Z.of_nat (length namespace) mod 2^32) in
       Ok (drop 2 length_bytes).

Definition to_length_prefixed (namespace : bytes) : StdResult bytes :=
  len ← encode_length namespace; Ok (len ++ namespace).

Fixpoint to_length_prefixed_nested (namespaces : list bytes) : StdResult bytes :=
  match namespaces with
  | [] => Ok []
  | ns :: rest =>
      len ← encode_length ns;
      out ← to_length_prefixed_nested rest;
      Ok (len ++ ns ++ out)
  end.

(** ** namespace_helpers.rs *)

Section Helpers.
Context {S : Type} `{Storage S}.

Definition concat (namespace key : bytes) : bytes := namespace ++ key.

Definition get_with_prefix (storage : S) (namespace key : bytes) : option bytes :=
  get storage (concat namespace key).

Definition set_with_prefix (storage : S) (namespace key value : bytes) : S :=
  set storage (concat namespace key) value.

Definition remove_with_prefix (storage : S) (namespace key : bytes) : S :=
  remove storage (concat namespace key).

(** [key[namespace.len()..]]: panics when the key is shorter than the namespace. *)
Definition trim (namespace key : bytes) : StdResult bytes :=
  slice key (length namespace) (length key).

(** The loop of [namespace_upper_bound], from the last byte to the first. *)
Fixpoint increment_from_end (l : bytes) : bytes :=
  match l with
  | [] => []
  | b :: l' =>
      if bool_decide (b = Byte.xff) then Byte.x00 :: increment_from_end l'
      else byte_of_Z (Z_of_byte b + 1) :: l'
  end.

Definition namespace_upper_bound (input : bytes) : bytes :=
  reverse (increment_from_end (reverse input)).

Definition prefix_start (namespace : bytes) (start : option bytes) : bytes :=
  match start with Some s => concat namespace s | None => namespace end.
Definition prefix_end (namespace : bytes) (end_ : option bytes) : bytes :=
  match end_ with Some e => concat namespace e | None => namespace_upper_bound namespace end.

Definition range_with_prefix (storage : S) (namespace : bytes) (start end_ : option bytes)
    (o : Order) : StdResult (list KV) :=
  base_iterator ← range storage (Some (prefix_start namespace start))
                                (Some (prefix_end namespace end_)) o;
  mapR (fun kv => k ← trim namespace kv.1; Ok (k, kv.2)) base_iterator.

End Helpers.

(** ** prefixed_storage.rs *)

Record PrefixedStorage (S : Type) : Type := mkPrefixed { prefix : bytes; inner : S }.
Arguments mkPrefixed {S} prefix inner.
Arguments prefix {S} p.
Arguments inner {S} p.

Module Prefixed.
Section Prefixed.
Context {S : Type} `{Storage S}.

Definition new (namespace : bytes) (storage : S) : StdResult (PrefixedStorage S) :=
  p ← to_length_prefixed namespace; Ok (mkPrefixed p storage).

Definition multilevel (namespaces : list bytes) (storage : S) : StdResult (PrefixedStorage S) :=
  p ← to_length_prefixed_nested namespaces; Ok (mkPrefixed p storage).

Definition get (ps : PrefixedStorage S) (key : bytes) : option bytes :=
  get_with_prefix (inner ps) (prefix ps) key.

Definition range (ps : PrefixedStorage S) (start end_ : option bytes) (o : Order)
  : StdResult (list KV) :=
  range_with_prefix (inner ps) (prefix ps) start end_ o.

Definition set (ps : PrefixedStorage S) (key value : bytes) : PrefixedStorage S :=
  mkPrefixed (prefix ps) (set_with_prefix (inner ps) (prefix ps) key value).

Definition remove (ps : PrefixedStorage S) (key : bytes) : PrefixedStorage S :=
  mkPrefixed (prefix ps) (remove_with_prefix (inner ps) (prefix ps) key).

End Prefixed.
End Prefixed.

#[export] Instance prefixed_storage {S} `{Storage S} : Storage (PrefixedStorage S) := {|
  get := Prefixed.get;
  range := Prefixed.range;
  set := Prefixed.set;
  remove := Prefixed.remove
|}.

(** ** The key encoding *)

Lemma encode_length_Ok ns l :
  encode_length ns = Ok l <->
  (Z.of_nat (length ns) <= 65535)%Z /\ l = be_bytes 2 (Z.of_nat (length ns)).
Proof.
  unfold encode_length. destruct (Z.gtb_spec (Z.of_nat (length ns)) 65535).
  - split; [done|]. intros [? _]. lia.
  - rw Z.mod_small; [|lia].
    assert (drop 2 (be_bytes 4 (Z.of_nat (length ns))) = be_bytes 2 (Z.of_nat (length ns))) as -> by done.
    split; [by intros [= <-]|by intros [_ ->]].
Qed.

Lemma to_length_prefixed_Ok ns p :
  to_length_prefixed ns = Ok p <->
  (Z.of_nat (length ns) <= 65535)%Z /\ p = be_bytes 2 (Z.of_nat (length ns)) ++ ns.
Proof.
  unfold to_length_prefixed. destruct (encode_length ns) as [l| |] eqn:E; cbn.
  - apply encode_length_Ok in E as [? ->]. split; [by intros [= <-]|by intros [_ ->]].
  - unfold encode_length in E. by destruct (_ >? _)%Z.
  - unfold encode_length in E. destruct (Z.gtb_spec (Z.of_nat (length ns)) 65535); [|done].
    split; [done|]. intros [? _]. lia.
Qed.

Lemma to_length_prefixed_ok ns :
  (Z.of_nat (length ns) <= 65535)%Z ->
  to_length_prefixed ns = Ok (be_bytes 2 (Z.of_nat (length ns)) ++ ns).
Proof. intros. by apply to_length_prefixed_Ok. Qed.

Lemma nested_cons_Ok ns rest p :
  to_length_prefixed_nested (ns :: rest) = Ok p <->
  exists p1 p2, to_length_prefixed ns = Ok p1 /\ to_length_prefixed_nested rest = Ok p2 /\
    p = p1 ++ p2.
Proof.
  cbn. unfold to_length_prefixed. destruct (encode_length ns) as [l| |]; cbn.
  2-3: split; [done|]; by intros (? & ? & ? & _).
  destruct (to_length_prefixed_nested rest) as [q| |]; cbn.
  2-3: split; [done|]; by intros (? & ? & _ & ? & _).
  split.
  - intros [= <-]. exists (l ++ ns), q. by rw app_assoc.
  - intros (? & ? & [= <-] & [= <-] & ->). by rw app_assoc.
Qed.

Lemma be_bytes_2_inj a b :
  (0 <= a <= 65535)%Z -> (0 <= b <= 65535)%Z -> be_bytes 2 a = be_bytes 2 b -> a = b.
Proof.
  intros Ha Hb E%(f_equal from_be_bytes). rw !from_to_be_bytes in E.
  change (256 ^ Z.of_nat 2)%Z with 65536%Z in E. rw !Z.mod_small in E; lia.
Qed.

(** Length-prefixed namespaces form a prefix code. *)
Lemma length_prefixed_inj n1 n2 p1 p2 k1 k2 :
  to_length_prefixed n1 = Ok p1 -> to_length_prefixed n2 = Ok p2 ->
  p1 ++ k1 = p2 ++ k2 -> n1 = n2 /\ k1 = k2.
Proof.
  intros [H1 ->]%to_length_prefixed_Ok [H2 ->]%to_length_prefixed_Ok E.
  rw -!app_assoc in E.
  destruct (app_inj_1 _ _ _ _ (eq_trans (be_bytes_length 2 _) (eq_sym (be_bytes_length 2 _))) E)
    as [E1 E2].
  apply be_bytes_2_inj in E1; [|lia..]. apply app_inj_1 in E2 as [-> ->]; [done|lia].
Qed.

(** Keys of two different top-level namespaces never meet. *)
Lemma namespace_disjoint n1 n2 p1 p2 k1 k2 :
  to_length_prefixed n1 = Ok p1 -> to_length_prefixed n2 = Ok p2 -> n1 <> n2 -> p1 ++ k1 <> p2 ++ k2.
Proof. intros H1 H2 Hne E. destruct (length_prefixed_inj _ _ _ _ _ _ H1 H2 E). done. Qed.

(** ** The upper bound of a namespace *)

Lemma upper_bound_last q b :
  b <> Byte.xff -> namespace_upper_bound (q ++ [b]) = q ++ [byte_of_Z (Z_of_byte b + 1)].
Proof.
  intros Hb. unfold namespace_upper_bound. rw reverse_snoc. cbn [increment_from_end].
  rw bool_decide_false // reverse_cons reverse_involutive //.
Qed.

Lemma byte_succ b : b <> Byte.xff -> Z_of_byte (byte_of_Z (Z_of_byte b + 1)) = (Z_of_byte b + 1)%Z.
Proof.
  intros Hb. rw Z_of_byte_of_Z Z.mod_small //. pose proof (Z_of_byte_range b).
  assert (Z_of_byte b <> 255)%Z; [|lia]. intros E. apply Hb, Z_of_byte_inj. by rw E.
Qed.

Lemma bytes_lt_cons x y a b :
  bytes_lt (x :: a) (y :: b) <->
  (Z_of_byte x < Z_of_byte y)%Z \/ (x = y /\ bytes_lt a b).
Proof.
  unfold bytes_lt. cbn. destruct (Z.compare_spec (Z_of_byte x) (Z_of_byte y)) as [E|E|E].
  - apply Z_of_byte_inj in E as ->. split; [by right|]. intros [?|[_ ?]]; [lia|done].
  - split; [by left|done].
  - split; [done|]. intros [?|[-> ?]]; lia.
Qed.

(** Between a namespace and an extension of it lie only keys of the namespace. *)
Lemma prefix_sandwich p e k :
  ~ bytes_lt k p -> bytes_lt k (p ++ e) -> exists k', k = p ++ k'.
Proof.
  revert k. induction p as [|x p IH]; intros k Hge Hlt; [by exists k|].
  destruct k as [|y k]; [by destruct Hge|]. cbn [app] in Hlt.
  apply bytes_lt_cons in Hlt as [Hlt|[-> Hlt]].
  - destruct Hge. apply bytes_lt_cons. by left.
  - destruct (IH k) as [k' ->]; [|done|by exists k'].
    intros H. apply Hge, bytes_lt_cons. by right.
Qed.

Lemma prefix_interval q b k :
  b <> Byte.xff ->
  ~ bytes_lt k (q ++ [b]) -> bytes_lt k (q ++ [byte_of_Z (Z_of_byte b + 1)]) ->
  exists k', k = (q ++ [b]) ++ k'.
Proof.
  intros Hb Hge Hlt.
  destruct (prefix_sandwich q [byte_of_Z (Z_of_byte b + 1)] k) as [k' ->]; [|done|].
  { intros Hq. apply Hge. eapply bytes_lt_trans; [exact Hq|].
    rw -{1}(app_nil_r q). by apply bytes_lt_app. }
  rw bytes_lt_app in Hge. rw bytes_lt_app in Hlt. destruct k' as [|y k']; [by destruct Hge|].
  rw bytes_lt_cons byte_succ // in Hlt. rw bytes_lt_cons in Hge.
  assert (y = b) as ->.
  { apply Z_of_byte_inj. destruct Hlt as [Hlt|[_ Hlt]]; [|by destruct k'].
    destruct (Z.lt_trichotomy (Z_of_byte y) (Z_of_byte b)) as [?|[?|?]]; [|done|lia].
    destruct Hge. by left. }
  exists k'. by rw -app_assoc.
Qed.

(** The namespaces whose ranges are exact: those whose last byte is not 255. *)
Definition exact_prefix (p : bytes) : Prop := exists q b, p = q ++ [b] /\ b <> Byte.xff.

Lemma prefix_bounds p a b k :
  exact_prefix p ->
  in_bounds (Some (prefix_start p a)) (Some (prefix_end p b)) k = true <->
  exists k', k = p ++ k' /\ in_bounds a b k' = true.
Proof.
  intros (q & c & -> & Hc). unfold in_bounds, ge_start, lt_end, prefix_start, prefix_end, concat.
  rw upper_bound_last // andb_true_iff negb_true_iff bytes_ltb_ge bytes_ltb_lt.
  split.
  - intros [Hs He].
    assert (~ bytes_lt k (q ++ [c])) as Hge.
    { intros Hlt. apply Hs. destruct a as [s|]; [|done].
      destruct (bytes_lt_total (q ++ [c]) ((q ++ [c]) ++ s)) as [?|[<-|Hbad]];
        [by eapply bytes_lt_trans|done|by destruct (bytes_le_app_r _ _ Hbad)]. }
    assert (exists k', k = (q ++ [c]) ++ k') as [k' ->].
    { destruct b as [e|]; [by eapply prefix_sandwich|by apply prefix_interval]. }
    exists k'. split; [done|]. apply andb_true_iff. split.
    + destruct a; [|done]. rw bytes_lt_app in Hs. by apply negb_true_iff, bytes_ltb_ge.
    + destruct b; [|done]. rw bytes_lt_app in He. by apply bytes_ltb_lt.
  - intros (k' & -> & [Hs He]%andb_true_iff). split.
    + destruct a; [|by apply bytes_le_app_r]. by rw bytes_lt_app -bytes_ltb_ge -negb_true_iff.
    + destruct b; [by rw bytes_lt_app -bytes_ltb_lt|].
      rw -app_assoc bytes_lt_app. cbn [app]. apply bytes_lt_cons. left. rw byte_succ //. lia.
Qed.

Lemma trim_app p k : trim p (p ++ k) = Ok k.
Proof.
  unfold trim. rw slice_ok; [|rw length_app; lia].
  rw drop_app_length length_app. f_equal. apply take_ge. lia.
Qed.

(** ** A prefixed store is a store *)

#[export] Instance prefixed_laws {S} `{StorageLaws S} : StorageLaws (PrefixedStorage S).
Proof.
  split; intros [p s] k *; cbn; unfold Prefixed.get, get_with_prefix, concat; cbn.
  - unfold set_with_prefix, concat. rw get_set. repeat case_decide; try done.
    + by apply (inj (app p)) in H1.
    + by subst.
  - unfold remove_with_prefix, concat. rw get_remove. repeat case_decide; try done.
    + by apply (inj (app p)) in H1.
    + by subst.
Qed.

Section PrefixedRange.
Context {S : Type} `{HS : Storage S} {HR : RangeLaws S}.

Definition prefixed_ok (ps : PrefixedStorage S) : Prop :=
  store_ok (inner ps) /\ exact_prefix (prefix ps).

Definition trim_kv (p : bytes) (kv : KV) : KV := (drop (length p) kv.1, kv.2).

Lemma range_with_prefix_eq p l :
  (forall k v, (k, v) ∈ l -> exists k', k = p ++ k') ->
  mapR (fun kv => k ← trim p kv.1; Ok (k, kv.2)) l = Ok (map (trim_kv p) l).
Proof.
  intros Hp. apply mapR_Ok. intros [k v] Hin. destruct (Hp k v Hin) as [k' ->].
  cbn. rw trim_app. cbn. unfold trim_kv. cbn. by rw drop_app_length.
Qed.

Lemma trim_elem p l k v :
  (forall k v, (k, v) ∈ l -> exists k', k = p ++ k') ->
  (k, v) ∈ map (trim_kv p) l <-> (p ++ k, v) ∈ l.
Proof.
  intros Hp. rw list_elem_of_In in_map_iff. split.
  - intros ([k0 v0] & E & Hin%list_elem_of_In). destruct (Hp _ _ Hin) as [k' ->].
    unfold trim_kv in E. cbn in E. rw drop_app_length in E. by simplify_eq.
  - intros Hin. exists (p ++ k, v). split; [|by apply list_elem_of_In].
    unfold trim_kv. cbn. by rw drop_app_length.
Qed.

Lemma trim_sorted p l :
  (forall k v, (k, v) ∈ l -> exists k', k = p ++ k') ->
  btree_ok l -> btree_ok (map (trim_kv p) l).
Proof.
  induction l as [|[k v] l IH]; [done|]. intros Hp [Hs Hf]%sorted_cons_inv. cbn.
  destruct (Hp k v) as [k' ->]; [left|]. unfold trim_kv at 1. cbn. rw drop_app_length.
  assert (forall k v, (k, v) ∈ l -> exists k', k = p ++ k') as Hp' by (intros; eapply Hp; by right).
  apply sorted_cons_intro; [by apply IH|]. intros k2 v2 Hin%trim_elem; [|done].
  apply Hf in Hin. by rw bytes_lt_app in Hin.
Qed.

Lemma prefixed_range_base ps a b :
  prefixed_ok ps ->
  exists l,
    range (inner ps) (Some (prefix_start (prefix ps) a)) (Some (prefix_end (prefix ps) b)) Ascending
      = Ok l /\ btree_ok l /\
    (forall k v, (k, v) ∈ l -> exists k', k = prefix ps ++ k') /\
    (forall k v, (prefix ps ++ k, v) ∈ l <-> Prefixed.get ps k = Some v /\ in_bounds a b k = true).
Proof.
  intros [Hs He]. destruct (range_ascending (inner ps) (Some (prefix_start (prefix ps) a))
    (Some (prefix_end (prefix ps) b)) Hs) as (l & El & Sl & Ml).
  exists l. split_and!; [done..| |].
  - intros k v [_ Hb]%Ml. apply prefix_bounds in Hb as (k' & -> & _); [|done]. by exists k'.
  - intros k v. rw Ml prefix_bounds //. unfold Prefixed.get, get_with_prefix, concat.
    split; intros [Hg Hb]; (split; [done|]); [|by exists k].
    destruct Hb as (k' & E & ?). by apply (inj (app (prefix ps))) in E as ->.
Qed.

#[export] Instance prefixed_range_laws : RangeLaws (PrefixedStorage S).
Proof.
  refine {| store_ok := prefixed_ok |}.
  - intros [p s] k v [Hs He]. split; [|done]. by apply set_ok.
  - intros [p s] k [Hs He]. split; [|done]. by apply remove_ok.
  - intros ps a b Hps. destruct (prefixed_range_base ps a b Hps) as (l & El & Sl & Hp & Ml).
    exists (map (trim_kv (prefix ps)) l). split_and!.
    + cbn. unfold Prefixed.range, range_with_prefix. rw El. cbn [mbind result_bind].
      by apply range_with_prefix_eq.
    + by apply trim_sorted.
    + intros k v. by rw trim_elem.
  - intros ps a b l' Hps. destruct (prefixed_range_base ps a b Hps) as (l & El & Sl & Hp & Ml).
    cbn. unfold Prefixed.range, range_with_prefix.
    rw El (range_descending _ _ _ _ (proj1 Hps) El). cbn [mbind result_bind].
    rw !range_with_prefix_eq //; [|intros k v; rw elem_of_reverse; by apply Hp].
    intros [= <-]. f_equal. apply (fmap_reverse (trim_kv (prefix ps))).
Defined.

End PrefixedRange.

(** ** Properties *)

Lemma new_Ok {S} ns (s : S) ps :
  Prefixed.new ns s = Ok ps <-> to_length_prefixed ns = Ok (prefix ps) /\ inner ps = s.
Proof.
  unfold Prefixed.new. destruct (to_length_prefixed ns) as [p| |]; cbn.
  2-3: split; [done|by intros [? _]].
  split; [intros [= <-]; done|]. destruct ps. cbn. by intros [[= ->] ->].
Qed.

(** C35: Writing through a PrefixedStorage of one namespace never changes what a PrefixedStorage
    of a different namespace reads. *)
Theorem namespaces_isolated {S} `{StorageLaws S} (s : S) n1 n2 ps1 ps2 ps2' k v k2 :
  n1 <> n2 ->
  Prefixed.new n1 s = Ok ps1 -> Prefixed.new n2 s = Ok ps2 ->
  Prefixed.new n2 (inner (set ps1 k v)) = Ok ps2' ->
  get ps2' k2 = get ps2 k2.
Proof.
  intros Hne [Hp1 <-]%new_Ok [Hp2 E2]%new_Ok [Hp2' E]%new_Ok.
  rw Hp2 in Hp2'. injection Hp2' as Hpp. cbn. unfold Prefixed.get, get_with_prefix, concat.
  rw E -Hpp E2. cbn. unfold set_with_prefix, concat. rw get_set. case_decide as Hk; [|done].
  destruct Hne. by destruct (length_prefixed_inj _ _ _ _ _ _ Hp1 Hp2 Hk).
Qed.

Lemma nested_app l1 l2 p1 p2 :
  to_length_prefixed_nested l1 = Ok p1 -> to_length_prefixed_nested l2 = Ok p2 ->
  to_length_prefixed_nested (l1 ++ l2) = Ok (p1 ++ p2).
Proof.
  revert p1. induction l1 as [|n l1 IH]; intros p1 H1 H2; cbn [app].
  - cbn in H1. by simplify_eq.
  - apply nested_cons_Ok in H1 as (q1 & q2 & Hn & Hl & ->).
    apply nested_cons_Ok. exists q1, (q2 ++ p2). rw -app_assoc. auto.
Qed.

(** Two nested namespaces can share a raw key only when one path of namespaces is a prefix of
    the other. *)
Theorem nested_namespaces_collide_only_when_nested l1 l2 p1 p2 k1 k2 :
  to_length_prefixed_nested l1 = Ok p1 -> to_length_prefixed_nested l2 = Ok p2 ->
  p1 ++ k1 = p2 ++ k2 -> l1 `prefix_of` l2 \/ l2 `prefix_of` l1.
Proof.
  revert l2 p1 p2. induction l1 as [|n1 l1 IH]; intros l2 p1 p2 H1 H2 E.
  - left. apply prefix_nil.
  - destruct l2 as [|n2 l2]; [right; apply prefix_nil|].
    apply nested_cons_Ok in H1 as (q1 & r1 & Hn1 & Hl1 & ->).
    apply nested_cons_Ok in H2 as (q2 & r2 & Hn2 & Hl2 & ->).
    rw -!app_assoc in E. destruct (length_prefixed_inj _ _ _ _ _ _ Hn1 Hn2 E) as [-> E'].
    destruct (IH l2 r1 r2 Hl1 Hl2 E'); [left|right]; by apply prefix_cons.
Qed.

(** A PrefixedStorage over a PrefixedStorage reads, writes and removes exactly as the multilevel
    store of the two namespaces. *)
Theorem nested_is_multilevel {S} `{Storage S} (s : S) outer inner_ns ps pps mps k v :
  Prefixed.new outer s = Ok ps -> Prefixed.new inner_ns ps = Ok pps ->
  Prefixed.multilevel [outer; inner_ns] s = Ok mps ->
  get pps k = get mps k /\
  inner (inner (set pps k v)) = inner (set mps k v) /\
  inner (inner (remove pps k)) = inner (remove mps k).
Proof.
  intros [Hp <-]%new_Ok [Hq E]%new_Ok. unfold Prefixed.multilevel.
  assert (to_length_prefixed_nested [outer; inner_ns] = Ok (prefix ps ++ prefix pps)) as ->.
  { apply nested_cons_Ok. exists (prefix ps), (prefix pps). split_and!; [done| |done].
    apply nested_cons_Ok. exists (prefix pps), []. by rw app_nil_r. }
  intros [= <-]. destruct pps as [q ps']. cbn in *. subst ps'.
  unfold Prefixed.get, get_with_prefix, set_with_prefix, remove_with_prefix, concat. cbn.
  unfold Prefixed.get, Prefixed.set, Prefixed.remove, get_with_prefix, set_with_prefix,
    remove_with_prefix, concat. cbn. by rw app_assoc.
Qed.

(** A range over a namespace whose prefix does not end in byte 255 lists exactly the bindings of
    the namespace within the bounds, each once, in key order, and the descending range is
    its reverse. *)
Theorem prefixed_range_exact {S} `{Storage S, !RangeLaws S} (s : S) ns ps a b :
  store_ok s -> Prefixed.new ns s = Ok ps -> exact_prefix (prefix ps) ->
  exists l, range ps a b Ascending = Ok l /\ range ps a b Descending = Ok (reverse l) /\
    StronglySorted bytes_lt (l.*1) /\
    forall k v, (k, v) ∈ l <-> get ps k = Some v /\ in_bounds a b k = true.
Proof.
  intros Hs [Hp <-]%new_Ok He.
  assert (store_ok ps) as Hok by (by split).
  destruct (range_ascending ps a b Hok) as (l & El & Sl & Ml).
  exists l. split_and!; [done| |done..]. by apply (range_descending ps a b l Hok).
Qed.

(** The prefix of a namespace of one 0xFF byte, and a two-byte key outside it. *)
Definition stray : MemoryStorage := set Memory.new [Byte.x00; Byte.x02] (lit "v").

(** For the one-byte namespace 255 an unbounded range reaches a key outside the namespace and
    panics in trim, although every get through the namespace finds nothing. *)
Theorem prefixed_range_leaves_namespace :
  exists ps, Prefixed.new [Byte.xff] stray = Ok ps /\
    (forall k, get ps k = None) /\ range ps None None Ascending = Panic.
Proof.
  eexists. split; [reflexivity|]. split; [|by vm_compute].
  intros k. cbn. unfold Prefixed.get, get_with_prefix, concat. cbn.
  unfold Memory.get. cbn. by rw bool_decide_false.
Qed.

Lemma increment_from_end_ff n :
  increment_from_end (replicate n Byte.xff) = replicate n Byte.x00.
Proof. induction n as [|n IH]; cbn [replicate increment_from_end]; [done|]. by rw bool_decide_true // IH. Qed.

Lemma bytes_cmp_zeros_ff n k : ~ bytes_lt k (replicate n Byte.xff) -> ~ bytes_lt k (replicate n Byte.x00).
Proof.
  destruct n as [|n]; [done|]. destruct k as [|x k]; [intros H; by destruct H|].
  cbn [replicate]. rw !bytes_lt_cons. intros H [Hx|[-> _]].
  - pose proof (Z_of_byte_range x). change (Z_of_byte Byte.x00) with 0%Z in Hx. lia.
  - apply H. left. by vm_compute.
Qed.

(** A namespace of 65535 bytes 255 has an all-255 prefix, and then a range over it returns
    nothing even right after a value was stored in it. *)
Theorem all_ff_namespace_ranges_empty {S} `{StorageLaws S, !RangeLaws S} (s : S) k v o :
  store_ok s ->
  exists ps, Prefixed.new (replicate (Z.to_nat 65535) Byte.xff) s = Ok ps /\
    get (set ps k v) k = Some v /\ range (set ps k v) None None o = Ok [].
Proof.
  intros Hs. set (n := Z.to_nat 65535).
  assert (Z.of_nat n = 65535%Z) as Hn by lia. clearbody n.
  assert (to_length_prefixed (replicate n Byte.xff) = Ok (replicate (2 + n) Byte.xff)) as Hp.
  { apply to_length_prefixed_Ok. rw length_replicate Hn. split; [done|]. reflexivity. }
  exists (mkPrefixed (replicate (2 + n) Byte.xff) s). unfold Prefixed.new. rw Hp.
  split; [done|]. split; [rw get_set; by case_decide|].
  cbn [set prefixed_storage]. unfold Prefixed.set. cbn [range prefixed_storage].
  unfold Prefixed.range, range_with_prefix. cbn [prefix_start prefix_end inner prefix].
  set (s' := set_with_prefix _ _ _ _). assert (store_ok s') as Hs' by (by apply set_ok).
  set (p := replicate (2 + n) Byte.xff).
  destruct (range_ascending s' (Some p) (Some (namespace_upper_bound p)) Hs') as (l & El & Sl & Ml).
  assert (l = []) as ->.
  { destruct l as [|[k1 v1] l]; [done|]. destruct (Ml k1 v1) as [Hin _].
    destruct Hin as [_ [Hge Hlt]%andb_true_iff]; [left|]. exfalso.
    apply negb_true_iff, bytes_ltb_ge in Hge. apply bytes_ltb_lt in Hlt.
    unfold namespace_upper_bound, p in Hlt.
    rw reverse_replicate increment_from_end_ff reverse_replicate in Hlt.
    by apply bytes_cmp_zeros_ff in Hge. }
  destruct o; [by rw El|]. by rw (range_descending _ _ _ _ Hs' El).
Qed.

Lemma namespaces_isolated_witness :
  get (mkPrefixed (be_bytes 2 3 ++ lit "bar")
         (inner (set (mkPrefixed (be_bytes 2 3 ++ lit "foo") Memory.new) (lit "k") (lit "v"))))
      (lit "k") = None.
Proof.
  refine (namespaces_isolated Memory.new (lit "foo") (lit "bar")
        (mkPrefixed (be_bytes 2 3 ++ lit "foo") Memory.new)
        (mkPrefixed (be_bytes 2 3 ++ lit "bar") Memory.new)
        (mkPrefixed (be_bytes 2 3 ++ lit "bar")
           (inner (set (mkPrefixed (be_bytes 2 3 ++ lit "foo") Memory.new) (lit "k") (lit "v"))))
        (lit "k") (lit "v") (lit "k") _ _ _ _); done.
Defined.

Lemma nested_namespaces_collide_only_when_nested_witness :
  [lit "a"] `prefix_of` [lit "a"; lit "b"] \/ [lit "a"; lit "b"] `prefix_of` [lit "a"].
Proof.
  apply (nested_namespaces_collide_only_when_nested [lit "a"] [lit "a"; lit "b"]
           (be_bytes 2 1 ++ lit "a") (be_bytes 2 1 ++ lit "a" ++ be_bytes 2 1 ++ lit "b")
           (be_bytes 2 1 ++ lit "b" ++ lit "k") (lit "k")); reflexivity.
Defined.

Lemma nested_is_multilevel_witness :
  get (mkPrefixed (be_bytes 2 1 ++ lit "b") (mkPrefixed (be_bytes 2 1 ++ lit "a") stray)) (lit "k") =
  get (mkPrefixed (be_bytes 2 1 ++ lit "a" ++ be_bytes 2 1 ++ lit "b") stray) (lit "k").
Proof.
  refine (proj1 (nested_is_multilevel stray (lit "a") (lit "b")
            (mkPrefixed (be_bytes 2 1 ++ lit "a") stray)
            (mkPrefixed (be_bytes 2 1 ++ lit "b") (mkPrefixed (be_bytes 2 1 ++ lit "a") stray))
            _ (lit "k") (lit "v") _ _ _)); reflexivity.
Defined.

Lemma prefixed_range_exact_witness :
  exists l, range (mkPrefixed (be_bytes 2 1 ++ lit "a") stray) None None Ascending = Ok l.
Proof.
  destruct (prefixed_range_exact stray (lit "a") (mkPrefixed (be_bytes 2 1 ++ lit "a") stray)
              None None) as (l & E & _).
  - apply set_ok. constructor.
  - reflexivity.
  - by exists (be_bytes 2 1), Byte.x61.
  - by exists l.
Defined.

Lemma all_ff_namespace_ranges_empty_witness :
  exists ps : PrefixedStorage MemoryStorage,
    range (set ps (lit "k") (lit "v")) None None Ascending = Ok [].
Proof.
  destruct (all_ff_namespace_ranges_empty Memory.new (lit "k") (lit "v") Ascending)
    as (ps & _ & _ & E); [constructor|]. by exists ps.
Defined.
