(* ===== verification/Typed.v ===== *)
(** * Typed access to storage: cosmwasm/packages/storage/src

    type_helpers.rs, typed.rs, singleton.rs, bucket.rs and sequence.rs.  The JSON
    codec (the crate serde-json-wasm, called through std/src/serde.rs) is the class
    [Serde]; that decoding inverts encoding is the class [SerdeLaws].  A handle that
    borrows the store mutably is its key or prefix; its methods run in [M S StdError]. *)

From stdpp Require Import base tactics list numbers strings countable ssreflect sorting.
From S2P Require Import Prelude Math Storage Prefixed.

Class Serde (T : Type) : Type := {
  to_vec : T -> StdResult bytes;
  from_slice : bytes -> StdResult T;
  type_name : string
}.
#[global] Hint Mode Serde + : typeclass_instances.

Class SerdeLaws (T : Type) `{Serde T} : Prop := {
  from_to (x : T) b : to_vec x = Ok b -> from_slice b = Ok x
}.

(** A codec to run the models with: a [u64] as its eight big-endian bytes. *)
Definition demo_serde_u64 : Serde Z := {|
  to_vec z :=
    if (0 <=? z)%Z && (z <=? U64_MAX)%Z then Ok (be_bytes 8 z) else Err (generic_err "range");
  from_slice b := Ok (from_be_bytes b);
  type_name := "u64"
|}.

Lemma demo_serde_u64_laws : SerdeLaws Z (H := demo_serde_u64).
Proof.
  constructor. intros z b. cbn [to_vec from_slice demo_serde_u64]. destruct ((0 <=? z)%Z && (z <=? U64_MAX)%Z) eqn:Hz; [|done].
  intros [= <-]. apply andb_true_iff in Hz as [?%Z.leb_le Hm%Z.leb_le]. unfold U64_MAX in Hm.
  f_equal. change (from_be_bytes (be_bytes 8 z) = z). rw from_to_be_bytes Z.mod_small //. cbn. lia.
Qed.

Lemma demo_u64_total z :
  (0 <= z <= U64_MAX)%Z -> exists v, @to_vec Z demo_serde_u64 z = Ok v.
Proof.
  intros [? ?]. cbn [to_vec demo_serde_u64]. rw (proj2 (Z.leb_le 0 z)) // (proj2 (Z.leb_le z _)) //. by eexists.
Qed.

(** A codec for any countable type: the bits of its number, one per byte. *)
Fixpoint bits_of (p : positive) : bytes :=
  match p with
  | xH => []
  | xO q => Byte.x00 :: bits_of q
  | xI q => Byte.x01 :: bits_of q
  end.
Fixpoint of_bits (l : bytes) : positive :=
  match l with
  | [] => xH
  | b :: l' => if bool_decide (b = Byte.x00) then xO (of_bits l') else xI (of_bits l')
  end.

Lemma of_bits_of p : of_bits (bits_of p) = p.
Proof. induction p as [p IH|p IH|]; cbn; [by rw IH|by rw IH|done]. Qed.

Definition countable_serde (name : string) (T : Type) `{Countable T} : Serde T := {|
  to_vec x := Ok (bits_of (encode x));
  from_slice b := match decode (of_bits b) with
                  | Some x => Ok x
                  | None => Err (ParseErr name "not a code")
                  end;
  type_name := name
|}.

Lemma countable_serde_laws name T `{Countable T} : SerdeLaws T (H := countable_serde name T).
Proof. constructor. intros x b [= <-]. cbn. by rw of_bits_of decode_encode. Qed.

(** ** type_helpers.rs *)

Definition may_deserialize {T} `{Serde T} (value : option bytes) : StdResult (option T) :=
  match value with
  | Some vec => t ← from_slice vec; Ok (Some t)
  | None => Ok None
  end.

Definition must_deserialize {T} `{Serde T} (value : option bytes) : StdResult T :=
  match value with
  | Some vec => from_slice vec
  | None => Err (NotFound (type_name (T:=T)))
  end.

Definition deserialize_kv {T} `{Serde T} (kv : KV) : StdResult (bytes * T) :=
  t ← from_slice kv.2; Ok (kv.1, t).

(** ** typed.rs *)

Module Typed.
Section Typed.
Context {S : Type} `{Storage S} {T : Type} `{Serde T}.

Definition save (key : bytes) (data : T) : M S StdError unit :=
  v ← liftR (to_vec data); modifyS (fun s => set s key v).

Definition load (s : S) (key : bytes) : StdResult T := must_deserialize (get s key).

Definition may_load (s : S) (key : bytes) : StdResult (option T) := may_deserialize (get s key).

(** The items of the typed iterator, each decoded on its own. *)
Definition range (s : S) (start end_ : option bytes) (o : Order)
  : StdResult (list (StdResult (bytes * T))) :=
  items ← range s start end_ o; Ok (map deserialize_kv items).

Definition update (key : bytes) (action : option T -> StdResult T) : M S StdError T :=
  input ← readS (fun s => may_load s key);
  output ← liftR (action input);
  _ ← save key output;
  mret output.

End Typed.
End Typed.

(** ** singleton.rs *)

Module Singleton.
Section Singleton.
Context {S : Type} `{Storage S} {T : Type} `{Serde T}.

(** [Singleton::new]: the handle is the length-prefixed key. *)
Definition new (key : bytes) : StdResult bytes := to_length_prefixed key.

Definition save (key : bytes) (data : T) : M S StdError unit :=
  v ← liftR (to_vec data); modifyS (fun s => set s key v).

Definition remove (key : bytes) : M S StdError unit := modifyS (fun s => Storage.remove s key).

Definition load (s : S) (key : bytes) : StdResult T := must_deserialize (get s key).

Definition may_load (s : S) (key : bytes) : StdResult (option T) := may_deserialize (get s key).

Definition update (key : bytes) (action : T -> StdResult T) : M S StdError T :=
  input ← readS (fun s => load s key);
  output ← liftR (action input);
  _ ← save key output;
  mret output.

End Singleton.
End Singleton.

(** ** bucket.rs *)

Module Bucket.
Section Bucket.
Context {S : Type} `{Storage S} {T : Type} `{Serde T}.

(** [Bucket::new] and [Bucket::multilevel]: the handle is the prefix. *)
Definition new (namespace : bytes) : StdResult bytes := to_length_prefixed namespace.
Definition multilevel (namespaces : list bytes) : StdResult bytes :=
  to_length_prefixed_nested namespaces.

Definition save (prefix key : bytes) (data : T) : M S StdError unit :=
  v ← liftR (to_vec data); modifyS (fun s => set_with_prefix s prefix key v).

Definition remove (prefix key : bytes) : M S StdError unit :=
  modifyS (fun s => remove_with_prefix s prefix key).

Definition load (s : S) (prefix key : bytes) : StdResult T :=
  must_deserialize (get_with_prefix s prefix key).

Definition may_load (s : S) (prefix key : bytes) : StdResult (option T) :=
  may_deserialize (get_with_prefix s prefix key).

Definition range (s : S) (prefix : bytes) (start end_ : option bytes) (o : Order)
  : StdResult (list (StdResult (bytes * T))) :=
  items ← range_with_prefix s prefix start end_ o; Ok (map deserialize_kv items).

Definition update (prefix key : bytes) (action : option T -> StdResult T) : M S StdError T :=
  input ← readS (fun s => may_load s prefix key);
  output ← liftR (action input);
  _ ← save prefix key output;
  mret output.

End Bucket.
End Bucket.

(** ** sequence.rs *)

Module Sequence.
Section Sequence.
Context {S : Type} `{Storage S} `{Serde Z}.

(** A [u64] counter kept in a singleton; [Z] carries the [u64]. *)
Definition sequence (key : bytes) : StdResult bytes := Singleton.new key.

Definition currval (s : S) (seq : bytes) : StdResult Z :=
  v ← Singleton.may_load s seq; Ok (default 0%Z v).

Definition nextval (seq : bytes) : M S StdError Z :=
  cur ← readS (fun s => currval s seq);
  val ← liftR (arith U64_MAX (cur + 1));
  _ ← Singleton.save seq val;
  mret val.

(** [n] calls of [nextval]: the values returned, in order. *)
Fixpoint nextvals (n : nat) (seq : bytes) : M S StdError (list Z) :=
  match n with
  | O => mret []
  | Datatypes.S n' => v ← nextval seq; vs ← nextvals n' seq; mret (v :: vs)
  end.

End Sequence.
End Sequence.

(** ** Lemmas *)

Section TypedLemmas.
Context {S : Type} `{HS : Storage S} {HL : StorageLaws S}.
Context {T : Type} `{HT : Serde T} {HD : SerdeLaws T}.

(** The store after a successful [update] of a bucket, and after a failed one. *)
Lemma bucket_update_cases p k (action : option T -> StdResult T) (s : S) :
  (exists input output v,
     Bucket.may_load s p k = Ok input /\ action input = Ok output /\ to_vec output = Ok v /\
     Bucket.update p k action s = (set_with_prefix s p k v, Ok output)) \/
  (fst (Bucket.update p k action s) = s /\
   is_ok (snd (Bucket.update p k action s)) = false).
Proof.
  cbv [Bucket.update mbind M_bind readS liftR Bucket.save modifyS mret M_ret].
  destruct (Bucket.may_load s p k) as [input| |]; [|by right..].
  destruct (action input) as [output| |] eqn:Ha; [|by right..].
  destruct (to_vec output) as [v| |] eqn:Hv; [|by right..].
  left. by exists input, output, v.
Qed.

Lemma bucket_load_after_save p k k' v (x : T) (s : S) :
  to_vec x = Ok v ->
  Bucket.may_load (set_with_prefix s p k v) p k' =
  if decide (k = k') then Ok (Some x) else Bucket.may_load s p k'.
Proof.
  intros Hv. unfold Bucket.may_load, get_with_prefix, set_with_prefix, concat. rw get_set.
  repeat case_decide; try done.
  - cbn. by rw (from_to _ _ Hv).
  - by apply (inj (app p)) in H.
  - by subst.
Qed.

End TypedLemmas.

(** ** Properties *)

(** When Bucket::update succeeds, it loaded the old value, the action mapped it to the returned
    one, the bucket now holds that value at the key, and nothing else of the bucket or of
    the store changed. *)
Theorem bucket_update_correct {S T} `{StorageLaws S, Serde T, !SerdeLaws T}
    p k (action : option T -> StdResult T) (s s' : S) output :
  Bucket.update p k action s = (s', Ok output) ->
  (exists input, Bucket.may_load s p k = Ok input /\ action input = Ok output) /\
  Bucket.may_load s' p k = Ok (Some output) /\
  (forall k', k' <> k -> Bucket.may_load (T:=T) s' p k' = Bucket.may_load s p k') /\
  (forall key, ~ p `prefix_of` key -> get s' key = get s key).
Proof.
  intros Hu. destruct (bucket_update_cases p k action s) as [(i & o & v & Hi & Ha & Hv & E)|[_ E]];
    rw Hu in E; [|done]. injection E as -> ->.
  split; [by exists i|]. split; [by rw (bucket_load_after_save _ _ _ _ o) // decide_True|].
  split; [intros k' Hk; rw (bucket_load_after_save _ _ _ _ o) // decide_False //|].
  intros key Hp. unfold set_with_prefix, concat. rw get_set. case_decide as E; [|done].
  destruct Hp. exists k. by symmetry.
Qed.

(** When Bucket::update fails or panics, the store is unchanged. *)
Theorem bucket_update_error_keeps_store {S T} `{Storage S, Serde T}
    p k (action : option T -> StdResult T) (s s' : S) r :
  Bucket.update p k action s = (s', r) -> is_ok r = false -> s' = s.
Proof.
  intros Hu Hr. destruct (bucket_update_cases p k action s) as [(i & o & v & _ & _ & _ & E)|[E _]];
    rw Hu in E; by simplify_eq/=.
Qed.

(** Bucket::update creates the key when nothing was stored there and the action accepts None. *)
Theorem bucket_update_creates_missing {S T} `{StorageLaws S, Serde T, !SerdeLaws T}
    p k (action : option T -> StdResult T) (s : S) x v :
  Bucket.may_load (T:=T) s p k = Ok None -> action None = Ok x -> to_vec x = Ok v ->
  exists s', Bucket.update p k action s = (s', Ok x) /\ Bucket.load s' p k = Ok x.
Proof.
  intros Hl Ha Hv. exists (set_with_prefix s p k v).
  cbv [Bucket.update mbind M_bind readS liftR Bucket.save modifyS mret M_ret].
  rw Hl Ha Hv. split; [done|]. unfold Bucket.load, get_with_prefix, set_with_prefix.
  rw get_set decide_True //. cbn. by apply from_to.
Qed.

(** When Singleton::update succeeds, it loaded the old value, the action mapped it to the
    returned one, the key now holds that value and no other key changed. *)
Theorem singleton_update_correct {S T} `{StorageLaws S, Serde T, !SerdeLaws T}
    key (action : T -> StdResult T) (s s' : S) output :
  Singleton.update key action s = (s', Ok output) ->
  (exists input, Singleton.load s key = Ok input /\ action input = Ok output) /\
  Singleton.load s' key = Ok output /\
  (forall key', key' <> key -> get s' key' = get s key').
Proof.
  cbv [Singleton.update mbind M_bind readS liftR Singleton.save modifyS mret M_ret].
  destruct (Singleton.load s key) as [input| |] eqn:Hl; [|done..].
  destruct (action input) as [o| |] eqn:Ha; [|done..].
  destruct (to_vec o) as [v| |] eqn:Hv; [|done..]. intros [= <- <-].
  split; [by exists input|]. unfold Singleton.load. split.
  - rw get_set decide_True //. cbn. by apply from_to.
  - intros key' Hk. by rw get_set decide_False.
Qed.

Section SequenceCorrect.
Context {S : Type} `{HS : Storage S} {HL : StorageLaws S}.
Context `{HT : Serde Z} {HD : SerdeLaws Z}.
Hypothesis u64_encodes : forall z, (0 <= z <= U64_MAX)%Z -> exists v, to_vec z = Ok v.

Lemma nextval_spec seq (s : S) n :
  Sequence.currval s seq = Ok n -> (0 <= n < U64_MAX)%Z ->
  exists s', Sequence.nextval seq s = (s', Ok (n + 1)%Z) /\
    Sequence.currval s' seq = Ok (n + 1)%Z.
Proof.
  intros Hn Hr. destruct (u64_encodes (n + 1)) as [v Hv]; [lia|].
  exists (set s seq v).
  cbv [Sequence.nextval mbind M_bind readS liftR Singleton.save modifyS mret M_ret].
  rw Hn arith_in_range; [|lia]. rw Hv. split; [done|].
  unfold Sequence.currval, Singleton.may_load. rw get_set decide_True //.
  cbn. by rw (from_to _ _ Hv).
Qed.

Lemma nextvals_spec n seq (s : S) cur :
  Sequence.currval s seq = Ok cur -> (0 <= cur)%Z -> (cur + Z.of_nat n <= U64_MAX)%Z ->
  exists s', Sequence.nextvals n seq s = (s', Ok (seqZ (cur + 1) (Z.of_nat n))) /\
    Sequence.currval s' seq = Ok (cur + Z.of_nat n)%Z.
Proof.
  revert s cur. induction n as [|n IH]; intros s cur Hc H0 Hb.
  - exists s. split; [done|]. by rw Z.add_0_r.
  - destruct (nextval_spec seq s cur Hc) as (s1 & E1 & Hc1); [lia|].
    destruct (IH s1 (cur + 1)%Z Hc1) as (s2 & E2 & Hc2); [lia..|].
    exists s2. cbn [Sequence.nextvals]. cbv [mbind M_bind]. rw E1. cbv beta iota. rw E2.
    split; [|rw Hc2; f_equal; lia].
    rw (seqZ_cons (cur + 1) (Z.of_nat (Datatypes.S n))); [|lia]. cbv [mret M_ret].
    repeat f_equal; lia.
Qed.

End SequenceCorrect.

(** From an empty key, n calls of nextval return 1, 2, ..., n and currval then returns n, for
    every n up to the largest u64. *)
Theorem sequence_counts {S} `{StorageLaws S, Serde Z, !SerdeLaws Z} n seq (s : S) :
  (forall z, (0 <= z <= U64_MAX)%Z -> exists v, to_vec z = Ok v) ->
  get s seq = None -> (Z.of_nat n <= U64_MAX)%Z ->
  exists s', Sequence.nextvals n seq s = (s', Ok (seqZ 1 (Z.of_nat n))) /\
    Sequence.currval s' seq = Ok (Z.of_nat n).
Proof.
  intros Henc Hn Hb. apply (nextvals_spec Henc n seq s 0); [|lia..].
  unfold Sequence.currval, Singleton.may_load. by rw Hn.
Qed.

(** ** The properties at a concrete store of [u64]s *)

#[local] Existing Instance demo_serde_u64.
#[local] Existing Instance demo_serde_u64_laws.

Definition demo_bucket : bytes := be_bytes 2 1 ++ lit "b".
Definition demo_add_one (o : option Z) : StdResult Z := Ok (default 0%Z o + 1)%Z.
Definition demo_store : MemoryStorage := set Memory.new (demo_bucket ++ lit "k") (be_bytes 8 41).

Lemma bucket_update_correct_witness :
  Bucket.may_load (set demo_store (demo_bucket ++ lit "k") (be_bytes 8 42)) demo_bucket (lit "k")
  = Ok (Some 42%Z).
Proof.
  apply (bucket_update_correct demo_bucket (lit "k") demo_add_one demo_store
           (set demo_store (demo_bucket ++ lit "k") (be_bytes 8 42)) 42%Z). by vm_compute.
Defined.

Lemma bucket_update_error_keeps_store_witness :
  (Bucket.update demo_bucket (lit "k") (fun _ : option Z => Err (generic_err "no")) demo_store).1
  = demo_store.
Proof.
  apply (bucket_update_error_keeps_store demo_bucket (lit "k")
           (fun _ : option Z => Err (generic_err "no")) demo_store _ (Err (generic_err "no")));
    by vm_compute.
Defined.

Lemma bucket_update_creates_missing_witness :
  exists s', Bucket.update demo_bucket (lit "new") demo_add_one demo_store = (s', Ok 1%Z) /\
             Bucket.load s' demo_bucket (lit "new") = Ok 1%Z.
Proof.
  apply (bucket_update_creates_missing demo_bucket (lit "new") demo_add_one demo_store 1%Z
           (be_bytes 8 1)); by vm_compute.
Defined.

Lemma singleton_update_correct_witness :
  Singleton.load (set demo_store (demo_bucket ++ lit "k") (be_bytes 8 42)) (demo_bucket ++ lit "k")
  = Ok 42%Z.
Proof.
  apply (singleton_update_correct (demo_bucket ++ lit "k") (fun z => Ok (z + 1)%Z) demo_store
           (set demo_store (demo_bucket ++ lit "k") (be_bytes 8 42)) 42%Z). by vm_compute.
Defined.

Lemma sequence_counts_witness :
  exists s', Sequence.nextvals 3 (lit "seq") demo_store = (s', Ok [1; 2; 3]%Z).
Proof.
  destruct (sequence_counts 3 (lit "seq") demo_store demo_u64_total) as (s' & E & _);
    [by vm_compute|done|]. by exists s'.
Defined.
