(* ===== verification/Handles.v ===== *)
(** * Handles on a store: cosmwasm/packages/storage/src

    The read-only halves of prefixed_storage.rs, typed.rs, singleton.rs and bucket.rs and
    the helper functions that build handles.  A read-only handle borrows a store that only
    promises [ReadonlyStorage], and keeps the reference beside its prefix or key; a mutable
    one is the prefix or key alone, as in Typed.v, because its methods thread the store.

    What is shown: a read-only handle reads what the mutable one on the same name wrote
    (and nothing a handle on another name wrote), and a bucket or a singleton behaves as
    the combination of a prefixed store with a typed one that the comment on [Singleton]
    announces. *)

From stdpp Require Import base tactics list numbers strings countable ssreflect sorting.
From S2P Require Import Prelude Math Storage Prefixed Typed.

(** ** The reading half of the storage trait *)

Class ReadonlyStorage (S : Type) : Type := {
  ro_get : S -> bytes -> option bytes;
  ro_range : S -> option bytes -> option bytes -> Order -> StdResult (list KV)
}.

(** [trait Storage: ReadonlyStorage]. *)
#[export] Instance storage_is_readonly {S} `{Storage S} : ReadonlyStorage S := {|
  ro_get := get;
  ro_range := range
|}.

(** ** namespace_helpers.rs, at a store that can only be read *)

Section ReadonlyHelpers.
Context {S : Type} `{ReadonlyStorage S}.

Definition ro_get_with_prefix (storage : S) (namespace key : bytes) : option bytes :=
  ro_get storage (concat namespace key).

Definition ro_range_with_prefix (storage : S) (namespace : bytes) (start end_ : option bytes)
    (o : Order) : StdResult (list KV) :=
  base_iterator ← ro_range storage (Some (prefix_start namespace start))
                                   (Some (prefix_end namespace end_)) o;
  mapR (fun kv => k ← trim namespace kv.1; Ok (k, kv.2)) base_iterator.

End ReadonlyHelpers.

(** ** prefixed_storage.rs *)

Record ReadonlyPrefixedStorage (S : Type) : Type := mkReadonlyPrefixed {
  ro_prefix : bytes;
  ro_inner : S
}.
Arguments mkReadonlyPrefixed {S} _ _.
Arguments ro_prefix {S} _.
Arguments ro_inner {S} _.

Module ReadonlyPrefixed.
Section ReadonlyPrefixed.
Context {S : Type} `{ReadonlyStorage S}.

Definition new (namespace : bytes) (storage : S) : StdResult (ReadonlyPrefixedStorage S) :=
  p ← to_length_prefixed namespace; Ok (mkReadonlyPrefixed p storage).

Definition multilevel (namespaces : list bytes) (storage : S)
  : StdResult (ReadonlyPrefixedStorage S) :=
  p ← to_length_prefixed_nested namespaces; Ok (mkReadonlyPrefixed p storage).

Definition get (ps : ReadonlyPrefixedStorage S) (key : bytes) : option bytes :=
  ro_get_with_prefix (ro_inner ps) (ro_prefix ps) key.

Definition range (ps : ReadonlyPrefixedStorage S) (start end_ : option bytes) (o : Order)
  : StdResult (list KV) :=
  ro_range_with_prefix (ro_inner ps) (ro_prefix ps) start end_ o.

End ReadonlyPrefixed.
End ReadonlyPrefixed.

#[export] Instance readonly_prefixed_storage {S} `{ReadonlyStorage S}
  : ReadonlyStorage (ReadonlyPrefixedStorage S) := {|
  ro_get := ReadonlyPrefixed.get;
  ro_range := ReadonlyPrefixed.range
|}.

Definition prefixed_read {S} (prefix : bytes) (storage : S) : StdResult (ReadonlyPrefixedStorage S) :=
  ReadonlyPrefixed.new prefix storage.

Definition prefixed {S} (prefix : bytes) (storage : S) : StdResult (PrefixedStorage S) :=
  Prefixed.new prefix storage.

(** ** typed.rs *)

(** [PhantomData] carries no data: the type parameter is the phantom here too. *)
Record ReadonlyTypedStorage (S T : Type) : Type := mkReadonlyTyped { rt_storage : S }.
Arguments mkReadonlyTyped {S T} _.
Arguments rt_storage {S T} _.

Module ReadonlyTyped.
Section ReadonlyTyped.
Context {S : Type} `{ReadonlyStorage S} {T : Type} `{Serde T}.

Definition new (storage : S) : ReadonlyTypedStorage S T := mkReadonlyTyped storage.

Definition load (ts : ReadonlyTypedStorage S T) (key : bytes) : StdResult T :=
  must_deserialize (ro_get (rt_storage ts) key).

Definition may_load (ts : ReadonlyTypedStorage S T) (key : bytes) : StdResult (option T) :=
  may_deserialize (ro_get (rt_storage ts) key).

Definition range (ts : ReadonlyTypedStorage S T) (start end_ : option bytes) (o : Order)
  : StdResult (list (StdResult (bytes * T))) :=
  items ← ro_range (rt_storage ts) start end_ o; Ok (map deserialize_kv items).

End ReadonlyTyped.
End ReadonlyTyped.

Definition typed_read {S T} (storage : S) : ReadonlyTypedStorage S T := ReadonlyTyped.new storage.

(** ** singleton.rs *)

Record ReadonlySingletonStorage (S T : Type) : Type := mkReadonlySingleton {
  rs_storage : S;
  rs_key : bytes
}.
Arguments mkReadonlySingleton {S T} _ _.
Arguments rs_storage {S T} _.
Arguments rs_key {S T} _.

Module ReadonlySingleton.
Section ReadonlySingleton.
Context {S : Type} `{ReadonlyStorage S} {T : Type} `{Serde T}.

Definition new (storage : S) (key : bytes) : StdResult (ReadonlySingletonStorage S T) :=
  k ← to_length_prefixed key; Ok (mkReadonlySingleton storage k).

Definition load (ss : ReadonlySingletonStorage S T) : StdResult T :=
  must_deserialize (ro_get (rs_storage ss) (rs_key ss)).

Definition may_load (ss : ReadonlySingletonStorage S T) : StdResult (option T) :=
  may_deserialize (ro_get (rs_storage ss) (rs_key ss)).

End ReadonlySingleton.
End ReadonlySingleton.

Definition singleton_read {S T} (storage : S) (key : bytes)
  : StdResult (ReadonlySingletonStorage S T) := ReadonlySingleton.new storage key.

(** The handle of the mutable singleton is its key. *)
Definition singleton (key : bytes) : StdResult bytes := Singleton.new key.

(** ** bucket.rs *)

Record ReadonlyBucketStorage (S T : Type) : Type := mkReadonlyBucket {
  rb_storage : S;
  rb_prefix : bytes
}.
Arguments mkReadonlyBucket {S T} _ _.
Arguments rb_storage {S T} _.
Arguments rb_prefix {S T} _.

Module ReadonlyBucket.
Section ReadonlyBucket.
Context {S : Type} `{ReadonlyStorage S} {T : Type} `{Serde T}.

Definition new (namespace : bytes) (storage : S) : StdResult (ReadonlyBucketStorage S T) :=
  p ← to_length_prefixed namespace; Ok (mkReadonlyBucket storage p).

Definition multilevel (namespaces : list bytes) (storage : S)
  : StdResult (ReadonlyBucketStorage S T) :=
  p ← to_length_prefixed_nested namespaces; Ok (mkReadonlyBucket storage p).

Definition load (b : ReadonlyBucketStorage S T) (key : bytes) : StdResult T :=
  must_deserialize (ro_get_with_prefix (rb_storage b) (rb_prefix b) key).

Definition may_load (b : ReadonlyBucketStorage S T) (key : bytes) : StdResult (option T) :=
  may_deserialize (ro_get_with_prefix (rb_storage b) (rb_prefix b) key).

Definition range (b : ReadonlyBucketStorage S T) (start end_ : option bytes) (o : Order)
  : StdResult (list (StdResult (bytes * T))) :=
  items ← ro_range_with_prefix (rb_storage b) (rb_prefix b) start end_ o;
  Ok (map deserialize_kv items).

End ReadonlyBucket.
End ReadonlyBucket.

Definition bucket_read {S T} (namespace : bytes) (storage : S)
  : StdResult (ReadonlyBucketStorage S T) := ReadonlyBucket.new namespace storage.

(** The handle of the mutable bucket is its prefix. *)
Definition bucket (namespace : bytes) : StdResult bytes := Bucket.new namespace.

(** ** Programs over a prefixed store *)

(** A computation on the store seen through a prefix, run on the store itself. *)
Definition within {S E A} (p : bytes) (m : M (PrefixedStorage S) E A) : M S E A :=
  fun s => let '(ps, r) := m (mkPrefixed p s) in (inner ps, r).

(** ** Properties *)

Section Combination.
Context {S : Type} `{HS : Storage S} {T : Type} `{HT : Serde T}.

Lemma bucket_save_within p k (x : T) (s : S) :
  Bucket.save p k x s = within p (Typed.save k x) s.
Proof.
  cbv [Bucket.save Typed.save within mbind M_bind liftR modifyS]. by destruct (to_vec x).
Qed.

Lemma bucket_may_load_within p k (s : S) :
  Bucket.may_load (T:=T) s p k = Typed.may_load (mkPrefixed p s) k.
Proof. done. Qed.

(** Every operation of a bucket is the operation of a typed store over the prefixed store:
    the results are equal and so is the store left behind, on success, error and panic. *)
Theorem bucket_is_typed_over_prefixed p k (x : T) (action : option T -> StdResult T) start end_ o
    (s : S) :
  Bucket.save p k x s = within p (Typed.save k x) s /\
  Bucket.load (T:=T) s p k = Typed.load (mkPrefixed p s) k /\
  Bucket.may_load (T:=T) s p k = Typed.may_load (mkPrefixed p s) k /\
  Bucket.range (T:=T) s p start end_ o = Typed.range (mkPrefixed p s) start end_ o /\
  Bucket.update p k action s = within p (Typed.update k action) s.
Proof.
  split_and!; [apply bucket_save_within|done..|].
  cbv [Bucket.update Typed.update within mbind M_bind readS liftR mret M_ret].
  rw bucket_may_load_within. destruct (Typed.may_load _ k) as [i| |]; [|done..].
  destruct (action i) as [out| |]; [|done..]. rw bucket_save_within. cbv [within].
  destruct (Typed.save k out (mkPrefixed p s)) as [ps [[]| |]]; done.
Qed.

(** What the comment on Singleton says: it is a typed store over a prefixed store at the one
    empty key.  [update] differs in that the singleton's refuses a missing value, with the
    error of [load], before the action runs. *)
Theorem singleton_is_typed_over_prefixed key (x : T) (action : T -> StdResult T) (s : S) :
  Singleton.save key x s = within key (Typed.save [] x) s /\
  Singleton.load (T:=T) s key = Typed.load (mkPrefixed key s) [] /\
  Singleton.may_load (T:=T) s key = Typed.may_load (mkPrefixed key s) [] /\
  Singleton.update key action s =
    within key (Typed.update [] (fun o => match o with
                                          | Some v => action v
                                          | None => Err (NotFound (type_name (T:=T)))
                                          end)) s.
Proof.
  cbv [Singleton.save Singleton.load Singleton.may_load Singleton.update Typed.save Typed.load
       Typed.may_load Typed.update within mbind M_bind readS liftR modifyS mret M_ret].
  change (get (mkPrefixed key s) []) with (get s (key ++ [])). rw app_nil_r.
  split_and!; [|done..|].
  - destruct (to_vec x); [|done..]. cbn. unfold Prefixed.set, set_with_prefix, concat. cbn. by rw app_nil_r.
  - unfold Singleton.load, must_deserialize, may_deserialize. destruct (get s key) as [b|]; [|done].
    cbv [mbind result_bind].
    destruct (from_slice b) as [v| |]; [|done..]. destruct (action v) as [out| |]; [|done..].
    unfold Singleton.save, Typed.save. cbv [mbind M_bind liftR modifyS].
    destruct (to_vec out); [|done..]. cbn. unfold Prefixed.set, set_with_prefix, concat. cbn.
    by rw app_nil_r.
Qed.

End Combination.

Section ReadersAndWriters.
Context {S : Type} `{HS : Storage S} {HL : StorageLaws S}.
Context {T : Type} `{HT : Serde T} {HD : SerdeLaws T}.

Lemma bucket_read_Ok ns (s : S) (b : ReadonlyBucketStorage S T) :
  bucket_read ns s = Ok b -> exists p, to_length_prefixed ns = Ok p /\ b = mkReadonlyBucket s p.
Proof.
  unfold bucket_read, ReadonlyBucket.new. cbv [mbind result_bind].
  destruct (to_length_prefixed ns) as [p| |]; [|done..]. intros [= <-]. by exists p.
Qed.

Lemma readonly_bucket_may_load (s : S) p k :
  ReadonlyBucket.may_load (mkReadonlyBucket (T:=T) s p) k = Bucket.may_load s p k.
Proof. done. Qed.

Lemma bucket_load_may_load (s : S) p k :
  Bucket.load (T:=T) s p k =
  (o ← Bucket.may_load s p k;
   match o with Some x => Ok x | None => Err (NotFound (type_name (T:=T))) end).
Proof.
  unfold Bucket.load, Bucket.may_load, must_deserialize, may_deserialize.
  cbv [mbind result_bind]. destruct (get_with_prefix s p k) as [v|]; [|done].
  by destruct (from_slice v).
Qed.

Lemma bucket_save_Ok p k (x : T) (s s' : S) :
  Bucket.save p k x s = (s', Ok tt) -> exists v, to_vec x = Ok v /\ s' = set_with_prefix s p k v.
Proof.
  cbv [Bucket.save mbind M_bind liftR modifyS]. destruct (to_vec x) as [v| |]; [|done..].
  intros [= <-]. by exists v.
Qed.

(** A value saved through [bucket] is what [bucket_read] of the same namespace loads at the
    key; at every other key, and in every other namespace, a reader sees what it saw
    before. *)
Theorem bucket_readers_see_the_write ns p k (x : T) (s s' : S) :
  bucket ns = Ok p -> Bucket.save p k x s = (s', Ok tt) ->
  (exists b, bucket_read ns s' = Ok b /\ ReadonlyBucket.load b k = Ok x) /\
  (forall ns' k' (b b' : ReadonlyBucketStorage S T), (ns', k') <> (ns, k) ->
     bucket_read ns' s = Ok b -> bucket_read ns' s' = Ok b' ->
     ReadonlyBucket.load b' k' = ReadonlyBucket.load b k' /\
     ReadonlyBucket.may_load b' k' = ReadonlyBucket.may_load b k').
Proof.
  intros Hp Hs. apply bucket_save_Ok in Hs as (v & Hv & ->). split.
  - exists (mkReadonlyBucket (set_with_prefix s p k v) p).
    unfold bucket_read, ReadonlyBucket.new. change (to_length_prefixed ns = Ok p) in Hp.
    rw Hp. split; [done|]. change (Bucket.load (set_with_prefix s p k v) p k = Ok x).
    by rw bucket_load_may_load (bucket_load_after_save _ _ _ _ x) // decide_True.
  - intros ns' k' b b' Hne Hb Hb'. apply bucket_read_Ok in Hb as (p' & Hp' & ->).
    apply bucket_read_Ok in Hb' as (p2 & Hp2 & ->). rw Hp' in Hp2. injection Hp2 as <-.
    change (to_length_prefixed ns = Ok p) in Hp.
    assert (get (set_with_prefix s p k v) (p' ++ k') = get s (p' ++ k')) as E.
    { unfold set_with_prefix, concat. rw get_set decide_False //. intros E.
      destruct (length_prefixed_inj ns ns' p p' k k') as [-> ->]; done. }
    unfold ReadonlyBucket.load, ReadonlyBucket.may_load, ro_get_with_prefix, concat; cbn.
    by rw E.
Qed.

(** A reader built on the same name reads exactly what the mutable handle reads: the two
    implementations cannot drift apart. *)
Theorem readonly_handles_agree ns p k (s : S) start end_ o :
  to_length_prefixed ns = Ok p ->
  bucket ns = Ok p /\ bucket_read (T:=T) ns s = Ok (mkReadonlyBucket s p) /\
  ReadonlyBucket.load (mkReadonlyBucket (T:=T) s p) k = Bucket.load s p k /\
  ReadonlyBucket.may_load (mkReadonlyBucket (T:=T) s p) k = Bucket.may_load s p k /\
  ReadonlyBucket.range (mkReadonlyBucket (T:=T) s p) start end_ o = Bucket.range s p start end_ o /\
  singleton ns = Ok p /\ singleton_read (T:=T) s ns = Ok (mkReadonlySingleton s p) /\
  ReadonlySingleton.load (mkReadonlySingleton (T:=T) s p) = Singleton.load s p /\
  ReadonlySingleton.may_load (mkReadonlySingleton (T:=T) s p) = Singleton.may_load s p /\
  prefixed_read ns s = Ok (mkReadonlyPrefixed p s) /\ prefixed ns s = Ok (mkPrefixed p s) /\
  ro_get (mkReadonlyPrefixed p s) k = get (mkPrefixed p s) k /\
  ro_range (mkReadonlyPrefixed p s) start end_ o = range (mkPrefixed p s) start end_ o.
Proof.
  intros Hp.
  unfold bucket, Bucket.new, bucket_read, ReadonlyBucket.new, singleton, Singleton.new,
    singleton_read, ReadonlySingleton.new, prefixed_read, ReadonlyPrefixed.new, prefixed, Prefixed.new.
  rw Hp. by split_and!.
Qed.

(** A singleton shares its key with the empty key of the bucket of the same name and with
    nothing else: names that differ never collide, whatever the bucket's key. *)
Theorem singleton_and_bucket_collide_only_at_the_empty_key n1 n2 p1 p2 k (x : T) (s s' : S) :
  singleton n1 = Ok p1 -> bucket n2 = Ok p2 ->
  Bucket.save p2 k x s = (s', Ok tt) ->
  if decide (n1 = n2 /\ k = []) then Singleton.load s' p1 = Ok x
  else Singleton.may_load (T:=T) s' p1 = Singleton.may_load s p1.
Proof.
  intros Hp1 Hp2 Hs. apply bucket_save_Ok in Hs as (v & Hv & ->).
  change (to_length_prefixed n1 = Ok p1) in Hp1. change (to_length_prefixed n2 = Ok p2) in Hp2.
  unfold Singleton.load, Singleton.may_load, set_with_prefix, concat. rw get_set.
  case_decide as Hd.
  - destruct Hd as [-> ->]. rw Hp1 in Hp2. injection Hp2 as ->. rw app_nil_r decide_True //.
    by apply from_to.
  - rw decide_False //. intros E. destruct Hd.
    destruct (length_prefixed_inj n2 n1 p2 p1 k []) as [-> ->]; [done..|by rw app_nil_r|done].
Qed.

End ReadersAndWriters.

(** ** At the store of [u64]s *)

#[local] Existing Instance demo_serde_u64.
#[local] Existing Instance demo_serde_u64_laws.

Lemma bucket_readers_see_the_write_witness :
  exists b, bucket_read (lit "b") (set demo_store (demo_bucket ++ lit "k") (be_bytes 8 7)) = Ok b /\
            ReadonlyBucket.load b (lit "k") = Ok 7%Z.
Proof.
  apply (bucket_readers_see_the_write (lit "b") demo_bucket (lit "k") 7%Z demo_store); by vm_compute.
Defined.

Lemma singleton_and_bucket_collide_witness :
  Singleton.load (set demo_store demo_bucket (be_bytes 8 7)) demo_bucket = Ok 7%Z.
Proof.
  apply (singleton_and_bucket_collide_only_at_the_empty_key (lit "b") (lit "b") demo_bucket demo_bucket
           [] 7%Z demo_store (set demo_store demo_bucket (be_bytes 8 7))); by vm_compute.
Defined.
