(* ===== verification/Std.v ===== *)
(** * Types of cosmwasm/packages/std shared by the contracts

    types.rs, coins.rs, addresses.rs, init_handle.rs and query.rs: what a contract
    receives and returns.  The chain a contract talks to ([Api], [Querier] of
    traits.rs) is a parameter: a class of operations without a body. *)

From Stdlib Require Import Strings.String.
From stdpp Require Import base tactics list numbers strings ssreflect.
From S2P Require Import Prelude Math Storage.

Abbreviation HumanAddr := string.
Abbreviation CanonicalAddr := (list Byte.byte).
Abbreviation Binary := (list Byte.byte).

(** ** coins.rs *)

Record Coin : Type := mkCoin { denom : string; amount : Uint128 }.

#[export] Instance Coin_eq_dec : EqDecision Coin.
Proof. solve_decision. Defined.

Definition coin (amt : Z) (d : string) : Coin := mkCoin d (mkUint128 amt).
Definition coins (amt : Z) (d : string) : list Coin := [coin amt d].

(** ** types.rs *)

Record BlockInfo : Type := mkBlock { height : Z; time : Z; chain_id : string }.
Record MessageInfo : Type := mkMessage { sender : HumanAddr; sent_funds : list Coin }.
Record ContractInfo : Type := mkContract { address : HumanAddr }.
Record Env : Type := mkEnv {
  block : BlockInfo;
  message : MessageInfo;
  contract : ContractInfo;
  contract_key : option string;
  contract_code_hash : string
}.

(** ** init_handle.rs *)

Inductive VoteOption : Type := Yes | No | Abstain | NoWithVeto.

Inductive BankMsg : Type :=
| Send (from_address to_address : HumanAddr) (amount : list Coin).

Inductive StakingMsg : Type :=
| Delegate (validator : HumanAddr) (amount : Coin)
| Undelegate (validator : HumanAddr) (amount : Coin)
| Withdraw (validator : HumanAddr) (recipient : option HumanAddr)
| Redelegate (src_validator dst_validator : HumanAddr) (amount : Coin).

Inductive WasmMsg : Type :=
| Execute (contract_addr : HumanAddr) (callback_code_hash : string) (msg : Binary) (send : list Coin)
| Instantiate (code_id : Z) (callback_code_hash : string) (msg : Binary) (send : list Coin)
              (label : string).

Inductive GovMsg : Type :=
| Vote (proposal : Z) (vote_option : VoteOption).

(** types.rs: [Empty], the type of custom messages of contracts that have none. *)
Inductive Empty : Type := mkEmpty.

Inductive CosmosMsg (T : Type) : Type :=
| CosmosBank (m : BankMsg)
| CosmosCustom (m : T)
| CosmosStaking (m : StakingMsg)
| CosmosWasm (m : WasmMsg)
| CosmosGov (m : GovMsg).
Arguments CosmosBank {T} m.
Arguments CosmosCustom {T} m.
Arguments CosmosStaking {T} m.
Arguments CosmosWasm {T} m.
Arguments CosmosGov {T} m.

Record LogAttribute : Type := log { log_key : string; log_value : string }.

Record InitResponse (T : Type) : Type := mkInitResponse {
  init_messages : list (CosmosMsg T);
  init_log : list LogAttribute
}.
Arguments mkInitResponse {T} init_messages init_log.
Arguments init_messages {T} i.
Arguments init_log {T} i.
Definition default_init_response {T} : InitResponse T := mkInitResponse [] [].

Record HandleResponse (T : Type) : Type := mkHandleResponse {
  messages : list (CosmosMsg T);
  logs : list LogAttribute;
  response_data : option Binary
}.
Arguments mkHandleResponse {T} messages logs response_data.
Arguments messages {T} h.
Arguments logs {T} h.
Arguments response_data {T} h.
Definition default_handle_response {T} : HandleResponse T := mkHandleResponse [] [] None.

Record MigrateResponse (T : Type) : Type := mkMigrateResponse {
  migrate_messages : list (CosmosMsg T);
  migrate_logs : list LogAttribute;
  migrate_data : option Binary
}.
Arguments mkMigrateResponse {T} migrate_messages migrate_logs migrate_data.
Arguments migrate_messages {T} m.
Arguments migrate_logs {T} m.
Arguments migrate_data {T} m.
Definition default_migrate_response {T} : MigrateResponse T := mkMigrateResponse [] [] None.

(** [Context]: a response under construction. *)
Module Context.
Section Context.
Context {T : Type}.

Record Context : Type := mkContext {
  ctx_messages : list (CosmosMsg T);
  ctx_log : list LogAttribute;
  ctx_data : option Binary
}.

Definition new : Context := mkContext [] [] None.
Definition add_log (ctx : Context) (key value : string) : Context :=
  mkContext (ctx_messages ctx) (ctx_log ctx ++ [log key value]) (ctx_data ctx).
Definition add_message (ctx : Context) (msg : CosmosMsg T) : Context :=
  mkContext (ctx_messages ctx ++ [msg]) (ctx_log ctx) (ctx_data ctx).
Definition set_data (ctx : Context) (data : Binary) : Context :=
  mkContext (ctx_messages ctx) (ctx_log ctx) (Some data).

Definition try_into_init (ctx : Context) : StdResult (InitResponse T) :=
  match ctx_data ctx with
  | Some _ => Err (generic_err "cannot convert Context with data to InitResponse")
  | None => Ok (mkInitResponse (ctx_messages ctx) (ctx_log ctx))
  end.
Definition into_handle (ctx : Context) : HandleResponse T :=
  mkHandleResponse (ctx_messages ctx) (ctx_log ctx) (ctx_data ctx).
Definition into_migrate (ctx : Context) : MigrateResponse T :=
  mkMigrateResponse (ctx_messages ctx) (ctx_log ctx) (ctx_data ctx).

End Context.
End Context.

(** ** traits.rs: the host services *)

Class Api : Type := {
  canonical_address : HumanAddr -> StdResult CanonicalAddr;
  human_address : CanonicalAddr -> StdResult HumanAddr
}.

Record Delegation : Type := mkDelegation {
  delegator : HumanAddr;
  del_validator : HumanAddr;
  del_amount : Coin
}.

Class Querier : Type := {
  query_balance : HumanAddr -> string -> StdResult Coin;
  query_all_balances : HumanAddr -> StdResult (list Coin);
  query_validators : StdResult (list HumanAddr);
  query_bonded_denom : StdResult string;
  query_all_delegations : HumanAddr -> StdResult (list Delegation)
}.

(** ** The bindings of a store, and sums over them *)

Section Contents.
Context {S : Type} `{HS : Storage S} {HL : StorageLaws S} {HR : RangeLaws S}.

Definition contents (s : S) : list KV :=
  match range s None None Ascending with Ok l => l | _ => [] end.

Definition sum_values (f : bytes -> Z) (l : list KV) : Z :=
  foldr (fun kv acc => (f kv.2 + acc)%Z) 0%Z l.

Lemma contents_spec (s : S) :
  store_ok s -> btree_ok (contents s) /\ forall k, btree_get (contents s) k = get s k.
Proof.
  intros Hs. unfold contents. destruct (range_ascending s None None Hs) as (l & -> & Sl & Ml).
  split; [done|]. intros k. apply option_eq. intros v. rw btree_get_elem // Ml.
  by split; [intros [? _]|].
Qed.

Lemma contents_set (s : S) k v :
  store_ok s -> contents (set s k v) = btree_insert (contents s) k v.
Proof.
  intros Hs. destruct (contents_spec s Hs) as [Hok Hg].
  destruct (contents_spec (set s k v) (set_ok s k v Hs)) as [Hok' Hg'].
  apply sorted_ext; [done|by apply btree_insert_ok|]. intros [k' v'].
  rw -!btree_get_elem //; [|by apply btree_insert_ok].
  by rw Hg' get_set btree_get_insert Hg.
Qed.

Lemma btree_remove_ok {V} (m : list (bytes * V)) k : btree_ok m -> btree_ok (btree_remove m k).
Proof. apply sorted_filter. Qed.

Lemma contents_remove (s : S) k :
  store_ok s -> contents (remove s k) = btree_remove (contents s) k.
Proof.
  intros Hs. destruct (contents_spec s Hs) as [Hok Hg].
  destruct (contents_spec (remove s k) (remove_ok s k Hs)) as [Hok' Hg'].
  apply sorted_ext; [done|by apply btree_remove_ok|]. intros [k' v'].
  rw -!btree_get_elem //; [|by apply btree_remove_ok].
  by rw Hg' get_remove btree_get_remove Hg.
Qed.

Lemma range_all (s : S) : store_ok s -> range s None None Ascending = Ok (contents s).
Proof. intros Hs. unfold contents. by destruct (range_ascending s None None Hs) as (l & -> & _). Qed.

Lemma range_all_descending (s : S) :
  store_ok s -> range s None None Descending = Ok (reverse (contents s)).
Proof. intros Hs. apply range_descending; [done|by apply range_all]. Qed.

Lemma contents_same (s t : S) :
  store_ok s -> store_ok t -> same_contents s t -> contents s = contents t.
Proof. intros. unfold contents. by rw (range_same_contents s t). Qed.

End Contents.

#[global] Arguments sum_values f l : simpl never.

Lemma sum_values_cons f kv l : (sum_values f (kv :: l) = f kv.2 + sum_values f l)%Z.
Proof. done. Qed.

Lemma sum_values_get_none f l k v :
  btree_ok l -> btree_get l k = None ->
  (sum_values f (btree_insert l k v) = sum_values f l + f v)%Z.
Proof.
  induction l as [|[k' v'] l IH]; [intros _ _; unfold sum_values; cbn; lia|]. cbn. intros [Hs Hf]%sorted_cons_inv.
  rw sum_values_cons.
  case_bool_decide as Hk; [done|]. intros Hn.
  destruct (bytes_cmp k k') eqn:E; rw !sum_values_cons; cbn.
  - apply bytes_cmp_eq in E. done.
  - lia.
  - rw IH //. lia.
Qed.

(** Overwriting one binding changes the sum by the difference. *)
Lemma sum_values_insert f l k v :
  btree_ok l ->
  (sum_values f (btree_insert l k v)
   = sum_values f l - default 0 (f <$> btree_get l k) + f v)%Z.
Proof.
  destruct (btree_get l k) as [v0|] eqn:E; [|intros; rw sum_values_get_none //; cbn; lia].
  revert E. induction l as [|[k' v'] l IH]; cbn; [done|].
  intros E [Hs Hf]%sorted_cons_inv. case_bool_decide as Hk.
  - subst k'. rw bytes_cmp_refl !sum_values_cons. simplify_eq. cbn. lia.
  - destruct (bytes_cmp k k') eqn:C; rw !sum_values_cons; cbn.
    + by apply bytes_cmp_eq in C.
    + apply btree_get_elem, Hf in E; [|done]. exfalso.
      apply (bytes_lt_irrefl k). by eapply bytes_lt_trans.
    + specialize (IH E Hs). cbn in IH. lia.
Qed.

Lemma sum_values_nonneg f l : (forall v, 0 <= f v)%Z -> (0 <= sum_values f l)%Z.
Proof. intros Hf. induction l as [|[k v] l IH]; [done|]. rw sum_values_cons. specialize (Hf v). cbn. lia. Qed.

(** A binding is at most the sum, and two distinct ones together are too. *)
Lemma sum_values_ge f l k v :
  (forall v, 0 <= f v)%Z -> btree_get l k = Some v -> (f v <= sum_values f l)%Z.
Proof.
  intros Hf. induction l as [|[k' v'] l IH]; cbn; [done|]. rw sum_values_cons. cbn.
  pose proof (sum_values_nonneg f l Hf). pose proof (Hf v').
  case_bool_decide; intros Hg; [simplify_eq; lia|]. specialize (IH Hg). lia.
Qed.

(** ** Concrete host services, used to run the models on examples *)

(** Addresses of at most 32 characters are their own bytes. *)
Definition demo_api : Api := {|
  canonical_address h :=
    if (String.length h <=? 32)%nat then Ok (lit h) else Err (generic_err "address too long");
  human_address a := Ok (string_of_list_byte a)
|}.

Definition demo_env (who : HumanAddr) : Env :=
  mkEnv (mkBlock 12345 1571797419 "cosmos-testnet") (mkMessage who [])
        (mkContract "contract") None "".

(** A chain on which every account holds the same coins. *)
Definition demo_chain (funds : list Coin) : Querier := {|
  query_balance _ d :=
    Ok (default (coin 0 d) (List.find (fun c => bool_decide (denom c = d)) funds));
  query_all_balances _ := Ok funds;
  query_validators := Ok [];
  query_bonded_denom := Ok "stake"%string;
  query_all_delegations _ := Ok []
|}.
