(* ===== verification/Querying.v ===== *)
(** * Queries from contracts: cosmwasm/packages/std/src

    query.rs and the provided methods of the trait [Querier] (traits.rs) on top of
    [raw_query]; errors/system_error.rs; the wasm side of the host functions (the wire
    format of imports.rs); and the mocks of mock.rs: [MockApi], and [MockQuerier] with its
    bank, staking, distribution, mint, governance and contract parts.  The provided methods
    over any [raw_query] make an instance of [Querier], the class the contracts use. *)

From Stdlib Require Import Strings.String.
From stdpp Require Import base tactics list numbers strings gmap pretty ssreflect.
From S2P Require Import Prelude Utf8 Math Storage Prefixed Typed Std.

Local Open Scope string_scope.
Local Open Scope list_scope.

(** ** errors *)

(** [Display] of [StdError] (errors/std_error.rs). *)
Definition display_std_error (e : StdError) : string :=
  match e with
  | GenericErr msg => "Generic error: " +:+ msg
  | InvalidBase64 msg => "Invalid Base64 string: " +:+ msg
  | InvalidUtf8 msg => "Cannot decode UTF8 bytes into string: " +:+ msg
  | NotFound kind => kind +:+ " not found"
  | ParseErr target msg => "Error parsing into type " +:+ target +:+ ": " +:+ msg
  | SerializeErr source msg => "Error serializing type " +:+ source +:+ ": " +:+ msg
  | Unauthorized => "Unauthorized"
  | Underflow minuend subtrahend => "Cannot subtract " +:+ subtrahend +:+ " from " +:+ minuend
  end.

Inductive SystemError : Type :=
| InvalidRequest (error : string) (request : Binary)
| InvalidResponse (error : string) (response : Binary)
| NoSuchContract (addr : HumanAddr)
| Unknown
| UnsupportedRequest (kind : string)
| ExceededRecursionLimit.

Definition lossy (b : bytes) : string := string_of_list_byte (Text.from_utf8_lossy b).

Definition display_system_error (e : SystemError) : string :=
  match e with
  | InvalidRequest error request => "Cannot parse request: " +:+ error +:+ " in: " +:+ lossy request
  | InvalidResponse error response =>
      "Cannot parse response: " +:+ error +:+ " in: " +:+ lossy response
  | NoSuchContract addr => "No such contract: " +:+ addr
  | Unknown => "Unknown system error"
  | UnsupportedRequest kind => "Unsupported query type: " +:+ kind
  | ExceededRecursionLimit => "Query recursion limit exceeded"
  end.

(** [SystemResult<StdResult<Binary>>]. *)
Abbreviation QuerierResult := (result SystemError (StdResult Binary)).

(** ** query.rs *)

Inductive BankQuery : Type :=
| Balance (address : HumanAddr) (denom : string)
| AllBalances (address : HumanAddr).

Inductive GovQuery : Type := Proposals.
Inductive DistQuery : Type := Rewards (delegator : HumanAddr).
Inductive MintQuery : Type := Inflation | BondedRatio.

Inductive WasmQuery : Type :=
| Smart (contract_addr : HumanAddr) (callback_code_hash : string) (msg : Binary)
| Raw (contract_addr : HumanAddr) (key : Binary) (callback_code_hash : string).

Inductive StakingQuery : Type :=
| BondedDenom
| AllDelegations (delegator : HumanAddr)
| DelegationOf (delegator validator : HumanAddr)
| Validators
| UnbondingDelegations (delegator : HumanAddr).

Inductive QueryRequest (T : Type) : Type :=
| BankReq (q : BankQuery)
| CustomReq (q : T)
| StakingReq (q : StakingQuery)
| WasmReq (q : WasmQuery)
| DistReq (q : DistQuery)
| MintReq (q : MintQuery)
| GovReq (q : GovQuery).
Arguments BankReq {T} q.
Arguments CustomReq {T} q.
Arguments StakingReq {T} q.
Arguments WasmReq {T} q.
Arguments DistReq {T} q.
Arguments MintReq {T} q.
Arguments GovReq {T} q.

Record BalanceResponse : Type := mkBalance { balance_amount : Coin }.
Record AllBalanceResponse : Type := mkAllBalance { all_amount : list Coin }.

Record Proposal : Type := mkProposal { id : Z; voting_start_time : Z; voting_end_time : Z }.
Record ProposalsResponse : Type := mkProposals { proposals : list Proposal }.

Record BondedDenomResponse : Type := mkBondedDenom { bonded_denom : string }.
Record UnbondingDelegationsResponse : Type := mkUnbonding { unbonding : list Delegation }.
Record AllDelegationsResponse : Type := mkAllDelegations { delegations : list Delegation }.

Record FullDelegation : Type := mkFullDelegation {
  full_delegator : HumanAddr;
  full_validator : HumanAddr;
  full_amount : Coin;
  can_redelegate : Coin;
  accumulated_rewards : Coin
}.

(** [From<FullDelegation> for Delegation]. *)
Definition delegation_of_full (full : FullDelegation) : Delegation :=
  mkDelegation (full_delegator full) (full_validator full) (full_amount full).

Record DelegationResponse : Type := mkDelegationResponse { found : option FullDelegation }.

Record Validator : Type := mkValidator {
  validator_address : HumanAddr;
  commission : Decimal;
  max_commission : Decimal;
  max_change_rate : Decimal
}.
Record ValidatorsResponse : Type := mkValidators { validators : list Validator }.

Record ValidatorRewards : Type := mkRewardsOf { rewards_validator : HumanAddr; reward : list Coin }.
Record RewardsResponse : Type := mkRewards { rewards : list ValidatorRewards; total : list Coin }.
Record InflationResponse : Type := mkInflation { inflation_rate : string }.
Record BondedRatioResponse : Type := mkBondedRatio { bonded_ratio : string }.

(** ** traits.rs: what [raw_query] provides *)

Class RawQuerier : Type := { raw_query : bytes -> QuerierResult }.

Definition from_binary {T} `{Serde T} (b : Binary) : StdResult T := from_slice b.
Definition to_binary {T} `{Serde T} (x : T) : StdResult Binary := to_vec x.

Section Querier.
Context `{RQ : RawQuerier}.

(** The errors of all three levels are flattened into one. *)
Definition custom_query {T U} `{Serde (QueryRequest T)} `{Serde U} (request : QueryRequest T)
  : StdResult U :=
  match to_vec request with
  | Err e => Err (generic_err ("Serializing QueryRequest: " +:+ display_std_error e))
  | Panic => Panic
  | Ok raw =>
      match raw_query raw with
      | Err sys => Err (generic_err ("Querier system error: " +:+ display_system_error sys))
      | Panic => Panic
      | Ok (Err err) => Err err
      | Ok Panic => Panic
      | Ok (Ok res) => from_binary res
      end
  end.

Context `{HQ : Serde (QueryRequest Empty)}.

Definition query {U} `{Serde U} (request : QueryRequest Empty) : StdResult U := custom_query request.

Context `{Serde BalanceResponse} `{Serde AllBalanceResponse} `{Serde ValidatorsResponse}.
Context `{Serde BondedDenomResponse} `{Serde AllDelegationsResponse} `{Serde DelegationResponse}.

Definition ask_balance (addr : HumanAddr) (denom : string) : StdResult Coin :=
  res ← query (U := BalanceResponse) (BankReq (Balance addr denom)); Ok (balance_amount res).

Definition ask_all_balances (addr : HumanAddr) : StdResult (list Coin) :=
  res ← query (U := AllBalanceResponse) (BankReq (AllBalances addr)); Ok (all_amount res).

Definition ask_validators : StdResult (list Validator) :=
  res ← query (U := ValidatorsResponse) (StakingReq Validators); Ok (validators res).

Definition ask_bonded_denom : StdResult string :=
  res ← query (U := BondedDenomResponse) (StakingReq BondedDenom); Ok (bonded_denom res).

Definition ask_all_delegations (delegator : HumanAddr) : StdResult (list Delegation) :=
  res ← query (U := AllDelegationsResponse) (StakingReq (AllDelegations delegator));
  Ok (delegations res).

Definition ask_delegation (delegator validator : HumanAddr) : StdResult (option FullDelegation) :=
  res ← query (U := DelegationResponse) (StakingReq (DelegationOf delegator validator));
  Ok (found res).

(** The querier of the contracts, from [raw_query]; of a validator they use the address. *)
Definition provided_querier : Querier := {|
  query_balance := ask_balance;
  query_all_balances := ask_all_balances;
  query_validators := map validator_address <$> ask_validators;
  query_bonded_denom := ask_bonded_denom;
  query_all_delegations := ask_all_delegations
|}.

End Querier.

(** ** imports.rs: what the host answers *)

(** [ExternalQuerier::raw_query] after the response was read from memory; an answer that
    does not parse becomes an error of the called contract. *)
Definition external_raw_query `{Serde QuerierResult} (response : bytes) : QuerierResult :=
  match from_slice (T := QuerierResult) response with
  | Ok r => r
  | Err err => Ok (Err err)
  | Panic => Panic
  end.

(** [ExternalIterator::next] after the region was read: value, key and the length of the
    key as four bytes. *)
Definition next_kv (kv : bytes) : StdResult (option KV) :=
  if (length kv <? 4)%nat then Panic
  else
    let keylen := Z.to_nat (from_be_bytes (drop (length kv - 4) kv)) in
    if (keylen =? 0)%nat then Ok None
    else
      let body := take (length kv - 4) kv in
      if (length body <? keylen)%nat then Panic
      else Ok (Some (drop (length body - keylen) body, take (length body - keylen) body)).

(** ** mock.rs *)

Definition MOCK_CONTRACT_ADDR : string := "cosmos2contract".

Module MockApi.
Section MockApi.
Variable canonical_length : nat.

Definition canonical_address (human : HumanAddr) : StdResult CanonicalAddr :=
  if (String.length human <? 3)%nat
  then Err (generic_err "Invalid input: human address too short")
  else if (canonical_length <? String.length human)%nat
  then Err (generic_err "Invalid input: human address too long")
  else Ok (lit human ++ replicate (canonical_length - String.length human) Byte.x00).

(** [Display] of [FromUtf8Error]. *)
Definition display_utf8_error (e : nat * option nat) : string :=
  match e with
  | (valid_up_to, Some len) =>
      "invalid utf-8 sequence of " +:+ pretty len +:+ " bytes from index " +:+ pretty valid_up_to
  | (valid_up_to, None) => "incomplete utf-8 byte sequence from index " +:+ pretty valid_up_to
  end.

Definition human_address (canonical : CanonicalAddr) : StdResult HumanAddr :=
  if negb (length canonical =? canonical_length)%nat
  then Err (generic_err "Invalid input: canonical address length not correct")
  else
    let trimmed := List.filter (fun x => negb (bool_decide (x = Byte.x00))) canonical in
    match Text.utf8_error 0 trimmed with
    | None => Ok (string_of_list_byte trimmed)
    | Some e => Err (InvalidUtf8 (display_utf8_error e))
    end.

Definition api : Api :=
  {| Std.canonical_address := canonical_address; Std.human_address := human_address |}.

End MockApi.
End MockApi.

Definition mock_env (sender : HumanAddr) (sent : list Coin) : Env :=
  mkEnv (mkBlock 12345 1571797419 "cosmos-testnet-14002") (mkMessage sender sent)
        (mkContract MOCK_CONTRACT_ADDR) (Some "") "".

(** [BankQuerier]: a table of balances. *)
Module Bank.
Section Bank.
Context `{Serde BalanceResponse} `{Serde AllBalanceResponse}.

Abbreviation BankQuerier := (gmap string (list Coin)).

Definition new (balances : list (HumanAddr * list Coin)) : BankQuerier :=
  foldl (fun map b => <[b.1 := b.2]> map) ∅ balances.

(** The amount of one denomination; zero when there is none. *)
Definition amount_of (balances : BankQuerier) (address : HumanAddr) (d : string) : Uint128 :=
  default Uint.zero
    (v ← balances !! address;
     amount <$> List.find (fun c => bool_decide (denom c = d)) v).

Definition query (balances : BankQuerier) (request : BankQuery) : QuerierResult :=
  match request with
  | Balance address denom =>
      Ok (to_binary (mkBalance (mkCoin denom (amount_of balances address denom))))
  | AllBalances address => Ok (to_binary (mkAllBalance (default [] (balances !! address))))
  end.

End Bank.
End Bank.

(** [StakingQuerier]. *)
Module StakingMock.
Section StakingMock.
Context `{Serde BondedDenomResponse} `{Serde ValidatorsResponse} `{Serde AllDelegationsResponse}.
Context `{Serde DelegationResponse} `{Serde UnbondingDelegationsResponse}.

Record StakingQuerier : Type := new {
  staking_denom : string;
  staking_validators : list Validator;
  staking_delegations : list FullDelegation
}.

Definition default_querier : StakingQuerier := new "" [] [].

Definition of_delegator (q : StakingQuerier) (delegator : HumanAddr) : list Delegation :=
  map delegation_of_full
    (List.filter (fun d => bool_decide (full_delegator d = delegator)) (staking_delegations q)).

Definition query (q : StakingQuerier) (request : StakingQuery) : QuerierResult :=
  match request with
  | BondedDenom => Ok (to_binary (mkBondedDenom (staking_denom q)))
  | Validators => Ok (to_binary (mkValidators (staking_validators q)))
  | AllDelegations delegator => Ok (to_binary (mkAllDelegations (of_delegator q delegator)))
  | DelegationOf delegator validator =>
      Ok (to_binary (mkDelegationResponse
            (List.find (fun d => bool_decide (full_delegator d = delegator) &&
                                 bool_decide (full_validator d = validator))
               (staking_delegations q))))
  | UnbondingDelegations delegator => Ok (to_binary (mkUnbonding (of_delegator q delegator)))
  end.

End StakingMock.
End StakingMock.

Module MockQuerier.
Section MockQuerier.
Context {C : Type} `{HQ : Serde (QueryRequest C)}.
Context `{Serde BalanceResponse} `{Serde AllBalanceResponse} `{Serde BondedDenomResponse}.
Context `{Serde ValidatorsResponse} `{Serde AllDelegationsResponse} `{Serde DelegationResponse}.
Context `{Serde UnbondingDelegationsResponse} `{Serde RewardsResponse}.

Record MockQuerier : Type := mkMock {
  bank : gmap string (list Coin);
  staking : StakingMock.StakingQuerier;
  custom_handler : C -> QuerierResult
}.

Definition new (balances : list (HumanAddr * list Coin)) : MockQuerier :=
  mkMock (Bank.new balances) StakingMock.default_querier (fun _ => Err (UnsupportedRequest "custom")).

(** Returns the old balance. *)
Definition update_balance (q : MockQuerier) (addr : HumanAddr) (balance : list Coin)
  : MockQuerier * option (list Coin) :=
  (mkMock (<[addr := balance]> (bank q)) (staking q) (custom_handler q), bank q !! addr).

Definition update_staking (q : MockQuerier) (denom : string) (validators : list Validator)
    (delegations : list FullDelegation) : MockQuerier :=
  mkMock (bank q) (StakingMock.new denom validators delegations) (custom_handler q).

Definition with_custom_handler (q : MockQuerier) (handler : C -> QuerierResult) : MockQuerier :=
  mkMock (bank q) (staking q) handler.

Definition wasm_query (request : WasmQuery) : QuerierResult :=
  Err (NoSuchContract (match request with Smart addr _ _ => addr | Raw addr _ _ => addr end)).

Definition dist_query (request : DistQuery) : QuerierResult :=
  match request with Rewards _ => Ok (to_binary (mkRewards [] [])) end.

Definition mint_query (request : MintQuery) : QuerierResult := Ok (Ok []).
Definition gov_query (request : GovQuery) : QuerierResult := Ok (Ok []).

Definition handle_query (q : MockQuerier) (request : QueryRequest C) : QuerierResult :=
  match request with
  | BankReq bank_query => Bank.query (bank q) bank_query
  | CustomReq custom_query => custom_handler q custom_query
  | StakingReq staking_query => StakingMock.query (staking q) staking_query
  | WasmReq msg => wasm_query msg
  | DistReq msg => dist_query msg
  | MintReq msg => mint_query msg
  | GovReq msg => gov_query msg
  end.

Definition raw (q : MockQuerier) (bin_request : bytes) : QuerierResult :=
  match from_slice (T := QueryRequest C) bin_request with
  | Ok request => handle_query q request
  | Err e => Err (InvalidRequest ("Parsing query request: " +:+ display_std_error e) bin_request)
  | Panic => Panic
  end.

Definition raw_querier (q : MockQuerier) : RawQuerier := {| raw_query := raw q |}.

End MockQuerier.
Arguments MockQuerier : clear implicits.
End MockQuerier.

(** [Extern]: the three services of a contract; [mock_dependencies] and
    [mock_dependencies_with_balances]. *)
Record Extern (S A Q : Type) : Type := mkExtern { storage : S; api : A; querier : Q }.
Arguments mkExtern {S A Q} storage api querier.
Arguments storage {S A Q} e.
Arguments api {S A Q} e.
Arguments querier {S A Q} e.

Definition mock_dependencies_with_balances (canonical_length : nat)
    (balances : list (HumanAddr * list Coin))
  : Extern MemoryStorage Api (MockQuerier.MockQuerier Empty) :=
  mkExtern Memory.new (MockApi.api canonical_length) (MockQuerier.new balances).

Definition mock_dependencies (canonical_length : nat) (contract_balance : list Coin)
  : Extern MemoryStorage Api (MockQuerier.MockQuerier Empty) :=
  mkExtern Memory.new (MockApi.api canonical_length)
    (MockQuerier.new [(MOCK_CONTRACT_ADDR, contract_balance)]).

Definition change_querier {S A Q T} (e : Extern S A Q) (transform : Q -> T) : Extern S A T :=
  mkExtern (storage e) (api e) (transform (querier e)).

(** ** Addresses of the mock *)

Lemma filter_replicate_zero n :
  List.filter (fun x => negb (bool_decide (x = Byte.x00))) (replicate n Byte.x00) = [].
Proof. induction n as [|n IH]; cbn; [done|]. exact IH. Qed.

Lemma filter_no_zero l :
  Byte.x00 ∉ l -> List.filter (fun x => negb (bool_decide (x = Byte.x00))) l = l.
Proof.
  induction l as [|b l IH]; cbn; [done|]. rw not_elem_of_cons. intros [Hb Hl].
  rw bool_decide_false //. cbn. f_equal. by apply IH.
Qed.

Lemma lit_length s : length (lit s) = String.length s.
Proof. unfold lit. induction s as [|c s IH]; cbn; [done|]. by f_equal. Qed.

Lemma string_of_lit s : string_of_list_byte (lit s) = s.
Proof. apply string_of_list_byte_of_string. Qed.

(** MockApi::human_address inverts canonical_address on every UTF-8 address without zero bytes,
    and canonical addresses all have the configured length. *)
Theorem mock_address_roundtrip n (h : HumanAddr) c :
  Byte.x00 ∉ lit h -> Text.from_utf8 (lit h) = true ->
  MockApi.canonical_address n h = Ok c ->
  length c = n /\ MockApi.human_address n c = Ok h.
Proof.
  intros Hz Hu. unfold MockApi.canonical_address.
  destruct (_ <? 3)%nat; [done|]. destruct (Nat.ltb_spec n (String.length h)); [done|].
  intros [= <-].
  assert (length (lit h ++ replicate (n - String.length h) Byte.x00) = n) as Hl.
  { rw length_app length_replicate lit_length. lia. }
  split; [done|]. unfold MockApi.human_address. rw Hl Nat.eqb_refl. cbn [negb].
  rw List.filter_app filter_no_zero // filter_replicate_zero app_nil_r.
  by rw (proj1 (from_utf8_error _ 0) Hu) string_of_lit.
Qed.

(** MockApi::human_address drops zero bytes inside an address too, so two different canonical
    addresses get the same text. *)
Theorem mock_human_address_collides :
  let a := lit "abc" ++ replicate 17 Byte.x00 in
  let b := [Byte.x61; Byte.x00] ++ lit "bc" ++ replicate 16 Byte.x00 in
  a <> b /\ MockApi.human_address 20 a = Ok "abc" /\ MockApi.human_address 20 b = Ok "abc".
Proof. by split_and!. Qed.

(** ** Answers of the mock querier *)

(** Every value of the type can be encoded. *)
Class SerdeTotal (T : Type) `{Serde T} : Prop := { to_total (x : T) : exists b, to_vec x = Ok b }.

Lemma to_binary_from {T} `{HS : Serde T} {HL : SerdeLaws T} {HT : SerdeTotal T} (x : T) :
  exists b, to_binary x = Ok b /\ from_binary b = Ok x.
Proof. destruct (to_total x) as [b Hb]. exists b. split; [done|]. by apply from_to. Qed.

Lemma bank_new_spec balances a :
  Bank.new balances !! a
  = snd <$> List.find (fun b => bool_decide (b.1 = a)) (reverse balances).
Proof.
  unfold Bank.new. induction balances as [|[a' v] l IH] using rev_ind; [done|].
  rw foldl_app reverse_app. cbn. case_bool_decide as E.
  - subst a'. by rw lookup_insert_eq.
  - rw lookup_insert_ne //.
Qed.

Section MockAnswers.
Context `{HQ : Serde (QueryRequest Empty)} {HQL : SerdeLaws (QueryRequest Empty)}.
Context {HQT : SerdeTotal (QueryRequest Empty)}.
Context `{HB : Serde BalanceResponse} {HBL : SerdeLaws BalanceResponse} {HBT : SerdeTotal BalanceResponse}.
Context `{HA : Serde AllBalanceResponse} {HAL : SerdeLaws AllBalanceResponse}.
Context {HAT : SerdeTotal AllBalanceResponse}.
Context `{HD : Serde BondedDenomResponse} {HDL : SerdeLaws BondedDenomResponse}.
Context {HDT : SerdeTotal BondedDenomResponse}.
Context `{HV : Serde ValidatorsResponse} {HVL : SerdeLaws ValidatorsResponse}.
Context {HVT : SerdeTotal ValidatorsResponse}.
Context `{HE : Serde AllDelegationsResponse} {HEL : SerdeLaws AllDelegationsResponse}.
Context {HET : SerdeTotal AllDelegationsResponse}.
Context `{HF : Serde DelegationResponse} {HFL : SerdeLaws DelegationResponse}.
Context {HFT : SerdeTotal DelegationResponse}.
Context `{HU : Serde UnbondingDelegationsResponse} `{HR : Serde RewardsResponse}.

(** A request reaches the part of the mock it is for, and its answer is decoded. *)
Lemma mock_query {U} `{HS : Serde U} {HL : SerdeLaws U} {HT : SerdeTotal U}
    (q : MockQuerier.MockQuerier Empty) request (res : U) :
  MockQuerier.handle_query q request = Ok (to_binary res) ->
  query (RQ := MockQuerier.raw_querier q) request = Ok res.
Proof.
  intros Hq. unfold query, custom_query. destruct (to_total request) as [b Hb]. rw Hb.
  cbn [raw_query MockQuerier.raw_querier]. unfold MockQuerier.raw. rw (from_to request b Hb) Hq.
  by destruct (to_binary_from res) as (r & -> & ->).
Qed.

(** Every query a contract makes through the provided methods, encoded to JSON, dispatched by
    MockQuerier and decoded again, returns exactly the entry of the balance, validator or
    delegation table it asks for. *)
Theorem mock_querier_answers (q : MockQuerier.MockQuerier Empty) a d v :
  let Q := provided_querier (RQ := MockQuerier.raw_querier q) in
  @query_balance Q a d = Ok (mkCoin d (Bank.amount_of (MockQuerier.bank q) a d)) /\
  @query_all_balances Q a = Ok (default [] (MockQuerier.bank q !! a)) /\
  @query_bonded_denom Q = Ok (StakingMock.staking_denom (MockQuerier.staking q)) /\
  @query_validators Q
  = Ok (map validator_address (StakingMock.staking_validators (MockQuerier.staking q))) /\
  @query_all_delegations Q a = Ok (StakingMock.of_delegator (MockQuerier.staking q) a) /\
  ask_delegation (RQ := MockQuerier.raw_querier q) a v
  = Ok (List.find (fun f => bool_decide (full_delegator f = a) && bool_decide (full_validator f = v))
          (StakingMock.staking_delegations (MockQuerier.staking q))).
Proof.
  cbn. unfold ask_balance, ask_all_balances, ask_bonded_denom, ask_validators, ask_all_delegations,
    ask_delegation. split_and!; by erewrite mock_query by done.
Qed.

End MockAnswers.

(** ** The wire format of iterators *)

(** What the host sends for an entry. *)
Definition encode_kv (k v : bytes) : bytes := v ++ k ++ be_bytes 4 (Z.of_nat (length k)).

Lemma encode_kv_split k v :
  length (encode_kv k v) = (length v + length k + 4)%nat /\
  drop (length (encode_kv k v) - 4) (encode_kv k v) = be_bytes 4 (Z.of_nat (length k)) /\
  take (length (encode_kv k v) - 4) (encode_kv k v) = v ++ k.
Proof.
  unfold encode_kv. rw app_assoc. rw length_app be_bytes_length length_app.
  replace (length v + length k + 4 - 4)%nat with (length (v ++ k)) by (rw length_app; lia).
  by rw drop_app_length take_app_length.
Qed.

(** ExternalIterator::next reads back the key and the value of every entry sent as value, key
    and key length, except that an entry with an empty key is taken for the end of the
    iteration. *)
Theorem next_kv_roundtrip k v :
  (Z.of_nat (length k) < 2^32)%Z ->
  next_kv (encode_kv k v) = Ok (if decide (k = []) then None else Some (k, v)).
Proof.
  intros Hk. destruct (encode_kv_split k v) as (Hl & Hd & Ht). unfold next_kv. rw Hd Ht Hl.
  destruct (Nat.ltb_spec (length v + length k + 4) 4); [lia|].
  rw from_to_be_bytes Z.mod_small; [|change (256 ^ Z.of_nat 4)%Z with (2^32)%Z; lia].
  rw Nat2Z.id length_app. case_decide as E.
  - by rw E.
  - destruct (Nat.eqb_spec (length k) 0) as [E0|_]; [by apply length_zero_iff_nil in E0|].
    destruct (Nat.ltb_spec (length v + length k) (length k)); [lia|].
    replace (length v + length k - length k)%nat with (length v) by lia.
    by rw drop_app_length take_app_length.
Qed.

(** ** Codecs and concrete runs *)

(** Countability of a record through the tuple of its fields. *)
Ltac countable_by f g := refine (inj_countable' f g _); intros []; reflexivity.

#[export] Instance Uint128_countable : Countable Uint128.
Proof. countable_by u128 mkUint128. Defined.
#[export] Instance Decimal_countable : Countable Decimal.
Proof. countable_by atomics mkDecimal. Defined.
#[export] Instance Coin_countable : Countable Coin.
Proof. countable_by (fun c => (denom c, amount c)) (fun p : string * Uint128 => mkCoin p.1 p.2). Defined.
#[export] Instance byte_countable : Countable byte.
Proof.
  refine (inj_countable Byte.to_N Byte.of_N _). apply Byte.of_to_N.
Defined.

#[export] Instance Delegation_eq_dec : EqDecision Delegation.
Proof. solve_decision. Defined.
#[export] Instance Delegation_countable : Countable Delegation.
Proof.
  countable_by (fun d => (delegator d, del_validator d, del_amount d))
    (fun p : string * string * Coin => mkDelegation p.1.1 p.1.2 p.2).
Defined.
#[export] Instance FullDelegation_eq_dec : EqDecision FullDelegation.
Proof. solve_decision. Defined.
#[export] Instance FullDelegation_countable : Countable FullDelegation.
Proof.
  countable_by
    (fun d => (full_delegator d, full_validator d, full_amount d, can_redelegate d, accumulated_rewards d))
    (fun p : string * string * Coin * Coin * Coin =>
       mkFullDelegation p.1.1.1.1 p.1.1.1.2 p.1.1.2 p.1.2 p.2).
Defined.
#[export] Instance Validator_eq_dec : EqDecision Validator.
Proof. solve_decision. Defined.
#[export] Instance Validator_countable : Countable Validator.
Proof.
  countable_by (fun v => (validator_address v, commission v, max_commission v, max_change_rate v))
    (fun p : string * Decimal * Decimal * Decimal => mkValidator p.1.1.1 p.1.1.2 p.1.2 p.2).
Defined.

(** The responses with a single field. *)
#[export] Instance BalanceResponse_eq_dec : EqDecision BalanceResponse.
Proof. solve_decision. Defined.
#[export] Instance BalanceResponse_countable : Countable BalanceResponse.
Proof. countable_by balance_amount mkBalance. Defined.
#[export] Instance AllBalanceResponse_eq_dec : EqDecision AllBalanceResponse.
Proof. solve_decision. Defined.
#[export] Instance AllBalanceResponse_countable : Countable AllBalanceResponse.
Proof. countable_by all_amount mkAllBalance. Defined.
#[export] Instance BondedDenomResponse_eq_dec : EqDecision BondedDenomResponse.
Proof. solve_decision. Defined.
#[export] Instance BondedDenomResponse_countable : Countable BondedDenomResponse.
Proof. countable_by bonded_denom mkBondedDenom. Defined.
#[export] Instance ValidatorsResponse_eq_dec : EqDecision ValidatorsResponse.
Proof. solve_decision. Defined.
#[export] Instance ValidatorsResponse_countable : Countable ValidatorsResponse.
Proof. countable_by validators mkValidators. Defined.
#[export] Instance AllDelegationsResponse_eq_dec : EqDecision AllDelegationsResponse.
Proof. solve_decision. Defined.
#[export] Instance AllDelegationsResponse_countable : Countable AllDelegationsResponse.
Proof. countable_by delegations mkAllDelegations. Defined.
#[export] Instance UnbondingResponse_eq_dec : EqDecision UnbondingDelegationsResponse.
Proof. solve_decision. Defined.
#[export] Instance UnbondingResponse_countable : Countable UnbondingDelegationsResponse.
Proof. countable_by unbonding mkUnbonding. Defined.
#[export] Instance DelegationResponse_eq_dec : EqDecision DelegationResponse.
Proof. solve_decision. Defined.
#[export] Instance DelegationResponse_countable : Countable DelegationResponse.
Proof. countable_by found mkDelegationResponse. Defined.
#[export] Instance ValidatorRewards_eq_dec : EqDecision ValidatorRewards.
Proof. solve_decision. Defined.
#[export] Instance ValidatorRewards_countable : Countable ValidatorRewards.
Proof.
  countable_by (fun r => (rewards_validator r, reward r))
    (fun p : string * list Coin => mkRewardsOf p.1 p.2).
Defined.
#[export] Instance RewardsResponse_eq_dec : EqDecision RewardsResponse.
Proof. solve_decision. Defined.
#[export] Instance RewardsResponse_countable : Countable RewardsResponse.
Proof.
  countable_by (fun r => (rewards r, total r))
    (fun p : list ValidatorRewards * list Coin => mkRewards p.1 p.2).
Defined.

(** Requests: a tag and the strings of the request. *)
#[export] Instance Empty_eq_dec : EqDecision Empty.
Proof. solve_decision. Defined.
#[export] Instance BankQuery_eq_dec : EqDecision BankQuery.
Proof. solve_decision. Defined.
#[export] Instance StakingQuery_eq_dec : EqDecision StakingQuery.
Proof. solve_decision. Defined.
#[export] Instance WasmQuery_eq_dec : EqDecision WasmQuery.
Proof. solve_decision. Defined.
#[export] Instance DistQuery_eq_dec : EqDecision DistQuery.
Proof. solve_decision. Defined.
#[export] Instance MintQuery_eq_dec : EqDecision MintQuery.
Proof. solve_decision. Defined.
#[export] Instance GovQuery_eq_dec : EqDecision GovQuery.
Proof. solve_decision. Defined.
#[export] Instance QueryRequest_eq_dec : EqDecision (QueryRequest Empty).
Proof. solve_decision. Defined.

Definition request_code (r : QueryRequest Empty) : nat * (string * string) * bytes :=
  match r with
  | BankReq (Balance a d) => (0, (a, d), [])
  | BankReq (AllBalances a) => (1, (a, ""), [])
  | CustomReq mkEmpty => (2, ("", ""), [])
  | StakingReq BondedDenom => (3, ("", ""), [])
  | StakingReq (AllDelegations a) => (4, (a, ""), [])
  | StakingReq (DelegationOf a v) => (5, (a, v), [])
  | StakingReq Validators => (6, ("", ""), [])
  | StakingReq (UnbondingDelegations a) => (7, (a, ""), [])
  | WasmReq (Smart a h m) => (8, (a, h), m)
  | WasmReq (Raw a k h) => (9, (a, h), k)
  | DistReq (Rewards a) => (10, (a, ""), [])
  | MintReq Inflation => (11, ("", ""), [])
  | MintReq BondedRatio => (12, ("", ""), [])
  | GovReq Proposals => (13, ("", ""), [])
  end.

Definition request_of_code (c : nat * (string * string) * bytes) : QueryRequest Empty :=
  match c with
  | (0, (a, d), _) => BankReq (Balance a d)
  | (1, (a, _), _) => BankReq (AllBalances a)
  | (2, _, _) => CustomReq mkEmpty
  | (3, _, _) => StakingReq BondedDenom
  | (4, (a, _), _) => StakingReq (AllDelegations a)
  | (5, (a, v), _) => StakingReq (DelegationOf a v)
  | (6, _, _) => StakingReq Validators
  | (7, (a, _), _) => StakingReq (UnbondingDelegations a)
  | (8, (a, h), m) => WasmReq (Smart a h m)
  | (9, (a, h), k) => WasmReq (Raw a k h)
  | (10, (a, _), _) => DistReq (Rewards a)
  | (11, _, _) => MintReq Inflation
  | (12, _, _) => MintReq BondedRatio
  | (_, _, _) => GovReq Proposals
  end.

#[export] Instance QueryRequest_countable : Countable (QueryRequest Empty).
Proof.
  refine (inj_countable' request_code request_of_code _).
  intros [[]|[]|[]|[]|[]|[]|[]]; reflexivity.
Defined.

Lemma countable_serde_total name T `{Countable T} : SerdeTotal T (H := countable_serde name T).
Proof. constructor. intros x. by eexists. Qed.

(** The codecs under which the mocks run. *)
Module DemoWire.
#[export] Instance request : Serde (QueryRequest Empty) := countable_serde "QueryRequest" _.
#[export] Instance balance : Serde BalanceResponse := countable_serde "BalanceResponse" _.
#[export] Instance all_balance : Serde AllBalanceResponse := countable_serde "AllBalanceResponse" _.
#[export] Instance bonded_denom : Serde BondedDenomResponse := countable_serde "BondedDenomResponse" _.
#[export] Instance validators : Serde ValidatorsResponse := countable_serde "ValidatorsResponse" _.
#[export] Instance delegations : Serde AllDelegationsResponse := countable_serde "AllDelegationsResponse" _.
#[export] Instance unbonding : Serde UnbondingDelegationsResponse :=
  countable_serde "UnbondingDelegationsResponse" _.
#[export] Instance delegation : Serde DelegationResponse := countable_serde "DelegationResponse" _.
#[export] Instance rewards : Serde RewardsResponse := countable_serde "RewardsResponse" _.
End DemoWire.
#[export] Hint Resolve countable_serde_laws countable_serde_total : typeclass_instances.

Lemma mock_address_roundtrip_witness :
  MockApi.canonical_address 5 "alice" = Ok (lit "alice") /\
  MockApi.human_address 5 (lit "alice") = Ok "alice".
Proof.
  split; [done|].
  refine (proj2 (mock_address_roundtrip 5 "alice" (lit "alice") _ _ _));
    [apply (bool_decide_unpack _); vm_compute; exact I|reflexivity|reflexivity].
Defined.

Lemma next_kv_roundtrip_witness :
  next_kv (encode_kv (lit "key") (lit "value")) = Ok (Some (lit "key", lit "value")) /\
  next_kv (encode_kv [] (lit "value")) = Ok None.
Proof.
  split.
  - apply (next_kv_roundtrip (lit "key") (lit "value")). reflexivity.
  - apply (next_kv_roundtrip [] (lit "value")). reflexivity.
Defined.

Section Demo.
Import DemoWire.

Definition demo_mock : MockQuerier.MockQuerier Empty :=
  MockQuerier.update_staking (MockQuerier.new [("alice", [coin 5 "earth"]); ("alice", [coin 7 "earth"])])
    "stake" [mkValidator "val" Dec.one Dec.one Dec.one]
    [mkFullDelegation "alice" "val" (coin 3 "stake") (coin 0 "stake") (coin 1 "stake")].

Lemma mock_querier_answers_witness :
  let Q := provided_querier (RQ := MockQuerier.raw_querier demo_mock) in
  @query_balance Q "alice" "earth" = Ok (coin 7 "earth") /\
  @query_all_balances Q "alice" = Ok [coin 7 "earth"] /\
  @query_bonded_denom Q = Ok "stake" /\ @query_validators Q = Ok ["val"] /\
  @query_all_delegations Q "alice" = Ok [mkDelegation "alice" "val" (coin 3 "stake")] /\
  ask_delegation (RQ := MockQuerier.raw_querier demo_mock) "alice" "val"
  = Ok (Some (mkFullDelegation "alice" "val" (coin 3 "stake") (coin 0 "stake") (coin 1 "stake"))).
Proof. exact (mock_querier_answers demo_mock "alice" "earth" "val"). Defined.

End Demo.
