(* ===== verification/Erc20.v ===== *)
(** * The ERC20 contract: cosmwasm/contracts/erc20/src/contract.rs and msg.rs

    Balances, allowances and the total supply live in three namespaces of one store,
    each number as the 16 big-endian bytes of a [u128].  Handlers run in
    [M S StdError]: every write reaches the store when the source makes it. *)

From Stdlib Require Import Strings.String.
From stdpp Require Import base tactics list numbers strings ssreflect sorting.
From S2P Require Import Prelude Math Storage Prefixed Typed Std.

Local Open Scope string_scope.
Local Open Scope list_scope.

(** ** msg.rs *)

Record InitialBalance : Type := mkInitialBalance { row_address : HumanAddr; row_amount : Uint128 }.

Record InitMsg : Type := mkInitMsg {
  name : string;
  symbol : string;
  decimals : Z;
  initial_balances : list InitialBalance
}.

Inductive HandleMsg : Type :=
| Approve (spender : HumanAddr) (amount : Uint128)
| Transfer (recipient : HumanAddr) (amount : Uint128)
| TransferFrom (owner recipient : HumanAddr) (amount : Uint128)
| Burn (amount : Uint128).

Inductive QueryMsg : Type :=
| QBalance (address : HumanAddr)
| QAllowance (owner spender : HumanAddr).

(** ** contract.rs *)

Record Constants : Type := mkConstants { c_name : string; c_symbol : string; c_decimals : Z }.

Definition PREFIX_CONFIG : bytes := lit "config".
Definition PREFIX_BALANCES : bytes := lit "balances".
Definition PREFIX_ALLOWANCES : bytes := lit "allowances".
Definition KEY_CONSTANTS : bytes := lit "constants".
Definition KEY_TOTAL_SUPPLY : bytes := lit "total_supply".

(** The first 16 bytes; a shorter value makes the slice panic. *)
Definition bytes_to_u128 (data : bytes) : StdResult Z :=
  head16 ← slice data 0 16;
  Ok (from_be_bytes head16).

Definition is_valid_name (n : string) : bool :=
  let len := length (lit n) in
  negb ((len <? 3)%nat || (30 <? len)%nat).

Definition is_valid_symbol (s : string) : bool :=
  let bs := lit s in
  if (length bs <? 3)%nat || (6 <? length bs)%nat then false
  else forallb (fun b => negb ((Z_of_byte b <? 65) || (90 <? Z_of_byte b))%Z) bs.

Section Erc20.
Context {S : Type} `{HS : Storage S} {api : Api} `{HC : Serde Constants}.

Definition read_u128 {T} `{Storage T} (store : T) (key : bytes) : StdResult Z :=
  match get store key with
  | Some data => bytes_to_u128 data
  | None => Ok 0%Z
  end.

Definition read_balance (store : S) (owner : CanonicalAddr) : StdResult Z :=
  balance_store ← Prefixed.new PREFIX_BALANCES store;
  read_u128 balance_store owner.

Definition read_allowance (store : S) (owner spender : CanonicalAddr) : StdResult Z :=
  allowances_store ← Prefixed.new PREFIX_ALLOWANCES store;
  owner_store ← Prefixed.new owner allowances_store;
  read_u128 owner_store spender.

Definition write_allowance (owner spender : CanonicalAddr) (amount : Z) : M S StdError unit :=
  store ← getS;
  allowances_store ← liftR (Prefixed.new PREFIX_ALLOWANCES store);
  owner_store ← liftR (Prefixed.new owner allowances_store);
  putS (inner (inner (set owner_store spender (be_bytes 16 amount)))).

Definition insufficient (what : string) (have required : Z) : StdError :=
  generic_err (what +:+ u128_to_string have +:+ ", required=" +:+ u128_to_string required).

Definition perform_transfer (from to : CanonicalAddr) (amount : Z) : M S StdError unit :=
  store ← getS;
  balances_store ← liftR (Prefixed.new PREFIX_BALANCES store);
  from_balance ← liftR (read_u128 balances_store from);
  if (from_balance <? amount)%Z
  then throw (insufficient "Insufficient funds: balance=" from_balance amount)
  else
    from_balance' ← liftR (arith U128_MAX (from_balance - amount));
    let balances_store1 := set balances_store from (be_bytes 16 from_balance') in
    _ ← putS (inner balances_store1);
    to_balance ← liftR (read_u128 balances_store1 to);
    to_balance' ← liftR (arith U128_MAX (to_balance + amount));
    putS (inner (set balances_store1 to (be_bytes 16 to_balance'))).

Definition respond (logs : list LogAttribute) : HandleResponse Empty := mkHandleResponse [] logs None.

Definition try_transfer (env : Env) (recipient : HumanAddr) (amount : Uint128)
  : M S StdError (HandleResponse Empty) :=
  sender_address_raw ← liftR (canonical_address (sender (message env)));
  recipient_address_raw ← liftR (canonical_address recipient);
  let amount_raw := u128 amount in
  _ ← perform_transfer sender_address_raw recipient_address_raw amount_raw;
  mret (respond [log "action" "transfer";
                 log "sender" (sender (message env));
                 log "recipient" recipient]).

Definition try_transfer_from (env : Env) (owner recipient : HumanAddr) (amount : Uint128)
  : M S StdError (HandleResponse Empty) :=
  spender_address_raw ← liftR (canonical_address (sender (message env)));
  owner_address_raw ← liftR (canonical_address owner);
  recipient_address_raw ← liftR (canonical_address recipient);
  let amount_raw := u128 amount in
  allowance ← readS (fun store => read_allowance store owner_address_raw spender_address_raw);
  if (allowance <? amount_raw)%Z
  then throw (insufficient "Insufficient allowance: allowance=" allowance amount_raw)
  else
    allowance' ← liftR (arith U128_MAX (allowance - amount_raw));
    _ ← write_allowance owner_address_raw spender_address_raw allowance';
    _ ← perform_transfer owner_address_raw recipient_address_raw amount_raw;
    mret (respond [log "action" "transfer_from";
                   log "spender" (sender (message env));
                   log "sender" owner;
                   log "recipient" recipient]).

Definition try_approve (env : Env) (spender : HumanAddr) (amount : Uint128)
  : M S StdError (HandleResponse Empty) :=
  owner_address_raw ← liftR (canonical_address (sender (message env)));
  spender_address_raw ← liftR (canonical_address spender);
  _ ← write_allowance owner_address_raw spender_address_raw (u128 amount);
  mret (respond [log "action" "approve";
                 log "owner" (sender (message env));
                 log "spender" spender]).

Definition try_burn (env : Env) (amount : Uint128) : M S StdError (HandleResponse Empty) :=
  owner_address_raw ← liftR (canonical_address (sender (message env)));
  let amount_raw := u128 amount in
  account_balance ← readS (fun store => read_balance store owner_address_raw);
  if (account_balance <? amount_raw)%Z
  then throw (insufficient "insufficient funds to burn: balance=" account_balance amount_raw)
  else
    account_balance' ← liftR (arith U128_MAX (account_balance - amount_raw));
    store ← getS;
    balances_store ← liftR (Prefixed.new PREFIX_BALANCES store);
    _ ← putS (inner (set balances_store owner_address_raw (be_bytes 16 account_balance')));
    store1 ← getS;
    config_store ← liftR (Prefixed.new PREFIX_CONFIG store1);
    data ← liftR (expect (get config_store KEY_TOTAL_SUPPLY));
    total_supply ← liftR (unwrap (bytes_to_u128 data));
    total_supply' ← liftR (arith U128_MAX (total_supply - amount_raw));
    _ ← putS (inner (set config_store KEY_TOTAL_SUPPLY (be_bytes 16 total_supply')));
    mret (respond [log "action" "burn";
                   log "account" (sender (message env));
                   log "amount" (Uint.to_string amount)]).

Definition handle (env : Env) (msg : HandleMsg) : M S StdError (HandleResponse Empty) :=
  match msg with
  | Approve spender amount => try_approve env spender amount
  | Transfer recipient amount => try_transfer env recipient amount
  | TransferFrom owner recipient amount => try_transfer_from env owner recipient amount
  | Burn amount => try_burn env amount
  end.

(** The loop of [init] over the initial balances: writes each balance, sums them up. *)
Fixpoint init_balances (rows : list InitialBalance) (total_supply : Z) : M S StdError Z :=
  match rows with
  | [] => mret total_supply
  | row :: rows' =>
      raw_address ← liftR (canonical_address (row_address row));
      let amount_raw := u128 (row_amount row) in
      store ← getS;
      balances_store ← liftR (Prefixed.new PREFIX_BALANCES store);
      _ ← putS (inner (set balances_store raw_address (be_bytes 16 amount_raw)));
      total_supply' ← liftR (arith U128_MAX (total_supply + amount_raw));
      init_balances rows' total_supply'
  end.

Definition init (env : Env) (msg : InitMsg) : M S StdError (InitResponse Empty) :=
  total_supply ← init_balances (initial_balances msg) 0;
  if negb (is_valid_name (name msg))
  then throw (generic_err "Name is not in the expected format (3-30 UTF-8 bytes)")
  else if negb (is_valid_symbol (symbol msg))
  then throw (generic_err "Ticker symbol is not in expected format [A-Z]{3,6}")
  else if (decimals msg >? 18)%Z
  then throw (generic_err "Decimals must not exceed 18")
  else
    store ← getS;
    config_store ← liftR (Prefixed.new PREFIX_CONFIG store);
    constants ← liftR (to_vec (mkConstants (name msg) (symbol msg) (decimals msg)));
    let config_store1 := set config_store KEY_CONSTANTS constants in
    _ ← putS (inner config_store1);
    _ ← putS (inner (set config_store1 KEY_TOTAL_SUPPLY (be_bytes 16 total_supply)));
    mret default_init_response.

(** [query]; the answer is the number before [to_binary] encodes it. *)
Definition query (store : S) (msg : QueryMsg) : StdResult Uint128 :=
  match msg with
  | QBalance address =>
      address_key ← canonical_address address;
      balance ← read_balance store address_key;
      Ok (mkUint128 balance)
  | QAllowance owner spender =>
      owner_key ← canonical_address owner;
      spender_key ← canonical_address spender;
      allowance ← read_allowance store owner_key spender_key;
      Ok (mkUint128 allowance)
  end.

End Erc20.

(** ** The abstract token behind the store *)

Section Views.
Context {S : Type} `{HS : Storage S} {HR : RangeLaws S}.

Definition balances_prefix : bytes := be_bytes 2 8 ++ PREFIX_BALANCES.
Definition config_prefix : bytes := be_bytes 2 6 ++ PREFIX_CONFIG.
Definition allowances_prefix : bytes := be_bytes 2 10 ++ PREFIX_ALLOWANCES.

Definition balances_of (s : S) : PrefixedStorage S := mkPrefixed balances_prefix s.
Definition config_of (s : S) : PrefixedStorage S := mkPrefixed config_prefix s.
Definition allowances_of (s : S) : PrefixedStorage S := mkPrefixed allowances_prefix s.

Definition number (o : option bytes) : Z := default 0%Z (from_be_bytes <$> o).

Definition balance (s : S) (a : CanonicalAddr) : Z := number (get (balances_of s) a).
Definition total_supply (s : S) : Z := number (get (config_of s) KEY_TOTAL_SUPPLY).
Definition owner_key (owner : CanonicalAddr) : bytes :=
  be_bytes 2 (Z.of_nat (length owner)) ++ owner.
Definition allowance (s : S) (owner spender : CanonicalAddr) : Z :=
  number (get (allowances_of s) (owner_key owner ++ spender)).

Definition sum_of_balances (s : S) : Z := sum_values from_be_bytes (contents (balances_of s)).

(** Every stored number is 16 bytes long and the total supply is present. *)
Record well_formed (s : S) : Prop := {
  wf_store : store_ok s;
  wf_balances a d : get (balances_of s) a = Some d -> length d = 16;
  wf_allowances k d : get (allowances_of s) k = Some d -> length d = 16;
  wf_total : exists d, get (config_of s) KEY_TOTAL_SUPPLY = Some d /\ length d = 16
}.

(** The token invariant: the total supply is the sum of all balances. *)
Definition supply_inv (s : S) : Prop := well_formed s /\ total_supply s = sum_of_balances s.

End Views.

(** ** Lemmas *)

Lemma bytes_to_u128_16 d : length d = 16 -> bytes_to_u128 d = Ok (from_be_bytes d).
Proof.
  intros Hd. unfold bytes_to_u128. rw slice_ok; [|lia]. cbn [mbind result_bind].
  rw drop_0 take_ge //. lia.
Qed.

Lemma number_16_range d : length d = 16 -> is_u128 (from_be_bytes d).
Proof.
  intros Hd. pose proof (from_be_bytes_range d) as Hr. rw Hd in Hr.
  change (256 ^ Z.of_nat 16)%Z with (2 ^ 128)%Z in Hr. unfold is_u128, U128_MAX. lia.
Qed.

Lemma from_be_bytes_nonneg d : (0 <= from_be_bytes d)%Z.
Proof. apply from_be_bytes_range. Qed.

Section Lemmas.
Context {S : Type} `{HS : Storage S} {HL : StorageLaws S} {HR : RangeLaws S}.

Lemma balances_exact (s : S) : store_ok s -> store_ok (balances_of s).
Proof.
  intros Hs. split; [done|]. exists (be_bytes 2 8 ++ lit "balance"), Byte.x73. by vm_compute.
Qed.

Lemma read_number {T} `{Storage T} (t : T) k :
  (forall d, get t k = Some d -> length d = 16) -> read_u128 t k = Ok (number (get t k)).
Proof.
  intros Hd. unfold read_u128, number. destruct (get t k) as [d|]; [|done].
  cbn. by apply bytes_to_u128_16, Hd.
Qed.

Lemma get_view (p : bytes) (s : S) k : get (mkPrefixed p s) k = get s (p ++ k).
Proof. done. Qed.

(** Writing one balance. *)
Definition set_balance (s : S) (a : CanonicalAddr) (z : Z) : S :=
  inner (set (balances_of s) a (be_bytes 16 z)).

Lemma get_set_balance s a z k :
  get (set_balance s a z) k =
  if decide (balances_prefix ++ a = k) then Some (be_bytes 16 z) else get s k.
Proof. unfold set_balance. cbn. unfold set_with_prefix, concat. apply get_set. Qed.

Lemma balances_set_balance s a z :
  balances_of (set_balance s a z) = set (balances_of s) a (be_bytes 16 z).
Proof. done. Qed.

Lemma config_set_balance s a z k : get (config_of (set_balance s a z)) k = get (config_of s) k.
Proof.
  rw get_view get_set_balance. case_decide as E; [|done].
  by apply (namespace_disjoint PREFIX_BALANCES PREFIX_CONFIG) in E.
Qed.

Lemma allowances_set_balance s a z k :
  get (allowances_of (set_balance s a z)) k = get (allowances_of s) k.
Proof.
  rw get_view get_set_balance. case_decide as E; [|done].
  by apply (namespace_disjoint PREFIX_BALANCES PREFIX_ALLOWANCES) in E.
Qed.

Lemma balance_set_balance s a z b :
  is_u128 z -> balance (set_balance s a z) b = if decide (a = b) then z else balance s b.
Proof.
  intros Hz. unfold balance. rw balances_set_balance get_set. case_decide; [|done].
  unfold number. cbn. by apply u128_be_bytes_roundtrip.
Qed.

Lemma sum_set_balance s a z :
  store_ok s -> is_u128 z ->
  (sum_of_balances (set_balance s a z) = sum_of_balances s - balance s a + z)%Z.
Proof.
  intros Hs Hz. unfold sum_of_balances. rw balances_set_balance contents_set; [|by apply balances_exact].
  destruct (contents_spec (balances_of s)) as [Hok Hg]; [by apply balances_exact|].
  rw sum_values_insert // Hg u128_be_bytes_roundtrip //.
Qed.

Lemma well_formed_set_balance s a z : well_formed s -> well_formed (set_balance s a z).
Proof.
  intros [H1 H2 H3 H4]. split.
  - by apply set_ok.
  - intros b d. rw balances_set_balance get_set. case_decide; [|by apply H2].
    by intros [= <-].
  - intros k d. rw allowances_set_balance. apply H3.
  - by rw config_set_balance.
Qed.

Lemma balance_range s a : well_formed s -> is_u128 (balance s a).
Proof.
  intros Hwf. unfold balance, number. destruct (get (balances_of s) a) as [d|] eqn:E; cbn.
  - by eapply number_16_range, wf_balances.
  - unfold is_u128, U128_MAX. lia.
Qed.

Lemma balance_le_sum s a : store_ok s -> (balance s a <= sum_of_balances s)%Z.
Proof.
  intros Hs. destruct (contents_spec (balances_of s)) as [Hok Hg]; [by apply balances_exact|].
  unfold balance, sum_of_balances, number.
  destruct (get (balances_of s) a) as [d|] eqn:E; cbn.
  - eapply sum_values_ge; [apply from_be_bytes_nonneg|]. by rw Hg.
  - apply sum_values_nonneg, from_be_bytes_nonneg.
Qed.

Lemma total_range s : well_formed s -> is_u128 (total_supply s).
Proof.
  intros [_ _ _ (d & E & Hd)]. unfold total_supply. rw E. cbn. by apply number_16_range.
Qed.

Lemma total_set_balance s a z : total_supply (set_balance s a z) = total_supply s.
Proof. unfold total_supply. by rw config_set_balance. Qed.

Lemma read_balance_eq s a : well_formed s -> read_balance s a = Ok (balance s a).
Proof. intros Hwf. apply (read_number (balances_of s)). intros d. by apply wf_balances. Qed.

End Lemmas.

(** ** Transfers *)

(** The balances after moving [amount] from [from] to [to]; a self-transfer moves nothing. *)
Definition moved (b : CanonicalAddr -> Z) (from to : CanonicalAddr) (amount : Z)
    (a : CanonicalAddr) : Z :=
  (b a - (if decide (a = from) then amount else 0) + (if decide (a = to) then amount else 0))%Z.

Section Transfer.
Context {S : Type} `{HS : Storage S} {HL : StorageLaws S} {HR : RangeLaws S}.

Lemma perform_transfer_eq (s : S) from to amount :
  well_formed s -> (0 <= amount <= balance s from)%Z ->
  perform_transfer from to amount s =
  let s1 := set_balance s from (balance s from - amount) in
  match arith U128_MAX (balance s1 to + amount) with
  | Ok z => (set_balance s1 to z, Ok tt)
  | Err e => (s1, Err e)
  | Panic => (s1, Panic)
  end.
Proof.
  intros Hwf Hb. pose proof (balance_range s from Hwf) as [_ Hr].
  cbv [perform_transfer mbind M_bind getS liftR]. change (Prefixed.new PREFIX_BALANCES s) with
    (Ok (E:=StdError) (balances_of s)). cbv beta iota.
  rw (read_number (balances_of s)); [|intros d; by apply wf_balances].
  change (number (get (balances_of s) from)) with (balance s from). cbv beta iota.
  destruct (Z.ltb_spec (balance s from) amount); [lia|].
  rw arith_in_range; [|lia]. cbv beta iota zeta delta [putS].
  set (s1 := set_balance s from (balance s from - amount)).
  assert (well_formed s1) as Hwf1 by (by apply well_formed_set_balance).
  change (set (balances_of s) from (be_bytes 16 (balance s from - amount))) with (balances_of s1).
  rw (read_number (balances_of s1)); [|intros d; by apply wf_balances].
  change (number (get (balances_of s1) to)) with (balance s1 to). cbv beta iota.
  by destruct (arith U128_MAX (balance s1 to + amount)).
Qed.

Lemma perform_transfer_short (s : S) from to amount :
  well_formed s -> (balance s from < amount)%Z ->
  perform_transfer from to amount s =
  (s, Err (insufficient "Insufficient funds: balance=" (balance s from) amount)).
Proof.
  intros Hwf Hb. cbv [perform_transfer mbind M_bind getS liftR].
  change (Prefixed.new PREFIX_BALANCES s) with (Ok (E:=StdError) (balances_of s)). cbv beta iota.
  rw (read_number (balances_of s)); [|intros d; by apply wf_balances].
  change (number (get (balances_of s) from)) with (balance s from). cbv beta iota.
  by destruct (Z.ltb_spec (balance s from) amount); [|lia].
Qed.

(** Under the token invariant a covered transfer succeeds: it cannot overflow. *)
Lemma perform_transfer_ok (s : S) from to amount :
  supply_inv s -> (0 <= amount <= balance s from)%Z ->
  exists s', perform_transfer from to amount s = (s', Ok tt) /\ supply_inv s' /\
    (forall a, balance s' a = moved (balance s) from to amount a) /\
    (forall k, get (config_of s') k = get (config_of s) k) /\
    (forall k, get (allowances_of s') k = get (allowances_of s) k).
Proof.
  intros [Hwf Hsum] Hb. pose proof (balance_range s from Hwf) as Hr.
  rw perform_transfer_eq //. cbv zeta. set (z1 := (balance s from - amount)%Z).
  assert (is_u128 z1) as Hz1 by (unfold is_u128 in *; lia).
  set (s1 := set_balance s from z1).
  assert (well_formed s1) as Hwf1 by (by apply well_formed_set_balance).
  pose proof (sum_set_balance s from z1 (wf_store _ Hwf) Hz1) as Hs1. fold s1 in Hs1.
  pose proof (balance_le_sum s1 to (wf_store _ Hwf1)) as Hle.
  pose proof (balance_range s1 to Hwf1) as Hrt. pose proof (total_range s Hwf) as Ht.
  assert (is_u128 (balance s1 to + amount)) as Hz2 by (unfold is_u128 in *; lia).
  rw arith_in_range //. exists (set_balance s1 to (balance s1 to + amount)). split; [done|].
  split; [split|].
  - by apply well_formed_set_balance.
  - rw !total_set_balance sum_set_balance //; [|by apply wf_store]. lia.
  - split; [|by split; intros k; rw ?config_set_balance ?allowances_set_balance].
    intros a. unfold moved. rw (balance_set_balance s1 to) //. unfold s1.
    rw !balance_set_balance //. unfold z1. repeat case_decide; subst; try done; lia.
Qed.

End Transfer.

(** ** Allowances and the total supply *)

Section OtherWrites.
Context {S : Type} `{HS : Storage S} {HL : StorageLaws S} {HR : RangeLaws S}.

Definition set_allowance (s : S) (owner spender : CanonicalAddr) (z : Z) : S :=
  set s (allowances_prefix ++ (owner_key owner ++ spender)) (be_bytes 16 z).

Definition set_total (s : S) (z : Z) : S :=
  set s (config_prefix ++ KEY_TOTAL_SUPPLY) (be_bytes 16 z).

Definition short (a : CanonicalAddr) : Prop := (Z.of_nat (length a) <= 65535)%Z.

Lemma prefixed_new_short {T} (t : T) a :
  short a -> Prefixed.new a t = Ok (mkPrefixed (owner_key a) t).
Proof. intros Ha. apply new_Ok. split; [|done]. by apply to_length_prefixed_ok. Qed.

Lemma write_allowance_eq s owner spender z :
  short owner -> write_allowance owner spender z s = (set_allowance s owner spender z, Ok tt).
Proof.
  intros Ho. cbv [write_allowance mbind M_bind getS liftR].
  change (Prefixed.new PREFIX_ALLOWANCES s) with (Ok (E:=StdError) (allowances_of s)).
  cbv beta iota. by rw (prefixed_new_short (allowances_of s)).
Qed.

Lemma read_allowance_eq s owner spender :
  well_formed s -> short owner -> read_allowance s owner spender = Ok (allowance s owner spender).
Proof.
  intros Hwf Ho. unfold read_allowance.
  change (Prefixed.new PREFIX_ALLOWANCES s) with (Ok (E:=StdError) (allowances_of s)).
  cbn [mbind result_bind]. rw (prefixed_new_short (allowances_of s)) //. cbn [mbind result_bind].
  assert (get (mkPrefixed (owner_key owner) (allowances_of s)) spender
          = get (allowances_of s) (owner_key owner ++ spender)) as E by done.
  rw read_number E //. intros d. by apply wf_allowances.
Qed.

Lemma owner_key_inj o1 o2 k1 k2 :
  short o1 -> short o2 -> owner_key o1 ++ k1 = owner_key o2 ++ k2 -> o1 = o2 /\ k1 = k2.
Proof.
  intros H1 H2. apply length_prefixed_inj; by apply to_length_prefixed_ok.
Qed.

Lemma allowance_set_allowance s owner spender z o sp :
  short owner -> short o -> is_u128 z ->
  allowance (set_allowance s owner spender z) o sp =
  if decide (owner = o /\ spender = sp) then z else allowance s o sp.
Proof.
  intros Hs1 Hs2 Hz. unfold allowance, set_allowance, allowances_of. rw !get_view get_set.
  destruct (decide (owner = o /\ spender = sp)) as [[-> ->]|Hn]; case_decide as E; try done.
  - unfold number. cbn [fmap option_fmap option_map from_option id]. by apply u128_be_bytes_roundtrip.
  - apply (inj (app allowances_prefix)) in E.
    destruct (owner_key_inj _ _ _ _ Hs1 Hs2 E). naive_solver.
Qed.

(** Bindings outside a namespace are bindings of the others: the balances. *)
Lemma balances_frame s p k v :
  to_length_prefixed p <> to_length_prefixed PREFIX_BALANCES -> store_ok s ->
  forall q, to_length_prefixed p = Ok q ->
  (forall a, get (balances_of (set s (q ++ k) v)) a = get (balances_of s) a) /\
  sum_of_balances (set s (q ++ k) v) = sum_of_balances s.
Proof.
  intros Hp Hs q Hq.
  assert (forall a, get (balances_of (set s (q ++ k) v)) a = get (balances_of s) a) as Hg.
  { intros a. unfold balances_of. rw !get_view get_set. case_decide as E; [|done].
    apply (namespace_disjoint p PREFIX_BALANCES) in E; [done..|by intros ->]. }
  split; [done|]. unfold sum_of_balances.
  rw (contents_same (balances_of (set s (q ++ k) v)) (balances_of s)); [done|..|done].
  - by apply balances_exact, set_ok.
  - by apply balances_exact.
Qed.

Lemma set_allowance_inv s owner spender z :
  supply_inv s -> supply_inv (set_allowance s owner spender z) /\
  (forall a, balance (set_allowance s owner spender z) a = balance s a) /\
  total_supply (set_allowance s owner spender z) = total_supply s.
Proof.
  intros [[H1 H2 H3 H4] Hsum].
  destruct (balances_frame s PREFIX_ALLOWANCES (owner_key owner ++ spender) (be_bytes 16 z)
              ltac:(done) H1 allowances_prefix eq_refl) as [Hb Hs].
  assert (forall k, get (config_of (set_allowance s owner spender z)) k = get (config_of s) k) as Hc.
  { intros k. unfold config_of. rw !get_view get_set. case_decide as E; [|done].
    by apply (namespace_disjoint PREFIX_ALLOWANCES PREFIX_CONFIG) in E. }
  assert (total_supply (set_allowance s owner spender z) = total_supply s) as Ht.
  { unfold total_supply. by rw Hc. }
  split; [|split; [|done]].
  - split; [split|].
    + by apply set_ok.
    + intros a d. rw Hb. apply H2.
    + intros k d. unfold allowances_of. rw get_view get_set. case_decide.
      * by intros [= <-].
      * apply (H3 k).
    + by rw Hc.
    + rw Ht Hsum. symmetry. apply Hs.
  - intros a. unfold balance. by rw Hb.
Qed.

(** Writing the total supply: everything else stays. *)
Lemma set_total_inv s z :
  well_formed s -> is_u128 z ->
  well_formed (set_total s z) /\ total_supply (set_total s z) = z /\
  sum_of_balances (set_total s z) = sum_of_balances s /\
  (forall a, balance (set_total s z) a = balance s a) /\
  (forall k, get (allowances_of (set_total s z)) k = get (allowances_of s) k).
Proof.
  intros [H1 H2 H3 H4] Hz.
  destruct (balances_frame s PREFIX_CONFIG KEY_TOTAL_SUPPLY (be_bytes 16 z)
              ltac:(done) H1 config_prefix eq_refl) as [Hb Hs].
  assert (forall k, get (allowances_of (set_total s z)) k = get (allowances_of s) k) as Ha.
  { intros k. unfold allowances_of. rw !get_view get_set. case_decide as E; [|done].
    by apply (namespace_disjoint PREFIX_CONFIG PREFIX_ALLOWANCES) in E. }
  assert (get (config_of (set_total s z)) KEY_TOTAL_SUPPLY = Some (be_bytes 16 z)) as Hc.
  { unfold config_of. rw get_view get_set. by case_decide. }
  split_and!; [split| |done| |done].
  - by apply set_ok.
  - intros a d. rw Hb. apply H2.
  - intros k d. rw Ha. apply H3.
  - rw Hc. eexists. split; [done|]. apply be_bytes_length.
  - unfold total_supply. rw Hc. unfold number. cbn [fmap option_fmap option_map from_option id].
    by apply u128_be_bytes_roundtrip.
  - intros a. unfold balance. by rw Hb.
Qed.

(** [try_burn] on an account that covers the amount. *)
Lemma burn_eq (api : Api) env amount owner (s : S) :
  canonical_address (sender (message env)) = Ok owner ->
  supply_inv s -> (0 <= u128 amount <= balance s owner)%Z ->
  try_burn env amount s =
  (set_total (set_balance s owner (balance s owner - u128 amount)) (total_supply s - u128 amount),
   Ok (respond [log "action" "burn"; log "account" (sender (message env));
                log "amount" (Uint.to_string amount)])).
Proof.
  intros Hown [Hwf Hsum] Hb. pose proof (balance_range s owner Hwf) as Hr.
  pose proof (balance_le_sum s owner (wf_store _ Hwf)) as Hle.
  pose proof (total_range s Hwf) as Ht.
  cbv [try_burn mbind M_bind getS liftR readS]. rw Hown. cbv beta iota zeta.
  rw read_balance_eq //. destruct (Z.ltb_spec (balance s owner) (u128 amount)); [lia|].
  rw arith_in_range; [|unfold is_u128 in *; lia]. cbv beta iota.
  change (Prefixed.new PREFIX_BALANCES s) with (Ok (E:=StdError) (balances_of s)).
  cbv beta iota delta [putS].
  set (s1 := set_balance s owner (balance s owner - u128 amount)).
  change (inner (set (balances_of s) owner (be_bytes 16 (balance s owner - u128 amount)))) with s1.
  change (Prefixed.new PREFIX_CONFIG s1) with (Ok (E:=StdError) (config_of s1)). cbv beta iota.
  destruct (wf_total s Hwf) as (d & Hd & Hlen).
  assert (get (config_of s1) KEY_TOTAL_SUPPLY = Some d) as -> by (by rw config_set_balance).
  cbn [expect]. rw bytes_to_u128_16 //. cbn [unwrap].
  assert (from_be_bytes d = total_supply s) as -> by (unfold total_supply; by rw Hd).
  rw arith_in_range; [|unfold is_u128 in *; lia]. done.
Qed.

(** Burning lowers the account and the total by the same amount. *)
Lemma burn_inv (s : S) owner amount :
  supply_inv s -> (0 <= amount <= balance s owner)%Z ->
  let s' := set_total (set_balance s owner (balance s owner - amount)) (total_supply s - amount) in
  supply_inv s' /\ total_supply s' = (total_supply s - amount)%Z /\
  (forall a, balance s' a = if decide (a = owner) then (balance s owner - amount)%Z else balance s a).
Proof.
  intros [Hwf Hsum] Hb.
  pose proof (balance_range s owner Hwf) as Hr. pose proof (total_range s Hwf) as Ht.
  pose proof (balance_le_sum s owner (wf_store _ Hwf)) as Hle.
  set (z := (balance s owner - amount)%Z). set (s1 := set_balance s owner z). cbv zeta.
  assert (is_u128 z) as Hz by (unfold is_u128, z in *; lia).
  assert (well_formed s1) as Hwf1 by (by apply well_formed_set_balance).
  destruct (set_total_inv s1 (total_supply s - amount) Hwf1) as (Hw2 & Ht2 & Hs2 & Hb2 & _).
  { unfold is_u128 in *; lia. }
  split_and!; [split; [done|]|done|].
  - rw Ht2 Hs2. unfold s1. rw sum_set_balance //; [|by apply wf_store]. unfold z. lia.
  - intros a. rw Hb2. unfold s1. rw balance_set_balance //. repeat case_decide; congruence.
Qed.

End OtherWrites.

(** ** Properties of the handlers *)

(** The amounts of a message are [u128]s. *)
Definition amount_ok (msg : HandleMsg) : Prop :=
  match msg with
  | Approve _ a | Transfer _ a | TransferFrom _ _ a | Burn a => Uint.wf a
  end.

(** What the chain's [Api] promises: it answers without panicking, with addresses
    short enough to be namespaces. *)
Class ApiLaws (api : Api) : Prop := {
  canonical_short h a : canonical_address h = Ok a -> short a;
  canonical_no_panic h : canonical_address h <> Panic
}.

Section Handlers.
Context {S : Type} `{HS : Storage S} {HL : StorageLaws S} {HR : RangeLaws S}.
Context {api : Api} {HA : ApiLaws api}.

Lemma try_transfer_run env recipient amount f t (s : S) :
  canonical_address (sender (message env)) = Ok f -> canonical_address recipient = Ok t ->
  try_transfer env recipient amount s =
  match perform_transfer f t (u128 amount) s with
  | (s', Ok _) => (s', Ok (respond [log "action" "transfer"; log "sender" (sender (message env));
                                    log "recipient" recipient]))
  | (s', Err e) => (s', Err e)
  | (s', Panic) => (s', Panic)
  end.
Proof. intros Hf Ht. cbv [try_transfer mbind M_bind liftR mret M_ret]. by rw Hf Ht. Qed.

(** An allowance read from the store is a [u128]. *)
Lemma allowance_range (s : S) o sp : well_formed s -> is_u128 (allowance s o sp).
Proof.
  intros Hwf. unfold allowance, number.
  destruct (get _ _) as [d|] eqn:E; cbn [fmap option_fmap option_map from_option id].
  - by eapply number_16_range, wf_allowances.
  - unfold is_u128, U128_MAX. lia.
Qed.

(** [try_transfer_from] once the addresses are known. *)
Lemma try_transfer_from_run env owner recipient amount sp o t (s : S) :
  canonical_address (sender (message env)) = Ok sp -> canonical_address owner = Ok o ->
  canonical_address recipient = Ok t -> well_formed s -> short o -> Uint.wf amount ->
  try_transfer_from env owner recipient amount s =
  if (allowance s o sp <? u128 amount)%Z
  then (s, Err (insufficient "Insufficient allowance: allowance=" (allowance s o sp) (u128 amount)))
  else match perform_transfer o t (u128 amount)
               (set_allowance s o sp (allowance s o sp - u128 amount)) with
       | (s', Ok _) => (s', Ok (respond [log "action" "transfer_from";
                                         log "spender" (sender (message env));
                                         log "sender" owner; log "recipient" recipient]))
       | (s', Err e) => (s', Err e)
       | (s', Panic) => (s', Panic)
       end.
Proof.
  intros Hsp Ho Ht Hwf Hsh [Ha _]. cbv [try_transfer_from mbind M_bind liftR readS mret M_ret].
  rw Hsp Ho Ht. cbv beta iota zeta. rw read_allowance_eq //.
  destruct (Z.ltb_spec (allowance s o sp) (u128 amount)); [done|].
  destruct (allowance_range s o sp Hwf) as [_ Hr].
  rw arith_in_range; [|lia]. cbv beta iota. by rw write_allowance_eq.
Qed.

(** A transfer either fails with the insufficient-funds error and leaves the store alone, or
    moves exactly the amount from the sender to the recipient (also when they are the same
    account) and changes no other balance, no allowance and not the total supply. *)
Theorem transfer_spec env recipient amount f t (s : S) :
  supply_inv s -> Uint.wf amount ->
  canonical_address (sender (message env)) = Ok f -> canonical_address recipient = Ok t ->
  if (balance s f <? u128 amount)%Z
  then try_transfer env recipient amount s =
       (s, Err (insufficient "Insufficient funds: balance=" (balance s f) (u128 amount)))
  else exists s' r, try_transfer env recipient amount s = (s', Ok r) /\ supply_inv s' /\
       total_supply s' = total_supply s /\
       (forall a, balance s' a = moved (balance s) f t (u128 amount) a) /\
       (forall o sp, allowance s' o sp = allowance s o sp).
Proof.
  intros Hinv [Ha _] Hf Ht. rw (try_transfer_run _ _ _ f t) //.
  destruct (Z.ltb_spec (balance s f) (u128 amount)).
  - rw perform_transfer_short //. by destruct Hinv.
  - destruct (perform_transfer_ok s f t (u128 amount) Hinv) as (s' & -> & Hi & Hb & Hc & Hal); [lia|].
    do 2 eexists. split_and!; [done..| |done|].
    + unfold total_supply. by rw Hc.
    + intros. unfold allowance. by rw Hal.
Qed.

(** A transfer_from fails when the allowance is too small (store unchanged) or the owner is
    short of funds; otherwise it moves exactly the amount from owner to recipient, lowers
    the allowance of the spender by it and leaves every other allowance. *)
Theorem transfer_from_spec env owner recipient amount sp o t (s : S) :
  supply_inv s -> Uint.wf amount ->
  canonical_address (sender (message env)) = Ok sp -> canonical_address owner = Ok o ->
  canonical_address recipient = Ok t ->
  if (allowance s o sp <? u128 amount)%Z
  then try_transfer_from env owner recipient amount s =
       (s, Err (insufficient "Insufficient allowance: allowance=" (allowance s o sp) (u128 amount)))
  else if (balance s o <? u128 amount)%Z
  then exists s', try_transfer_from env owner recipient amount s =
       (s', Err (insufficient "Insufficient funds: balance=" (balance s o) (u128 amount)))
  else exists s' r, try_transfer_from env owner recipient amount s = (s', Ok r) /\ supply_inv s' /\
       total_supply s' = total_supply s /\
       (forall a, balance s' a = moved (balance s) o t (u128 amount) a) /\
       allowance s' o sp = (allowance s o sp - u128 amount)%Z /\
       (forall o' sp', short o' -> (o', sp') <> (o, sp) ->
          allowance s' o' sp' = allowance s o' sp').
Proof.
  intros Hinv Ha Hsp Ho Ht. pose proof (canonical_short _ _ Ho) as Hsh.
  rw (try_transfer_from_run _ _ _ _ sp o t) //; [|by destruct Hinv].
  destruct (Z.ltb_spec (allowance s o sp) (u128 amount)) as [|Hal]; [done|].
  set (s1 := set_allowance s o sp (allowance s o sp - u128 amount)).
  destruct (set_allowance_inv s o sp (allowance s o sp - u128 amount) Hinv) as (Hi1 & Hb1 & Ht1).
  fold s1 in Hi1, Hb1, Ht1. destruct Ha as [Ha _].
  destruct (Z.ltb_spec (balance s o) (u128 amount)) as [Hb|Hb].
  { exists s1. rw -(Hb1 o) perform_transfer_short // ?Hb1 //. by destruct Hi1. }
  destruct (perform_transfer_ok s1 o t (u128 amount) Hi1) as (s' & -> & Hi & Hb' & Hc & Hall).
  { rw Hb1. lia. }
  assert (is_u128 (allowance s o sp - u128 amount)) as Hr.
  { destruct (allowance_range s o sp) as [??]; [by destruct Hinv|]. split; lia. }
  assert (forall o' sp', allowance s' o' sp' = allowance s1 o' sp') as Hal'.
  { intros. unfold allowance. by rw Hall. }
  do 2 eexists. split_and!; [done..| | | |].
  - rw -Ht1. unfold total_supply. by rw Hc.
  - intros a. rw Hb'. unfold moved. by rw Hb1.
  - rw Hal' allowance_set_allowance // decide_True //.
  - intros o' sp' Hsh' Hne. rw Hal' allowance_set_allowance // decide_False //. by intros [-> ->].
Qed.

Lemma burn_short env amount owner (s : S) :
  well_formed s -> canonical_address (sender (message env)) = Ok owner ->
  (balance s owner < u128 amount)%Z ->
  try_burn env amount s =
  (s, Err (insufficient "insufficient funds to burn: balance=" (balance s owner) (u128 amount))).
Proof.
  intros Hwf Ho Hlt. cbv [try_burn mbind M_bind liftR readS]. rw Ho. cbv beta iota zeta.
  rw read_balance_eq //. by rw (proj2 (Z.ltb_lt _ _) Hlt).
Qed.

(** A burn either fails with the insufficient-funds error and leaves the store alone, or lowers
    the balance of the sender and the total supply by the amount and changes no other
    balance. *)
Theorem burn_spec env amount owner (s : S) :
  supply_inv s -> Uint.wf amount -> canonical_address (sender (message env)) = Ok owner ->
  if (balance s owner <? u128 amount)%Z
  then try_burn env amount s =
       (s, Err (insufficient "insufficient funds to burn: balance=" (balance s owner) (u128 amount)))
  else exists s' r, try_burn env amount s = (s', Ok r) /\ supply_inv s' /\
       total_supply s' = (total_supply s - u128 amount)%Z /\
       (forall a, balance s' a =
          if decide (a = owner) then (balance s owner - u128 amount)%Z else balance s a).
Proof.
  intros Hinv [Ha _] Hown. destruct (Z.ltb_spec (balance s owner) (u128 amount)).
  - apply burn_short; [by destruct Hinv|done..].
  - rw (burn_eq api env amount owner s) //. do 2 eexists. split; [done|]. by apply burn_inv.
Qed.

(** Neither a panic nor a broken invariant comes out of a state monad computation. *)
Definition safe_outcome {A} (o : S * result StdError A) : Prop :=
  o.2 <> Panic /\ (is_ok o.2 = true -> supply_inv o.1).

Lemma perform_transfer_safe (s : S) f t amount :
  supply_inv s -> (0 <= amount)%Z -> safe_outcome (perform_transfer f t amount s).
Proof.
  intros Hinv Ha. destruct (Z.lt_ge_cases (balance s f) amount).
  - rw perform_transfer_short //. by destruct Hinv.
  - by destruct (perform_transfer_ok s f t amount Hinv) as (s' & -> & Hi & _).
Qed.

Lemma safe_canonical {A} h (k : CanonicalAddr -> M S StdError A) (s : S) :
  (forall a, canonical_address h = Ok a -> safe_outcome (k a s)) ->
  safe_outcome ((a ← liftR (canonical_address h); k a) s).
Proof.
  intros Hk. cbv [mbind M_bind liftR].
  destruct (canonical_address h) as [a|e|] eqn:E; [by apply Hk|done|].
  by apply canonical_no_panic in E.
Qed.

Lemma safe_map {A B} (o : S * result StdError A) (b : B) :
  safe_outcome o ->
  safe_outcome match o with
               | (s', Ok _) => (s', Ok b) | (s', Err e) => (s', Err e) | (s', Panic) => (s', Panic)
               end.
Proof. destruct o as [s' [a|e|]]; unfold safe_outcome; cbn; intros [? ?]; by auto. Qed.

Lemma try_approve_safe env spender amount (s : S) :
  supply_inv s -> safe_outcome (try_approve env spender amount s).
Proof.
  intros Hinv. apply safe_canonical. intros o Ho. apply safe_canonical. intros sp Hsp.
  cbv [mbind M_bind mret M_ret]. rw write_allowance_eq; [|by eapply canonical_short].
  split; [done|]. intros _. by apply set_allowance_inv.
Qed.

Lemma try_transfer_safe env recipient amount (s : S) :
  supply_inv s -> Uint.wf amount -> safe_outcome (try_transfer env recipient amount s).
Proof.
  intros Hinv [Ha _]. apply safe_canonical. intros f Hf. apply safe_canonical. intros t Ht.
  by apply safe_map, perform_transfer_safe.
Qed.

Lemma try_transfer_from_safe env owner recipient amount (s : S) :
  supply_inv s -> Uint.wf amount -> safe_outcome (try_transfer_from env owner recipient amount s).
Proof.
  intros Hinv Ha. unfold try_transfer_from. apply safe_canonical. intros sp Hsp.
  apply safe_canonical. intros o Ho. apply safe_canonical. intros t Ht.
  pose proof (try_transfer_from_run env owner recipient amount sp o t s Hsp Ho Ht) as E.
  cbv [try_transfer_from mbind M_bind liftR] in E. rw Hsp Ho Ht in E.
  cbv [mbind M_bind liftR]. rw E //; [|by destruct Hinv|by eapply canonical_short].
  destruct (_ <? _)%Z; [done|]. destruct Ha as [Ha _].
  by apply safe_map, perform_transfer_safe; [apply set_allowance_inv|].
Qed.

Lemma try_burn_safe env amount (s : S) :
  supply_inv s -> Uint.wf amount -> safe_outcome (try_burn env amount s).
Proof.
  intros Hinv Ha. destruct (canonical_address (sender (message env))) as [o|e|] eqn:Ho.
  2: { cbv [try_burn mbind M_bind liftR]. by rw Ho. }
  2: by apply canonical_no_panic in Ho.
  destruct (Z.lt_ge_cases (balance s o) (u128 amount)) as [Hlt|Hge].
  - rw (burn_short env amount o) //. by destruct Hinv.
  - destruct Ha as [Ha _]. rw (burn_eq api env amount o) //. split; [done|]. intros _. cbn.
    by apply burn_inv.
Qed.

(** C36: Every handle message, on a store where the total supply is the sum of all balances,
    returns without a panic, and after a success the total supply is again the sum of all
    balances. *)
Theorem handle_preserves_supply env msg (s s' : S) r :
  supply_inv s -> amount_ok msg -> handle env msg s = (s', r) ->
  r <> Panic /\ (is_ok r = true -> supply_inv s').
Proof.
  intros Hinv Ha E. change (safe_outcome (s', r)). rw -E. destruct msg; cbn.
  - by apply try_approve_safe.
  - by apply try_transfer_safe.
  - by apply try_transfer_from_safe.
  - by apply try_burn_safe.
Qed.

End Handlers.

(** ** Initialisation *)

Section Init.
Context {S : Type} `{HS : Storage S} {HL : StorageLaws S} {HR : RangeLaws S}.
Context {api : Api} {HA : ApiLaws api} `{HC : Serde Constants}.

(** A store in which no account and no allowance exists yet. *)
Definition fresh (s : S) : Prop :=
  store_ok s /\ (forall a, get (balances_of s) a = None) /\
  (forall k, get (allowances_of s) k = None).

(** The rows with their addresses canonicalised. *)
Definition canonical_rows (rows : list InitialBalance) (l : list (CanonicalAddr * Z)) : Prop :=
  Forall2 (fun row p => canonical_address (row_address row) = Ok p.1 /\
                        u128 (row_amount row) = p.2 /\ is_u128 p.2) rows l.

Definition sum_rows (l : list (CanonicalAddr * Z)) : Z :=
  foldr (fun p acc => (p.2 + acc)%Z) 0%Z l.

(** What holds after some rows were written, with [done_] the written ones. *)
Definition rows_written (s : S) (acc : Z) : Prop :=
  store_ok s /\ (forall k, get (allowances_of s) k = None) /\
  (forall a d, get (balances_of s) a = Some d -> length d = 16) /\
  sum_of_balances s = acc.

Lemma sum_rows_nonneg l : Forall (fun p => is_u128 p.2) l -> (0 <= sum_rows l)%Z.
Proof.
  unfold sum_rows. induction 1 as [|[a z] l [Hz _] _ IH]; cbn [foldr fst snd] in *; lia.
Qed.

Lemma init_balances_ok rows l (s : S) acc :
  canonical_rows rows l -> NoDup (l.*1) -> rows_written s acc -> (0 <= acc)%Z ->
  (forall a, a ∈ l.*1 -> get (balances_of s) a = None) -> (acc + sum_rows l <= U128_MAX)%Z ->
  exists s', init_balances rows acc s = (s', Ok (acc + sum_rows l)%Z) /\
    rows_written s' (acc + sum_rows l) /\
    (forall a z, (a, z) ∈ l -> balance s' a = z) /\
    (forall a, a ∉ l.*1 -> balance s' a = balance s a).
Proof.
  intros Hrows. revert s acc. induction Hrows as [|row [a z] rows l (Hc & Hz & Hu) Hrows IH];
    intros s acc Hnd (Hok & Hal & Hlen & Hsum) Hacc Hnone Hmax.
  - exists s. cbn. rw Z.add_0_r. split_and!; [done..| |done]. by intros a z ?%elem_of_nil.
  - cbn [sum_rows foldr fst snd fmap list_fmap] in *. apply NoDup_cons in Hnd as [Hna Hnd].
    assert (Forall (fun p => is_u128 p.2) l) as Hpos.
    { clear -Hrows. induction Hrows as [|? ? ? ? (_ & _ & ?)]; constructor; auto. }
    pose proof (sum_rows_nonneg l Hpos) as Hn. unfold sum_rows in *.
    assert (balance s a = 0)%Z as Hb0 by (unfold balance; rw Hnone //; left).
    assert (rows_written (set_balance s a z) (acc + z)) as Hw.
    { split_and!.
      - by apply set_ok.
      - intros k. by rw allowances_set_balance.
      - intros b d. rw balances_set_balance get_set. case_decide; [by intros [= <-]|apply Hlen].
      - rw sum_set_balance // Hb0. lia. }
    destruct (IH (set_balance s a z) (acc + z)%Z Hnd Hw) as (s' & E & Hw' & Hin & Hout).
    + destruct Hu. lia.
    + intros b Hb. rw balances_set_balance get_set. case_decide; [by subst|].
      apply Hnone. by right.
    + lia.
    + exists s'. replace (acc + (z + foldr (fun p acc => p.2 + acc) 0 l))%Z
        with (acc + z + foldr (fun p acc => p.2 + acc) 0 l)%Z by lia.
      split_and!; [|done| |].
      * cbn [init_balances]. cbv [mbind M_bind getS liftR putS]. rw Hc. cbv beta iota zeta.
        change (Prefixed.new PREFIX_BALANCES s) with (Ok (E:=StdError) (balances_of s)).
        cbv beta iota. rw Hz arith_in_range; [|destruct Hu; lia]. exact E.
      * intros b y [?|Hb]%elem_of_cons; [|by apply Hin]. simplify_eq.
        rw Hout // balance_set_balance // decide_True //.
      * intros b Hb. apply not_elem_of_cons in Hb as [Hb1 Hb2].
        rw Hout // balance_set_balance // decide_False //.
Qed.

(** init with pairwise different addresses, a valid name, symbol and decimals, and a total below
    2^128 succeeds, gives every listed account its amount and establishes that the total
    supply is the sum of all balances. *)
Theorem init_establishes_supply env msg l constants (s : S) :
  fresh s -> canonical_rows (initial_balances msg) l -> NoDup (l.*1) ->
  (sum_rows l <= U128_MAX)%Z ->
  is_valid_name (name msg) = true -> is_valid_symbol (symbol msg) = true ->
  (decimals msg <= 18)%Z ->
  to_vec (mkConstants (name msg) (symbol msg) (decimals msg)) = Ok constants ->
  exists s', init env msg s = (s', Ok default_init_response) /\ supply_inv s' /\
    total_supply s' = sum_rows l /\ (forall a z, (a, z) ∈ l -> balance s' a = z).
Proof.
  intros (Hok & Hb & Ha) Hrows Hnd Hmax Hname Hsym Hdec Hvec.
  assert (contents (balances_of s) = []) as Hempty.
  { destruct (contents_spec (balances_of s)) as [Hs Hg]; [by apply balances_exact|].
    apply sorted_ext; [done|constructor|]. intros [k v]. rw -btree_get_elem // Hg Hb.
    split; [done|]. by intros ?%elem_of_nil. }
  destruct (init_balances_ok (initial_balances msg) l s 0) as (s1 & E & (Hok1 & Ha1 & Hlen1 & Hsum1) & Hin & _);
    [done..|split_and!; [done..| |]|done|done|done|].
  { intros a d. by rw Hb. }
  { unfold sum_of_balances. by rw Hempty. }
  destruct (balances_frame s1 PREFIX_CONFIG KEY_CONSTANTS constants ltac:(done) Hok1
              config_prefix eq_refl) as [Hb2 Hs2].
  set (s2 := set s1 (config_prefix ++ KEY_CONSTANTS) constants) in *.
  assert (store_ok s2) as Hok2 by (by apply set_ok).
  destruct (balances_frame s2 PREFIX_CONFIG KEY_TOTAL_SUPPLY (be_bytes 16 (sum_rows l)) ltac:(done)
              Hok2 config_prefix eq_refl) as [Hb3 Hs3].
  set (s3 := set s2 (config_prefix ++ KEY_TOTAL_SUPPLY) (be_bytes 16 (sum_rows l))) in *.
  assert (get (config_of s3) KEY_TOTAL_SUPPLY = Some (be_bytes 16 (sum_rows l))) as Hc3.
  { unfold config_of. rw get_view get_set. by case_decide. }
  assert (forall k, get (allowances_of s3) k = None) as Ha3.
  { intros k. unfold allowances_of. rw get_view !get_set.
    repeat (case_decide as Ek; [by apply (namespace_disjoint PREFIX_CONFIG PREFIX_ALLOWANCES) in Ek|]).
    apply Ha1. }
  assert (is_u128 (sum_rows l)) as Hu.
  { split; [|done]. apply sum_rows_nonneg. clear -Hrows.
    induction Hrows as [|? ? ? ? (_ & _ & ?)]; constructor; auto. }
  assert (total_supply s3 = sum_rows l) as Ht.
  { unfold total_supply. rw Hc3. unfold number. cbn [fmap option_fmap option_map from_option id].
    by apply u128_be_bytes_roundtrip. }
  exists s3. split; [|split; [split; [split|]|split; [done|]]].
  - unfold init. cbv [mbind M_bind]. rw E. cbv beta iota. rw Z.add_0_l Hname Hsym. cbn [negb].
    destruct (Z.gtb_spec (decimals msg) 18); [lia|]. cbv [getS liftR putS mret M_ret].
    change (Prefixed.new PREFIX_CONFIG s1) with (Ok (E:=StdError) (config_of s1)).
    cbv beta iota. by rw Hvec.
  - by apply set_ok.
  - intros a d. rw Hb3 Hb2. apply Hlen1.
  - intros k d. by rw Ha3.
  - rw Hc3. eexists. split; [done|]. apply be_bytes_length.
  - by rw Ht Hs3 Hs2 Hsum1.
  - intros a z Hin'. unfold balance. rw Hb3 Hb2. by apply Hin.
Qed.

End Init.

(** ** A concrete token *)

Definition alice : CanonicalAddr := lit "alice".
Definition bob : CanonicalAddr := lit "bob".

(** Alice owns 7 and lets Bob spend 5 of them; Bob owns 3. *)
Definition demo_token : MemoryStorage :=
  let s1 := set_balance Memory.new alice 7 in
  let s2 := set_balance s1 bob 3 in
  let s3 := set_allowance s2 alice bob 5 in
  set_total s3 10.

Lemma demo_token_store : store_ok demo_token.
Proof. do 4 apply set_ok. constructor. Qed.

Lemma demo_values k d : get demo_token k = Some d -> length d = 16.
Proof.
  pose proof demo_token_store as Hok.
  assert (Forall (fun kv : KV => length kv.2 = 16) (data demo_token)) as Hall.
  { vm_compute. repeat constructor. }
  intros Hg%btree_get_elem; [|done]. by eapply Forall_forall in Hg; [|exact Hall].
Qed.

Lemma demo_token_ok : supply_inv demo_token.
Proof.
  split; [split|].
  - apply demo_token_store.
  - intros a d. apply demo_values.
  - intros k d. apply demo_values.
  - eexists. by split; [by vm_compute|].
  - by vm_compute.
Qed.

Lemma demo_api_laws : ApiLaws demo_api.
Proof.
  split; intros h; cbn; destruct (Nat.leb_spec (String.length h) 32) as [Hh|]; [|done..].
  intros a [= <-]. unfold short, lit.
  assert (length (list_byte_of_string h) = String.length h) as ->; [|lia].
  clear Hh. by induction h; cbn; [|f_equal].
Qed.

#[local] Existing Instance demo_api.
#[local] Existing Instance demo_api_laws.

(** The hypotheses of the transfer theorem hold of the concrete token. *)
Lemma transfer_spec_witness :
  exists s' r, try_transfer (demo_env "alice") "bob" (mkUint128 4) demo_token = (s', Ok r) /\
    balance s' alice = 3%Z /\ balance s' bob = 7%Z.
Proof.
  destruct (transfer_spec (demo_env "alice") "bob" (mkUint128 4) alice bob demo_token
              demo_token_ok ltac:(done) eq_refl eq_refl) as (s' & r & E & _ & _ & Hb & _).
  exists s', r. split; [done|]. by rw !Hb.
Defined.

Lemma transfer_from_spec_witness :
  exists s' r, try_transfer_from (demo_env "bob") "alice" "bob" (mkUint128 4) demo_token
               = (s', Ok r) /\
    balance s' bob = 7%Z /\ allowance s' alice bob = 1%Z.
Proof.
  destruct (transfer_from_spec (demo_env "bob") "alice" "bob" (mkUint128 4) bob alice bob demo_token
              demo_token_ok ltac:(done) eq_refl eq_refl eq_refl) as (s' & r & E & _ & _ & Hb & Ha & _).
  exists s', r. split; [done|]. by rw Hb Ha.
Defined.

Lemma burn_spec_witness :
  exists s' r, try_burn (demo_env "alice") (mkUint128 7) demo_token = (s', Ok r) /\
    total_supply s' = 3%Z /\ balance s' alice = 0%Z.
Proof.
  destruct (burn_spec (demo_env "alice") (mkUint128 7) alice demo_token
              demo_token_ok ltac:(done) eq_refl) as (s' & r & E & _ & Ht & Hb).
  exists s', r. split; [done|]. by rw Ht Hb.
Defined.

Lemma handle_preserves_supply_witness :
  supply_inv (handle (demo_env "bob") (TransferFrom "alice" "carol" (mkUint128 2)) demo_token).1.
Proof.
  destruct (handle (demo_env "bob") (TransferFrom "alice" "carol" (mkUint128 2)) demo_token)
    as [s' r] eqn:E.
  destruct (handle_preserves_supply (demo_env "bob") (TransferFrom "alice" "carol" (mkUint128 2))
              demo_token s' r demo_token_ok ltac:(done) E) as [_ Hinv].
  apply Hinv. assert (r = (s', r).2) as -> by done. rw -E. by vm_compute.
Defined.

(** A codec for the constants that keeps the decimals. *)
Definition demo_constants : Serde Constants := {|
  to_vec c := Ok (be_bytes 1 (c_decimals c) ++ lit (c_symbol c));
  from_slice b := Err (generic_err "not needed");
  type_name := "Constants"
|}.
#[local] Existing Instance demo_constants.

Definition demo_init (rows : list (HumanAddr * Z)) : InitMsg :=
  mkInitMsg "Cash Token" "CASH" 9
    (map (fun p => mkInitialBalance p.1 (mkUint128 p.2)) rows).

Lemma init_establishes_supply_witness :
  exists s', init (demo_env "creator") (demo_init [("alice", 7%Z); ("bob", 3%Z)]) Memory.new
             = (s', Ok default_init_response) /\ supply_inv s' /\ total_supply s' = 10%Z.
Proof.
  destruct (init_establishes_supply (demo_env "creator") (demo_init [("alice", 7%Z); ("bob", 3%Z)])
              [(alice, 7%Z); (bob, 3%Z)] (be_bytes 1 9 ++ lit "CASH") Memory.new)
    as (s' & E & Hi & Ht & _).
  - split; [constructor|done].
  - apply Forall2_cons; split; [by vm_compute|]. apply Forall2_cons; split; [by vm_compute|].
    constructor.
  - apply NoDup_cons. split; [set_solver|]. apply NoDup_singleton.
  - done.
  - done.
  - done.
  - done.
  - done.
  - by exists s'.
Defined.

(** init with the same address listed twice succeeds with a total supply of 3 while the balances
    sum to 2: the second row overwrites the first but both are added to the total. *)
Theorem init_duplicate_rows_break_supply :
  exists s', init (demo_env "creator") (demo_init [("alice", 1%Z); ("alice", 2%Z)]) Memory.new
             = (s', Ok default_init_response) /\
    total_supply s' = 3%Z /\ sum_of_balances s' = 2%Z.
Proof.
  exists (init (demo_env "creator") (demo_init [("alice", 1%Z); ("alice", 2%Z)]) Memory.new).1.
  by vm_compute.
Qed.
