(* ===== verification/Crypto.v ===== *)
(** * The enclave's keys and ciphers: cosmwasm/packages/wasmi-runtime/src/crypto

    sha.rs, hmac.rs, kdf.rs, keys.rs, ed25519.rs, aes_siv.rs, storage.rs and
    key_manager.rs, with the error types of enclave-ffi-types.  The cryptographic
    algorithms (crates ring, aes-siv, x25519-dalek, secp256k1, ripemd160) and the
    protected file system are parameters, the class [Primitives]; what the code relies
    on of them is the class [PrimitiveLaws]. *)

From Stdlib Require Import Strings.String.
From stdpp Require Import base tactics list numbers strings ssreflect relations.
From S2P Require Import Prelude.

Local Open Scope string_scope.
Local Open Scope list_scope.

(** ** enclave-ffi-types/src/types.rs, crypto/errors.rs *)

(** A pointer into the untrusted side; [0] is null. *)
Record UntrustedVmError : Type := mkVmError { vm_ptr : Z }.
Definition default_vm_error : UntrustedVmError := mkVmError 0.

Inductive EnclaveError : Type :=
| FailedOcall (vm_error : UntrustedVmError)
| ValidationFailure
| InvalidWasm
| CannotInitializeWasmMemory
| WasmModuleWithStart
| WasmModuleWithFP
| FailedGasMeteringInjection
| InternalError
| OutOfGas
| FailedFunctionCall
| ContractPanicUnreachable
| ContractPanicMemoryAccessOutOfBounds
| ContractPanicTableAccessOutOfBounds
| ContractPanicElemUninitialized
| ContractPanicDivisionByZero
| ContractPanicInvalidConversionToInt
| ContractPanicStackOverflow
| ContractPanicUnexpectedSignature
| FailedSeal
| FailedUnseal
| FailedContractAuthentication
| FailedToDeserialize
| FailedToSerialize
| EncryptionError
| DecryptionError
| MemoryAllocationError
| MemorySafetyAllocationError
| MemoryReadError
| MemoryWriteError
| NotImplemented
| FailedTxVerification
| UnauthorizedWrite
| HostMisbehavior
| EnclavePanic
| OutOfMemory
| ExceededRecursionLimit
| UnknownError.

Inductive CryptoError : Type :=
| DerivingKeyError
| MissingKeyError
| CryptoDecryptionError
| ImproperEncryption
| CryptoEncryptionError
| SigningError
| ParsingError
| RecoveryError
| KeyError
| RandomError
| VerificationError.

(** ** The algorithms the crates provide *)

Class Primitives : Type := {
  digest_sha256 : bytes -> bytes;
  hmac_sha256 (key message : bytes) : bytes;
  hkdf_sha256 (salt ikm : bytes) (info : list bytes) : bytes;
  siv_encrypt (key : bytes) (ad : list bytes) (plaintext : bytes) : option bytes;
  siv_decrypt (key : bytes) (ad : list bytes) (ciphertext : bytes) : option bytes;
  x25519_public (secret : bytes) : bytes;
  x25519_shared (secret public : bytes) : bytes;
  ripemd160 : bytes -> bytes;
  secp_message (hash : bytes) : option bytes;
  secp_signature (compact : bytes) : option bytes;
  secp_public_key (serialized : bytes) : option bytes;
  secp_verify (message signature public_key : bytes) : bool
}.

(** Output lengths, and that SIV decryption inverts encryption and adds 16 bytes. *)
Class PrimitiveLaws `{Primitives} : Prop := {
  digest_length m : length (digest_sha256 m) = 32;
  hmac_length k m : length (hmac_sha256 k m) = 32;
  hkdf_length s i n : length (hkdf_sha256 s i n) = 32;
  siv_decrypt_encrypt k ad p c : siv_encrypt k ad p = Some c -> siv_decrypt k ad c = Some p;
  siv_length k ad p c : siv_encrypt k ad p = Some c -> length c = length p + 16
}.

Section Keys.
Context `{P : Primitives}.

(** ** sha.rs, hmac.rs *)

Definition HASH_SIZE : nat := 32.

Definition sha_256 (data : bytes) : bytes := digest_sha256 data.

(** ** keys.rs: an [AESKey] and a [Seed] are their 32 bytes *)

Definition SYMMETRIC_KEY_SIZE : nat := 32.
Definition SECRET_KEY_SIZE : nat := 32.

Record AESKey : Type := mkAESKey { key_bytes : bytes }.
Record Seed : Type := mkSeed { seed_bytes : bytes }.

Definition aes_new_from_slice (privkey : bytes) : AESKey := mkAESKey privkey.
Definition aes_get (key : AESKey) : bytes := key_bytes key.
Definition seed_as_slice (seed : Seed) : bytes := seed_bytes seed.
(** [Seed::new]; [rand] is what the random generator fills the seed with. *)
Definition seed_new (rand : result CryptoError bytes) : result CryptoError Seed :=
  b ← rand; Ok (mkSeed b).

Definition sign_sha_256 (key : AESKey) (to_sign : bytes) : bytes :=
  hmac_sha256 (key_bytes key) to_sign.

(** ** kdf.rs *)

Definition KDF_SALT : bytes :=
  map byte_of_Z [0; 0; 0; 0; 0; 0; 0; 0; 0; 2; 75; 234; 216; 223; 105; 153;
                 8; 82; 194; 2; 219; 14; 0; 151; 193; 161; 46; 166; 55; 215; 233; 109]%Z.

Definition derive_key (input_bytes : bytes) (info : list bytes) : AESKey :=
  mkAESKey (hkdf_sha256 KDF_SALT input_bytes info).

Definition derive_key_from_key (key : AESKey) (data : bytes) : AESKey :=
  derive_key (key_bytes key ++ data) [].

Definition derive_key_from_seed (seed : Seed) (data : bytes) : AESKey :=
  derive_key (seed_bytes seed ++ data) [lit "seed"].

(** ** aes_siv.rs: no associated data is one empty string *)

Definition aes_siv_encrypt (plaintext : bytes) (ad : option (list bytes)) (key : bytes)
  : result CryptoError bytes :=
  match siv_encrypt key (default [[]] ad) plaintext with
  | Some c => Ok c
  | None => Err CryptoEncryptionError
  end.

Definition aes_siv_decrypt (ciphertext : bytes) (ad : option (list bytes)) (key : bytes)
  : result CryptoError bytes :=
  match siv_decrypt key (default [[]] ad) ciphertext with
  | Some p => Ok p
  | None => Err CryptoDecryptionError
  end.

Definition encrypt_siv (key : AESKey) (plaintext : bytes) (ad : option (list bytes)) :=
  aes_siv_encrypt plaintext ad (key_bytes key).

Definition decrypt_siv (key : AESKey) (ciphertext : bytes) (ad : option (list bytes)) :=
  aes_siv_decrypt ciphertext ad (key_bytes key).

(** ** ed25519.rs *)

Record KeyPair : Type := mkKeyPair { secret_key : bytes; public_key : bytes }.

(** [KeyPair::from]: the public half is computed from the secret. *)
Definition keypair_from (secret : bytes) : KeyPair := mkKeyPair secret (x25519_public secret).

(** [KeyPair::new]. *)
Definition keypair_new (rand : result CryptoError bytes) : result CryptoError KeyPair :=
  b ← rand; Ok (keypair_from b).
Definition get_privkey (kp : KeyPair) : bytes := secret_key kp.
Definition get_pubkey (kp : KeyPair) : bytes := public_key kp.

Definition diffie_hellman (kp : KeyPair) (your_public : bytes) : bytes :=
  x25519_shared (secret_key kp) your_public.

(** ** storage.rs: sealed files *)

Abbreviation Disk := (list (string * bytes)).

(** The protected file system: whether a file can be created, and what a write leaves
    in it and whether it succeeded; and the environment variable that names its directory. *)
Class SgxFs : Type := {
  scrt_sgx_storage : option string;
  sgx_create : string -> bool;
  sgx_write_all : string -> bytes -> bytes * bool
}.

Class SgxFsLaws `{SgxFs} : Prop := {
  sgx_write_ok path data : (sgx_write_all path data).2 = true -> (sgx_write_all path data).1 = data
}.

Fixpoint file_lookup (disk : Disk) (path : string) : option bytes :=
  match disk with
  | [] => None
  | (p, b) :: disk' => if (p =? path)%string then Some b else file_lookup disk' path
  end.

Definition file_store (disk : Disk) (path : string) (b : bytes) : Disk := (path, b) :: disk.

Definition seal `{SgxFs} (data : bytes) (path : string) (disk : Disk) : Disk * result EnclaveError unit :=
  if sgx_create path then
    let '(contents, ok) := sgx_write_all path data in
    (file_store disk path contents, if ok then Ok tt else Err FailedUnseal)
  else (disk, Err FailedUnseal).

(** [open] reads into a 32-byte buffer and refuses a shorter file. *)
Definition open_sealed (disk : Disk) (path : string) : result EnclaveError bytes :=
  match file_lookup disk path with
  | None => Err FailedUnseal
  | Some contents =>
      let buf := take SECRET_KEY_SIZE contents in
      if (length buf <? SECRET_KEY_SIZE)%nat then Err FailedUnseal else Ok buf
  end.

(** [SealedKey] for the three kinds of keys. *)
Definition aes_seal `{SgxFs} (key : AESKey) (path : string) (disk : Disk) := seal (aes_get key) path disk.
Definition aes_unseal (disk : Disk) (path : string) : result EnclaveError AESKey :=
  buf ← open_sealed disk path; Ok (mkAESKey buf).
Definition seed_seal `{SgxFs} (seed : Seed) (path : string) (disk : Disk) := seal (seed_as_slice seed) path disk.
Definition seed_unseal (disk : Disk) (path : string) : result EnclaveError Seed :=
  buf ← open_sealed disk path; Ok (mkSeed buf).
Definition keypair_seal `{SgxFs} (kp : KeyPair) (path : string) (disk : Disk) := seal (get_privkey kp) path disk.
Definition keypair_unseal (disk : Disk) (path : string) : result EnclaveError KeyPair :=
  buf ← open_sealed disk path; Ok (keypair_from buf).

(** ** key_manager.rs *)

Definition CONSENSUS_SEED_SEALING_PATH `{SgxFs} : string :=
  default "./.sgx_secrets/" scrt_sgx_storage +:+ "consensus_seed.sealed".
Definition REGISTRATION_KEY_SEALING_PATH `{SgxFs} : string :=
  default "./.sgx_secrets/" scrt_sgx_storage +:+ "new_node_seed_exchange_keypair.sealed".
Definition CONSENSUS_SEED_EXCHANGE_KEYPAIR_DERIVE_ORDER : Z := 1.
Definition CONSENSUS_IO_EXCHANGE_KEYPAIR_DERIVE_ORDER : Z := 2.
Definition CONSENSUS_STATE_IKM_DERIVE_ORDER : Z := 3.
Definition CONSENSUS_CALLBACK_SECRET_DERIVE_ORDER : Z := 4.

Record Keychain : Type := mkKeychain {
  consensus_seed : option Seed;
  consensus_state_ikm : option AESKey;
  consensus_seed_exchange_keypair : option KeyPair;
  consensus_io_exchange_keypair : option KeyPair;
  consensus_callback_secret : option AESKey;
  registration_key : option KeyPair
}.

Definition is_consensus_seed_set (k : Keychain) : bool :=
  match consensus_seed k with Some _ => true | None => false end.

Definition get_consensus_state_ikm (k : Keychain) : result CryptoError AESKey :=
  ok_or ParsingError (consensus_state_ikm k).
Definition get_consensus_seed (k : Keychain) : result CryptoError Seed :=
  ok_or ParsingError (consensus_seed k).
Definition seed_exchange_key (k : Keychain) : result CryptoError KeyPair :=
  ok_or ParsingError (consensus_seed_exchange_keypair k).
Definition get_consensus_io_exchange_keypair (k : Keychain) : result CryptoError KeyPair :=
  ok_or ParsingError (consensus_io_exchange_keypair k).
Definition get_consensus_callback_secret (k : Keychain) : result CryptoError AESKey :=
  ok_or ParsingError (consensus_callback_secret k).
Definition get_registration_key (k : Keychain) : result CryptoError KeyPair :=
  ok_or ParsingError (registration_key k).

Definition set_consensus_seed_exchange_keypair (kp : KeyPair) (k : Keychain) : Keychain :=
  mkKeychain (consensus_seed k) (consensus_state_ikm k) (Some kp)
    (consensus_io_exchange_keypair k) (consensus_callback_secret k) (registration_key k).
Definition set_consensus_io_exchange_keypair (kp : KeyPair) (k : Keychain) : Keychain :=
  mkKeychain (consensus_seed k) (consensus_state_ikm k) (consensus_seed_exchange_keypair k)
    (Some kp) (consensus_callback_secret k) (registration_key k).
Definition set_consensus_state_ikm (key : AESKey) (k : Keychain) : Keychain :=
  mkKeychain (consensus_seed k) (Some key) (consensus_seed_exchange_keypair k)
    (consensus_io_exchange_keypair k) (consensus_callback_secret k) (registration_key k).
Definition set_consensus_callback_secret (key : AESKey) (k : Keychain) : Keychain :=
  mkKeychain (consensus_seed k) (consensus_state_ikm k) (consensus_seed_exchange_keypair k)
    (consensus_io_exchange_keypair k) (Some key) (registration_key k).

(** An enclave's memory and disk. *)
Record Enclave : Type := mkEnclave { keychain : Keychain; disk : Disk }.

Definition set_consensus_seed `{SgxFs} (seed : Seed) : M Enclave EnclaveError unit :=
  fun e =>
    match seed_seal seed CONSENSUS_SEED_SEALING_PATH (disk e) with
    | (d, Ok _) =>
        let k := keychain e in
        (mkEnclave (mkKeychain (Some seed) (consensus_state_ikm k) (consensus_seed_exchange_keypair k)
           (consensus_io_exchange_keypair k) (consensus_callback_secret k) (registration_key k)) d,
         Ok tt)
    | (d, Err err) => (mkEnclave (keychain e) d, Err err)
    | (d, Panic) => (mkEnclave (keychain e) d, Panic)
    end.

Definition set_registration_key `{SgxFs} (kp : KeyPair) : M Enclave EnclaveError unit :=
  fun e =>
    match keypair_seal kp REGISTRATION_KEY_SEALING_PATH (disk e) with
    | (d, Ok _) =>
        let k := keychain e in
        (mkEnclave (mkKeychain (consensus_seed k) (consensus_state_ikm k)
           (consensus_seed_exchange_keypair k) (consensus_io_exchange_keypair k)
           (consensus_callback_secret k) (Some kp)) d,
         Ok tt)
    | (d, Err err) => (mkEnclave (keychain e) d, Err err)
    | (d, Panic) => (mkEnclave (keychain e) d, Panic)
    end.

Definition derive_order (seed : Seed) (order : Z) : AESKey :=
  derive_key_from_seed seed (be_bytes 4 order).

Definition generate_consensus_master_keys (k : Keychain) : Keychain :=
  match consensus_seed k with
  | None => k
  | Some seed =>
      let k1 := set_consensus_seed_exchange_keypair
                  (keypair_from (key_bytes (derive_order seed CONSENSUS_SEED_EXCHANGE_KEYPAIR_DERIVE_ORDER))) k in
      let k2 := set_consensus_io_exchange_keypair
                  (keypair_from (key_bytes (derive_order seed CONSENSUS_IO_EXCHANGE_KEYPAIR_DERIVE_ORDER))) k1 in
      let k3 := set_consensus_state_ikm (derive_order seed CONSENSUS_STATE_IKM_DERIVE_ORDER) k2 in
      set_consensus_callback_secret (derive_order seed CONSENSUS_CALLBACK_SECRET_DERIVE_ORDER) k3
  end.

Definition create_consensus_seed `{SgxFs} (rand : result CryptoError bytes)
  : M Enclave CryptoError unit :=
  fun e =>
    match seed_new rand with
    | Ok seed =>
        match set_consensus_seed seed e with
        | (e', Ok _) => (e', Ok tt)
        | (e', Err _) => (e', Err KeyError)
        | (e', Panic) => (e', Panic)
        end
    | Err err => (e, Err err)
    | Panic => (e, Panic)
    end.

Definition create_registration_key `{SgxFs} (rand : result CryptoError bytes)
  : M Enclave CryptoError unit :=
  fun e =>
    match keypair_new rand with
    | Ok kp =>
        match set_registration_key kp e with
        | (e', Ok _) => (e', Ok tt)
        | (e', Err _) => (e', Err KeyError)
        | (e', Panic) => (e', Panic)
        end
    | Err err => (e, Err err)
    | Panic => (e, Panic)
    end.

(** [Keychain::new]: what a starting enclave finds on its disk. *)
Definition keychain_new `{SgxFs} (d : Disk) : Keychain :=
  let seed := match seed_unseal d CONSENSUS_SEED_SEALING_PATH with
              | Ok seed => Some seed | _ => None end in
  let reg := match keypair_unseal d REGISTRATION_KEY_SEALING_PATH with
             | Ok kp => Some kp | _ => None end in
  generate_consensus_master_keys (mkKeychain seed None None None None reg).

End Keys.

(** ** Properties *)

Section KeychainFacts.
Context `{P : Primitives} `{F : SgxFs} {HF : SgxFsLaws}.

Lemma seal_ok data path d d' :
  seal data path d = (d', Ok tt) -> d' = file_store d path data.
Proof.
  unfold seal. destruct (sgx_create path); [|done].
  pose proof (sgx_write_ok path data) as Hw. destruct (sgx_write_all path data) as [c [|]]; [|done].
  cbn in Hw. intros [= <-]. by rw Hw.
Qed.

Lemma open_after_store d path b : length b = 32 -> open_sealed (file_store d path b) path = Ok b.
Proof.
  intros Hb. unfold open_sealed. cbn [file_lookup file_store]. rw String.eqb_refl.
  unfold SECRET_KEY_SIZE. rw take_ge; [|lia]. by rw Hb.
Qed.

Lemma open_other_path d p path b :
  p <> path -> open_sealed (file_store d p b) path = open_sealed d path.
Proof.
  intros Hp. unfold open_sealed. cbn [file_lookup file_store].
  by destruct (String.eqb_spec p path).
Qed.

Lemma append_cancel (s a b : string) : s +:+ a = s +:+ b -> a = b.
Proof. induction s as [|c s IH]; [done|]. cbn. by intros [= ?%IH]. Qed.

Lemma sealing_paths_differ : CONSENSUS_SEED_SEALING_PATH <> REGISTRATION_KEY_SEALING_PATH.
Proof. by intros ?%append_cancel. Qed.

(** The memory of an enclave is what its disk would give it at the next start. *)
Definition booted (e : Enclave) : Prop := keychain e = keychain_new (disk e).

(** How a node gets its keys: a fresh consensus seed followed by the derivation of the
    master keys, or a fresh registration key. *)
Inductive setup : Enclave -> Enclave -> Prop :=
| setup_seed b e e' :
    length b = 32 -> create_consensus_seed (Ok b) e = (e', Ok tt) ->
    setup e (mkEnclave (generate_consensus_master_keys (keychain e')) (disk e'))
| setup_registration b e e' :
    length b = 32 -> create_registration_key (Ok b) e = (e', Ok tt) -> setup e e'.

Lemma registration_key_new d :
  registration_key (keychain_new d) =
  match open_sealed d REGISTRATION_KEY_SEALING_PATH with
  | Ok b => Some (keypair_from b) | _ => None end.
Proof. unfold keychain_new, seed_unseal, keypair_unseal. by destruct (open_sealed d CONSENSUS_SEED_SEALING_PATH), (open_sealed d REGISTRATION_KEY_SEALING_PATH). Qed.

Lemma setup_booted e e' : booted e -> setup e e' -> booted e'.
Proof.
  intros Hb Hs. revert Hb. destruct Hs as [b e0 e1 Hlen Hc|b e0 e1 Hlen Hc]; intros Hb.
  - unfold create_consensus_seed, set_consensus_seed, seed_seal in Hc. cbn [seed_new mbind result_bind] in Hc.
    destruct (seal _ _ (disk e0)) as [d [[]| |]] eqn:Es; [|done..].
    apply seal_ok in Es. injection Hc as <-. unfold booted in *. cbn in Es |- *. subst d.
    unfold keychain_new, seed_unseal, keypair_unseal. rw open_after_store // open_other_path ?Hb; [|apply sealing_paths_differ].
    rw registration_key_new. cbn [mbind result_bind].
    by destruct (open_sealed (disk e0) REGISTRATION_KEY_SEALING_PATH).
  - unfold create_registration_key, set_registration_key, keypair_seal in Hc. cbn [keypair_new mbind result_bind] in Hc.
    destruct (seal _ _ (disk e0)) as [d [[]| |]] eqn:Es; [|done..].
    apply seal_ok in Es. injection Hc as <-. unfold booted in *. cbn in Es |- *. subst d. rw Hb.
    unfold keychain_new, seed_unseal, keypair_unseal.
    rw open_after_store // open_other_path; [|apply not_eq_sym, sealing_paths_differ].
    by destruct (open_sealed (disk e0) CONSENSUS_SEED_SEALING_PATH).
Qed.

(** C29: After any sequence of successful seed creations (with derivation of the master keys)
    and registration key creations, the keychain in memory is the one a restarted enclave
    rebuilds from its sealed files. *)
Theorem keys_survive_restart d e :
  rtc setup (mkEnclave (keychain_new d) d) e -> keychain e = keychain_new (disk e).
Proof.
  intros Hr. refine (rtc_ind_r booted _ _ _ _ Hr); [done|].
  intros e1 e2 _ Hs Hb. by eapply setup_booted.
Qed.

End KeychainFacts.

Section Lengths.
Context `{HP : PrimitiveLaws}.

Lemma derive_key_length input info : length (key_bytes (derive_key input info)) = 32.
Proof. apply hkdf_length. Qed.

Lemma decrypt_encrypt_siv key p ad c : encrypt_siv key p ad = Ok c -> decrypt_siv key c ad = Ok p.
Proof.
  unfold encrypt_siv, decrypt_siv, aes_siv_encrypt, aes_siv_decrypt.
  destruct (siv_encrypt _ _ _) as [c'|] eqn:E; [|done]. intros [= <-].
  by rw (siv_decrypt_encrypt _ _ _ _ E).
Qed.

Lemma encrypt_siv_length key p ad c : encrypt_siv key p ad = Ok c -> length c = length p + 16.
Proof.
  unfold encrypt_siv, aes_siv_encrypt. destruct (siv_encrypt _ _ _) as [c'|] eqn:E; [|done].
  intros [= <-]. by apply siv_length in E.
Qed.

End Lengths.

(** ** Concrete primitives, used to run the models on examples *)

(** A 32-byte checksum that depends on every byte. *)
Definition demo_hash (m : bytes) : bytes :=
  be_bytes 32 (foldl (fun acc b => acc * 257 + Z_of_byte b + 1)%Z 0%Z m).

(** Encryption that appends 16 check bytes and refuses a wrong check. *)
Definition demo_check (k : bytes) (ad : list bytes) (p : bytes) : bytes :=
  take 16 (demo_hash (k ++ concat ad ++ p)).

Definition demo_primitives : Primitives := {|
  digest_sha256 := demo_hash;
  hmac_sha256 k m := demo_hash (k ++ m);
  hkdf_sha256 s i n := demo_hash (s ++ i ++ concat n);
  siv_encrypt k ad p := Some (p ++ demo_check k ad p);
  siv_decrypt k ad c :=
    let p := take (length c - 16) c in
    if bool_decide (c = p ++ demo_check k ad p) then Some p else None;
  x25519_public s := demo_hash s;
  x25519_shared s p := demo_hash (s ++ p);
  ripemd160 m := take 20 (demo_hash m);
  secp_message h := Some h;
  secp_signature s := Some s;
  secp_public_key s := Some s;
  secp_verify m s k := bytes_eqb s (demo_hash (k ++ m))
|}.

Lemma demo_primitive_laws : @PrimitiveLaws demo_primitives.
Proof.
  assert (forall k ad p, length (demo_check k ad p) = 16) as Hc.
  { intros. unfold demo_check, demo_hash. by rw length_take be_bytes_length. }
  split; try (intros; apply be_bytes_length); intros k ad p c;
    cbn [siv_encrypt siv_decrypt demo_primitives]; intros [= <-].
  - rw length_app Hc Nat.add_sub take_app_length bool_decide_true //.
  - by rw length_app Hc.
Qed.

Definition demo_fs : SgxFs := {| scrt_sgx_storage := None; sgx_create _ := true; sgx_write_all _ data := (data, true) |}.

Lemma demo_fs_laws : @SgxFsLaws demo_fs.
Proof. by split. Qed.

Definition demo_seed : bytes := demo_hash (lit "seed").

Lemma keys_survive_restart_witness :
  let e1 := @create_consensus_seed demo_fs (Ok demo_seed) (mkEnclave (@keychain_new demo_primitives demo_fs []) []) in
  let e2 := mkEnclave (@generate_consensus_master_keys demo_primitives (keychain e1.1)) (disk e1.1) in
  e1.2 = Ok tt /\ keychain e2 = @keychain_new demo_primitives demo_fs (disk e2).
Proof.
  cbv zeta. split; [done|].
  apply (@keys_survive_restart demo_primitives demo_fs demo_fs_laws []).
  apply rtc_once. eapply setup_seed; [|reflexivity]. apply be_bytes_length.
Defined.
