(* ===== verification/SecretMsg.v ===== *)
(** * Messages in and out of the enclave: wasmi-runtime/src/wasm/types.rs and io.rs

    The encrypted message format [SecretMessage], the encryption of a contract's output
    and of the messages it sends to other contracts, and the callback signature that
    authenticates those.  JSON, base64, hex and bech32 (crates serde_json, base64, hex,
    bech32) are parameters: the classes [Codecs] and [Json]. *)

From Stdlib Require Import Strings.String.
From stdpp Require Import base tactics list numbers strings ssreflect.
From S2P Require Import Prelude Crypto.

Local Open Scope string_scope.
Local Open Scope list_scope.

Class Codecs : Type := {
  base64_encode : bytes -> string;
  base64_decode : bytes -> option bytes;
  hex_encode : bytes -> string;
  hex_decode : bytes -> option bytes;
  bech32_decode : string -> option (string * bytes);
  bech32_encode : string -> bytes -> option string;
  from_base32 : bytes -> option bytes;
  to_base32 : bytes -> bytes
}.

Class CodecLaws `{Codecs} : Prop := {
  base64_roundtrip b : base64_decode (lit (base64_encode b)) = Some b;
  hex_roundtrip b : hex_decode (lit (hex_encode b)) = Some b;
  hex_length b : length (lit (hex_encode b)) = 2 * length b
}.

Class Json (T : Type) : Type := {
  json_to_vec : T -> option bytes;
  json_from_slice : bytes -> option T
}.
#[global] Hint Mode Json + : typeclass_instances.

(** ** cosmwasm/types.rs *)

Abbreviation HumanAddr := string.
Abbreviation CanonicalAddr := (list Byte.byte).
Abbreviation Binary := (list Byte.byte).

Record BlockInfo : Type := mkBlock { height : Z; time : Z; chain_id : string }.
Record Coin : Type := mkCoin { denom : string; amount : string }.
Record MessageInfo : Type := mkMessage { sender : HumanAddr; sent_funds : list Coin }.
Record ContractInfo : Type := mkContract { address : HumanAddr }.
Record Env : Type := mkEnv {
  block : BlockInfo;
  message : MessageInfo;
  contract : ContractInfo;
  contract_key : option string;
  contract_code_hash : string
}.

#[export] Instance enclave_coin_eq_dec : EqDecision Coin.
Proof. solve_decision. Defined.

(** serde_json's [Value]; a number is its text. *)
#[local] Unset Elimination Schemes.
Inductive Value : Type :=
| VNull
| VBool (b : bool)
| VNumber (text : string)
| VString (s : string)
| VArray (items : list Value)
| VObject (fields : list (string * Value)).

#[local] Set Elimination Schemes.

Inductive VoteOption : Type := Yes | No | Abstain | NoWithVeto.
Inductive GovMsg : Type := Vote (proposal : Z) (vote_option : VoteOption).
Inductive BankMsg : Type := Send (from_address to_address : HumanAddr) (amount : list Coin).
Inductive StakingMsg : Type :=
| Delegate (validator : HumanAddr) (amount : Coin)
| Undelegate (validator : HumanAddr) (amount : Coin)
| Withdraw (validator : HumanAddr) (recipient : option HumanAddr)
| Redelegate (src_validator dst_validator : HumanAddr) (amount : Coin).
Inductive CustomMsg : Type := CDebug (s : string) | CRaw (b : Binary).
Inductive WasmMsg : Type :=
| Execute (contract_addr : HumanAddr) (callback_code_hash : string) (msg : Binary)
          (send : list Coin) (callback_sig : option bytes)
| Instantiate (code_id : Z) (callback_code_hash : string) (msg : Binary)
              (send : list Coin) (label : string) (callback_sig : option bytes).
Inductive CosmosMsg : Type :=
| MsgBank (m : BankMsg)
| MsgCustom (m : CustomMsg)
| MsgStaking (m : StakingMsg)
| MsgWasm (m : WasmMsg)
| MsgGov (m : GovMsg).
Record LogAttribute : Type := mkLog { log_key : string; log_value : string }.
Record ContractResult : Type := mkContractResult {
  messages : list CosmosMsg;
  logs : list LogAttribute;
  data : option Binary
}.
Inductive WasmOutput : Type :=
| ErrObject (err : Value)
| OkString (ok : string)
| OkObject (ok : ContractResult).

(** ** SecretMessage *)

Abbreviation IoNonce := (list Byte.byte).

Record SecretMessage : Type := mkSecret {
  nonce : IoNonce;
  user_public_key : bytes;
  msg : bytes
}.

Definition secret_wf (m : SecretMessage) : Prop :=
  length (nonce m) = 32 /\ length (user_public_key m) = 32.

Section Messages.
Context `{P : Primitives} `{C : Codecs} `{Json Value} `{Json string} `{Json WasmOutput} `{Json (list Coin)}.
(** The enclave's [KEY_MANAGER]. *)
Variable km : Keychain.

Definition CanonicalAddr_from_human (h : HumanAddr) : option CanonicalAddr :=
  match bech32_decode h with
  | None => None
  | Some (_, data) => from_base32 data
  end.

(** [calc_encryption_key]: a key only the user and the enclave can compute. *)
Definition calc_encryption_key (n : IoNonce) (pk : bytes) : result EnclaveError AESKey :=
  enclave_io_key ← unwrap (get_consensus_io_exchange_keypair km);
  let tx_encryption_ikm := diffie_hellman enclave_io_key pk in
  Ok (derive_key_from_key (mkAESKey tx_encryption_ikm) n).

Definition encryption_key (m : SecretMessage) : result EnclaveError AESKey :=
  calc_encryption_key (nonce m) (user_public_key m).

Definition encrypt_in_place (m : SecretMessage) : result EnclaveError SecretMessage :=
  key ← encryption_key m;
  c ← map_err (fun _ => EncryptionError) (encrypt_siv key (msg m) None);
  Ok (mkSecret (nonce m) (user_public_key m) c).

Definition decrypt (m : SecretMessage) : result EnclaveError bytes :=
  key ← encryption_key m;
  map_err (fun _ => DecryptionError) (decrypt_siv key (msg m) None).

Definition secret_from_base64 (msg_b64 : string) (n : IoNonce) (pk : bytes)
  : result EnclaveError SecretMessage :=
  m ← ok_or FailedToDeserialize (base64_decode (lit msg_b64));
  Ok (mkSecret n pk m).

Definition secret_from_slice (m : bytes) : result EnclaveError SecretMessage :=
  if (length m <? 82)%nat then Err DecryptionError
  else
    n ← slice m 0 32;
    pk ← slice m 32 64;
    body ← slice m 64 (length m);
    Ok (mkSecret n pk body).

Definition secret_to_vec (m : SecretMessage) : bytes := nonce m ++ user_public_key m ++ msg m.

(** ** io.rs *)

Definition quote : byte := Byte.x22.
Fixpoint trim_start_quotes (l : bytes) : bytes :=
  match l with
  | b :: l' => if bool_decide (b = quote) then trim_start_quotes l' else l
  | [] => []
  end.
Definition trim_quotes (l : bytes) : bytes :=
  rev (trim_start_quotes (rev (trim_start_quotes l))).

(** [encrypt_serializable] once the value is serialised to [json]. *)
Definition encrypt_serialized (key : AESKey) (json : option bytes) : result EnclaveError string :=
  serialized ← ok_or EncryptionError json;
  encrypted ← map_err (fun _ => EncryptionError) (encrypt_siv key (trim_quotes serialized) None);
  Ok (base64_encode encrypted).

Definition encrypt_serializable {T} `{Json T} (key : AESKey) (val : T) : result EnclaveError string :=
  encrypt_serialized key (json_to_vec val).

(** [Binary] serialises as the JSON string of its base64 text. *)
#[local] Instance json_binary : Json Binary := {|
  json_to_vec b := json_to_vec (base64_encode b);
  json_from_slice j := s ← json_from_slice (T:=string) j; base64_decode (lit s)
|}.

Definition encrypt_preserialized_string (key : AESKey) (val : string) : result EnclaveError string :=
  encrypted ← map_err (fun _ => EncryptionError) (encrypt_siv key (lit val) None);
  Ok (base64_encode encrypted).

Definition Binary_from_base64 (encoded : string) : result EnclaveError Binary :=
  ok_or FailedToDeserialize (base64_decode (lit encoded)).

(** Hash(Enclave_secret | sender(current contract) | msg_to_pass | sent_funds) *)
Definition create_callback_signature (contract_addr : CanonicalAddr) (msg_to_sign : SecretMessage)
    (funds_to_send : list Coin) : result EnclaveError bytes :=
  secret ← unwrap (get_consensus_callback_secret km);
  funds ← expect (json_to_vec funds_to_send);
  Ok (digest_sha256 (key_bytes secret ++ contract_addr ++ msg msg_to_sign ++ funds)).

(** The message and the signature that replace those of an outgoing message. *)
Definition encrypt_inner_msg (callback_code_hash : string) (inner : Binary) (send : list Coin)
    (n : IoNonce) (pk : bytes) (contract_addr : CanonicalAddr) : result EnclaveError (Binary * bytes) :=
  let hash_appended_msg := lit callback_code_hash ++ inner in
  msg_to_pass ← secret_from_base64 (base64_encode hash_appended_msg) n pk;
  encrypted ← encrypt_in_place msg_to_pass;
  sig ← create_callback_signature contract_addr encrypted send;
  Ok (secret_to_vec encrypted, sig).

Definition encrypt_wasm_msg (wasm_msg : WasmMsg) (n : IoNonce) (pk : bytes)
    (contract_addr : CanonicalAddr) : result EnclaveError WasmMsg :=
  match wasm_msg with
  | Execute addr hash m send _ =>
      p ← encrypt_inner_msg hash m send n pk contract_addr;
      Ok (Execute addr hash p.1 send (Some p.2))
  | Instantiate code_id hash m send label _ =>
      p ← encrypt_inner_msg hash m send n pk contract_addr;
      Ok (Instantiate code_id hash p.1 send label (Some p.2))
  end.

Definition encrypt_cosmos_msg (n : IoNonce) (pk : bytes) (contract_addr : CanonicalAddr)
    (m : CosmosMsg) : result EnclaveError CosmosMsg :=
  match m with
  | MsgWasm wasm_msg =>
      w ← encrypt_wasm_msg wasm_msg n pk contract_addr;
      Ok (MsgWasm w)
  | _ => Ok m
  end.

Definition encrypt_log (key : AESKey) (l : LogAttribute) : result EnclaveError LogAttribute :=
  k ← encrypt_preserialized_string key (log_key l);
  v ← encrypt_preserialized_string key (log_value l);
  Ok (mkLog k v).

Definition encrypt_data (key : AESKey) (d : option Binary) : result EnclaveError (option Binary) :=
  match d with
  | None => Ok None
  | Some b =>
      text ← encrypt_serializable key b;
      b' ← Binary_from_base64 text;
      Ok (Some b')
  end.

(** The match of [encrypt_output] on the parsed output. *)
Definition encrypt_wasm_output (key : AESKey) (n : IoNonce) (pk : bytes)
    (contract_addr : CanonicalAddr) (output : WasmOutput) : result EnclaveError WasmOutput :=
  match output with
  | ErrObject err =>
      encrypted_err ← encrypt_serializable key err;
      Ok (ErrObject (VObject [("generic_err", VObject [("msg", VString encrypted_err)])]))
  | OkString ok =>
      ok' ← encrypt_serializable key ok;
      Ok (OkString ok')
  | OkObject ok =>
      ms ← mapR (encrypt_cosmos_msg n pk contract_addr) (messages ok);
      ls ← mapR (encrypt_log key) (logs ok);
      d ← encrypt_data key (data ok);
      Ok (OkObject (mkContractResult ms ls d))
  end.

Definition encrypt_output (output : bytes) (n : IoNonce) (pk : bytes) (contract_addr : CanonicalAddr)
  : result EnclaveError bytes :=
  key ← calc_encryption_key n pk;
  parsed ← ok_or FailedToDeserialize (json_from_slice output);
  encrypted ← encrypt_wasm_output key n pk contract_addr parsed;
  ok_or FailedToSerialize (json_to_vec encrypted).

End Messages.

(** ** Properties *)

(** [text] is the base64 of a ciphertext that opens to [plain] under [key]. *)
Definition opens `{Primitives} `{Codecs} (key : AESKey) (text : string) (plain : bytes) : Prop :=
  exists c, base64_decode (lit text) = Some c /\ decrypt_siv key c None = Ok plain.

Section MessageFacts.
Context `{P : Primitives} {HP : PrimitiveLaws} `{C : Codecs} {HC : CodecLaws}.
Context `{Json Value} `{Json string} `{Json WasmOutput} `{Json (list Coin)}.
Variable km : Keychain.

Lemma secret_from_to m :
  secret_wf m -> 18 <= length (msg m) -> secret_from_slice (secret_to_vec m) = Ok m.
Proof.
  unfold secret_from_slice, secret_to_vec, secret_wf. destruct m as [n pk body].
  cbn [nonce user_public_key msg]. intros (Hn & Hpk) Hbody. rw !length_app Hn Hpk.
  destruct (Nat.ltb_spec (32 + (32 + length body)) 82); [lia|].
  rw !slice_ok; rw ?length_app; [|lia..]. cbn [mbind result_bind].
  rw drop_0 take_app_length' //. do 2 f_equal.
  - rw drop_app_length' // take_app_length' //.
  - rw app_assoc drop_app_length'; [|rw length_app; lia]. rw take_ge //. lia.
Qed.

(** SecretMessage::from_slice accepts exactly the bytes to_vec produces for a 32-byte nonce, a
    32-byte public key and at least 18 bytes of ciphertext, and returns that message. *)
Theorem secret_message_roundtrip (b : bytes) (m : SecretMessage) :
  secret_from_slice b = Ok m <->
  secret_to_vec m = b /\ secret_wf m /\ 18 <= length (msg m).
Proof.
  unfold secret_from_slice, secret_to_vec, secret_wf. destruct m as [n pk body].
  cbn [nonce user_public_key msg]. split.
  - destruct (Nat.ltb_spec (length b) 82) as [|Hb]; [done|].
    rw !slice_ok; [|lia..]. cbn [mbind result_bind]. rw drop_0. intros [= <- <- <-].
    rw !length_take !length_drop. split_and!; [|lia..].
    rw (take_ge (drop 64 b)); [|rw length_drop; lia].
    transitivity (take 32 b ++ drop 32 b); [f_equal|apply take_drop].
    transitivity (take 32 (drop 32 b) ++ drop 32 (drop 32 b)); [by rw drop_drop|apply take_drop].
  - intros (<- & Hwf & Hbody). by apply (secret_from_to (mkSecret n pk body)).
Qed.

Lemma encrypt_in_place_spec m c :
  encrypt_in_place km m = Ok c ->
  nonce c = nonce m /\ user_public_key c = user_public_key m /\
  length (msg c) = length (msg m) + 16 /\ decrypt km c = Ok (msg m).
Proof.
  unfold encrypt_in_place, decrypt, encryption_key.
  destruct (calc_encryption_key km (nonce m) (user_public_key m)) as [key| |] eqn:Hk; [|done..].
  cbn [mbind result_bind]. destruct (encrypt_siv key (msg m) None) as [x| |] eqn:He; [|done..].
  intros [= <-]. cbn. rw Hk. cbn [mbind result_bind].
  split_and!; [done..|by eapply encrypt_siv_length|]. by rw (decrypt_encrypt_siv _ _ _ _ He).
Qed.

(** A message whose plaintext is shorter than two bytes encrypts to something from_slice
    refuses, although the format comment allows 16 or more bytes of encrypted data. *)
Theorem short_plaintext_rejected m c :
  secret_wf m -> length (msg m) < 2 -> encrypt_in_place km m = Ok c ->
  secret_from_slice (secret_to_vec c) = Err DecryptionError.
Proof.
  intros [Hn Hpk] Hm (En & Epk & Hl & _)%encrypt_in_place_spec. unfold secret_from_slice.
  destruct (Nat.ltb_spec (length (secret_to_vec c)) 82) as [|Hc]; [done|].
  unfold secret_to_vec in Hc. rw !length_app En Epk Hn Hpk Hl in Hc. lia.
Qed.

Lemma encrypt_siv_opens key p c : encrypt_siv key p None = Ok c -> opens key (base64_encode c) p.
Proof. intros Hc. exists c. split; [apply base64_roundtrip|by apply decrypt_encrypt_siv]. Qed.

Lemma preserialized_opens key val text :
  encrypt_preserialized_string key val = Ok text -> opens key text (lit val).
Proof.
  unfold encrypt_preserialized_string. destruct (encrypt_siv key (lit val) None) eqn:E; [|done..].
  intros [= <-]. by apply encrypt_siv_opens.
Qed.

Lemma serialized_opens key json text :
  encrypt_serialized key json = Ok text -> exists j, json = Some j /\ opens key text (trim_quotes j).
Proof.
  unfold encrypt_serialized. destruct json as [j|]; [|done]. cbn [ok_or mbind result_bind].
  destruct (encrypt_siv key (trim_quotes j) None) eqn:E; [|done..].
  intros [= <-]. exists j. split; [done|]. by apply encrypt_siv_opens.
Qed.

(** The inner message of an outgoing call: under the user's key it opens to the code
    hash followed by the plain message, and it carries the callback signature. *)
Definition passed_on (hash : string) (inner : Binary) (send : list Coin) (n : IoNonce) (pk : bytes)
    (addr : CanonicalAddr) (out : Binary) (sig : bytes) : Prop :=
  exists c, out = secret_to_vec c /\ nonce c = n /\ user_public_key c = pk /\
    length (msg c) = length (lit hash) + length inner + 16 /\
    decrypt km c = Ok (lit hash ++ inner) /\ create_callback_signature km addr c send = Ok sig.

Lemma encrypt_inner_msg_spec hash inner send n pk addr out sig :
  encrypt_inner_msg km hash inner send n pk addr = Ok (out, sig) ->
  passed_on hash inner send n pk addr out sig.
Proof.
  unfold encrypt_inner_msg, secret_from_base64. rw base64_roundtrip. cbn [ok_or mbind result_bind].
  destruct (encrypt_in_place km _) as [c| |] eqn:He; [|done..]. cbn [mbind result_bind].
  destruct (create_callback_signature km addr c send) as [s| |] eqn:Hs; [|done..].
  cbn [mbind result_bind]. intros [= <- <-]. exists c.
  apply encrypt_in_place_spec in He as (En & Epk & Hl & Hd). cbn in *.
  split_and!; try done. by rw Hl length_app.
Qed.

(** What becomes of one message of a contract. *)
Definition outgoing (n : IoNonce) (pk : bytes) (addr : CanonicalAddr) (m m' : CosmosMsg) : Prop :=
  match m with
  | MsgWasm (Execute to hash inner send _) =>
      exists out sig, m' = MsgWasm (Execute to hash out send (Some sig)) /\
                      passed_on hash inner send n pk addr out sig
  | MsgWasm (Instantiate code hash inner send label _) =>
      exists out sig, m' = MsgWasm (Instantiate code hash out send label (Some sig)) /\
                      passed_on hash inner send n pk addr out sig
  | _ => m' = m
  end.

Lemma encrypt_cosmos_msg_spec n pk addr m m' :
  encrypt_cosmos_msg km n pk addr m = Ok m' -> outgoing n pk addr m m'.
Proof.
  destruct m as [| | |[to hash inner send s0|code hash inner send label s0]|]; cbn; try congruence.
  all: destruct (encrypt_inner_msg _ _ _ _ _ _ _) as [[out sig]| |] eqn:E; [|done..].
  all: cbn; intros [= <-]; exists out, sig; split; [done|]; by apply encrypt_inner_msg_spec.
Qed.

Lemma mapR_Forall2 {E A B} (f : A -> result E B) (R : A -> B -> Prop) l l' :
  (forall x y, f x = Ok y -> R x y) -> mapR f l = Ok l' -> Forall2 R l l'.
Proof.
  intros Hf. revert l'. induction l as [|x l IH]; intros l'; cbn; [by intros [= <-]|].
  destruct (f x) as [y| |] eqn:Hx; [|done..]. cbn [mbind result_bind].
  destruct (mapR f l) as [ys| |]; [|done..]. intros [= <-]. constructor; auto.
Qed.

(** C13: When a contract result is encrypted, every log key and value and the data open under
    the user key to the original, every message to another contract opens to its code hash
    followed by the original and carries a callback signature over it, and every other
    message is unchanged. *)
Theorem contract_output_is_encrypted key n pk addr r out :
  encrypt_wasm_output km key n pk addr (OkObject r) = Ok out ->
  exists r', out = OkObject r' /\
    Forall2 (outgoing n pk addr) (messages r) (messages r') /\
    Forall2 (fun l l' => opens key (log_key l') (lit (log_key l)) /\
                         opens key (log_value l') (lit (log_value l))) (logs r) (logs r') /\
    match data r, data r' with
    | None, None => True
    | Some b, Some b' => exists j, json_to_vec (base64_encode b) = Some j /\
                                   decrypt_siv key b' None = Ok (trim_quotes j)
    | _, _ => False
    end.
Proof.
  cbn [encrypt_wasm_output].
  destruct (mapR (encrypt_cosmos_msg km n pk addr) (messages r)) as [ms| |] eqn:Hm; [|done..].
  cbn [mbind result_bind].
  destruct (mapR (encrypt_log key) (logs r)) as [ls| |] eqn:Hl; [|done..]. cbn [mbind result_bind].
  destruct (encrypt_data key (data r)) as [d| |] eqn:Hd; [|done..]. intros [= <-].
  eexists. split; [done|]. cbn. split_and!.
  - eapply mapR_Forall2; [|done]. apply encrypt_cosmos_msg_spec.
  - eapply mapR_Forall2; [|done]. intros l l'. unfold encrypt_log.
    destruct (encrypt_preserialized_string key (log_key l)) eqn:E1; [|done..].
    cbn [mbind result_bind].
    destruct (encrypt_preserialized_string key (log_value l)) eqn:E2; [|done..].
    intros [= <-]. cbn. by split; apply preserialized_opens.
  - unfold encrypt_data, encrypt_serializable in Hd. destruct (data r) as [b|]; [|by simplify_eq].
    destruct (encrypt_serialized key _) as [text| |] eqn:E; [|done..]. cbn [mbind result_bind] in Hd.
    apply serialized_opens in E as (j & Hj & c & Hc & Ho).
    unfold Binary_from_base64 in Hd. rw Hc in Hd. cbn in Hd. simplify_eq. by exists j.
Qed.

End MessageFacts.

(** ** Concrete codecs and keys, used to run the models on examples *)

Definition nibbles (b : byte) : bytes :=
  [byte_of_Z (Z_of_byte b / 16); byte_of_Z (Z_of_byte b mod 16)].
Fixpoint from_nibbles (l : bytes) : option bytes :=
  match l with
  | [] => Some []
  | hi :: lo :: l' => (fun r => byte_of_Z (Z_of_byte hi * 16 + Z_of_byte lo) :: r) <$> from_nibbles l'
  | _ => None
  end.

Definition demo_codecs : Codecs := {|
  base64_encode := string_of_list_byte;
  base64_decode b := Some b;
  hex_encode b := string_of_list_byte (concat (map nibbles b));
  hex_decode := from_nibbles;
  bech32_decode s := Some ("secret", lit s);
  bech32_encode hrp b := Some (string_of_list_byte b);
  from_base32 b := Some b;
  to_base32 b := b
|}.

Lemma lit_of_bytes b : lit (string_of_list_byte b) = b.
Proof. apply list_byte_of_string_of_list_byte. Qed.

Lemma demo_codec_laws : @CodecLaws demo_codecs.
Proof.
  split; intros b;
    cbn [base64_encode base64_decode hex_encode hex_decode demo_codecs]; rw lit_of_bytes //.
  - induction b as [|x b IH]; [done|]. cbn [map concat nibbles app from_nibbles]. rw IH.
    cbn [fmap option_fmap option_map]. do 2 f_equal. by destruct x.
  - induction b as [|x b IH]; [done|]. cbn [map concat nibbles app length]. rw IH. lia.
Qed.

Definition demo_json_coins : Json (list Coin) := {|
  json_to_vec l := Some (concat (map (fun c => lit (denom c) ++ lit ":" ++ lit (amount c)) l));
  json_from_slice _ := None
|}.
Definition demo_json_value : Json Value := {|
  json_to_vec _ := Some (lit "null");
  json_from_slice _ := None
|}.
Definition demo_json_string : Json string := {|
  json_to_vec s := Some (quote :: lit s ++ [quote]);
  json_from_slice b := Some (string_of_list_byte (trim_quotes b))
|}.

(** The keychain of an enclave that holds the demo seed. *)
Definition demo_km : Keychain :=
  @generate_consensus_master_keys demo_primitives
    (mkKeychain (Some (mkSeed demo_seed)) None None None None None).
Definition demo_nonce : IoNonce := replicate 32 Byte.x01.
Definition demo_user : bytes := replicate 32 Byte.x02.

#[local] Existing Instance demo_primitives.
#[local] Existing Instance demo_primitive_laws.
#[local] Existing Instance demo_codecs.
#[local] Existing Instance demo_codec_laws.
#[local] Existing Instance demo_json_coins.
#[local] Existing Instance demo_json_string.
#[local] Existing Instance demo_json_value.

Lemma short_plaintext_rejected_witness :
  exists c, encrypt_in_place demo_km (mkSecret demo_nonce demo_user (lit "x")) = Ok c /\
            secret_from_slice (secret_to_vec c) = Err DecryptionError.
Proof.
  assert (is_ok (encrypt_in_place demo_km (mkSecret demo_nonce demo_user (lit "x"))) = true) as Hok
    by (by vm_compute).
  destruct (encrypt_in_place demo_km (mkSecret demo_nonce demo_user (lit "x"))) as [c| |] eqn:E;
    [|done..].
  exists c. split; [done|].
  apply (short_plaintext_rejected demo_km (mkSecret demo_nonce demo_user (lit "x")) c);
    [done|cbn; lia|done].
Defined.

(** A contract that logs and calls another contract. *)
Definition demo_result : ContractResult :=
  mkContractResult
    [MsgWasm (Execute "bob" (hex_encode (sha_256 (lit "code"))) (lit "do it") [mkCoin "uscrt" "5"] None)]
    [mkLog "action" "call"] (Some (lit "done")).

Definition demo_key : AESKey :=
  match calc_encryption_key demo_km demo_nonce demo_user with Ok k => k | _ => mkAESKey [] end.

Lemma contract_output_is_encrypted_witness :
  exists r', encrypt_wasm_output demo_km demo_key demo_nonce demo_user (lit "alice")
               (OkObject demo_result) = Ok (OkObject r') /\
    Forall2 (outgoing demo_km demo_nonce demo_user (lit "alice")) (messages demo_result) (messages r').
Proof.
  assert (is_ok (encrypt_wasm_output demo_km demo_key demo_nonce demo_user (lit "alice")
                   (OkObject demo_result)) = true) as Hok by (by vm_compute).
  destruct (encrypt_wasm_output demo_km demo_key demo_nonce demo_user (lit "alice") _)
    as [out| |] eqn:E; [|done..].
  destruct (contract_output_is_encrypted demo_km demo_key demo_nonce demo_user (lit "alice")
              demo_result out E) as (r' & -> & Hm & _).
  by exists r'.
Defined.
