(* ===== verification/Encoding.v ===== *)
(** * Text forms of values, and the enclave's copies of the types

    std/src/encoding.rs (bytes as base64), std/src/addresses.rs, the serde visitors of
    std/src/math.rs, the constructors and the equality of std/src/errors/std_error.rs, and
    wasmi-runtime/src/cosmwasm/{math,encoding,types}.rs: the enclave's copies of the same
    types, which their headers ask to keep in sync.  Base64 and bech32 are the parameters
    [Codecs]; the text of a base64 error is a parameter of its own.

    A visitor's result is [result string A]: the text of [de::Error::custom] or the value. *)

From Stdlib Require Import Strings.Ascii Strings.String.
From stdpp Require Import base tactics list numbers strings ssreflect.
From S2P Require Import Prelude Utf8 Math Storage Std Querying Crypto SecretMsg.

Local Open Scope string_scope.
Local Open Scope list_scope.

(** ** errors/std_error.rs *)

Module StdErr.

Definition invalid_base64 (msg : string) : StdError := InvalidBase64 msg.
Definition invalid_utf8 (msg : string) : StdError := InvalidUtf8 msg.
Definition not_found (kind : string) : StdError := NotFound kind.
Definition parse_err (target msg : string) : StdError := ParseErr target msg.
Definition serialize_err (source msg : string) : StdError := SerializeErr source msg.
Definition underflow (minuend subtrahend : Z) : StdError :=
  Underflow (u128_to_string minuend) (u128_to_string subtrahend).

Section Traced.
(** The error as the code carries it: its payload and the backtrace snafu captured. *)
Context {Backtrace : Type}.
Record Traced : Type := mkTraced { payload : StdError; backtrace : option Backtrace }.

(** [PartialEq::eq]. *)
Definition eq (self other : Traced) : bool :=
  match payload self, payload other with
  | GenericErr msg, GenericErr msg2 => String.eqb msg msg2
  | InvalidBase64 msg, InvalidBase64 msg2 => String.eqb msg msg2
  | InvalidUtf8 msg, InvalidUtf8 msg2 => String.eqb msg msg2
  | NotFound kind, NotFound kind2 => String.eqb kind kind2
  | ParseErr target msg, ParseErr target2 msg2 => String.eqb target target2 && String.eqb msg msg2
  | SerializeErr source msg, SerializeErr source2 msg2 => String.eqb source source2 && String.eqb msg msg2
  | Unauthorized, Unauthorized => true
  | Underflow minuend subtrahend, Underflow minuend2 subtrahend2 =>
      String.eqb minuend minuend2 && String.eqb subtrahend subtrahend2
  | _, _ => false
  end.

(** Two errors are equal exactly when their payloads are, whatever their backtraces. *)
Theorem eq_compares_payloads (a b : Traced) : eq a b = true <-> payload a = payload b.
Proof.
  unfold eq. destruct (payload a), (payload b);
    rw ?andb_true_iff ?String.eqb_eq; split; intros E; try done; by [destruct E as [-> ->]|injection E as -> ->|subst|injection E as ->].
Qed.

End Traced.
End StdErr.

(** ** encoding.rs *)

Module Encoding.
Section Encoding.
Context `{C : Codecs}.
(** The text of the error base64 gives for a string it refuses. *)
Variable base64_error : string -> string.

Definition from_base64 (encoded : string) : StdResult Binary :=
  match base64_decode (lit encoded) with
  | Some binary => Ok binary
  | None => Err (StdErr.invalid_base64 (base64_error encoded))
  end.

Definition to_base64 (self : Binary) : string := base64_encode self.
Definition as_slice (self : Binary) : bytes := self.
Definition len (self : Binary) : Z := Z.of_nat (length self).
Definition is_empty (self : Binary) : bool := match self with [] => true | _ => false end.
Definition fmt (self : Binary) : string := to_base64 self.

(** The [From] implementations copy or take the bytes. *)
Definition from_slice (binary : bytes) : Binary := binary.
Definition from_array (source : bytes) : Binary := source.
Definition from_vec (vec : bytes) : Binary := vec.
Definition into_vec (self : Binary) : bytes := self.

(** [Serialize] gives the serializer this string; [Base64Visitor] reads it. *)
Definition serialize (self : Binary) : string := to_base64 self.
Definition visit_str (v : string) : result string Binary :=
  match from_base64 v with
  | Ok binary => Ok binary
  | Err _ => Err ("invalid base64: " +:+ v)
  | Panic => Panic
  end.

Lemma visit_serialize {HC : CodecLaws} b : visit_str (serialize b) = Ok b.
Proof. unfold visit_str, serialize, to_base64, from_base64. by rw base64_roundtrip. Qed.

End Encoding.

(** A [CanonicalAddr] is a [Binary], a [HumanAddr] a [String] (addresses.rs). *)
Section Addresses.
Context `{C : Codecs}.
Definition human_as_str (a : HumanAddr) : string := a.
Definition human_len (a : HumanAddr) : Z := Z.of_nat (String.length a).
Definition human_is_empty (a : HumanAddr) : bool := match a with EmptyString => true | _ => false end.
Definition human_fmt (a : HumanAddr) : string := a.
Definition human_from_str (addr : string) : HumanAddr := addr.
Definition canonical_from_slice (source : bytes) : CanonicalAddr := from_slice source.
Definition canonical_from_vec (source : bytes) : CanonicalAddr := from_vec source.
Definition canonical_as_slice (a : CanonicalAddr) : bytes := as_slice a.
Definition canonical_len (a : CanonicalAddr) : Z := len a.
Definition canonical_is_empty (a : CanonicalAddr) : bool := is_empty a.
Definition canonical_fmt (a : CanonicalAddr) : string := fmt a.
End Addresses.
End Encoding.

(** ** math.rs: the serde implementations *)

Module MathSerde.

Definition decimal_serialize (d : Decimal) : string := Dec.to_string d.
Definition decimal_visit_str (v : string) : result string Decimal :=
  match Dec.from_str v with
  | Ok d => Ok d
  | Err e => Err ("Error parsing decimal '" +:+ v +:+ "': " +:+ display_std_error e)
  | Panic => Panic
  end.

Definition uint_serialize (u : Uint128) : string := Uint.to_string u.
Definition uint_visit_str (v : string) : result string Uint128 :=
  match parse_u128 (list_ascii_of_string v) with
  | Ok u => Ok (mkUint128 u)
  | Err e => Err ("invalid Uint128 '" +:+ v +:+ "' - " +:+ display_parse_int_error e)
  | Panic => Panic
  end.

Lemma uint_visit_serialize u : Uint.wf u -> uint_visit_str (uint_serialize u) = Ok u.
Proof.
  intros Hu. unfold uint_visit_str, uint_serialize, Uint.to_string, u128_to_string.
  rw list_ascii_of_string_of_list_ascii parse_u128_chars //. by destruct u.
Qed.

Lemma decimal_visit_serialize d : Dec.wf d -> decimal_visit_str (decimal_serialize d) = Ok d.
Proof. intros Hd. unfold decimal_visit_str, decimal_serialize. by rw decimal_print_parse. Qed.

End MathSerde.

(** ** wasmi-runtime/src/cosmwasm/math.rs

    The enclave is built with [overflow-checks = false]: the arithmetic wraps there. *)

Module EnclaveMath.

Definition wrap_u128 (z : Z) : Z := z mod 2 ^ 128.

Definition dec_is_zero (d : Decimal) : bool := (atomics d =? 0)%Z.

(** [FromStr] with [DecimalParseErr], an error that is only a text. *)
Definition dec_from_str (input : string) : result string Decimal :=
  match split_on "." (list_ascii_of_string input) with
  | [p0] =>
      whole ← map_err (fun _ => "Error parsing whole") (parse_u128 p0);
      whole_as_atomics ← ok_or "Value too big" (checked U128_MAX (whole * DECIMAL_FRACTIONAL));
      Ok (mkDecimal whole_as_atomics)
  | [p0; p1] =>
      whole ← map_err (fun _ => "Error parsing whole") (parse_u128 p0);
      fractional ← map_err (fun _ => "Error parsing fractional") (parse_u128 p1);
      exp ← (if (length p1 <=? 18)%nat then Ok (18 - length p1)%nat
             else Err "Cannot parse more than 18 fractional digits");
      fractional_factor ← ok_or "Cannot compute fractional factor" (checked U128_MAX (10 ^ Z.of_nat exp));
      whole_as_atomics ← ok_or "Value too big" (checked U128_MAX (whole * DECIMAL_FRACTIONAL));
      atomics ← ok_or "Value too big"
                  (checked U128_MAX (whole_as_atomics + wrap_u128 (fractional * fractional_factor)));
      Ok (mkDecimal atomics)
  | _ => Err "Unexpected number of dots"
  end.

Definition dec_fmt (d : Decimal) : string :=
  let whole := (atomics d / DECIMAL_FRACTIONAL)%Z in
  let fractional := (atomics d mod DECIMAL_FRACTIONAL)%Z in
  string_of_list_ascii
    (if (fractional =? 0)%Z then u128_chars whole
     else u128_chars whole ++ "."%char :: trim_end_zeros (dec_pad 18 fractional)).

Definition dec_add (a b : Decimal) : Decimal := mkDecimal (wrap_u128 (atomics a + atomics b)).

Definition dec_serialize (d : Decimal) : string := dec_fmt d.
Definition dec_visit_str (v : string) : result string Decimal :=
  match dec_from_str v with
  | Ok d => Ok d
  | Err e => Err ("Error parsing decimal '" +:+ v +:+ "': " +:+ e)
  | Panic => Panic
  end.

Definition uint_zero : Uint128 := mkUint128 0.
Definition uint_is_zero (u : Uint128) : bool := (u128 u =? 0)%Z.
Definition uint_from_u128 (val : Z) : Uint128 := mkUint128 val.
Definition uint_from_u64 (val : Z) : Uint128 := mkUint128 val.
Definition uint_try_from (val : string) : result string Uint128 :=
  match parse_u128 (list_ascii_of_string val) with
  | Ok u => Ok (mkUint128 u)
  | Err e => Err ("Parsing coin: " +:+ display_parse_int_error e)
  | Panic => Panic
  end.
Definition uint_into_string (u : Uint128) : string := u128_to_string (u128 u).
Definition uint_into_u128 (u : Uint128) : Z := u128 u.
Definition uint_fmt (u : Uint128) : string := u128_to_string (u128 u).

Definition multiply_ratio {E} (u : Uint128) (nominator denominator : Z) : result E Uint128 :=
  if (denominator =? 0)%Z then Panic
  else Ok (mkUint128 (wrap_u128 (u128 u * nominator) / denominator)).

Definition mul_dec {E} (u : Uint128) (rhs : Decimal) : result E Uint128 :=
  if uint_is_zero u || dec_is_zero rhs then Ok uint_zero
  else multiply_ratio u (atomics rhs) DECIMAL_FRACTIONAL.
Definition dec_mul {E} (d : Decimal) (rhs : Uint128) : result E Uint128 := mul_dec rhs d.

Definition uint_serialize (u : Uint128) : string := uint_fmt u.
Definition uint_visit_str (v : string) : result string Uint128 :=
  match parse_u128 (list_ascii_of_string v) with
  | Ok u => Ok (mkUint128 u)
  | Err e => Err ("invalid Uint128 '" +:+ v +:+ "' - " +:+ display_parse_int_error e)
  | Panic => Panic
  end.

End EnclaveMath.

(** ** wasmi-runtime/src/cosmwasm/encoding.rs and types.rs *)

Module EnclaveEncoding.
Section EnclaveEncoding.
Context `{C : Codecs}.

Definition from_base64 (encoded : string) : result EnclaveError Binary :=
  match base64_decode (lit encoded) with
  | Some binary => Ok binary
  | None => Err FailedToDeserialize
  end.
Definition to_base64 (self : Binary) : string := base64_encode self.
Definition as_slice (self : Binary) : bytes := self.
Definition len (self : Binary) : Z := Z.of_nat (length self).
Definition is_empty (self : Binary) : bool := match self with [] => true | _ => false end.
Definition fmt (self : Binary) : string := to_base64 self.
Definition from_slice (binary : bytes) : Binary := binary.
Definition serialize (self : Binary) : string := to_base64 self.
Definition visit_str (v : string) : result string Binary :=
  match from_base64 v with
  | Ok binary => Ok binary
  | Err _ => Err ("invalid base64: " +:+ v)
  | Panic => Panic
  end.

(** Addresses. *)
Definition human_as_str (a : HumanAddr) : string := a.
Definition human_len (a : HumanAddr) : Z := Z.of_nat (String.length a).
Definition human_is_empty (a : HumanAddr) : bool := match a with EmptyString => true | _ => false end.
Definition human_fmt (a : HumanAddr) : string := a.
Definition human_from_str (addr : string) : HumanAddr := addr.
Definition BECH32_PREFIX_ACC_ADDR : string := "secret".
Definition human_from_canonical (canonical_addr : CanonicalAddr) : option HumanAddr :=
  bech32_encode BECH32_PREFIX_ACC_ADDR (to_base32 canonical_addr).
Definition canonical_as_slice (a : CanonicalAddr) : bytes := as_slice a.
Definition canonical_len (a : CanonicalAddr) : Z := len a.
Definition canonical_is_empty (a : CanonicalAddr) : bool := is_empty a.
Definition canonical_fmt (a : CanonicalAddr) : string := fmt a.

End EnclaveEncoding.
End EnclaveEncoding.

(** ** Properties *)

(** The copy of Binary reads a text as the original does, and each reads what the other wrote. *)
Theorem binary_in_sync `{CodecLaws} (err : string -> string) (v : string) (b : Binary) :
  EnclaveEncoding.visit_str v = Encoding.visit_str err v /\
  EnclaveEncoding.visit_str (Encoding.serialize b) = Ok b /\
  Encoding.visit_str err (EnclaveEncoding.serialize b) = Ok b.
Proof.
  assert (forall w, EnclaveEncoding.visit_str w = Encoding.visit_str err w) as E.
  { intros w. unfold EnclaveEncoding.visit_str, EnclaveEncoding.from_base64, Encoding.visit_str, Encoding.from_base64.
    by destruct (base64_decode (lit w)). }
  rw !E. split_and!; [done|apply (Encoding.visit_serialize err)..].
Qed.

(** A parsed number has no more digits than its text. *)
Lemma parse_digits_bound l v : parse_digits l = Ok v -> (0 <= v < 10 ^ Z.of_nat (length l))%Z.
Proof.
  unfold parse_digits. revert v. induction l as [|c l IH] using rev_ind; intros v; [intros [= <-]; cbn; lia|].
  rw foldl_app length_app. cbn [foldl length]. rw Nat2Z.inj_add Z.pow_add_r; [|lia..].
  change (10 ^ Z.of_nat 1)%Z with 10%Z. destruct (foldl parse_step (Ok 0%Z) l) as [w| |]; [|done..].
  specialize (IH w eq_refl). cbn. destruct (to_digit c) as [d|] eqn:Hd; [|done].
  apply to_digit_range in Hd. unfold checked.
  destruct (_ && _); [|done]. cbn. destruct (_ && _); [|done]. intros [= <-]. lia.
Qed.

Lemma parse_u128_bound l v : parse_u128 l = Ok v -> (0 <= v < 10 ^ Z.of_nat (length l))%Z.
Proof.
  destruct l as [|c l]; [done|]. cbn [parse_u128].
  case_bool_decide; [destruct l as [|c' l]; [done|]|]; intros Hv%parse_digits_bound; [|done].
  destruct Hv as [? Hv]. split; [done|]. eapply Z.lt_le_trans; [done|].
  apply Z.pow_le_mono_r; cbn [length]; lia.
Qed.

Definition error_text (e : StdError) : string :=
  match e with GenericErr msg => msg | _ => display_std_error e end.

(** The fraction is scaled after its length was checked: the product fits, so the wrapping
    arithmetic of the enclave and the checked arithmetic of contracts agree on it. *)
Lemma fraction_fits p1 fractional :
  parse_u128 p1 = Ok fractional -> (length p1 <= 18)%nat ->
  (0 <= fractional * 10 ^ Z.of_nat (18 - length p1) < 2 ^ 128)%Z.
Proof.
  intros Hp%parse_u128_bound Hl.
  assert (10 ^ Z.of_nat (length p1) * 10 ^ Z.of_nat (18 - length p1) = 10 ^ 18)%Z as E.
  { rw -Z.pow_add_r; [|lia..]. f_equal. lia. }
  assert (0 < 10 ^ Z.of_nat (18 - length p1))%Z by (apply Z.pow_pos_nonneg; lia).
  split; [nia|]. transitivity (10 ^ 18)%Z; [nia|by vm_compute].
Qed.

(** The copy of Decimal::from_str reads every text as the original does: the same value, or the
    same error text, although only one of the two checks its arithmetic. *)
Theorem decimal_parsers_in_sync (input : string) :
  EnclaveMath.dec_from_str input = map_err error_text (Dec.from_str input).
Proof.
  unfold EnclaveMath.dec_from_str, Dec.from_str.
  destruct (split_on "." (list_ascii_of_string input)) as [|p0 [|p1 [|]]]; [done| | |done].
  - destruct (parse_u128 p0) as [w| |]; [|done..]. cbn. by destruct (checked _ _).
  - destruct (parse_u128 p0) as [w| |]; [|done..]. cbn.
    destruct (parse_u128 p1) as [f| |] eqn:Hf; [|done..]. cbn.
    destruct (Nat.leb_spec (length p1) 18) as [Hl|]; [|done]. cbn.
    destruct (checked U128_MAX (10 ^ _)) as [ff|] eqn:Hff; [|done]. cbn.
    destruct (checked U128_MAX (w * _)) as [wa|]; [|done]. cbn.
    pose proof (fraction_fits _ _ Hf Hl) as Hfit.
    assert (ff = 10 ^ Z.of_nat (18 - length p1))%Z as ->.
    { unfold checked in Hff. destruct (_ && _); [|done]. by injection Hff. }
    unfold EnclaveMath.wrap_u128. rw Z.mod_small // arith_in_range; [|unfold U128_MAX; lia].
    cbn [mbind result_bind]. by destruct (checked U128_MAX (wa + _)).
Qed.

(** What a contract's Decimal or Uint128 serializes to, the enclave's copy reads as the same
    number, and back: each side reads what the other wrote, for every 128-bit value. *)
Theorem numbers_cross_the_boundary (d : Decimal) (u : Uint128) :
  Dec.wf d -> Uint.wf u ->
  EnclaveMath.dec_visit_str (MathSerde.decimal_serialize d) = Ok d /\
  MathSerde.decimal_visit_str (EnclaveMath.dec_serialize d) = Ok d /\
  EnclaveMath.uint_visit_str (MathSerde.uint_serialize u) = Ok u /\
  MathSerde.uint_visit_str (EnclaveMath.uint_serialize u) = Ok u.
Proof.
  intros Hd Hu. split_and!.
  - unfold EnclaveMath.dec_visit_str. by rw decimal_parsers_in_sync decimal_print_parse.
  - by apply (MathSerde.decimal_visit_serialize d).
  - by apply (MathSerde.uint_visit_serialize u).
  - by apply (MathSerde.uint_visit_serialize u).
Qed.

(** Where a product does not fit in 128 bits the copies part: the contract panics, the enclave
    goes on with the product modulo 2^128; where it fits they agree. *)
Theorem multiply_ratio_out_of_sync (u : Uint128) (nominator denominator : Z) :
  Uint.wf u -> (0 <= nominator)%Z -> denominator <> 0%Z ->
  if decide (u128 u * nominator <= U128_MAX)%Z
  then @EnclaveMath.multiply_ratio StdError u nominator denominator = Uint.multiply_ratio u nominator denominator
  else @Uint.multiply_ratio StdError u nominator denominator = Panic /\
       @EnclaveMath.multiply_ratio StdError u nominator denominator
       = Ok (mkUint128 ((u128 u * nominator) mod 2 ^ 128 / denominator)).
Proof.
  intros [Hu _] Hn Hd. unfold EnclaveMath.multiply_ratio, Uint.multiply_ratio, EnclaveMath.wrap_u128.
  rw (proj2 (Z.eqb_neq denominator 0)) //. case_decide as Hfit.
  - rw arith_in_range; [|nia]. cbn. rw Z.mod_small //. unfold U128_MAX in Hfit. nia.
  - split; [|done]. unfold arith, checked. destruct (Z.leb_spec (u128 u * nominator) U128_MAX); [lia|].
    by rw andb_false_r.
Qed.
