(* ===== verification/Signatures.v ===== *)
(** * Transaction signatures: wasmi-runtime/src/crypto/secp256k1.rs and multisig.rs

    Public keys, their Amino encoding and addresses, the decoding of a multisignature
    and its verification.  The length delimiters come from the crate prost: the class
    [Prost]. *)

From stdpp Require Import base tactics list numbers ssreflect.
From S2P Require Import Prelude Crypto.

(** [decode_length_delimiter] reads a length from the front of its input. *)
Class Prost : Type := {
  encode_length_delimiter : nat -> option bytes;
  decode_length_delimiter : bytes -> option Z;
  length_delimiter_len : Z -> nat
}.

Class ProstLaws `{Prost} : Prop := {
  encode_total n : exists l, encode_length_delimiter n = Some l;
  encode_len n l : encode_length_delimiter n = Some l -> length l = length_delimiter_len (Z.of_nat n);
  decode_encode n l rest :
    encode_length_delimiter n = Some l -> (Z.of_nat n <= U64_MAX)%Z ->
    decode_length_delimiter (l ++ rest) = Some (Z.of_nat n);
  decode_range b z : decode_length_delimiter b = Some z -> (0 <= z <= U64_MAX)%Z
}.

#[local] Unset Elimination Schemes.
(** [PubKeyKind]: a multisignature key may contain multisignature keys. *)
Inductive PubKeyKind : Type :=
| Secp256k1 (key : bytes)
| Multisig (threshold : Z) (pubkeys : list PubKeyKind).
#[local] Set Elimination Schemes.

Definition SECP256K1_PREFIX : bytes := map byte_of_Z [235; 90; 233; 135]%Z.
Definition THRESHOLD_PREFIX : bytes := map byte_of_Z [34; 193; 247; 226; 8]%Z.
Definition GENERIC_PREFIX : byte := byte_of_Z 18.

Section Signatures.
Context `{P : Primitives} `{Pr : Prost}.

(** ** secp256k1.rs *)

Definition secp_bytes (key : bytes) : bytes :=
  match encode_length_delimiter (length key) with
  | None => []
  | Some len => SECP256K1_PREFIX ++ len ++ key
  end.

Definition secp_get_address (key : bytes) : bytes := ripemd160 (digest_sha256 key).

Definition secp_verify_bytes (key message sig : bytes) : result CryptoError unit :=
  m ← ok_or VerificationError (secp_message (digest_sha256 message));
  s ← ok_or VerificationError (secp_signature sig);
  k ← ok_or VerificationError (secp_public_key key);
  if secp_verify m s k then Ok tt else Err VerificationError.

(** ** multisig.rs *)

(** One round of the loop of [decode_multisig_signature] per signature; [window] is the
    blob from the current index on.  [None]: out of fuel. *)
Fixpoint decode_loop (fuel : nat) (window : bytes) : option (result CryptoError (list bytes)) :=
  match fuel with
  | O => None
  | S fuel' =>
      match window with
      | [] => Some (Ok [])
      | prefix :: sig_including_len =>
          if negb (bool_decide (prefix = GENERIC_PREFIX)) then Some (Err ParsingError)
          else match decode_length_delimiter sig_including_len with
          | None => Some (Err ParsingError)
          | Some current_sig_len =>
              let len_size := length_delimiter_len current_sig_len in
              let stop := ((current_sig_len + Z.of_nat len_size) mod 2^64)%Z in
              if bool_decide (Z.of_nat len_size <= stop <= Z.of_nat (length sig_including_len))%Z
              then let raw_signature :=
                     take (Z.to_nat stop - len_size) (drop len_size sig_including_len) in
                   match decode_loop fuel' (drop (Z.to_nat stop) sig_including_len) with
                   | Some (Ok sigs) => Some (Ok (raw_signature :: sigs))
                   | r => r
                   end
              else Some (Err ParsingError)
          end
      end
  end.

(** Each round drops at least its prefix byte, so the length of the blob is enough. *)
Definition decode_multisig_signature (raw_blob : bytes) : option (result CryptoError (list bytes)) :=
  if (length raw_blob <? 8)%nat then Some (Err ParsingError)
  else match decode_loop (length raw_blob) (drop 7 raw_blob) with
       | Some (Ok []) => Some (Err ParsingError)
       | r => r
       end.

(** The [for] loops of [verify_bytes]: how many signatures some key verifies. *)
Definition count_verified (ok : bytes -> bool) (signatures : list bytes) : nat :=
  length (List.filter ok signatures).

Fixpoint verify_bytes (pk : PubKeyKind) (message sig : bytes) : result CryptoError unit :=
  match pk with
  | Secp256k1 key => secp_verify_bytes key message sig
  | Multisig threshold pubkeys =>
      match decode_multisig_signature sig with
      | Some (Ok signatures) =>
          if ((Z.of_nat (length signatures) <? threshold)%Z ||
              (length pubkeys <? length signatures)%nat)%bool
          then Err VerificationError
          else
            let verified_counter :=
              count_verified
                (fun s => existsb (fun pk' => is_ok (verify_bytes pk' message s)) pubkeys)
                signatures in
            if (verified_counter <? length signatures)%nat then Err VerificationError else Ok tt
      | Some (Err e) => Err e
      | _ => Panic
      end
  end.

(** The Amino encoding; a length that cannot be encoded empties it. *)
Fixpoint pubkey_bytes (pk : PubKeyKind) : bytes :=
  match pk with
  | Secp256k1 key => secp_bytes key
  | Multisig threshold pubkeys =>
      let encode_key pk' :=
        let b := pubkey_bytes pk' in
        (fun len => GENERIC_PREFIX :: len ++ b) <$> encode_length_delimiter (length b) in
      match foldr (fun pk' acc => e ← encode_key pk'; rest ← acc; Some (e ++ rest))
                  (Some []) pubkeys with
      | Some keys => THRESHOLD_PREFIX ++ [byte_of_Z threshold] ++ keys
      | None => []
      end
  end.

Definition get_address (pk : PubKeyKind) : bytes :=
  match pk with
  | Secp256k1 key => secp_get_address key
  | Multisig _ _ => take 20 (digest_sha256 (pubkey_bytes pk))
  end.

(** ** Properties *)

(** The encoding a multisignature is decoded from: seven header bytes, then each
    signature with its prefix and length. *)
Fixpoint encode_signatures (sigs : list bytes) : option bytes :=
  match sigs with
  | [] => Some []
  | s :: sigs' =>
      len ← encode_length_delimiter (length s);
      rest ← encode_signatures sigs';
      Some (GENERIC_PREFIX :: len ++ s ++ rest)
  end.

Definition encode_multisig (header : bytes) (sigs : list bytes) : option bytes :=
  app header <$> encode_signatures sigs.

End Signatures.

Section SignatureFacts.
Context `{P : Primitives} `{Pr : Prost} {HPr : ProstLaws}.

Lemma decode_loop_enough fuel window : length window < fuel -> is_Some (decode_loop fuel window).
Proof.
  revert window. induction fuel as [|fuel IH]; intros window Hf; [lia|]. cbn [decode_loop].
  destruct window as [|prefix rest]; [done|]. cbn [length] in Hf.
  destruct (negb _); [done|]. destruct (decode_length_delimiter rest) as [n|]; [|done].
  cbv zeta. case_bool_decide; [|done].
  destruct (IH (drop (Z.to_nat ((n + Z.of_nat (length_delimiter_len n)) mod 2 ^ 64)) rest)) as [r ->].
  - rw length_drop. lia.
  - by destruct r.
Qed.

Lemma decode_multisig_total blob : is_Some (decode_multisig_signature blob).
Proof.
  unfold decode_multisig_signature. destruct (Nat.ltb_spec (length blob) 8); [done|].
  destruct (decode_loop_enough (length blob) (drop 7 blob)) as [r ->]; [rw length_drop; lia|].
  by destruct r as [[]| |].
Qed.

Lemma decode_encoded sigs b fuel :
  encode_signatures sigs = Some b -> length b < fuel -> (Z.of_nat (length b) <= U64_MAX)%Z ->
  decode_loop fuel b = Some (Ok sigs).
Proof.
  revert b fuel. induction sigs as [|s sigs IH]; intros b fuel Hb Hf Hmax.
  { cbn in Hb. simplify_eq. destruct fuel; [cbn in Hf; lia|done]. }
  cbn [encode_signatures] in Hb. destruct (encode_length_delimiter (length s)) as [len|] eqn:Hl; [|done].
  cbn in Hb. destruct (encode_signatures sigs) as [rest|] eqn:Hr; [|done]. cbn in Hb. simplify_eq.
  destruct fuel as [|fuel]; [lia|]. cbn [length] in Hf, Hmax. rw !length_app in Hf, Hmax.
  cbn [decode_loop]. rw bool_decide_true //. cbn [negb].
  unfold U64_MAX in *.
  rw (decode_encode (length s) len) //; [|unfold U64_MAX; lia]. rw -(encode_len _ _ Hl). cbv zeta.
  assert (((Z.of_nat (length s) + Z.of_nat (length len)) mod 2 ^ 64)%Z
          = Z.of_nat (length len + length s)) as ->.
  { rw Z.mod_small; lia. }
  rw bool_decide_true; [|rw !length_app; lia]. rw Nat2Z.id.
  rw drop_app_add drop_app_length drop_app_length take_app_length'; [|lia].
  rw (IH rest) //; lia.
Qed.

Lemma decode_encode_multisig header sigs blob :
  length header = 7 -> sigs <> [] -> encode_multisig header sigs = Some blob ->
  (Z.of_nat (length blob) <= U64_MAX)%Z ->
  decode_multisig_signature blob = Some (Ok sigs).
Proof.
  intros Hh Hne Hb Hmax. unfold encode_multisig in Hb.
  destruct (encode_signatures sigs) as [body|] eqn:He; [|done]. cbn in Hb. simplify_eq.
  rw length_app Hh in Hmax.
  assert (1 <= length body) as Hbody.
  { destruct sigs as [|s sigs]; [done|]. cbn in He.
    destruct (encode_length_delimiter _); [|done]. cbn in He.
    destruct (encode_signatures sigs); [|done]. cbn in He. simplify_eq. cbn. lia. }
  unfold decode_multisig_signature. rw length_app Hh.
  destruct (Nat.ltb_spec (7 + length body) 8); [lia|].
  rw drop_app_length' // (decode_encoded sigs body) //; [by destruct sigs|lia..].
Qed.

(** What an accepted multisignature is made of. *)
Lemma verify_multisig_inv threshold pubkeys message sig :
  verify_bytes (Multisig threshold pubkeys) message sig = Ok tt <->
  exists sigs, decode_multisig_signature sig = Some (Ok sigs) /\
    (threshold <= Z.of_nat (length sigs))%Z /\ length sigs <= length pubkeys /\
    forall s, s ∈ sigs -> exists pk, pk ∈ pubkeys /\ verify_bytes pk message s = Ok tt.
Proof.
  cbn [verify_bytes]. set (ok := fun s => existsb _ pubkeys).
  assert (forall s, ok s = true <-> exists pk, pk ∈ pubkeys /\ verify_bytes pk message s = Ok tt) as Hok.
  { intros s. unfold ok. rw existsb_exists. split; intros (pk & Hin & Hv); exists pk.
    - split; [by apply list_elem_of_In|]. by destruct (verify_bytes pk message s) as [[]| |].
    - split; [by apply list_elem_of_In|]. by rw Hv. }
  assert (forall sigs, count_verified ok sigs < length sigs <-> exists s, s ∈ sigs /\ ok s = false) as Hcnt.
  { intros sigs. unfold count_verified. induction sigs as [|s sigs IH]; cbn.
    - split; [lia|]. by intros (? & ?%elem_of_nil & _).
    - pose proof (List.filter_length_le ok sigs) as Hle. destruct (ok s) eqn:Es; cbn.
      + split.
        * intros Hlt. destruct (proj1 IH) as (s' & Hin & Hs'); [lia|]. exists s'. by split; [right|].
        * intros (s' & [->|Hin]%elem_of_cons & Hs'); [congruence|].
          assert (length (List.filter ok sigs) < length sigs) by (apply IH; by exists s'). lia.
      + split; [|lia]. intros _. exists s. by split; [left|]. }
  split.
  - destruct (decode_multisig_signature sig) as [[sigs| |]|] eqn:Hd; [|done..].
    destruct (_ || _) eqn:Hb; [done|]. apply orb_false_iff in Hb as [?%Z.ltb_ge ?%Nat.ltb_ge].
    destruct (Nat.ltb_spec (count_verified ok sigs) (length sigs)) as [|Hge]; [done|]. intros _.
    exists sigs. split_and!; [done..|]. intros s Hin. apply Hok.
    destruct (ok s) eqn:Es; [done|]. exfalso.
    assert (count_verified ok sigs < length sigs) by (apply Hcnt; by exists s). lia.
  - intros (sigs & -> & Ht & Hn & Hall).
    rw (proj2 (Z.ltb_ge _ _) Ht) (proj2 (Nat.ltb_ge _ _) Hn). cbn [orb].
    destruct (Nat.ltb_spec (count_verified ok sigs) (length sigs)) as [Hlt|]; [|done].
    apply Hcnt in Hlt as (s & Hin & Hs). pose proof (proj2 (Hok s) (Hall s Hin)). congruence.
Qed.

(** C32: An accepted multisignature decodes into at least threshold and at most as many
    signatures as there are keys, each of which one of the listed keys verifies. *)
Theorem multisig_verified_by_listed_keys threshold pubkeys message sig :
  verify_bytes (Multisig threshold pubkeys) message sig = Ok tt ->
  exists sigs, decode_multisig_signature sig = Some (Ok sigs) /\
    (threshold <= Z.of_nat (length sigs))%Z /\ length sigs <= length pubkeys /\
    forall s, s ∈ sigs -> exists pk, pk ∈ pubkeys /\ verify_bytes pk message s = Ok tt.
Proof. by intros ?%verify_multisig_inv. Qed.

(** One signer can satisfy any threshold: its signature repeated threshold times is accepted by
    the multisignature key, since neither signatures nor keys are required to be different. *)
Theorem one_signer_passes_threshold threshold pubkeys pk message s header blob :
  pk ∈ pubkeys -> verify_bytes pk message s = Ok tt ->
  0 < threshold <= length pubkeys -> length header = 7 ->
  encode_multisig header (replicate threshold s) = Some blob ->
  (Z.of_nat (length blob) <= U64_MAX)%Z ->
  verify_bytes (Multisig (Z.of_nat threshold) pubkeys) message blob = Ok tt.
Proof.
  intros Hin Hv [Ht Hn] Hh Hb Hmax. apply verify_multisig_inv. exists (replicate threshold s).
  rw length_replicate. split_and!; [|lia..|].
  - apply (decode_encode_multisig header); try done. destruct threshold; [lia|done].
  - intros s' [-> _]%elem_of_replicate. by exists pk.
Qed.

(** Decoding the encoding of a non-empty list of signatures (header, then prefix, length and
    bytes of each) gives back the list. *)
Theorem multisig_signature_roundtrip header sigs blob :
  length header = 7 -> sigs <> [] -> encode_multisig header sigs = Some blob ->
  (Z.of_nat (length blob) <= U64_MAX)%Z ->
  decode_multisig_signature blob = Some (Ok sigs).
Proof. apply decode_encode_multisig. Qed.

End SignatureFacts.

(** ** A concrete length delimiter: LEB128 on ten bytes *)

Fixpoint leb_encode (fuel : nat) (z : Z) : bytes :=
  match fuel with
  | O => []
  | S fuel' =>
      if (z <? 128)%Z then [byte_of_Z z]
      else byte_of_Z (128 + z mod 128) :: leb_encode fuel' (z / 128)
  end.

Fixpoint leb_decode (fuel : nat) (b : bytes) : option Z :=
  match fuel, b with
  | S fuel', x :: b' =>
      if (Z_of_byte x <? 128)%Z then Some (Z_of_byte x)
      else (fun z => Z_of_byte x - 128 + 128 * z)%Z <$> leb_decode fuel' b'
  | _, _ => None
  end.

Definition demo_prost : Prost := {|
  encode_length_delimiter n := Some (leb_encode 10 (Z.of_nat n));
  decode_length_delimiter b :=
    match leb_decode 10 b with
    | Some z => if (z <=? U64_MAX)%Z then Some z else None
    | None => None
    end;
  length_delimiter_len z := length (leb_encode 10 z)
|}.

Lemma leb_roundtrip fuel z rest :
  0 < fuel -> (0 <= z < 128 ^ Z.of_nat fuel)%Z ->
  leb_decode fuel (leb_encode fuel z ++ rest) = Some z.
Proof.
  revert z. induction fuel as [|fuel IH]; intros z Hf Hz; [lia|]. cbn [leb_encode].
  rw Nat2Z.inj_succ Z.pow_succ_r in Hz; [|lia].
  destruct (Z.ltb_spec z 128); cbn [app leb_decode]; rw Z_of_byte_of_Z.
  - rw Z.mod_small; [|lia]. by destruct (Z.ltb_spec z 128); [|lia].
  - pose proof (Z.mod_pos_bound z 128 ltac:(lia)). rw (Z.mod_small (128 + z mod 128)); [|lia].
    destruct (Z.ltb_spec (128 + z mod 128) 128); [lia|].
    rw IH; [|destruct fuel; [cbn in Hz|]; lia
            |split; [apply Z.div_pos; lia|apply Z.div_lt_upper_bound; lia]]. cbn. f_equal.
    pose proof (Z.div_mod z 128 ltac:(lia)). lia.
Qed.

Lemma leb_decode_nonneg fuel b z : leb_decode fuel b = Some z -> (0 <= z)%Z.
Proof.
  revert b z. induction fuel as [|fuel IH]; intros [|x b] z; cbn; try done.
  pose proof (Z_of_byte_range x). destruct (Z.ltb_spec (Z_of_byte x) 128); [intros [= <-]; lia|].
  destruct (leb_decode fuel b) as [z'|] eqn:E; [|done]. apply IH in E. cbn. intros [= <-]. lia.
Qed.

Lemma demo_prost_laws : @ProstLaws demo_prost.
Proof.
  split; cbn [encode_length_delimiter decode_length_delimiter length_delimiter_len demo_prost].
  - intros n. by eexists.
  - by intros n l [= <-].
  - intros n l rest Hl Hn. assert (l = leb_encode 10 (Z.of_nat n)) as -> by congruence.
    assert (leb_decode 10 (leb_encode 10 (Z.of_nat n) ++ rest) = Some (Z.of_nat n)) as ->.
    { apply leb_roundtrip; [lia|]. split; [lia|]. eapply Z.le_lt_trans; [exact Hn|by vm_compute]. }
    by rw (proj2 (Z.leb_le _ _) Hn).
  - intros b z. destruct (leb_decode 10 b) as [z'|] eqn:E; [|done]. apply leb_decode_nonneg in E.
    destruct (Z.leb_spec z' U64_MAX); [|done]. by intros [= <-].
Qed.

(** ** The properties at concrete keys *)

#[local] Existing Instance demo_primitives.
#[local] Existing Instance demo_prost.
#[local] Existing Instance demo_prost_laws.

Definition demo_signer1 : PubKeyKind := Secp256k1 (lit "key one").
Definition demo_signer2 : PubKeyKind := Secp256k1 (lit "key two").
Definition demo_message : bytes := lit "pay everything to mallory".
(** The signature of the first signer on the message. *)
Definition demo_signature : bytes := demo_hash (lit "key one" ++ demo_hash demo_message).
Definition demo_header : bytes := replicate 7 Byte.x00.
Definition demo_blob (sigs : list bytes) : bytes := default [] (encode_multisig demo_header sigs).

Lemma one_signer_passes_threshold_witness :
  verify_bytes demo_signer2 demo_message demo_signature = Err VerificationError /\
  verify_bytes (Multisig 2 [demo_signer1; demo_signer2]) demo_message
    (demo_blob [demo_signature; demo_signature]) = Ok tt.
Proof.
  split; [by vm_compute|].
  apply (one_signer_passes_threshold 2 [demo_signer1; demo_signer2] demo_signer1 demo_message
           demo_signature demo_header).
  - left.
  - by vm_compute.
  - cbn. lia.
  - done.
  - by vm_compute.
  - by vm_compute.
Defined.

Lemma multisig_verified_by_listed_keys_witness :
  exists sigs, decode_multisig_signature (demo_blob [demo_signature]) = Some (Ok sigs).
Proof.
  destruct (multisig_verified_by_listed_keys 1 [demo_signer1; demo_signer2] demo_message
              (demo_blob [demo_signature])) as (sigs & E & _); [by vm_compute|].
  by exists sigs.
Defined.

Lemma multisig_signature_roundtrip_witness :
  decode_multisig_signature (demo_blob [lit "ab"; []; lit "c"]) = Some (Ok [lit "ab"; []; lit "c"]).
Proof.
  by apply (multisig_signature_roundtrip demo_header); vm_compute.
Defined.
