(* ===== verification/Validation.v ===== *)
(** * Authentication of calls: wasmi-runtime/src/wasm/contract_validation.rs

    The contract key that binds a contract's address and code to its state, the code hash
    in front of every message, the callback signature of a calling contract and the
    transaction signature of a user. *)

From Stdlib Require Import Strings.String.
From stdpp Require Import base tactics list numbers strings ssreflect.
From S2P Require Import Prelude Crypto SecretMsg Signatures.

Local Open Scope string_scope.
Local Open Scope list_scope.

(** ** cosmwasm/types.rs: what the transaction was signed with *)

Record CosmosSignature : Type := mkCosmosSignature { pub_key : PubKeyKind; signature : Binary }.

Inductive SignDocWasmMsg : Type :=
| SignDocExecute (contract : HumanAddr) (msg : string) (sent_funds : list Coin)
                 (callback_sig : option bytes)
| SignDocInstantiate (code_id init_msg : string) (init_funds : list Coin) (label : option string)
                     (callback_sig : option bytes).

Record SignDoc : Type := mkSignDoc {
  account_number : string;
  sign_chain_id : string;
  fee : Value;
  memo : string;
  msgs : list SignDocWasmMsg;
  sequence : string
}.

Record SigInfo : Type := mkSigInfo {
  sign_bytes : Binary;
  sig_signature : CosmosSignature;
  callback_sig : option Binary
}.

Definition CONTRACT_KEY_LENGTH : nat := HASH_SIZE + HASH_SIZE.
Definition HEX_ENCODED_HASH_SIZE : nat := HASH_SIZE * 2.

Section Validation.
Context `{P : Primitives} `{C : Codecs} `{Pr : Prost} `{Json (list Coin)} `{Json SignDoc}.
Variable km : Keychain.

(** ** The contract key *)

Definition calc_contract_hash (contract_bytes : bytes) : bytes := sha_256 contract_bytes.

Definition generate_sender_id (msg_sender : bytes) (block_height : Z) : bytes :=
  sha_256 (msg_sender ++ be_bytes 8 block_height).

Definition generate_contract_id (state_ikm : AESKey) (sender_id code_hash addr : bytes) : bytes :=
  let authentication_key := derive_key_from_key state_ikm sender_id in
  sign_sha_256 authentication_key (sender_id ++ code_hash ++ addr).

Definition generate_encryption_key (env : Env) (code addr : bytes) : result EnclaveError bytes :=
  state_ikm ← unwrap (get_consensus_state_ikm km);
  let contract_hash := calc_contract_hash code in
  decoded ← ok_or FailedToDeserialize (bech32_decode (sender (message env)));
  let sender_id := generate_sender_id decoded.2 (height (block env)) in
  Ok (sender_id ++ generate_contract_id state_ikm sender_id contract_hash addr).

Definition extract_contract_key (env : Env) : result EnclaveError bytes :=
  match contract_key env with
  | None => Err FailedContractAuthentication
  | Some text =>
      key ← ok_or FailedContractAuthentication (base64_decode (lit text));
      if (length key =? CONTRACT_KEY_LENGTH)%nat then Ok key
      else Err FailedContractAuthentication
  end.

Definition validate_contract_key (key addr code : bytes) : result EnclaveError bool :=
  let signer_id := take HASH_SIZE key in
  let expected_authentication_id := drop HASH_SIZE key in
  let contract_hash := calc_contract_hash code in
  enclave_key ← unwrap (get_consensus_state_ikm km);
  let calculated := generate_contract_id enclave_key signer_id contract_hash addr in
  Ok (bytes_eqb calculated expected_authentication_id).

(** ** The code hash in front of a message *)

Definition validate_msg (m code : bytes) : result EnclaveError bytes :=
  if (length m <? HEX_ENCODED_HASH_SIZE)%nat then Err ValidationFailure
  else
    received ← slice m 0 HEX_ENCODED_HASH_SIZE;
    decoded_hash ← ok_or ValidationFailure (hex_decode received);
    if negb (bytes_eqb decoded_hash (calc_contract_hash code)) then Err ValidationFailure
    else slice m HEX_ENCODED_HASH_SIZE (length m).

(** ** Signatures *)

Definition verify_callback_sig (callback_signature : bytes) (snd : CanonicalAddr)
    (m : SecretMessage) (funds : list Coin) : result EnclaveError bool :=
  match callback_signature with
  | [] => Ok false
  | _ =>
      expected ← create_callback_signature km snd m funds;
      Ok (bytes_eqb callback_signature expected)
  end.

Definition verify_sender (sig : CosmosSignature) (msg_sender : CanonicalAddr) : bool :=
  bytes_eqb (get_address (pub_key sig)) msg_sender.

Definition signed_msg (m : SignDocWasmMsg) : string :=
  match m with SignDocExecute _ text _ _ => text | SignDocInstantiate _ text _ _ _ => text end.

Definition get_verified_msg (doc : SignDoc) (sent_msg : SecretMessage) : option SignDocWasmMsg :=
  List.find (fun m =>
    match base64_decode (lit (signed_msg m)) with
    | Some binary_msg => bytes_eqb (secret_to_vec sent_msg) binary_msg
    | None => false
    end) (msgs doc).

Definition verify_contract (m : SignDocWasmMsg) (env : Env) : bool :=
  match m with
  | SignDocExecute c _ _ _ => (address (contract env) =? c)%string
  | SignDocInstantiate _ _ _ _ _ => true
  end.

Definition verify_funds (m : SignDocWasmMsg) (env : Env) : bool :=
  match m with
  | SignDocExecute _ _ funds _ => bool_decide (sent_funds (message env) = funds)
  | SignDocInstantiate _ _ funds _ _ => bool_decide (sent_funds (message env) = funds)
  end.

Definition verify_signature_params (doc : SignDoc) (info : SigInfo) (env : Env)
    (sent_msg : SecretMessage) : bool :=
  match CanonicalAddr_from_human (sender (message env)) with
  | None => false
  | Some msg_sender =>
      if negb (verify_sender (sig_signature info) msg_sender) then false
      else match get_verified_msg doc sent_msg with
           | None => false
           | Some m => if negb (verify_contract m env) then false
                       else if negb (verify_funds m env) then false else true
           end
  end.

Definition verify_params (info : SigInfo) (env : Env) (m : SecretMessage) : result EnclaveError unit :=
  match callback_sig info with
  | Some sig =>
      snd ← ok_or FailedToSerialize (CanonicalAddr_from_human (sender (message env)));
      ok ← verify_callback_sig sig snd m (sent_funds (message env));
      if ok : bool then Ok tt else Err FailedTxVerification
  | None =>
      doc ← ok_or FailedToDeserialize (json_from_slice (sign_bytes info));
      _ ← map_err (fun _ => FailedTxVerification)
            (verify_bytes (pub_key (sig_signature info)) (sign_bytes info)
               (signature (sig_signature info)));
      if verify_signature_params doc info env m then Ok tt else Err FailedTxVerification
  end.

End Validation.

(** ** Properties *)

Section ValidationFacts.
Context `{P : Primitives} {HP : PrimitiveLaws} `{C : Codecs} {HC : CodecLaws} `{Pr : Prost}.
Context `{Json (list Coin)} `{Json SignDoc}.
Variable km : Keychain.

(** A generated contract key is 64 bytes long and passes the check. *)
Lemma generated_key_validates env code addr key :
  generate_encryption_key km env code addr = Ok key ->
  length key = CONTRACT_KEY_LENGTH /\ validate_contract_key km key addr code = Ok true.
Proof.
  unfold generate_encryption_key, validate_contract_key.
  destruct (get_consensus_state_ikm km) as [ikm| |]; [|done..]. cbn [unwrap mbind result_bind].
  destruct (bech32_decode _) as [[hrp u5]|]; [|done]. cbn [ok_or mbind result_bind snd].
  set (id := generate_sender_id u5 (height (block env))).
  assert (length id = HASH_SIZE) as Hid by apply digest_length.
  set (auth := generate_contract_id ikm id (calc_contract_hash code) addr). intros [= <-].
  rw take_app_length' // drop_app_length' // length_app Hid.
  assert (length auth = HASH_SIZE) as -> by apply hmac_length.
  split; [done|]. f_equal. by apply bool_decide_eq_true.
Qed.

Lemma validate_contract_key_inv key addr code :
  validate_contract_key km key addr code = Ok true ->
  exists ikm, get_consensus_state_ikm km = Ok ikm /\
    generate_contract_id ikm (take HASH_SIZE key) (calc_contract_hash code) addr = drop HASH_SIZE key.
Proof.
  unfold validate_contract_key. destruct (get_consensus_state_ikm km) as [ikm| |]; [|done..].
  cbn [unwrap mbind result_bind]. intros [= E]. apply bool_decide_eq_true in E. by exists ikm.
Qed.

(** What is authenticated of a contract in its key: the sender's id, the hash of the code and the
    address, under a key derived from the chain's state key. *)
Definition authenticated (id code addr : bytes) : bytes := id ++ sha_256 code ++ addr.

(** C4: A contract key that validates for an address and a code is refused for every other pair
    of address and code, unless the two codes are different and have the same SHA-256, or
    the two strings that are authenticated for these contracts (sender id of the key, code
    hash, address) are different and have the same HMAC under the key derived for this
    sender id. The collision, if any, is between these very inputs. *)
Theorem key_binds_contract key addr addr' code code' :
  validate_contract_key km key addr code = Ok true -> (addr', code') <> (addr, code) ->
  let id := take HASH_SIZE key in
  validate_contract_key km key addr' code' = Ok false \/
  (code' <> code /\ sha_256 code' = sha_256 code) \/
  (authenticated id code' addr' <> authenticated id code addr /\
   exists ikm, get_consensus_state_ikm km = Ok ikm /\
     sign_sha_256 (derive_key_from_key ikm id) (authenticated id code' addr') =
     sign_sha_256 (derive_key_from_key ikm id) (authenticated id code addr)).
Proof.
  intros (ikm & Hikm & E)%validate_contract_key_inv Hne id.
  unfold validate_contract_key. rw Hikm. cbn [unwrap mbind result_bind]. fold id. fold id in E. unfold bytes_eqb.
  case_bool_decide as E'; [right|by left]. rw -E in E'. unfold generate_contract_id, calc_contract_hash in E'.
  destruct (decide (authenticated id code' addr' = authenticated id code addr)) as [Heq|Hdiff]; [left|right; split; [done|by exists ikm]].
  unfold authenticated in Heq. apply app_inv_head, app_inj_1 in Heq as [Hh ->]; [|by unfold sha_256; rw !digest_length].
  split; [|done]. intros ->. by apply Hne.
Qed.

(** validate_msg returns a body exactly when the message is the hex text of the hash of the code
    followed by that body, and fails with ValidationFailure (never a panic) otherwise. *)
Theorem validate_msg_spec m code :
  (forall body, validate_msg m code = Ok body <->
     exists h, m = h ++ body /\ length h = HEX_ENCODED_HASH_SIZE /\
               hex_decode h = Some (calc_contract_hash code)) /\
  (is_ok (validate_msg m code) = false -> validate_msg m code = Err ValidationFailure).
Proof.
  unfold validate_msg. destruct (Nat.ltb_spec (length m) HEX_ENCODED_HASH_SIZE) as [Hl|Hl].
  { split; [|done]. intros body. split; [done|]. intros (h & -> & Hh & _).
    rw length_app Hh in Hl. lia. }
  rw !slice_ok; [|lia..]. cbn [mbind result_bind]. rw drop_0 Nat.sub_0_r.
  set (h := take HEX_ENCODED_HASH_SIZE m). set (b := take _ (drop HEX_ENCODED_HASH_SIZE m)).
  assert (m = h ++ b) as Hm.
  { unfold h, b. rw (take_ge (drop _ m)) ?take_drop //. rw length_drop. lia. }
  assert (length h = HEX_ENCODED_HASH_SIZE) as Hh by (unfold h; rw length_take; lia).
  assert (forall h' body, m = h' ++ body -> length h' = HEX_ENCODED_HASH_SIZE -> h' = h /\ body = b)
    as Huniq.
  { intros h' body E Hh'. rw Hm in E. apply app_inj_1 in E as [-> ->]; [done|lia]. }
  clearbody h b. destruct (hex_decode h) as [d|] eqn:Hd; cbn [ok_or mbind result_bind].
  2: { split; [|done]. intros body. split; [done|]. intros (h' & E & Hh' & Hd').
       destruct (Huniq _ _ E Hh') as [-> ->]. congruence. }
  unfold bytes_eqb. case_bool_decide as Heq; cbn [negb].
  - split; [|done]. intros body. split; [intros [= <-]; exists h; by rw Hd Heq|].
    intros (h' & E & Hh' & _). by destruct (Huniq _ _ E Hh') as [-> ->].
  - split; [|done]. intros body. split; [done|]. intros (h' & E & Hh' & Hd').
    destruct (Huniq _ _ E Hh') as [-> ->]. congruence.
Qed.

Lemma validate_msg_prefixed inner code :
  validate_msg (lit (hex_encode (calc_contract_hash code)) ++ inner) code = Ok inner.
Proof.
  set (h := lit (hex_encode (calc_contract_hash code))).
  assert (length h = HEX_ENCODED_HASH_SIZE) as Hh.
  { unfold h. rw hex_length. unfold calc_contract_hash, sha_256. by rw digest_length. }
  unfold validate_msg. rw length_app Hh.
  destruct (Nat.ltb_spec (HEX_ENCODED_HASH_SIZE + length inner) HEX_ENCODED_HASH_SIZE); [lia|].
  rw !slice_ok; rw ?length_app; [|lia..]. cbn [mbind result_bind].
  rw drop_0 Nat.sub_0_r take_app_length' // /h hex_roundtrip. cbn [ok_or mbind result_bind].
  unfold bytes_eqb. rw bool_decide_true //. cbn [negb]. fold h.
  rw drop_app_length' // take_ge //. lia.
Qed.

Lemma callback_signature_length a m funds sig :
  create_callback_signature km a m funds = Ok sig -> length sig = 32.
Proof.
  unfold create_callback_signature. destruct (get_consensus_callback_secret km); [|done..].
  cbn [unwrap mbind result_bind]. destruct (json_to_vec funds); [|done]. intros [= <-].
  apply digest_length.
Qed.

(** A call that one contract sends through the enclave to another is accepted there: its
    callback signature verifies for the caller and the sent funds, and decryption and the
    code hash check return exactly the message the caller wrote. *)
Theorem contract_call_is_delivered caller to code inner send n pk env info out sig c :
  length n = 32 -> length pk = 32 ->
  encrypt_wasm_msg km (Execute to (hex_encode (calc_contract_hash code)) inner send c) n pk caller
    = Ok (Execute to (hex_encode (calc_contract_hash code)) out send (Some sig)) ->
  CanonicalAddr_from_human (sender (message env)) = Some caller ->
  sent_funds (message env) = send -> callback_sig info = Some sig ->
  exists m, secret_from_slice out = Ok m /\ verify_params km info env m = Ok tt /\
    (plain ← decrypt km m; validate_msg plain code) = Ok inner /\ nonce m = n /\ user_public_key m = pk.
Proof.
  intros Hn Hpk He Hs Hf Hc. cbn [encrypt_wasm_msg] in He.
  destruct (encrypt_inner_msg _ _ _ _ _ _ _) as [[out' sig']| |] eqn:Hi; [|done..].
  cbn [mbind result_bind fst snd] in He. injection He as -> ->.
  apply encrypt_inner_msg_spec in Hi as (m & -> & Hmn & Hmpk & Hlen & Hdec & Hsig).
  exists m. rw Hdec. cbn [mbind result_bind]. split_and!; [| |apply validate_msg_prefixed|done..].
  - apply secret_from_to; [by split; rw ?Hmn ?Hmpk|].
    rw Hlen hex_length. unfold calc_contract_hash, sha_256. rw digest_length. lia.
  - unfold verify_params. rw Hc Hs Hf. cbn [ok_or mbind result_bind]. unfold verify_callback_sig.
    rw Hsig. apply callback_signature_length in Hsig. destruct sig as [|b sig]; [done|].
    cbn [mbind result_bind]. unfold bytes_eqb. by rw bool_decide_true.
Qed.

(** C11: verify_params succeeds only with the callback signature of the sender, this message and
    these funds, or with a transaction signature that verifies under a key whose address is
    the sender and whose signed document contains this message with these funds and, for an
    execute, this contract. *)
Theorem verify_params_sound info env m :
  verify_params km info env m = Ok tt ->
  exists snd, CanonicalAddr_from_human (sender (message env)) = Some snd /\
  match callback_sig info with
  | Some sig => create_callback_signature km snd m (sent_funds (message env)) = Ok sig
  | None =>
      get_address (pub_key (sig_signature info)) = snd /\
      verify_bytes (pub_key (sig_signature info)) (sign_bytes info)
                   (signature (sig_signature info)) = Ok tt /\
      exists doc signed, json_from_slice (sign_bytes info) = Some doc /\ signed ∈ msgs doc /\
        base64_decode (lit (signed_msg signed)) = Some (secret_to_vec m) /\
        match signed with
        | SignDocExecute c _ funds _ => c = address (contract env) /\ funds = sent_funds (message env)
        | SignDocInstantiate _ _ funds _ _ => funds = sent_funds (message env)
        end
  end.
Proof.
  unfold verify_params. destruct (callback_sig info) as [sig|].
  - destruct (CanonicalAddr_from_human _) as [a|]; [|done]. cbn [ok_or mbind result_bind].
    unfold verify_callback_sig. intros Hv. exists a. split; [done|].
    destruct sig as [|b sig]; [done|].
    destruct (create_callback_signature _ _ _ _) as [e| |]; [|done..]. cbn [mbind result_bind] in Hv.
    unfold bytes_eqb in Hv. by case_bool_decide as Heq; [rw -Heq|].
  - destruct (json_from_slice (sign_bytes info)) as [doc|] eqn:Hj; [|done]. cbn [ok_or mbind result_bind].
    destruct (verify_bytes _ _ _) as [[]| |] eqn:Hv; [|done..]. cbn [map_err mbind result_bind].
    unfold verify_signature_params. destruct (CanonicalAddr_from_human _) as [a|]; [|done].
    intros Hp. exists a. split; [done|].
    unfold verify_sender, bytes_eqb in Hp. case_bool_decide as Ha; cbn [negb] in Hp; [|done].
    destruct (get_verified_msg doc m) as [signed|] eqn:Hm; [|done].
    apply List.find_some in Hm as [Hin Hm].
    destruct (base64_decode _) as [body|] eqn:Hb; [|done]. apply bool_decide_eq_true in Hm.
    split_and!; [done..|]. exists doc, signed. split_and!; [done|by apply list_elem_of_In|by rw Hm|].
    destruct signed as [c text funds s|code text funds label s]; cbn in Hp.
    + destruct (String.eqb_spec (address (contract env)) c); [|done]. cbn in Hp.
      case_bool_decide; [|done]. by split.
    + by case_bool_decide.
Qed.

(** C20: Two calls that differ in the sender, the encrypted message or the funds, with sender
    addresses of one length and JSON encodings of the funds of one length, have callback
    signatures that are the SHA-256 digests of two different strings, made of the callback
    secret, the sender, the message and the JSON of the funds; so they are signed alike only
    if SHA-256 collides on these two strings. The JSON of funds is assumed to be read back
    as the same funds. *)
Theorem callback_signature_binds_call snd snd' m m' funds funds' j j' sig sig' :
  (forall l b, json_to_vec (T := list Coin) l = Some b -> json_from_slice b = Some l) ->
  create_callback_signature km snd m funds = Ok sig ->
  create_callback_signature km snd' m' funds' = Ok sig' ->
  json_to_vec funds = Some j -> json_to_vec funds' = Some j' ->
  length snd = length snd' -> length j = length j' ->
  (snd, msg m, funds) <> (snd', msg m', funds') ->
  exists k, get_consensus_callback_secret km = Ok k /\
    let signed := key_bytes k ++ snd ++ msg m ++ j in
    let signed' := key_bytes k ++ snd' ++ msg m' ++ j' in
    signed <> signed' /\ sig = sha_256 signed /\ sig' = sha_256 signed'.
Proof.
  unfold create_callback_signature. destruct (get_consensus_callback_secret km) as [k| |]; [|done..].
  cbn [unwrap mbind result_bind]. intros Hround E1 E2 Hj Hj' Hs Hl Hne.
  rw Hj in E1. rw Hj' in E2. cbn [expect mbind result_bind] in E1, E2. injection E1 as <-. injection E2 as <-.
  exists k. split; [done|]. split; [|done]. intros Heq%app_inv_head. apply Hne.
  apply app_inj_1 in Heq as [-> Heq]; [|done]. apply app_inj_2 in Heq as [-> ->]; [|done].
  apply Hround in Hj, Hj'. congruence.
Qed.

End ValidationFacts.

(** ** The properties at a concrete enclave *)

Definition demo_json_signdoc : Json SignDoc := {|
  json_to_vec _ := None;
  json_from_slice b :=
    Some (mkSignDoc "1" "secret-1" VNull "" [SignDocExecute "to" (string_of_list_byte b) [] None] "7")
|}.

#[local] Existing Instance demo_primitives.
#[local] Existing Instance demo_primitive_laws.
#[local] Existing Instance demo_codecs.
#[local] Existing Instance demo_codec_laws.
#[local] Existing Instance demo_prost.
#[local] Existing Instance demo_json_coins.
#[local] Existing Instance demo_json_signdoc.

Definition demo_env (who : string) (funds : list Coin) : Env :=
  mkEnv (mkBlock 12 1571797419 "secret-1") (mkMessage who funds) (mkContract "to") None "".
Definition demo_code : bytes := lit "wasm code".
Definition demo_contract_key : bytes :=
  match generate_encryption_key demo_km (demo_env "creator" []) demo_code (lit "to") with
  | Ok k => k | _ => []
  end.

(** The key of the contract at one address is refused for the same code at another. *)
Lemma key_binds_contract_witness :
  validate_contract_key demo_km demo_contract_key (lit "to") demo_code = Ok true /\
  validate_contract_key demo_km demo_contract_key (lit "elsewhere") demo_code = Ok false.
Proof.
  split; [vm_compute; reflexivity|].
  destruct (key_binds_contract demo_km demo_contract_key (lit "to") (lit "elsewhere") demo_code demo_code)
    as [H|[[H _]|(_ & ikm & Hk & H)]]; [vm_compute; reflexivity|discriminate|exact H|by destruct H|].
  vm_compute in Hk. injection Hk as <-. vm_compute in H. discriminate.
Defined.

Definition demo_hash_text : string := hex_encode (calc_contract_hash demo_code).
Definition demo_call : Binary * bytes :=
  match encrypt_inner_msg demo_km demo_hash_text (lit "{}") [mkCoin "uscrt" "5"]
          demo_nonce demo_user (lit "alice") with
  | Ok p => p | _ => ([], [])
  end.
Definition demo_callback : SigInfo :=
  mkSigInfo [] (mkCosmosSignature (Secp256k1 []) []) (Some demo_call.2).

Lemma contract_call_is_delivered_witness :
  exists m, secret_from_slice demo_call.1 = Ok m /\
    verify_params demo_km demo_callback (demo_env "alice" [mkCoin "uscrt" "5"]) m = Ok tt /\
    (plain ← decrypt demo_km m; validate_msg plain demo_code) = Ok (lit "{}").
Proof.
  destruct (contract_call_is_delivered demo_km (lit "alice") "to" demo_code (lit "{}")
              [mkCoin "uscrt" "5"] demo_nonce demo_user (demo_env "alice" [mkCoin "uscrt" "5"])
              demo_callback demo_call.1 demo_call.2 None) as (m & Hm & Hv & Hd & _);
    [reflexivity|reflexivity|vm_compute; reflexivity|reflexivity|reflexivity|reflexivity|].
  exists m. split; [exact Hm|]. split; [exact Hv|exact Hd].
Defined.

(** A user's transaction: the sign document is the message itself. *)
Definition demo_pub : PubKeyKind := Secp256k1 (lit "user key").
Definition demo_tx_msg : SecretMessage := mkSecret demo_nonce demo_user (lit "ciphertext").
Definition demo_tx : SigInfo :=
  let b := secret_to_vec demo_tx_msg in
  mkSigInfo b (mkCosmosSignature demo_pub (demo_hash (lit "user key" ++ demo_hash b))) None.
Definition demo_tx_env : Env := demo_env (string_of_list_byte (get_address demo_pub)) [].

Lemma verify_params_sound_witness :
  exists snd, CanonicalAddr_from_human (sender (message demo_tx_env)) = Some snd /\
              get_address demo_pub = snd.
Proof.
  destruct (verify_params_sound demo_km demo_tx demo_tx_env demo_tx_msg) as (a & Ha & Hs & _);
    [vm_compute; reflexivity|]. exists a. split; [exact Ha|exact Hs].
Defined.

(** A JSON of funds that can be read back: at most one coin, in uscrt. *)
Definition coin_json : Json (list Coin) := {|
  json_to_vec l :=
    match l with
    | [] => Some []
    | [c] => if (denom c =? "uscrt")%string then Some (Byte.x01 :: lit (amount c)) else None
    | _ => None
    end;
  json_from_slice b :=
    match b with
    | [] => Some []
    | _ :: a => Some [mkCoin "uscrt" (string_of_list_byte a)]
    end
|}.

Lemma coin_json_roundtrip l b :
  json_to_vec (Json := coin_json) l = Some b -> json_from_slice (Json := coin_json) b = Some l.
Proof.
  destruct l as [|[d a] [|]]; cbn; [by intros [= <-]| |done]. destruct (String.eqb_spec d "uscrt") as [->|]; [|done].
  intros [= <-]. cbn. by rw string_of_list_byte_of_string.
Qed.

Section Funds.
#[local] Existing Instance coin_json.

(** The same message from the same sender with 5 uscrt and with 6. *)
Lemma callback_signature_binds_call_witness :
  exists sig sig',
    create_callback_signature demo_km (lit "alice") demo_tx_msg [mkCoin "uscrt" "5"] = Ok sig /\
    create_callback_signature demo_km (lit "alice") demo_tx_msg [mkCoin "uscrt" "6"] = Ok sig' /\
    sig <> sig' /\ exists x y, x <> y /\ sig = sha_256 x /\ sig' = sha_256 y.
Proof.
  destruct (create_callback_signature demo_km (lit "alice") demo_tx_msg [mkCoin "uscrt" "5"]) as [sig| |] eqn:E;
    [|by vm_compute in E..].
  destruct (create_callback_signature demo_km (lit "alice") demo_tx_msg [mkCoin "uscrt" "6"]) as [sig'| |] eqn:E';
    [|by vm_compute in E'..].
  destruct (callback_signature_binds_call demo_km (lit "alice") (lit "alice") demo_tx_msg demo_tx_msg
              [mkCoin "uscrt" "5"] [mkCoin "uscrt" "6"] (Byte.x01 :: lit "5") (Byte.x01 :: lit "6") sig sig'
              coin_json_roundtrip E E' eq_refl eq_refl eq_refl eq_refl) as (k & _ & Hx & Hs & Hs'); [discriminate|].
  exists sig, sig'. split; [reflexivity|]. split; [reflexivity|]. split; [|eexists _, _; split; [exact Hx|split; [exact Hs|exact Hs']]].
  vm_compute in E. vm_compute in E'. injection E as <-. injection E' as <-. discriminate.
Defined.
End Funds.
