(* ===== verification/EnclaveDb.v ===== *)
(** * Encrypted contract storage: wasmi-runtime/src/wasm/db.rs and errors.rs

    Every key of a contract is stored under a digest of the key and the contract key, and
    every value encrypted with a key derived from that digest, behind 32 bytes of
    associated data that change with every write.  The host is untrusted: it answers an
    ocall with anything that may depend on all earlier ocalls, the class [Host]. *)

From stdpp Require Import base tactics list numbers ssreflect.
From S2P Require Import Prelude Crypto.

(** ** errors.rs *)

Inductive WasmEngineError : Type :=
| WFailedOcall (vm_error : UntrustedVmError)
| WHostMisbehavior
| WOutOfGas
| WPanic
| WEncryptionError
| WDecryptionError
| WSerializationError
| WDeserializationError
| WBase32Error
| WMemoryAllocationError
| WMemoryReadError
| WMemoryWriteError
| WUnauthorizedWrite
| WNonExistentImportFunction.

(** [From<WasmEngineError> for EnclaveError]. *)
Definition engine_to_enclave_error (e : WasmEngineError) : EnclaveError :=
  match e with
  | WFailedOcall vm_error => FailedOcall (mkVmError (vm_ptr vm_error))
  | WOutOfGas => OutOfGas
  | WEncryptionError => EncryptionError
  | WDecryptionError => DecryptionError
  | WMemoryAllocationError => MemoryAllocationError
  | WMemoryReadError => MemoryReadError
  | WMemoryWriteError => MemoryWriteError
  | WUnauthorizedWrite => UnauthorizedWrite
  | WHostMisbehavior => HostMisbehavior
  | _ => UnknownError
  end.

(** wasmi's [TrapKind] without host errors. *)
Inductive TrapKind : Type :=
| Unreachable | MemoryAccessOutOfBounds | TableAccessOutOfBounds | ElemUninitialized
| DivisionByZero | InvalidConversionToInt | StackOverflow | UnexpectedSignature | OtherTrap.

Definition trap_kind_to_enclave_error (kind : TrapKind) : EnclaveError :=
  match kind with
  | Unreachable => ContractPanicUnreachable
  | MemoryAccessOutOfBounds => ContractPanicMemoryAccessOutOfBounds
  | TableAccessOutOfBounds => ContractPanicTableAccessOutOfBounds
  | ElemUninitialized => ContractPanicElemUninitialized
  | DivisionByZero => ContractPanicDivisionByZero
  | InvalidConversionToInt => ContractPanicInvalidConversionToInt
  | StackOverflow => ContractPanicStackOverflow
  | UnexpectedSignature => ContractPanicUnexpectedSignature
  | OtherTrap => FailedFunctionCall
  end.

(** ** Ocalls and the untrusted host *)

Inductive Ocall : Type :=
| OReadDb (key : bytes)
| OWriteDb (key value : bytes)
| ORemoveDb (key : bytes)
| OQueryChain (query : bytes) (gas_limit : Z).

Inductive OcallReturn : Type := OcallSuccess | OcallFailure | OcallPanic.

(** The out-parameters of an ocall; [buffer] is what [recover_buffer] makes of the
    returned pointer: [None] an unknown pointer, [Some None] a null one. *)
Record Answer : Type := mkAnswer {
  sgx_success : bool;
  ocall_return : OcallReturn;
  vm_err : UntrustedVmError;
  answer_gas : Z;
  buffer : option (option bytes)
}.

Class Host : Type := {
  host_answer (history : list Ocall) (call : Ocall) : Answer
}.

(** The ocalls made so far, latest first. *)
Abbreviation Trace := (list Ocall).

Section Db.
Context `{P : Primitives} `{Ho : Host}.
Variable km : Keychain.

Definition ocall (call : Ocall) : M Trace WasmEngineError Answer :=
  fun h => (call :: h, Ok (host_answer h call)).

Definition ocall_status (a : Answer) : result WasmEngineError unit :=
  if negb (sgx_success a) then Err (WFailedOcall (vm_err a))
  else match ocall_return a with
       | OcallSuccess => Ok tt
       | OcallFailure => Err (WFailedOcall (vm_err a))
       | OcallPanic => Err WPanic
       end.

Definition read_db (key : bytes) : M Trace WasmEngineError (option bytes * Z) :=
  a ← ocall (OReadDb key);
  _ ← liftR (ocall_status a);
  value ← liftR (ok_or WHostMisbehavior (buffer a));
  mret (value, answer_gas a).

Definition remove_db (key : bytes) : M Trace WasmEngineError Z :=
  a ← ocall (ORemoveDb key);
  _ ← liftR (ocall_status a);
  mret (answer_gas a).

Definition write_db (key value : bytes) : M Trace WasmEngineError Z :=
  a ← ocall (OWriteDb key value);
  _ ← liftR (ocall_status a);
  mret (answer_gas a).

Definition field_name_digest (field_name contract_key : bytes) : bytes :=
  sha_256 (field_name ++ contract_key).

(** [slice::split_at]. *)
Definition split_at {E} (n : nat) (l : bytes) : result E (bytes * bytes) :=
  if (length l <? n)%nat then Panic else Ok (take n l, drop n l).

(** The associated data of the next write: the hash of the previous one, or of the field
    name when nothing is stored. *)
Definition derive_ad_for_field (field_name : bytes) : M Trace WasmEngineError (bytes * Z) :=
  p ← read_db field_name;
  previous ← liftR (match p.1 with
                    | Some old_value => fst <$> split_at 32 old_value
                    | None => Ok field_name
                    end);
  mret (sha_256 previous, p.2).

Definition get_symmetrical_key (field_name contract_key : bytes) : result WasmEngineError AESKey :=
  ikm ← unwrap (get_consensus_state_ikm km);
  Ok (derive_key_from_key ikm (field_name ++ contract_key)).

Definition encrypt_key (field_name value contract_key ad : bytes) : result WasmEngineError bytes :=
  key ← get_symmetrical_key field_name contract_key;
  map_err (fun _ => WEncryptionError) (encrypt_siv key value (Some [ad])).

Definition decrypt_key (field_name value contract_key : bytes) : result WasmEngineError bytes :=
  key ← get_symmetrical_key field_name contract_key;
  p ← split_at 32 value;
  map_err (fun _ => WDecryptionError) (decrypt_siv key p.2 (Some [p.1])).

(** Gas is added on 64 bits. *)
Definition write_encrypted_key (key value contract_key : bytes) : M Trace WasmEngineError Z :=
  let name := field_name_digest key contract_key in
  p ← derive_ad_for_field name;
  encrypted_value ← liftR (encrypt_key name value contract_key p.1);
  write_used_gas ← write_db name (p.1 ++ encrypted_value);
  mret ((p.2 + write_used_gas) mod 2^64)%Z.

Definition read_encrypted_key (key contract_key : bytes) : M Trace WasmEngineError (option bytes * Z) :=
  let name := field_name_digest key contract_key in
  p ← read_db name;
  match p.1 with
  | Some value =>
      decrypted ← liftR (decrypt_key name value contract_key);
      mret (Some decrypted, p.2)
  | None => mret (None, p.2)
  end.

Definition remove_encrypted_key (key contract_key : bytes) : M Trace WasmEngineError Z :=
  remove_db (field_name_digest key contract_key).

End Db.

(** ** An honest host: it keeps what was written *)

Section Honest.
(** What the host stored before the first ocall, and the gas it charges. *)
Variable base : bytes -> option bytes.
Variable cost : Trace -> Ocall -> Z.

Fixpoint replay (history : Trace) (key : bytes) : option bytes :=
  match history with
  | [] => base key
  | OWriteDb k v :: h => if bool_decide (k = key) then Some v else replay h key
  | ORemoveDb k :: h => if bool_decide (k = key) then None else replay h key
  | _ :: h => replay h key
  end.

(** The ocalls to the store. *)
Definition is_db (call : Ocall) : bool :=
  match call with OQueryChain _ _ => false | _ => true end.

(** A buffer of no bytes crosses the border as a null pointer. *)
Definition returned (value : option bytes) : option bytes :=
  match value with Some [] => None | _ => value end.

(** Every ocall to the store succeeds. *)
Definition honest_answer (history : Trace) (call : Ocall) : Answer :=
  mkAnswer true OcallSuccess default_vm_error (cost history call)
    (Some match call with OReadDb k => returned (replay history k) | _ => None end).

Class HonestHost `{Host} : Prop := {
  honest h call : is_db call = true -> host_answer h call = honest_answer h call
}.

End Honest.

(** ** Properties *)

Section DbFacts.
Context `{P : Primitives} {HP : PrimitiveLaws} `{Ho : Host}.
Context {base : bytes -> option bytes} {cost : Trace -> Ocall -> Z} {HH : HonestHost base cost}.
Variable km : Keychain.

Lemma read_db_honest key h :
  read_db key h = (OReadDb key :: h, Ok (returned (replay base h key), cost h (OReadDb key))).
Proof. cbv [read_db mbind M_bind ocall liftR mret M_ret]. by rw honest. Qed.

Lemma write_db_honest key value h :
  write_db key value h = (OWriteDb key value :: h, Ok (cost h (OWriteDb key value))).
Proof. cbv [write_db mbind M_bind ocall liftR mret M_ret]. by rw honest. Qed.

Lemma remove_encrypted_key_honest key ck h :
  let name := field_name_digest key ck in
  remove_encrypted_key key ck h = (ORemoveDb name :: h, Ok (cost h (ORemoveDb name))).
Proof. cbv [remove_encrypted_key remove_db mbind M_bind ocall liftR mret M_ret]. by rw honest. Qed.

(** A read depends on the stored value only. *)
Lemma read_encrypted_key_honest key ck h :
  let name := field_name_digest key ck in
  read_encrypted_key km key ck h =
  (OReadDb name :: h,
   match returned (replay base h name) with
   | None => Ok (None, cost h (OReadDb name))
   | Some value =>
       d ← decrypt_key km name value ck;
       Ok (Some d, cost h (OReadDb name))
   end).
Proof.
  cbv [read_encrypted_key mbind M_bind liftR mret M_ret]. rw read_db_honest. cbn.
  destruct (returned (replay base h _)) as [v|]; [|done]. by destruct (decrypt_key _ _ _ _).
Qed.

Lemma returned_nonempty v : v <> [] -> returned (Some v) = Some v.
Proof. by destruct v. Qed.

(** What a successful write leaves on the host. *)
Lemma write_encrypted_key_honest key value ck h h' g :
  let name := field_name_digest key ck in
  write_encrypted_key km key value ck h = (h', Ok g) ->
  exists ad c, length ad = 32 /\ encrypt_key km name value ck ad = Ok c /\
    h' = OWriteDb name (ad ++ c) :: OReadDb name :: h.
Proof.
  cbv zeta. unfold write_encrypted_key, derive_ad_for_field. cbv [mbind M_bind liftR mret M_ret].
  rw read_db_honest. cbn [fst snd].
  destruct (match returned (replay base h _) with Some _ => _ | None => _ end) as [previous| |]; [|done..].
  cbn [fst snd].
  destruct (encrypt_key km (field_name_digest key ck) value ck (sha_256 previous)) as [c| |] eqn:Hc; [|done..].
  rw write_db_honest. intros [= <- _]. exists (sha_256 previous), c.
  split_and!; [apply digest_length|done|done].
Qed.

Lemma decrypt_encrypt_key name value ck ad c :
  length ad = 32 -> encrypt_key km name value ck ad = Ok c ->
  decrypt_key km name (ad ++ c) ck = Ok value.
Proof.
  intros Had. unfold encrypt_key, decrypt_key.
  destruct (get_symmetrical_key km name ck) as [k| |]; [|done..]. cbn [mbind result_bind].
  destruct (encrypt_siv k value _) as [c'| |] eqn:E; [|done..]. intros [= <-].
  unfold split_at. rw length_app Had. destruct (Nat.ltb_spec (32 + length c') 32); [lia|].
  cbn [mbind result_bind fst snd]. rw take_app_length' // drop_app_length' //.
  by rw (decrypt_encrypt_siv _ _ _ _ E).
Qed.

(** Two fields share a digest only if they are the same field or the hash collides. *)
(** C5: Over a host that keeps what it is given, reading a key after a successful write returns
    the written value; and every other field, of this contract or of one with another key of
    the same length, reads as before, unless the field name and contract key of the written
    and of the read field, put together, are two different strings with the same SHA-256. *)
Theorem encrypted_storage_is_a_map key value ck h h' g :
  write_encrypted_key km key value ck h = (h', Ok g) ->
  (exists gas, (read_encrypted_key km key ck h').2 = Ok (Some value, gas)) /\
  forall key' ck', length ck' = length ck -> (key', ck') <> (key, ck) ->
    fst <$> (read_encrypted_key km key' ck' h').2 = fst <$> (read_encrypted_key km key' ck' h).2 \/
    (key' ++ ck' <> key ++ ck /\ sha_256 (key' ++ ck') = sha_256 (key ++ ck)).
Proof.
  intros (ad & c & Had & Hc & ->)%write_encrypted_key_honest. split.
  - rw read_encrypted_key_honest. cbn [replay snd]. rw bool_decide_true //.
    rw returned_nonempty; [|by destruct ad]. rw (decrypt_encrypt_key _ value) //. by eexists.
  - intros key' ck' Hl Hne. rw !read_encrypted_key_honest. cbn [replay snd].
    case_bool_decide as Hd.
    2: { left. destruct (returned _); [|done]. by destruct (decrypt_key _ _ _ _). }
    right. split; [|done]. intros E. apply app_inj_2 in E as [-> ->]; done.
Qed.

(** Over a host that keeps what it is given, a removed key reads as absent. *)
Theorem removed_key_is_absent key ck h :
  exists gas, (read_encrypted_key km key ck (remove_encrypted_key key ck h).1).2 = Ok (None, gas).
Proof.
  rw remove_encrypted_key_honest read_encrypted_key_honest. cbn [fst snd replay].
  rw bool_decide_true //. by eexists.
Qed.

End DbFacts.

(** ** The properties at a concrete enclave and host *)

Definition demo_host : Host :=
  {| host_answer := honest_answer (fun _ => None) (fun _ _ => 100%Z) |}.

Lemma demo_host_honest : HonestHost (fun _ => None) (fun _ _ => 100%Z) (H := demo_host).
Proof. by split. Qed.

Definition demo_db_km : Keychain :=
  @generate_consensus_master_keys demo_primitives
    (mkKeychain (Some (mkSeed demo_seed)) None None None None None).

#[local] Existing Instance demo_primitives.
#[local] Existing Instance demo_primitive_laws.
#[local] Existing Instance demo_host.
#[local] Existing Instance demo_host_honest.

(** A value is written; another field of the contract, and the same field of another contract, stay
    absent. *)
Lemma encrypted_storage_is_a_map_witness :
  let w := write_encrypted_key demo_db_km (lit "k") (lit "v") (replicate 64 Byte.x07) [] in
  w.2 = Ok 200%Z /\
  (exists gas, (read_encrypted_key demo_db_km (lit "k") (replicate 64 Byte.x07) w.1).2 = Ok (Some (lit "v"), gas)) /\
  fst <$> (read_encrypted_key demo_db_km (lit "l") (replicate 64 Byte.x07) w.1).2 = Ok None /\
  fst <$> (read_encrypted_key demo_db_km (lit "k") (replicate 64 Byte.x08) w.1).2 = Ok None.
Proof.
  assert ((write_encrypted_key demo_db_km (lit "k") (lit "v") (replicate 64 Byte.x07) []).2
          = Ok 200%Z) as Hg by (by vm_compute).
  split; [exact Hg|].
  destruct (write_encrypted_key demo_db_km (lit "k") (lit "v") (replicate 64 Byte.x07) [])
    as [h' r] eqn:E. cbn in Hg. subst r.
  destruct (encrypted_storage_is_a_map demo_db_km (lit "k") (lit "v") (replicate 64 Byte.x07) [] h' 200%Z E) as [Hv Ho].
  split; [exact Hv|]. cbn [fst]. split.
  - destruct (Ho (lit "l") (replicate 64 Byte.x07) eq_refl) as [H|[_ H]]; [discriminate|exact H|]. vm_compute in H. discriminate.
  - destruct (Ho (lit "k") (replicate 64 Byte.x08) eq_refl) as [H|[_ H]]; [vm_compute; discriminate|exact H|]. vm_compute in H. discriminate.
Defined.

Lemma removed_key_is_absent_witness :
  exists gas, (read_encrypted_key demo_db_km (lit "k") (lit "ck")
                 (remove_encrypted_key (lit "k") (lit "ck") []).1).2 = Ok (None, gas).
Proof. exact (removed_key_is_absent demo_db_km (lit "k") (lit "ck") []). Defined.
