(* ===== verification/QueryChain.v ===== *)
(** * Nested queries: wasmi-runtime/src/recursion_depth.rs and wasm/query_chain.rs

    The guard that bounds how many contracts are loaded at once, and the queries a
    contract makes to the chain: encrypted for another contract, passed to the host, and
    the answer decrypted again. *)

From Stdlib Require Import Strings.String.
From stdpp Require Import base tactics list numbers strings ssreflect relations.
From S2P Require Import Prelude Crypto SecretMsg Signatures Validation EnclaveDb.

Local Open Scope string_scope.
Local Open Scope list_scope.

(** ** recursion_depth.rs *)

Module Recursion.

Definition RECURSION_LIMIT : Z := 5.

Definition increment (depth : Z) : Z * result EnclaveError unit :=
  if (depth =? RECURSION_LIMIT)%Z then (depth, Err ExceededRecursionLimit)
  else (Z.min U8_MAX (depth + 1), Ok tt).

Definition decrement (depth : Z) : Z := Z.max 0 (depth - 1).

Definition limit_reached (depth : Z) : bool := (depth =? RECURSION_LIMIT)%Z.

(** The counter and the guards that exist. *)
Record Guards : Type := mkGuards { depth : Z; live : nat }.

(** [guard] creates a guard when [increment] succeeds; dropping one decrements. *)
Inductive step : Guards -> Guards -> Prop :=
| step_guard g d : increment (depth g) = (d, Ok tt) -> step g (mkGuards d (S (live g)))
| step_refused g e : (increment (depth g)).2 = Err e -> step g g
| step_drop d n : step (mkGuards d (S n)) (mkGuards (decrement d) n).

Definition initial : Guards := mkGuards 0 0.

Definition counted (g : Guards) : Prop := depth g = Z.of_nat (live g) /\ live g <= 5.

Lemma step_counted g g' : counted g -> step g g' -> counted g'.
Proof.
  unfold counted. intros Hc Hs. revert Hc.
  destruct Hs as [g d Hi|g e Hi|d n]; [|done|]; cbn [depth live]; intros [Hd Hl].
  - unfold increment, RECURSION_LIMIT, U8_MAX in Hi.
    destruct (Z.eqb_spec (depth g) 5); [done|]. injection Hi as <-. lia.
  - unfold decrement. lia.
Qed.

(** C17: In every reachable state the recursion counter is the number of live guards, at most 5;
    the limit is reported exactly at 5 and a new guard is refused exactly then. *)
Theorem recursion_is_bounded g :
  rtc step initial g ->
  depth g = Z.of_nat (live g) /\ live g <= 5 /\
  (limit_reached (depth g) = true <-> live g = 5) /\
  (is_ok (increment (depth g)).2 = true <-> live g < 5).
Proof.
  intros Hr. assert (counted g) as [Hd Hl].
  { refine (rtc_ind_r counted initial _ _ g Hr); [by split; cbn; [|lia]|].
    intros g1 g2 _ Hs Hc. by eapply step_counted. }
  split_and!; [done..| |]; unfold limit_reached, increment, RECURSION_LIMIT;
    destruct (Z.eqb_spec (depth g) 5); cbn; split; try done; lia.
Qed.

Lemma recursion_is_bounded_witness :
  limit_reached (depth (mkGuards 1 1)) = true <-> live (mkGuards 1 1) = 5.
Proof.
  apply (recursion_is_bounded (mkGuards 1 1)).
  apply rtc_once. by apply (step_guard initial 1).
Defined.

End Recursion.

(** ** cosmwasm/query.rs, std_error.rs, system_error.rs *)

Inductive BankQuery : Type := Balance (addr : HumanAddr) (dn : string) | AllBalances (addr : HumanAddr).
Inductive GovQuery : Type := Proposals.
Inductive DistQuery : Type := Rewards (delegator : HumanAddr).
Inductive MintQuery : Type := Inflation | BondedRatio.
Inductive StakingQuery : Type :=
| BondedDenom
| AllDelegations (delegator : HumanAddr)
| QDelegation (delegator validator : HumanAddr)
| Validators
| UnbondingDelegations (delegator : HumanAddr).
Inductive WasmQuery : Type :=
| Smart (contract_addr : HumanAddr) (callback_code_hash : string) (msg : Binary)
| Raw (contract_addr : HumanAddr) (callback_code_hash : string) (key : Binary).
Inductive QueryRequest : Type :=
| QBank (q : BankQuery)
| QCustom (v : Value)
| QStaking (q : StakingQuery)
| QWasm (q : WasmQuery)
| QDist (q : DistQuery)
| QMint (q : MintQuery)
| QGov (q : GovQuery).

Inductive StdError : Type :=
| GenericErr (m : string)
| InvalidBase64 (m : string)
| InvalidUtf8 (m : string)
| NotFound (kind : string)
| NullPointer
| ParseErr (target m : string)
| SerializeErr (source m : string)
| Unauthorized
| Underflow (minuend subtrahend : string).

Inductive SystemError : Type :=
| InvalidRequest (error : string) (request : Binary)
| InvalidResponse (error : string) (response : Binary)
| NoSuchContract (addr : HumanAddr)
| SystemUnknown
| UnsupportedRequest (kind : string)
| SystemExceededRecursionLimit.

(** [SystemResult<StdResult<Binary>>]. *)
Inductive QueryAnswer : Type :=
| SystemErr (e : SystemError)
| ContractErr (e : StdError)
| ContractOk (b : Binary).

(** The text of serde's error when parsing the bytes. *)
Class JsonErrors : Type := { json_error : bytes -> string }.

(** ** Text: [str::contains] and [str::replace] *)

Fixpoint starts_with (pat l : bytes) : bool :=
  match pat, l with
  | [], _ => true
  | p :: pat', x :: l' => bool_decide (p = x) && starts_with pat' l'
  | _ :: _, [] => false
  end.

Fixpoint contains (pat l : bytes) : bool :=
  starts_with pat l || match l with [] => false | _ :: l' => contains pat l' end.

(** Removes the occurrences of a non-empty pattern; [skip] bytes of one are left to drop. *)
Fixpoint erase_from (pat l : bytes) (skip : nat) : bytes :=
  match l with
  | [] => []
  | x :: l' =>
      match skip with
      | S k => erase_from pat l' k
      | O => if starts_with pat l then erase_from pat l' (length pat - 1)
             else x :: erase_from pat l' 0
      end
  end.
Definition erase (pat l : bytes) : bytes := erase_from pat l 0.

Definition ENCRYPTED_MARK : bytes := lit "query contract failed: encrypted: ".

(** ** query_chain.rs *)

Section QueryChain.
Context `{P : Primitives} `{C : Codecs} `{Ho : Host} `{Json QueryRequest} `{Json QueryAnswer} `{Json StdError} `{JE : JsonErrors}.
Variable km : Keychain.

Definition serialize_error_response (answer : QueryAnswer) : result WasmEngineError bytes :=
  ok_or WSerializationError (json_to_vec answer).

Definition system_error_invalid_request (request : bytes) : result WasmEngineError bytes :=
  serialize_error_response (SystemErr (InvalidRequest (json_error request) request)).

Definition system_error_invalid_response (response : bytes) : result WasmEngineError bytes :=
  serialize_error_response (SystemErr (InvalidResponse (json_error response) response)).

Definition check_recursion_limit (depth : Z) : option QueryAnswer :=
  if Recursion.limit_reached depth then Some (SystemErr SystemExceededRecursionLimit) else None.

(** The query to send and whether its answer comes back encrypted. *)
Definition encrypt_query_request (q : QueryRequest) (n : IoNonce) (pk : bytes)
  : result WasmEngineError (QueryRequest * bool) :=
  match q with
  | QWasm (Smart addr hash m) =>
      let hash_appended_msg := lit hash ++ m in
      encrypted ← map_err (fun _ => WEncryptionError)
                    (encrypt_in_place km (mkSecret n pk hash_appended_msg));
      Ok (QWasm (Smart addr hash (secret_to_vec encrypted)), true)
  | _ => Ok (q, false)
  end.

Definition query_chain (query : bytes) (gas_limit : Z) : M Trace WasmEngineError (bytes * Z) :=
  a ← ocall (OQueryChain query gas_limit);
  _ ← liftR (ocall_status a);
  buf ← liftR (ok_or WHostMisbehavior (buffer a));
  mret (default [] buf, answer_gas a).

Definition decrypt_query_response (response : bytes) (n : IoNonce) (pk : bytes)
  : result WasmEngineError bytes :=
  b64_decrypted ← map_err (fun _ => WDecryptionError) (decrypt km (mkSecret n pk response));
  ok_or WDeserializationError (base64_decode b64_decrypted).

Definition decrypt_query_response_error (error : bytes) (n : IoNonce) (pk : bytes)
  : result WasmEngineError bytes :=
  map_err (fun _ => WDecryptionError) (decrypt km (mkSecret n pk error)).

(** The answer of the queried contract, decrypted and serialised again. *)
Definition decrypt_answer (answer : QueryAnswer) (n : IoNonce) (pk : bytes) : result WasmEngineError bytes :=
  match answer with
  | SystemErr _ => ok_or WSerializationError (json_to_vec answer)
  | ContractOk r =>
      decrypted ← decrypt_query_response r n pk;
      ok_or WSerializationError (json_to_vec (ContractOk decrypted))
  | ContractErr (GenericErr m) =>
      if negb (contains ENCRYPTED_MARK (lit m))
      then ok_or WSerializationError (json_to_vec answer)
      else
        error ← ok_or WDeserializationError (base64_decode (erase ENCRYPTED_MARK (lit m)));
        decrypted ← decrypt_query_response_error error n pk;
        match json_from_slice (T := StdError) decrypted with
        | Some e => ok_or WSerializationError (json_to_vec (ContractErr e))
        | None => system_error_invalid_response decrypted
        end
  | ContractErr _ => ok_or WSerializationError (json_to_vec answer)
  end.

(** The answer for the contract and the gas the caller is charged when it succeeds. *)
Definition encrypt_and_query_chain (depth : Z) (query : bytes) (n : IoNonce) (pk : bytes) (gas_limit : Z)
  : M Trace WasmEngineError (bytes * Z) :=
  match check_recursion_limit depth with
  | Some answer => r ← liftR (serialize_error_response answer); mret (r, 0%Z)
  | None =>
      match json_from_slice (T := QueryRequest) query with
      | None => r ← liftR (system_error_invalid_request query); mret (r, 500%Z)
      | Some query_struct =>
          p ← liftR (encrypt_query_request query_struct n pk);
          encrypted_query ← liftR (ok_or WSerializationError (json_to_vec p.1));
          a ← query_chain encrypted_query gas_limit;
          if negb p.2 then mret a
          else match json_from_slice (T := QueryAnswer) a.1 with
               | None => r ← liftR (system_error_invalid_response a.1); mret (r, a.2)
               | Some answer => r ← liftR (decrypt_answer answer n pk); mret (r, a.2)
               end
      end
  end.

End QueryChain.

(** ** Properties *)

Section QueryChainFacts.
Context `{P : Primitives} {HP : PrimitiveLaws} `{C : Codecs} {HC : CodecLaws} `{Ho : Host}.
Context `{Json QueryRequest} `{Json QueryAnswer} `{Json StdError} `{JE : JsonErrors}.
Variable km : Keychain.

(** A nested query makes at most one ocall, and none at the recursion limit. *)
Lemma query_chain_trace depth query n pk gas_limit h :
  (encrypt_and_query_chain km depth query n pk gas_limit h).1 = h \/
  Recursion.limit_reached depth = false /\
  exists q, (encrypt_and_query_chain km depth query n pk gas_limit h).1 = OQueryChain q gas_limit :: h.
Proof.
  unfold encrypt_and_query_chain, check_recursion_limit.
  destruct (Recursion.limit_reached depth); cbv [mbind M_bind liftR mret M_ret].
  { left. by destruct (serialize_error_response _). }
  destruct (json_from_slice query) as [q|].
  2: { left. by destruct (system_error_invalid_request _). }
  destruct (encrypt_query_request km q n pk) as [[q' enc]| |]; [|by left..].
  destruct (ok_or _ _) as [b| |]; [|by left..].
  right. split; [done|]. exists b. cbv [query_chain ocall mbind M_bind liftR mret M_ret].
  destruct (ocall_status _); [|done..]. destruct (ok_or WHostMisbehavior _) as [bf| |]; [|done..].
  cbn [snd]. destruct (negb enc); [done|]. destruct (json_from_slice _).
  - by destruct (decrypt_answer _ _ _ _).
  - by destruct (system_error_invalid_response _).
Qed.

(** A smart query of one contract to another is encrypted into a message the queried contract
    accepts and decrypts to exactly the query. *)
Theorem nested_query_is_delivered addr code m n pk q enc :
  length n = 32 -> length pk = 32 ->
  encrypt_query_request km (QWasm (Smart addr (hex_encode (calc_contract_hash code)) m)) n pk
    = Ok (q, enc) ->
  enc = true /\ exists body sm,
    q = QWasm (Smart addr (hex_encode (calc_contract_hash code)) body) /\
    secret_from_slice body = Ok sm /\ nonce sm = n /\ user_public_key sm = pk /\
    (plain ← decrypt km sm; validate_msg plain code) = Ok m.
Proof.
  intros Hn Hpk. cbn [encrypt_query_request].
  destruct (encrypt_in_place km _) as [c| |] eqn:E; [|done..]. cbn [map_err mbind result_bind].
  intros [= <- <-]. apply encrypt_in_place_spec in E as (En & Epk & Hl & Hd). cbn in En, Epk, Hl, Hd.
  split; [done|]. exists (secret_to_vec c), c. split_and!; [done| |done|done|].
  - apply secret_from_to; [by split; congruence|]. rw Hl length_app hex_length.
    unfold calc_contract_hash, sha_256. rw digest_length. lia.
  - rw Hd. apply validate_msg_prefixed.
Qed.

(** JSON writes a base64 text between quotes, without escapes. *)
Class Base64Json `{Json string} : Prop := {
  json_base64 b : json_to_vec (base64_encode b) = Some (quote :: lit (base64_encode b) ++ [quote]);
  base64_no_quote b : quote ∉ lit (base64_encode b)
}.

Lemma trim_start_no_quote l : quote ∉ l -> trim_start_quotes l = l.
Proof. destruct l as [|x l]; [done|]. intros Hq. cbn. case_bool_decide; [set_solver|done]. Qed.

Lemma trim_quoted l : quote ∉ l -> trim_quotes (quote :: l ++ [quote]) = l.
Proof.
  intros Hq. unfold trim_quotes. cbn [trim_start_quotes]. rw bool_decide_true //.
  destruct l as [|x l].
  { cbn. rw bool_decide_true //. }
  assert (trim_start_quotes ((x :: l) ++ [quote]) = (x :: l) ++ [quote]) as ->.
  { cbn. case_bool_decide; [set_solver|done]. }
  rw rev_app_distr. change (rev [quote] ++ rev (x :: l)) with (quote :: rev (x :: l)).
  cbn [trim_start_quotes]. rw bool_decide_true // trim_start_no_quote ?rev_involutive //.
  by rw list_elem_of_In -in_rev -list_elem_of_In.
Qed.

(** The answer of a queried contract, encrypted by the enclave that ran it, decrypts in the
    querying enclave to exactly the bytes the contract answered. *)
Theorem query_answer_roundtrip `{Json Value, Json string, Json (list Coin), !Base64Json}
    key n pk addr result out :
  calc_encryption_key km n pk = Ok key ->
  encrypt_wasm_output km key n pk addr (OkString (base64_encode result)) = Ok out ->
  exists text c, out = OkString text /\ base64_decode (lit text) = Some c /\
    decrypt_query_response km c n pk = Ok result.
Proof.
  intros Hk. cbn [encrypt_wasm_output]. unfold encrypt_serializable. rw json_base64.
  destruct (encrypt_serialized key _) as [text| |] eqn:E; [|done..]. intros [= <-].
  apply serialized_opens in E as (j & [= <-] & c & Hc & Ho').
  exists text, c. split_and!; [done..|]. unfold decrypt_query_response, decrypt, encryption_key.
  cbn [nonce user_public_key msg]. rw Hk. cbn [mbind result_bind]. rw Ho' trim_quoted.
  - cbn [map_err mbind result_bind]. by rw base64_roundtrip.
  - apply base64_no_quote.
Qed.

End QueryChainFacts.

(** ** The properties at a concrete enclave *)

#[local] Existing Instance demo_primitives.
#[local] Existing Instance demo_primitive_laws.

(** A base64 stand-in whose text is made of sixteen letters, so that it has no quote. *)
Definition quoteless : Codecs := {|
  base64_encode := @hex_encode demo_codecs;
  base64_decode := @hex_decode demo_codecs;
  hex_encode := @hex_encode demo_codecs;
  hex_decode := @hex_decode demo_codecs;
  bech32_decode := @bech32_decode demo_codecs;
  bech32_encode := @bech32_encode demo_codecs;
  from_base32 := @from_base32 demo_codecs;
  to_base32 := @to_base32 demo_codecs
|}.

Lemma quoteless_laws : @CodecLaws quoteless.
Proof.
  split; [exact (@hex_roundtrip _ demo_codec_laws)..|exact (@hex_length _ demo_codec_laws)].
Qed.

#[local] Existing Instance quoteless.
#[local] Existing Instance quoteless_laws.
#[local] Existing Instance demo_json_string.
#[local] Existing Instance demo_json_value.
#[local] Existing Instance demo_json_coins.

Lemma quoteless_json : Base64Json.
Proof.
  split; intros b; [done|]. cbn [base64_encode quoteless hex_encode demo_codecs]. rw lit_of_bytes.
  induction b as [|x b IH]; [by intros ?%elem_of_nil|].
  cbn [map concat]. rw elem_of_app. intros [Hx|Hx]; [|by apply IH].
  by destruct x; apply list_elem_of_In in Hx; cbn in Hx; destruct Hx as [|[|[]]].
Qed.
#[local] Existing Instance quoteless_json.

Lemma query_answer_roundtrip_witness :
  exists text c,
    encrypt_wasm_output demo_km demo_key demo_nonce demo_user [] (OkString (base64_encode (lit "42")))
      = Ok (OkString text) /\
    base64_decode (lit text) = Some c /\
    decrypt_query_response demo_km c demo_nonce demo_user = Ok (lit "42").
Proof.
  assert (is_ok (encrypt_wasm_output demo_km demo_key demo_nonce demo_user []
                   (OkString (base64_encode (lit "42")))) = true) as Hok by (by vm_compute).
  destruct (encrypt_wasm_output demo_km demo_key demo_nonce demo_user [] _) as [out| |] eqn:E; [|done..].
  destruct (query_answer_roundtrip demo_km demo_key demo_nonce demo_user [] (lit "42") out)
    as (text & c & -> & Hc & Hd); [vm_compute; reflexivity|exact E|].
  exists text, c. split; [reflexivity|]. split; [exact Hc|exact Hd].
Defined.

Lemma nested_query_is_delivered_witness :
  exists q, encrypt_query_request demo_km
              (QWasm (Smart "to" (hex_encode (calc_contract_hash (lit "code"))) (lit "{}")))
              demo_nonce demo_user = Ok (q, true).
Proof.
  assert (is_ok (encrypt_query_request demo_km
              (QWasm (Smart "to" (hex_encode (calc_contract_hash (lit "code"))) (lit "{}")))
              demo_nonce demo_user) = true) as Hok by (by vm_compute).
  destruct (encrypt_query_request demo_km _ demo_nonce demo_user) as [[q enc]| |] eqn:E; [|done..].
  destruct (nested_query_is_delivered demo_km "to" (lit "code") (lit "{}") demo_nonce demo_user q enc)
    as [-> _]; [reflexivity|reflexivity|exact E|].
  by exists q.
Defined.
