(* ===== verification/Wire.v ===== *)
(** * What crosses the boundary between a contract and the enclave

    A contract and the enclave declare the same messages twice, in std/src and in
    wasmi-runtime/src/cosmwasm, and exchange them as JSON.  This file gives both sides' JSON
    forms as document trees: what the derived [Serialize] and [Deserialize] of each type do,
    as its declaration and its serde attributes fix it (enums are tagged by an object of one
    field, variants are renamed to snake case, an [Option] field may be missing, a field may
    have a default, unknown fields are skipped, a repeated one is refused, [untagged] tries
    the variants in order).  The text of a document is written by serde-json-wasm in the
    contract and by serde_json in the enclave: the class [JsonText], with the law that each
    reads the documents the other writes. *)

From Stdlib Require Import Strings.Ascii Strings.String.
From stdpp Require Import base tactics list numbers strings countable ssreflect.
From S2P Require Import Prelude Utf8 Math Storage Typed Std Querying Crypto SecretMsg Encoding EnclaveDb QueryChain.

Local Open Scope string_scope.
Local Open Scope list_scope.

(** ** Documents *)

Abbreviation Fields := (list (string * Value)).

(** The value of a field a struct names, if the object has it. *)
Definition field (fs : Fields) (name : string) : option (option Value) :=
  match List.filter (fun p => String.eqb p.1 name) fs with
  | [] => Some None
  | [p] => Some (Some p.2)
  | _ :: _ :: _ => None
  end.

Definition required {A} (de : Value -> option A) (fs : Fields) (name : string) : option A :=
  v ← field fs name;
  match v with Some v => de v | None => None end.

Definition de_option {A} (de : Value -> option A) (v : Value) : option (option A) :=
  match v with VNull => Some None | _ => Some <$> de v end.

Definition optional {A} (de : Value -> option A) (fs : Fields) (name : string) : option (option A) :=
  v ← field fs name;
  match v with Some v => de_option de v | None => Some None end.

(** [#[serde(default)]]. *)
Definition defaulted {A} (d : A) (de : Value -> option A) (fs : Fields) (name : string) : option A :=
  v ← field fs name;
  match v with Some v => de v | None => Some d end.

(** A struct is read from an object, or from an array with one item per field. *)
Definition as_struct (names : list string) (v : Value) : option Fields :=
  match v with
  | VObject fs => Some fs
  | VArray items => if (length items =? length names)%nat then Some (zip names items) else None
  | _ => None
  end.

(** serde-json-wasm reads a struct from an object only. *)
Definition as_object (v : Value) : option Fields := match v with VObject fs => Some fs | _ => None end.

(** An externally tagged variant with content. *)
Definition as_variant (v : Value) : option (string * Value) :=
  match v with VObject [p] => Some p | _ => None end.

Definition variant (name : string) (content : Value) : Value := VObject [(name, content)].

Definition de_string (v : Value) : option string := match v with VString s => Some s | _ => None end.

Definition de_list {A} (de : Value -> option A) (v : Value) : option (list A) :=
  match v with VArray items => mapM de items | _ => None end.

Definition ser_list {A} (ser : A -> Value) (l : list A) : Value := VArray (map ser l).

Definition ser_option {A} (ser : A -> Value) (o : option A) : Value :=
  match o with Some x => ser x | None => VNull end.

(** An unsigned number is its decimal text. *)
Definition ser_u64 (z : Z) : Value := VNumber (u128_to_string z).
Definition de_unsigned (max : Z) (v : Value) : option Z :=
  match v with
  | VNumber t => match parse_u128 (list_ascii_of_string t) with
                 | Ok z => if (z <=? max)%Z then Some z else None
                 | _ => None
                 end
  | _ => None
  end.
Definition de_u64 : Value -> option Z := de_unsigned U64_MAX.

(** A visitor of strings. *)
Definition de_visit {A} (visit_str : string -> result string A) (v : Value) : option A :=
  match v with
  | VString s => match visit_str s with Ok x => Some x | _ => None end
  | _ => None
  end.

(** [serde_json::Value] keeps the fields of an object in a sorted map; the last of two equal
    keys stays. *)
Fixpoint obj_insert (k : string) (v : Value) (fs : Fields) : Fields :=
  match fs with
  | [] => [(k, v)]
  | (k', v') :: rest =>
      match bytes_cmp (lit k) (lit k') with
      | Lt => (k, v) :: fs
      | Eq => (k, v) :: rest
      | Gt => (k', v') :: obj_insert k v rest
      end
  end.
Fixpoint de_value (v : Value) : Value :=
  match v with
  | VArray items => VArray (map de_value items)
  | VObject fs => VObject (fold_left (fun acc p => obj_insert p.1 p.2 acc)
                                     (map (fun p => (p.1, de_value p.2)) fs) [])
  | _ => v
  end.

(** ** The contract's side: std/src *)

Module StdWire.
Section StdWire.
Context `{C : Codecs}.
Variable base64_error : string -> string.

Definition ser_binary (b : Binary) : Value := VString (Encoding.serialize b).
Definition de_binary : Value -> option Binary := de_visit (Encoding.visit_str base64_error).
Definition ser_uint (u : Uint128) : Value := VString (MathSerde.uint_serialize u).
Definition de_uint : Value -> option Uint128 := de_visit MathSerde.uint_visit_str.

(** coins.rs *)
Definition ser_coin (c : Std.Coin) : Value :=
  VObject [("denom", VString (Std.denom c)); ("amount", ser_uint (Std.amount c))].
Definition de_coin (v : Value) : option Std.Coin :=
  fs ← as_object v;
  d ← required de_string fs "denom";
  a ← required de_uint fs "amount";
  Some (Std.mkCoin d a).

(** types.rs: the environment is only read. *)
Definition de_block (v : Value) : option Std.BlockInfo :=
  fs ← as_object v;
  h ← required de_u64 fs "height";
  t ← required de_u64 fs "time";
  c ← required de_string fs "chain_id";
  Some (Std.mkBlock h t c).
Definition de_message (v : Value) : option Std.MessageInfo :=
  fs ← as_object v;
  s ← required de_string fs "sender";
  f ← required (de_list de_coin) fs "sent_funds";
  Some (Std.mkMessage s f).
Definition de_contract (v : Value) : option Std.ContractInfo :=
  fs ← as_object v;
  a ← required de_string fs "address";
  Some (Std.mkContract a).
Definition de_env (v : Value) : option Std.Env :=
  fs ← as_object v;
  b ← required de_block fs "block";
  m ← required de_message fs "message";
  c ← required de_contract fs "contract";
  k ← optional de_string fs "contract_key";
  h ← defaulted "" de_string fs "contract_code_hash";
  Some (Std.mkEnv b m c k h).

(** init_handle.rs: the response is only written. *)
Definition ser_vote (o : Std.VoteOption) : Value :=
  VString match o with
          | Std.Yes => "Yes" | Std.No => "No" | Std.Abstain => "Abstain" | Std.NoWithVeto => "NoWithVeto"
          end.
Definition ser_gov (m : Std.GovMsg) : Value :=
  match m with
  | Std.Vote proposal vote_option =>
      variant "vote" (VObject [("proposal", ser_u64 proposal); ("vote_option", ser_vote vote_option)])
  end.
Definition ser_bank (m : Std.BankMsg) : Value :=
  match m with
  | Std.Send from_address to_address amount =>
      variant "send" (VObject [("from_address", VString from_address); ("to_address", VString to_address);
                               ("amount", ser_list ser_coin amount)])
  end.
Definition ser_staking (m : Std.StakingMsg) : Value :=
  match m with
  | Std.Delegate validator amount =>
      variant "delegate" (VObject [("validator", VString validator); ("amount", ser_coin amount)])
  | Std.Undelegate validator amount =>
      variant "undelegate" (VObject [("validator", VString validator); ("amount", ser_coin amount)])
  | Std.Withdraw validator recipient =>
      variant "withdraw" (VObject [("validator", VString validator); ("recipient", ser_option VString recipient)])
  | Std.Redelegate src_validator dst_validator amount =>
      variant "redelegate" (VObject [("src_validator", VString src_validator);
                                     ("dst_validator", VString dst_validator); ("amount", ser_coin amount)])
  end.
Definition ser_wasm (m : Std.WasmMsg) : Value :=
  match m with
  | Std.Execute contract_addr callback_code_hash msg send =>
      variant "execute" (VObject [("contract_addr", VString contract_addr);
                                  ("callback_code_hash", VString callback_code_hash);
                                  ("msg", ser_binary msg); ("send", ser_list ser_coin send)])
  | Std.Instantiate code_id callback_code_hash msg send label =>
      variant "instantiate" (VObject [("code_id", ser_u64 code_id);
                                      ("callback_code_hash", VString callback_code_hash);
                                      ("msg", ser_binary msg); ("send", ser_list ser_coin send);
                                      ("label", VString label)])
  end.
Definition ser_log (l : Std.LogAttribute) : Value :=
  VObject [("key", VString (Std.log_key l)); ("value", VString (Std.log_value l))].

(** errors/std_error.rs; the backtrace is skipped. *)
Definition ser_std_error (e : Math.StdError) : Value :=
  match e with
  | Math.GenericErr msg => variant "generic_err" (VObject [("msg", VString msg)])
  | Math.InvalidBase64 msg => variant "invalid_base64" (VObject [("msg", VString msg)])
  | Math.InvalidUtf8 msg => variant "invalid_utf8" (VObject [("msg", VString msg)])
  | Math.NotFound kind => variant "not_found" (VObject [("kind", VString kind)])
  | Math.ParseErr target msg => variant "parse_err" (VObject [("target", VString target); ("msg", VString msg)])
  | Math.SerializeErr source msg => variant "serialize_err" (VObject [("source", VString source); ("msg", VString msg)])
  | Math.Unauthorized => variant "unauthorized" (VObject [])
  | Math.Underflow minuend subtrahend =>
      variant "underflow" (VObject [("minuend", VString minuend); ("subtrahend", VString subtrahend)])
  end.

Section Custom.
(** The custom messages and queries of a contract are its own type. *)
Context {T : Type}.
Variable ser_custom : T -> Value.

Definition ser_cosmos (m : Std.CosmosMsg T) : Value :=
  match m with
  | CosmosBank m => variant "bank" (ser_bank m)
  | CosmosCustom m => variant "custom" (ser_custom m)
  | CosmosStaking m => variant "staking" (ser_staking m)
  | CosmosWasm m => variant "wasm" (ser_wasm m)
  | CosmosGov m => variant "gov" (ser_gov m)
  end.

Definition ser_init (r : InitResponse T) : Value :=
  VObject [("messages", ser_list ser_cosmos (init_messages r)); ("log", ser_list ser_log (init_log r))].
Definition ser_handle (r : HandleResponse T) : Value :=
  VObject [("messages", ser_list ser_cosmos (Std.messages r)); ("log", ser_list ser_log (Std.logs r));
           ("data", ser_option ser_binary (response_data r))].

(** query.rs *)
Definition ser_bank_query (q : Querying.BankQuery) : Value :=
  match q with
  | Querying.Balance address denom =>
      variant "balance" (VObject [("address", VString address); ("denom", VString denom)])
  | Querying.AllBalances address => variant "all_balances" (VObject [("address", VString address)])
  end.
Definition ser_staking_query (q : Querying.StakingQuery) : Value :=
  match q with
  | Querying.BondedDenom => variant "bonded_denom" (VObject [])
  | Querying.AllDelegations delegator => variant "all_delegations" (VObject [("delegator", VString delegator)])
  | Querying.DelegationOf delegator validator =>
      variant "delegation" (VObject [("delegator", VString delegator); ("validator", VString validator)])
  | Querying.Validators => variant "validators" (VObject [])
  | Querying.UnbondingDelegations delegator =>
      variant "unbonding_delegations" (VObject [("delegator", VString delegator)])
  end.
Definition ser_wasm_query (q : Querying.WasmQuery) : Value :=
  match q with
  | Querying.Smart contract_addr callback_code_hash msg =>
      variant "smart" (VObject [("contract_addr", VString contract_addr);
                                ("callback_code_hash", VString callback_code_hash); ("msg", ser_binary msg)])
  | Querying.Raw contract_addr key callback_code_hash =>
      variant "raw" (VObject [("contract_addr", VString contract_addr); ("key", ser_binary key);
                              ("callback_code_hash", VString callback_code_hash)])
  end.
Definition ser_query (q : Querying.QueryRequest T) : Value :=
  match q with
  | BankReq q => variant "bank" (ser_bank_query q)
  | CustomReq q => variant "custom" (ser_custom q)
  | StakingReq q => variant "staking" (ser_staking_query q)
  | WasmReq q => variant "wasm" (ser_wasm_query q)
  | DistReq (Querying.Rewards delegator) =>
      variant "dist" (variant "rewards" (VObject [("delegator", VString delegator)]))
  | MintReq Querying.Inflation => variant "mint" (variant "inflation" (VObject []))
  | MintReq Querying.BondedRatio => variant "mint" (variant "bonded_ratio" (VObject []))
  | GovReq Querying.Proposals => variant "gov" (variant "proposals" (VObject []))
  end.
End Custom.

(** [Empty]: the custom type of contracts that have none. *)
Definition ser_empty (_ : Empty) : Value := VObject [].

(** [Result<T, StdError>]; a panic is not a value. *)
Definition ser_result {A} (ser : A -> Value) (r : StdResult A) : option Value :=
  match r with
  | Ok x => Some (variant "Ok" (ser x))
  | Err e => Some (variant "Err" (ser_std_error e))
  | Panic => None
  end.

(** The answer of a query, as the contract reads it. *)
Definition de_std_error (v : Value) : option Math.StdError :=
  p ← as_variant v;
  let msg_of (k : string -> Math.StdError) :=
    fs ← as_object p.2; k <$> required de_string fs "msg" in
  match p.1 with
  | "generic_err" => msg_of Math.GenericErr
  | "invalid_base64" => msg_of Math.InvalidBase64
  | "invalid_utf8" => msg_of Math.InvalidUtf8
  | "not_found" => fs ← as_object p.2; Math.NotFound <$> required de_string fs "kind"
  | "parse_err" =>
      fs ← as_object p.2;
      t ← required de_string fs "target"; m ← required de_string fs "msg"; Some (Math.ParseErr t m)
  | "serialize_err" =>
      fs ← as_object p.2;
      t ← required de_string fs "source"; m ← required de_string fs "msg"; Some (Math.SerializeErr t m)
  | "unauthorized" => _ ← as_object p.2; Some Math.Unauthorized
  | "underflow" =>
      fs ← as_object p.2;
      m ← required de_string fs "minuend"; s ← required de_string fs "subtrahend"; Some (Math.Underflow m s)
  | _ => None
  end.
Definition de_system_error (v : Value) : option Querying.SystemError :=
  p ← as_variant v;
  match p.1 with
  | "invalid_request" =>
      fs ← as_object p.2;
      e ← required de_string fs "error"; r ← required de_binary fs "request"; Some (Querying.InvalidRequest e r)
  | "invalid_response" =>
      fs ← as_object p.2;
      e ← required de_string fs "error"; r ← required de_binary fs "response"; Some (Querying.InvalidResponse e r)
  | "no_such_contract" => fs ← as_object p.2; Querying.NoSuchContract <$> required de_string fs "addr"
  | "unknown" => _ ← as_object p.2; Some Querying.Unknown
  | "unsupported_request" => fs ← as_object p.2; Querying.UnsupportedRequest <$> required de_string fs "kind"
  | "exceeded_recursion_limit" => _ ← as_object p.2; Some Querying.ExceededRecursionLimit
  | _ => None
  end.
Definition de_answer (v : Value) : option QuerierResult :=
  p ← as_variant v;
  match p.1 with
  | "Ok" =>
      q ← as_variant p.2;
      match q.1 with
      | "Ok" => b ← de_binary q.2; Some (Ok (Ok b))
      | "Err" => e ← de_std_error q.2; Some (Ok (Err e))
      | _ => None
      end
  | "Err" => e ← de_system_error p.2; Some (Err e)
  | _ => None
  end.

End StdWire.
End StdWire.

(** ** The enclave's side: wasmi-runtime/src/cosmwasm *)

Module EnclaveWire.
Section EnclaveWire.
Context `{C : Codecs}.

Definition ser_binary (b : Binary) : Value := VString (EnclaveEncoding.serialize b).
Definition de_binary : Value -> option Binary := de_visit EnclaveEncoding.visit_str.

(** types.rs: an amount is kept as its text. *)
Definition ser_coin (c : SecretMsg.Coin) : Value :=
  VObject [("denom", VString (SecretMsg.denom c)); ("amount", VString (SecretMsg.amount c))].
Definition de_coin (v : Value) : option SecretMsg.Coin :=
  fs ← as_struct ["denom"; "amount"] v;
  d ← required de_string fs "denom";
  a ← required de_string fs "amount";
  Some (SecretMsg.mkCoin d a).

Definition ser_block (b : SecretMsg.BlockInfo) : Value :=
  VObject [("height", ser_u64 (SecretMsg.height b)); ("time", ser_u64 (SecretMsg.time b));
           ("chain_id", VString (SecretMsg.chain_id b))].
Definition ser_message (m : SecretMsg.MessageInfo) : Value :=
  VObject [("sender", VString (SecretMsg.sender m)); ("sent_funds", ser_list ser_coin (SecretMsg.sent_funds m))].
Definition ser_env (e : SecretMsg.Env) : Value :=
  VObject [("block", ser_block (SecretMsg.block e)); ("message", ser_message (SecretMsg.message e));
           ("contract", VObject [("address", VString (SecretMsg.address (SecretMsg.contract e)))]);
           ("contract_key", ser_option VString (SecretMsg.contract_key e));
           ("contract_code_hash", VString (SecretMsg.contract_code_hash e))].

(** A unit variant is its name, or an object that maps it to null. *)
Definition de_vote (v : Value) : option SecretMsg.VoteOption :=
  name ← (match v with
          | VString s => Some s
          | VObject [(s, VNull)] => Some s
          | _ => None
          end);
  match name with
  | "Yes" => Some SecretMsg.Yes
  | "No" => Some SecretMsg.No
  | "Abstain" => Some SecretMsg.Abstain
  | "NoWithVeto" => Some SecretMsg.NoWithVeto
  | _ => None
  end.
Definition de_gov (v : Value) : option SecretMsg.GovMsg :=
  p ← as_variant v;
  match p.1 with
  | "vote" =>
      fs ← as_struct ["proposal"; "vote_option"] p.2;
      n ← required de_u64 fs "proposal";
      o ← required de_vote fs "vote_option";
      Some (SecretMsg.Vote n o)
  | _ => None
  end.
Definition de_bank (v : Value) : option SecretMsg.BankMsg :=
  p ← as_variant v;
  match p.1 with
  | "send" =>
      fs ← as_struct ["from_address"; "to_address"; "amount"] p.2;
      f ← required de_string fs "from_address";
      t ← required de_string fs "to_address";
      a ← required (de_list de_coin) fs "amount";
      Some (SecretMsg.Send f t a)
  | _ => None
  end.
Definition de_staking (v : Value) : option SecretMsg.StakingMsg :=
  p ← as_variant v;
  let bond (k : HumanAddr -> SecretMsg.Coin -> SecretMsg.StakingMsg) :=
    fs ← as_struct ["validator"; "amount"] p.2;
    x ← required de_string fs "validator";
    a ← required de_coin fs "amount";
    Some (k x a) in
  match p.1 with
  | "delegate" => bond SecretMsg.Delegate
  | "undelegate" => bond SecretMsg.Undelegate
  | "withdraw" =>
      fs ← as_struct ["validator"; "recipient"] p.2;
      x ← required de_string fs "validator";
      r ← optional de_string fs "recipient";
      Some (SecretMsg.Withdraw x r)
  | "redelegate" =>
      fs ← as_struct ["src_validator"; "dst_validator"; "amount"] p.2;
      x ← required de_string fs "src_validator";
      y ← required de_string fs "dst_validator";
      a ← required de_coin fs "amount";
      Some (SecretMsg.Redelegate x y a)
  | _ => None
  end.
Definition de_byte (v : Value) : option byte := byte_of_Z <$> de_unsigned U8_MAX v.
Definition de_wasm (v : Value) : option SecretMsg.WasmMsg :=
  p ← as_variant v;
  match p.1 with
  | "execute" =>
      fs ← as_struct ["contract_addr"; "callback_code_hash"; "msg"; "send"; "callback_sig"] p.2;
      a ← required de_string fs "contract_addr";
      h ← required de_string fs "callback_code_hash";
      m ← required de_binary fs "msg";
      s ← required (de_list de_coin) fs "send";
      g ← optional (de_list de_byte) fs "callback_sig";
      Some (SecretMsg.Execute a h m s g)
  | "instantiate" =>
      fs ← as_struct ["code_id"; "callback_code_hash"; "msg"; "send"; "label"; "callback_sig"] p.2;
      i ← required de_u64 fs "code_id";
      h ← required de_string fs "callback_code_hash";
      m ← required de_binary fs "msg";
      s ← required (de_list de_coin) fs "send";
      l ← defaulted "" de_string fs "label";
      g ← optional (de_list de_byte) fs "callback_sig";
      Some (SecretMsg.Instantiate i h m s l g)
  | _ => None
  end.
Definition de_custom (v : Value) : option SecretMsg.CustomMsg :=
  p ← as_variant v;
  match p.1 with
  | "debug" => SecretMsg.CDebug <$> de_string p.2
  | "raw" => SecretMsg.CRaw <$> de_binary p.2
  | _ => None
  end.
Definition de_cosmos (v : Value) : option SecretMsg.CosmosMsg :=
  p ← as_variant v;
  match p.1 with
  | "bank" => SecretMsg.MsgBank <$> de_bank p.2
  | "custom" => SecretMsg.MsgCustom <$> de_custom p.2
  | "staking" => SecretMsg.MsgStaking <$> de_staking p.2
  | "wasm" => SecretMsg.MsgWasm <$> de_wasm p.2
  | "gov" => SecretMsg.MsgGov <$> de_gov p.2
  | _ => None
  end.
Definition de_log (v : Value) : option SecretMsg.LogAttribute :=
  fs ← as_struct ["key"; "value"] v;
  k ← required de_string fs "key";
  x ← required de_string fs "value";
  Some (SecretMsg.mkLog k x).
Definition de_contract_result (v : Value) : option ContractResult :=
  fs ← as_struct ["messages"; "log"; "data"] v;
  m ← required (de_list de_cosmos) fs "messages";
  l ← required (de_list de_log) fs "log";
  d ← optional de_binary fs "data";
  Some (mkContractResult m l d).

(** [untagged]: the variants in order, each an object with its field; the first that reads wins. *)
Definition de_output (v : Value) : option WasmOutput :=
  fs ← as_object v;
  match required (fun v => Some (de_value v)) fs "Err" with
  | Some err => Some (ErrObject err)
  | None =>
      match required de_string fs "Ok" with
      | Some ok => Some (OkString ok)
      | None => OkObject <$> required de_contract_result fs "Ok"
      end
  end.

(** What the enclave writes in place of the contract's output. *)
Definition ser_vote (o : SecretMsg.VoteOption) : Value :=
  VString match o with
          | SecretMsg.Yes => "Yes" | SecretMsg.No => "No"
          | SecretMsg.Abstain => "Abstain" | SecretMsg.NoWithVeto => "NoWithVeto"
          end.
Definition ser_staking (m : SecretMsg.StakingMsg) : Value :=
  match m with
  | SecretMsg.Delegate v a => variant "delegate" (VObject [("validator", VString v); ("amount", ser_coin a)])
  | SecretMsg.Undelegate v a => variant "undelegate" (VObject [("validator", VString v); ("amount", ser_coin a)])
  | SecretMsg.Withdraw v r =>
      variant "withdraw" (VObject [("validator", VString v); ("recipient", ser_option VString r)])
  | SecretMsg.Redelegate v w a =>
      variant "redelegate" (VObject [("src_validator", VString v); ("dst_validator", VString w); ("amount", ser_coin a)])
  end.
Definition ser_byte (b : byte) : Value := ser_u64 (Z_of_byte b).
Definition ser_wasm (m : SecretMsg.WasmMsg) : Value :=
  match m with
  | SecretMsg.Execute a h m s g =>
      variant "execute" (VObject [("contract_addr", VString a); ("callback_code_hash", VString h);
        ("msg", ser_binary m); ("send", ser_list ser_coin s); ("callback_sig", ser_option (ser_list ser_byte) g)])
  | SecretMsg.Instantiate i h m s l g =>
      variant "instantiate" (VObject [("code_id", ser_u64 i); ("callback_code_hash", VString h);
        ("msg", ser_binary m); ("send", ser_list ser_coin s); ("label", VString l);
        ("callback_sig", ser_option (ser_list ser_byte) g)])
  end.
Definition ser_cosmos (m : SecretMsg.CosmosMsg) : Value :=
  match m with
  | SecretMsg.MsgBank (SecretMsg.Send f t a) =>
      variant "bank" (variant "send" (VObject [("from_address", VString f); ("to_address", VString t);
                                               ("amount", ser_list ser_coin a)]))
  | SecretMsg.MsgCustom (SecretMsg.CDebug s) => variant "custom" (variant "debug" (VString s))
  | SecretMsg.MsgCustom (SecretMsg.CRaw b) => variant "custom" (variant "raw" (ser_binary b))
  | SecretMsg.MsgStaking m => variant "staking" (ser_staking m)
  | SecretMsg.MsgWasm m => variant "wasm" (ser_wasm m)
  | SecretMsg.MsgGov (SecretMsg.Vote n o) =>
      variant "gov" (variant "vote" (VObject [("proposal", ser_u64 n); ("vote_option", ser_vote o)]))
  end.
Definition ser_log (l : SecretMsg.LogAttribute) : Value :=
  VObject [("key", VString (SecretMsg.log_key l)); ("value", VString (SecretMsg.log_value l))].
Definition ser_output (o : WasmOutput) : Value :=
  match o with
  | ErrObject err => variant "Err" err
  | OkString ok => variant "Ok" (VString ok)
  | OkObject ok =>
      variant "Ok" (VObject [("messages", ser_list ser_cosmos (messages ok)); ("log", ser_list ser_log (logs ok));
                             ("data", ser_option ser_binary (data ok))])
  end.

(** query.rs *)
Definition de_bank_query (v : Value) : option QueryChain.BankQuery :=
  p ← as_variant v;
  match p.1 with
  | "balance" =>
      fs ← as_struct ["address"; "denom"] p.2;
      a ← required de_string fs "address"; d ← required de_string fs "denom"; Some (QueryChain.Balance a d)
  | "all_balances" => fs ← as_struct ["address"] p.2; QueryChain.AllBalances <$> required de_string fs "address"
  | _ => None
  end.
Definition de_staking_query (v : Value) : option QueryChain.StakingQuery :=
  p ← as_variant v;
  match p.1 with
  | "bonded_denom" => _ ← as_struct [] p.2; Some QueryChain.BondedDenom
  | "all_delegations" =>
      fs ← as_struct ["delegator"] p.2; QueryChain.AllDelegations <$> required de_string fs "delegator"
  | "delegation" =>
      fs ← as_struct ["delegator"; "validator"] p.2;
      d ← required de_string fs "delegator"; x ← required de_string fs "validator"; Some (QDelegation d x)
  | "validators" => _ ← as_struct [] p.2; Some QueryChain.Validators
  | "unbonding_delegations" =>
      fs ← as_struct ["delegator"] p.2; QueryChain.UnbondingDelegations <$> required de_string fs "delegator"
  | _ => None
  end.
Definition de_wasm_query (v : Value) : option QueryChain.WasmQuery :=
  p ← as_variant v;
  match p.1 with
  | "smart" =>
      fs ← as_struct ["contract_addr"; "callback_code_hash"; "msg"] p.2;
      a ← required de_string fs "contract_addr"; h ← required de_string fs "callback_code_hash";
      m ← required de_binary fs "msg"; Some (QueryChain.Smart a h m)
  | "raw" =>
      fs ← as_struct ["contract_addr"; "callback_code_hash"; "key"] p.2;
      a ← required de_string fs "contract_addr"; h ← required de_string fs "callback_code_hash";
      k ← required de_binary fs "key"; Some (QueryChain.Raw a h k)
  | _ => None
  end.
Definition de_query (v : Value) : option QueryChain.QueryRequest :=
  p ← as_variant v;
  match p.1 with
  | "bank" => QBank <$> de_bank_query p.2
  | "custom" => Some (QCustom (de_value p.2))
  | "staking" => QStaking <$> de_staking_query p.2
  | "wasm" => QWasm <$> de_wasm_query p.2
  | "dist" =>
      q ← as_variant p.2;
      match q.1 with
      | "rewards" => fs ← as_struct ["delegator"] q.2; (QDist ∘ QueryChain.Rewards) <$> required de_string fs "delegator"
      | _ => None
      end
  | "mint" =>
      q ← as_variant p.2;
      match q.1 with
      | "inflation" => _ ← as_struct [] q.2; Some (QMint QueryChain.Inflation)
      | "bonded_ratio" => _ ← as_struct [] q.2; Some (QMint QueryChain.BondedRatio)
      | _ => None
      end
  | "gov" =>
      q ← as_variant p.2;
      match q.1 with
      | "proposals" => _ ← as_struct [] q.2; Some (QGov QueryChain.Proposals)
      | _ => None
      end
  | _ => None
  end.

(** std_error.rs and system_error.rs *)
Definition ser_std_error (e : QueryChain.StdError) : Value :=
  match e with
  | GenericErr msg => variant "generic_err" (VObject [("msg", VString msg)])
  | InvalidBase64 msg => variant "invalid_base64" (VObject [("msg", VString msg)])
  | InvalidUtf8 msg => variant "invalid_utf8" (VObject [("msg", VString msg)])
  | NotFound kind => variant "not_found" (VObject [("kind", VString kind)])
  | NullPointer => variant "null_pointer" (VObject [])
  | ParseErr target msg => variant "parse_err" (VObject [("target", VString target); ("msg", VString msg)])
  | SerializeErr source msg => variant "serialize_err" (VObject [("source", VString source); ("msg", VString msg)])
  | Unauthorized => variant "unauthorized" (VObject [])
  | Underflow minuend subtrahend =>
      variant "underflow" (VObject [("minuend", VString minuend); ("subtrahend", VString subtrahend)])
  end.
Definition de_std_error (v : Value) : option QueryChain.StdError :=
  p ← as_variant v;
  let msg_of (k : string -> QueryChain.StdError) :=
    fs ← as_struct ["msg"] p.2; k <$> required de_string fs "msg" in
  match p.1 with
  | "generic_err" => msg_of GenericErr
  | "invalid_base64" => msg_of InvalidBase64
  | "invalid_utf8" => msg_of InvalidUtf8
  | "not_found" => fs ← as_struct ["kind"] p.2; NotFound <$> required de_string fs "kind"
  | "null_pointer" => _ ← as_struct [] p.2; Some NullPointer
  | "parse_err" =>
      fs ← as_struct ["target"; "msg"] p.2;
      t ← required de_string fs "target"; m ← required de_string fs "msg"; Some (ParseErr t m)
  | "serialize_err" =>
      fs ← as_struct ["source"; "msg"] p.2;
      t ← required de_string fs "source"; m ← required de_string fs "msg"; Some (SerializeErr t m)
  | "unauthorized" => _ ← as_struct [] p.2; Some Unauthorized
  | "underflow" =>
      fs ← as_struct ["minuend"; "subtrahend"] p.2;
      m ← required de_string fs "minuend"; s ← required de_string fs "subtrahend"; Some (Underflow m s)
  | _ => None
  end.
Definition ser_system_error (e : QueryChain.SystemError) : Value :=
  match e with
  | InvalidRequest error request =>
      variant "invalid_request" (VObject [("error", VString error); ("request", ser_binary request)])
  | InvalidResponse error response =>
      variant "invalid_response" (VObject [("error", VString error); ("response", ser_binary response)])
  | NoSuchContract addr => variant "no_such_contract" (VObject [("addr", VString addr)])
  | SystemUnknown => variant "unknown" (VObject [])
  | UnsupportedRequest kind => variant "unsupported_request" (VObject [("kind", VString kind)])
  | SystemExceededRecursionLimit => variant "exceeded_recursion_limit" (VObject [])
  end.
Definition ser_answer (a : QueryAnswer) : Value :=
  match a with
  | SystemErr e => variant "Err" (ser_system_error e)
  | ContractErr e => variant "Ok" (variant "Err" (ser_std_error e))
  | ContractOk b => variant "Ok" (variant "Ok" (ser_binary b))
  end.

End EnclaveWire.
End EnclaveWire.

(** ** The enclave reads what contracts write *)

(** The enclave's copy of each message. *)
Module Copy.
Section Copy.
Context `{C : Codecs}.

Definition coin (c : Std.Coin) : SecretMsg.Coin := SecretMsg.mkCoin (Std.denom c) (Uint.to_string (Std.amount c)).
Definition vote (o : Std.VoteOption) : SecretMsg.VoteOption :=
  match o with
  | Std.Yes => SecretMsg.Yes | Std.No => SecretMsg.No
  | Std.Abstain => SecretMsg.Abstain | Std.NoWithVeto => SecretMsg.NoWithVeto
  end.
Definition gov (m : Std.GovMsg) : SecretMsg.GovMsg :=
  match m with Std.Vote n o => SecretMsg.Vote n (vote o) end.
Definition bank (m : Std.BankMsg) : SecretMsg.BankMsg :=
  match m with Std.Send f t a => SecretMsg.Send f t (map coin a) end.
Definition staking (m : Std.StakingMsg) : SecretMsg.StakingMsg :=
  match m with
  | Std.Delegate v a => SecretMsg.Delegate v (coin a)
  | Std.Undelegate v a => SecretMsg.Undelegate v (coin a)
  | Std.Withdraw v r => SecretMsg.Withdraw v r
  | Std.Redelegate v w a => SecretMsg.Redelegate v w (coin a)
  end.
(** A contract's message carries no callback signature. *)
Definition wasm (m : Std.WasmMsg) : SecretMsg.WasmMsg :=
  match m with
  | Std.Execute a h m s => SecretMsg.Execute a h m (map coin s) None
  | Std.Instantiate i h m s l => SecretMsg.Instantiate i h m (map coin s) l None
  end.
Definition log (l : Std.LogAttribute) : SecretMsg.LogAttribute := SecretMsg.mkLog (Std.log_key l) (Std.log_value l).

(** A custom message is in the contract's own type: the enclave may not have a copy of it. *)
Definition cosmos {T} (ser_custom : T -> Value) (m : Std.CosmosMsg T) : option SecretMsg.CosmosMsg :=
  match m with
  | CosmosBank m => Some (SecretMsg.MsgBank (bank m))
  | CosmosCustom m => SecretMsg.MsgCustom <$> EnclaveWire.de_custom (ser_custom m)
  | CosmosStaking m => Some (SecretMsg.MsgStaking (staking m))
  | CosmosWasm m => Some (SecretMsg.MsgWasm (wasm m))
  | CosmosGov m => Some (SecretMsg.MsgGov (gov m))
  end.
Definition init {T} (ser_custom : T -> Value) (r : InitResponse T) : option ContractResult :=
  ms ← mapM (cosmos ser_custom) (init_messages r);
  Some (mkContractResult ms (map log (init_log r)) None).
Definition handle {T} (ser_custom : T -> Value) (r : HandleResponse T) : option ContractResult :=
  ms ← mapM (cosmos ser_custom) (Std.messages r);
  Some (mkContractResult ms (map log (Std.logs r)) (response_data r)).

Definition query {T} (ser_custom : T -> Value) (q : Querying.QueryRequest T) : QueryChain.QueryRequest :=
  match q with
  | BankReq (Querying.Balance a d) => QBank (QueryChain.Balance a d)
  | BankReq (Querying.AllBalances a) => QBank (QueryChain.AllBalances a)
  | CustomReq q => QCustom (de_value (ser_custom q))
  | StakingReq Querying.BondedDenom => QStaking QueryChain.BondedDenom
  | StakingReq (Querying.AllDelegations d) => QStaking (QueryChain.AllDelegations d)
  | StakingReq (Querying.DelegationOf d v) => QStaking (QDelegation d v)
  | StakingReq Querying.Validators => QStaking QueryChain.Validators
  | StakingReq (Querying.UnbondingDelegations d) => QStaking (QueryChain.UnbondingDelegations d)
  | WasmReq (Querying.Smart a h m) => QWasm (QueryChain.Smart a h m)
  | WasmReq (Querying.Raw a k h) => QWasm (QueryChain.Raw a h k)
  | DistReq (Querying.Rewards d) => QDist (QueryChain.Rewards d)
  | MintReq Querying.Inflation => QMint QueryChain.Inflation
  | MintReq Querying.BondedRatio => QMint QueryChain.BondedRatio
  | GovReq Querying.Proposals => QGov QueryChain.Proposals
  end.

(** The contract's copy of an answer; [null_pointer] exists in the enclave only. *)
Definition std_error (e : QueryChain.StdError) : option Math.StdError :=
  match e with
  | GenericErr m => Some (Math.GenericErr m)
  | InvalidBase64 m => Some (Math.InvalidBase64 m)
  | InvalidUtf8 m => Some (Math.InvalidUtf8 m)
  | NotFound k => Some (Math.NotFound k)
  | NullPointer => None
  | ParseErr t m => Some (Math.ParseErr t m)
  | SerializeErr s m => Some (Math.SerializeErr s m)
  | Unauthorized => Some Math.Unauthorized
  | Underflow m s => Some (Math.Underflow m s)
  end.
Definition system_error (e : QueryChain.SystemError) : Querying.SystemError :=
  match e with
  | InvalidRequest e r => Querying.InvalidRequest e r
  | InvalidResponse e r => Querying.InvalidResponse e r
  | NoSuchContract a => Querying.NoSuchContract a
  | SystemUnknown => Querying.Unknown
  | UnsupportedRequest k => Querying.UnsupportedRequest k
  | SystemExceededRecursionLimit => Querying.ExceededRecursionLimit
  end.
Definition answer (a : QueryAnswer) : option QuerierResult :=
  match a with
  | SystemErr e => Some (Err (system_error e))
  | ContractErr e => (fun e => Ok (Err e)) <$> std_error e
  | ContractOk b => Some (Ok (Ok b))
  end.

(** The environment, once each amount of the funds is read as a number. *)
Definition funds (c : SecretMsg.Coin) : option Std.Coin :=
  match MathSerde.uint_visit_str (SecretMsg.amount c) with
  | Ok a => Some (Std.mkCoin (SecretMsg.denom c) a)
  | _ => None
  end.
Definition env (e : SecretMsg.Env) : option Std.Env :=
  f ← mapM funds (SecretMsg.sent_funds (SecretMsg.message e));
  Some (Std.mkEnv
    (Std.mkBlock (SecretMsg.height (SecretMsg.block e)) (SecretMsg.time (SecretMsg.block e)) (SecretMsg.chain_id (SecretMsg.block e)))
    (Std.mkMessage (SecretMsg.sender (SecretMsg.message e)) f)
    (Std.mkContract (SecretMsg.address (SecretMsg.contract e)))
    (SecretMsg.contract_key e) (SecretMsg.contract_code_hash e)).

End Copy.
End Copy.

(** Numbers of a message fit their width. *)
Definition msg_fits {T} (m : Std.CosmosMsg T) : Prop :=
  match m with
  | CosmosGov (Std.Vote n _) => (0 <= n <= U64_MAX)%Z
  | CosmosWasm (Std.Instantiate i _ _ _ _) => (0 <= i <= U64_MAX)%Z
  | _ => True
  end.

Section Trees.
Context `{C : Codecs} {HC : CodecLaws}.
Variable err : string -> string.

Lemma de_ser_u64 z : (0 <= z <= U64_MAX)%Z -> de_u64 (ser_u64 z) = Some z.
Proof.
  intros Hz. unfold de_u64, de_unsigned, ser_u64, u128_to_string.
  rw list_ascii_of_string_of_list_ascii parse_u128_chars; [by rw (proj2 (Z.leb_le _ _)); [|lia]|].
  unfold is_u128, U128_MAX. unfold U64_MAX in Hz. lia.
Qed.

Lemma de_ser_list {A B} (ser : A -> Value) (de : Value -> option B) (f : A -> option B) l :
  Forall (fun x => de (ser x) = f x) l -> de_list de (ser_list ser l) = mapM f l.
Proof. cbn. induction 1 as [|x l Hx _ IH]; [done|]. cbn. by rw Hx IH. Qed.

Lemma mapM_pure {A B} (f : A -> B) l : mapM (fun x => Some (f x)) l = Some (map f l).
Proof. induction l as [|x l IH]; [done|]. cbn. by rw IH. Qed.

Lemma enclave_de_binary b : EnclaveWire.de_binary (StdWire.ser_binary b) = Some b.
Proof.
  unfold EnclaveWire.de_binary, StdWire.ser_binary, de_visit.
  destruct (binary_in_sync err "" b) as (_ & E & _). by rw E.
Qed.

Lemma std_de_binary b : StdWire.de_binary err (EnclaveWire.ser_binary b) = Some b.
Proof.
  unfold StdWire.de_binary, EnclaveWire.ser_binary, de_visit.
  destruct (binary_in_sync err "" b) as (_ & _ & E). by rw E.
Qed.

Lemma de_coins l :
  de_list EnclaveWire.de_coin (ser_list StdWire.ser_coin l) = Some (map Copy.coin l).
Proof. rw -mapM_pure. apply de_ser_list. by apply Forall_true. Qed.

Lemma de_logs l : de_list EnclaveWire.de_log (ser_list StdWire.ser_log l) = Some (map Copy.log l).
Proof. rw -mapM_pure. apply de_ser_list. by apply Forall_true. Qed.

(** Read the fields of a literal document; what a field holds is left to the lemmas. *)
Ltac wire :=
  cbn -[de_list ser_list de_option ser_option de_u64 ser_u64 de_unsigned StdWire.ser_binary EnclaveWire.ser_binary
        StdWire.de_binary EnclaveWire.de_binary de_value EnclaveWire.de_vote StdWire.ser_vote].

Lemma de_wasm_ser (m : Std.WasmMsg) :
  msg_fits (T := Empty) (CosmosWasm m) -> EnclaveWire.de_wasm (StdWire.ser_wasm m) = Some (Copy.wasm m).
Proof.
  destruct m as [a h m s|i h m s l]; intros Hf; wire; rw ?(de_ser_u64 i) //; wire;
    rw enclave_de_binary; wire; by rw de_coins.
Qed.

Lemma de_gov_ser (m : Std.GovMsg) :
  msg_fits (T := Empty) (CosmosGov m) -> EnclaveWire.de_gov (StdWire.ser_gov m) = Some (Copy.gov m).
Proof. destruct m as [n o]. intros Hf. wire. rw (de_ser_u64 n) //. by destruct o. Qed.

Lemma de_bank_ser (m : Std.BankMsg) : EnclaveWire.de_bank (StdWire.ser_bank m) = Some (Copy.bank m).
Proof. destruct m as [f t a]. wire. by rw de_coins. Qed.

Lemma de_staking_ser (m : Std.StakingMsg) : EnclaveWire.de_staking (StdWire.ser_staking m) = Some (Copy.staking m).
Proof. by destruct m as [| |v [r|]|]. Qed.

(** A message is read as its copy; a custom message only when its type is the enclave's. *)
Lemma de_cosmos_ser {T} (ser_custom : T -> Value) (m : Std.CosmosMsg T) :
  msg_fits m -> EnclaveWire.de_cosmos (StdWire.ser_cosmos ser_custom m) = Copy.cosmos ser_custom m.
Proof.
  destruct m as [m|m|m|m|m]; intros Hf;
    cbn -[EnclaveWire.de_bank EnclaveWire.de_wasm EnclaveWire.de_gov EnclaveWire.de_staking EnclaveWire.de_custom].
  - by rw de_bank_ser.
  - done.
  - by rw de_staking_ser.
  - by rw de_wasm_ser.
  - by rw de_gov_ser.
Qed.

Lemma de_messages {T} (ser_custom : T -> Value) (l : list (Std.CosmosMsg T)) :
  Forall msg_fits l ->
  de_list EnclaveWire.de_cosmos (ser_list (StdWire.ser_cosmos ser_custom) l) = mapM (Copy.cosmos ser_custom) l.
Proof. intros Hl. apply de_ser_list. eapply Forall_impl; [done|]. intros m. apply de_cosmos_ser. Qed.

Lemma de_option_binary o :
  de_option EnclaveWire.de_binary (ser_option StdWire.ser_binary o) = Some o.
Proof. destruct o as [b|]; [|done]. change (Some <$> EnclaveWire.de_binary (StdWire.ser_binary b) = Some (Some b)). by rw enclave_de_binary. Qed.

(** What the enclave makes of a contract's result: an error is kept as it is, the answer of a
    query is its base64 text, a response is the copy of the response. *)
Theorem enclave_reads_handle_result {T} (ser_custom : T -> Value) (r : HandleResponse T) :
  Forall msg_fits (Std.messages r) ->
  EnclaveWire.de_output (variant "Ok" (StdWire.ser_handle ser_custom r)) = OkObject <$> Copy.handle ser_custom r.
Proof.
  intros Hm. destruct r as [ms ls d]. cbn in Hm. unfold EnclaveWire.de_output, EnclaveWire.de_contract_result, Copy.handle. wire.
  rw de_messages //. wire. destruct (mapM _ ms) as [ms'|]; [|done]. wire. rw de_logs.
  wire. by rw de_option_binary.
Qed.

Theorem enclave_reads_init_result {T} (ser_custom : T -> Value) (r : InitResponse T) :
  Forall msg_fits (init_messages r) ->
  EnclaveWire.de_output (variant "Ok" (StdWire.ser_init ser_custom r)) = OkObject <$> Copy.init ser_custom r.
Proof.
  intros Hm. destruct r as [ms ls]. cbn in Hm. unfold EnclaveWire.de_output, EnclaveWire.de_contract_result, Copy.init. wire.
  rw de_messages //. wire. destruct (mapM _ ms) as [ms'|]; [|done]. wire. by rw de_logs.
Qed.

(** A query is read as its copy, custom queries included; the answer is read back as its copy,
    except an error that only the enclave's type has. *)
Lemma enclave_reads_query {T} (ser_custom : T -> Value) (q : Querying.QueryRequest T) :
  EnclaveWire.de_query (StdWire.ser_query ser_custom q) = Some (Copy.query ser_custom q).
Proof.
  destruct q as [[]|q|[]|[]|[]|[]|[]]; try done; wire; by rw enclave_de_binary.
Qed.

Lemma contract_reads_answer (a : QueryAnswer) :
  StdWire.de_answer err (EnclaveWire.ser_answer a) = Copy.answer a.
Proof.
  destruct a as [[]|[]|b]; try done; wire; by rw std_de_binary.
Qed.

(** The environment is read exactly when every amount of the sent funds is a 128-bit number. *)
Lemma contract_reads_env (e : SecretMsg.Env) :
  (0 <= SecretMsg.height (SecretMsg.block e) <= U64_MAX)%Z -> (0 <= SecretMsg.time (SecretMsg.block e) <= U64_MAX)%Z ->
  StdWire.de_env (EnclaveWire.ser_env e) = Copy.env e.
Proof.
  intros Hh Ht. unfold StdWire.de_env, StdWire.de_block, StdWire.de_message. wire. rw !de_ser_u64 //. wire.
  rw (de_ser_list _ _ Copy.funds).
  - unfold Copy.env. destruct (mapM Copy.funds _) as [f|]; [|done]. wire. by destruct (SecretMsg.contract_key e).
  - apply Forall_true. intros c. unfold StdWire.de_coin. cbn. unfold Copy.funds. by destruct (MathSerde.uint_visit_str _).
Qed.
End Trees.

(** ** Texts *)

(** serde_json reads documents of depth 127; what a Rust string holds is UTF-8, and the numbers
    of the messages are unsigned. *)
Definition MAX_DEPTH : nat := 127.
Definition number_ok (t : string) : bool :=
  match parse_u128 (list_ascii_of_string t) with Ok z => String.eqb t (u128_to_string z) | _ => false end.
Definition text_ok (s : string) : bool := bool_decide (Text.from_utf8 (lit s) = true).
Fixpoint json_ok (depth : nat) (v : Value) : bool :=
  match v with
  | VNull | VBool _ => true
  | VNumber t => number_ok t
  | VString s => text_ok s
  | VArray items => match depth with O => false | S d => forallb (json_ok d) items end
  | VObject fs => match depth with O => false | S d => forallb (fun p => text_ok p.1 && json_ok d p.2) fs end
  end.

(** serde-json-wasm in the contract, serde_json in the enclave; a text that does not parse gives
    a message. *)
Class JsonText : Type := {
  wasm_print : Value -> bytes;
  wasm_parse : bytes -> option Value;
  wasm_error : bytes -> string;
  enclave_print : Value -> bytes;
  enclave_parse : bytes -> option Value
}.

Class JsonTextLaws `{JsonText} : Prop := {
  enclave_parses v : json_ok MAX_DEPTH v = true -> enclave_parse (wasm_print v) = Some v;
  contract_parses v : json_ok MAX_DEPTH v = true -> wasm_parse (enclave_print v) = Some v
}.

(** std/src/serde.rs: [to_vec] and [from_slice] of a contract.  serde-json-wasm refuses to write
    floats and maps, which these types have none of. *)
Definition std_to_vec `{JsonText} {A} (ser : A -> option Value) (x : A) : StdResult bytes :=
  match ser x with Some v => Ok (wasm_print v) | None => Panic end.
Definition std_from_slice `{JsonText} {A} (name : string) (de : Value -> option A) (b : bytes) : StdResult A :=
  match v ← wasm_parse b; de v with
  | Some x => Ok x
  | None => Err (StdErr.parse_err name (wasm_error b))
  end.
Definition std_serde `{JsonText} {A} (name : string) (ser : A -> option Value) (de : Value -> option A) : Serde A := {|
  to_vec := std_to_vec ser;
  Typed.from_slice := std_from_slice name de;
  type_name := name
|}.

(** [serde_json::to_vec] and [serde_json::from_slice] of the enclave. *)
Definition enclave_json `{JsonText} {A} (ser : A -> Value) (de : Value -> option A) : Json A := {|
  json_to_vec x := Some (enclave_print (ser x));
  json_from_slice b := v ← enclave_parse b; de v
|}.

Section Boundary.
Context `{P : Primitives} `{C : Codecs} {HC : CodecLaws} `{JT : JsonText} {HJ : JsonTextLaws}.
Context `{JC : Json (list SecretMsg.Coin)} `{JV : Json Value} `{JS : Json string}.
Variable base64_error : string -> string.
(** [type_name] of the two types a contract parses. *)
Variables env_name answer_name : string.
Context {T : Type} (ser_custom : T -> Value).

(** The codecs of the two sides for what they exchange. *)
#[local] Instance output_json : Json WasmOutput := enclave_json EnclaveWire.ser_output EnclaveWire.de_output.
Definition query_from_slice (b : bytes) : option QueryChain.QueryRequest := v ← enclave_parse b; EnclaveWire.de_query v.
Definition answer_to_vec (a : QueryAnswer) : bytes := enclave_print (EnclaveWire.ser_answer a).
Definition answer_from_slice (b : bytes) : StdResult QuerierResult :=
  std_from_slice answer_name (StdWire.de_answer base64_error) b.
Definition env_to_vec (e : SecretMsg.Env) : bytes := enclave_print (EnclaveWire.ser_env e).
Definition env_from_slice (b : bytes) : StdResult Std.Env := std_from_slice env_name StdWire.de_env b.

(** What the enclave makes of the result of handle. *)
Definition copy_output (r : StdResult (HandleResponse T)) : option WasmOutput :=
  match r with
  | Ok x => OkObject <$> Copy.handle ser_custom x
  | Err e => Some (ErrObject (de_value (StdWire.ser_std_error e)))
  | Panic => None
  end.

Lemma output_is_read (r : StdResult (HandleResponse T)) v :
  StdWire.ser_result (StdWire.ser_handle ser_custom) r = Some v ->
  (forall x, r = Ok x -> Forall msg_fits (Std.messages x)) ->
  json_ok MAX_DEPTH v = true ->
  json_from_slice (wasm_print v) = copy_output r.
Proof.
  intros Hv Hm Hok. cbn. rw enclave_parses //. cbn [mbind option_bind].
  destruct r as [x|e|]; [|by injection Hv as <-|done]. injection Hv as <-.
  apply (enclave_reads_handle_result base64_error). by apply Hm.
Qed.

(** A response is refused exactly when one of its messages is a custom message of another type
    than the enclave's. *)
Lemma copy_output_None (x : HandleResponse T) :
  copy_output (Ok x) = None <->
  exists m, CosmosCustom m ∈ Std.messages x /\ EnclaveWire.de_custom (ser_custom m) = None.
Proof.
  cbn. unfold Copy.handle. rw fmap_None. split.
  - destruct (mapM _ (Std.messages x)) as [ms|] eqn:Hms; [done|]. intros _.
    apply mapM_None_1, Exists_exists in Hms as (m & Hin & Hm). destruct m as [m|m|m|m|m]; try done.
    exists m. split; [done|]. by apply fmap_None in Hm.
  - intros (m & Hin & Hm). destruct (mapM _ (Std.messages x)) as [ms|] eqn:Hms; [|done].
    apply mapM_Some_1 in Hms. apply list_elem_of_lookup_1 in Hin as [i Hi].
    eapply Forall2_lookup_l in Hms as (y & _ & Hy); [|done]. cbn in Hy. by rw Hm in Hy.
Qed.

(** C15: The bytes in which a contract returns its response or error are read by the enclave as
    the same response or error (messages, funds, logs and data field by field), which it
    then encrypts; the output is refused exactly when the response has a custom message of a
    type the enclave does not declare. *)
Theorem contract_output_is_understood km (r : StdResult (HandleResponse T)) v n pk addr key :
  StdWire.ser_result (StdWire.ser_handle ser_custom) r = Some v ->
  (forall x, r = Ok x -> Forall msg_fits (Std.messages x)) ->
  json_ok MAX_DEPTH v = true ->
  calc_encryption_key km n pk = Ok key ->
  encrypt_output km (wasm_print v) n pk addr =
    match copy_output r with
    | Some o => encrypted ← encrypt_wasm_output km key n pk addr o;
                Ok (enclave_print (EnclaveWire.ser_output encrypted))
    | None => Err FailedToDeserialize
    end /\
  (copy_output r = None <->
   exists x m, r = Ok x /\ CosmosCustom m ∈ Std.messages x /\ EnclaveWire.de_custom (ser_custom m) = None).
Proof.
  intros Hv Hm Hok Hk. split; cycle 1.
  { destruct r as [x|e|]; [|by split; [|intros (? & ? & [=] & _)]|done]. rw copy_output_None. split.
    - intros (m & Hin & Hc). by exists x, m.
    - intros (y & m & [= <-] & Hin & Hc). by exists m. }
  unfold encrypt_output. rw Hk. cbn [mbind result_bind].
  rw (output_is_read r v Hv Hm Hok). by destruct (copy_output r).
Qed.

(** C19: A query a contract sends is read by the enclave as the same query, and the answer the
    enclave gives, a value, an error of the queried contract or a system error, is read by
    the contract as the same answer. *)
Theorem queries_and_answers_cross (q : Querying.QueryRequest T) (a : QueryAnswer) x :
  json_ok MAX_DEPTH (StdWire.ser_query ser_custom q) = true ->
  json_ok MAX_DEPTH (EnclaveWire.ser_answer a) = true ->
  Copy.answer a = Some x ->
  query_from_slice (wasm_print (StdWire.ser_query ser_custom q)) = Some (Copy.query ser_custom q) /\
  answer_from_slice (answer_to_vec a) = Ok x.
Proof.
  intros Hq Ha Hx. unfold query_from_slice, answer_from_slice, answer_to_vec, std_from_slice.
  rw enclave_parses // contract_parses //. cbn [mbind option_bind].
  rw (enclave_reads_query base64_error) (contract_reads_answer base64_error) Hx //.
Qed.

(** The environment the enclave hands over is read by the contract as its copy, or refused with a
    parse error exactly when an amount of the sent funds is not a 128-bit number. *)
Theorem environment_crosses (e : SecretMsg.Env) :
  (0 <= SecretMsg.height (SecretMsg.block e) <= U64_MAX)%Z -> (0 <= SecretMsg.time (SecretMsg.block e) <= U64_MAX)%Z ->
  json_ok MAX_DEPTH (EnclaveWire.ser_env e) = true ->
  env_from_slice (env_to_vec e) =
  match Copy.env e with
  | Some env => Ok env
  | None => Err (Math.ParseErr env_name (wasm_error (env_to_vec e)))
  end.
Proof.
  intros Hh Ht Hok. unfold env_from_slice, env_to_vec, std_from_slice. rw contract_parses //. cbn [mbind option_bind].
  rw contract_reads_env; [by destruct (Copy.env e)|done..].
Qed.
End Boundary.

(** ** Custom messages *)

(** A contract whose custom type is [Empty], the library's default, cannot return a custom message:
    the enclave refuses the whole response. *)
Theorem default_custom_message_is_refused `{Codecs} (x : HandleResponse Empty) m :
  CosmosCustom m ∈ Std.messages x -> copy_output StdWire.ser_empty (Ok x) = None.
Proof. intros Hin. apply copy_output_None. exists m. by destruct m. Qed.

(** The custom messages of the reflect contract are the ones the enclave has a type for. *)
Definition ser_reflect `{Codecs} (m : SecretMsg.CustomMsg) : Value :=
  match m with
  | SecretMsg.CDebug s => variant "debug" (VString s)
  | SecretMsg.CRaw b => variant "raw" (StdWire.ser_binary b)
  end.
Lemma reflect_custom_is_read `{CodecLaws} (x : HandleResponse SecretMsg.CustomMsg) :
  is_Some (copy_output ser_reflect (Ok x)).
Proof.
  destruct (copy_output ser_reflect (Ok x)) eqn:E; [done|].
  apply copy_output_None in E as (m & _ & Hm). destruct m as [s|b]; [done|].
  cbn -[EnclaveWire.de_binary StdWire.ser_binary] in Hm. by rw (enclave_de_binary (fun s => s)) in Hm.
Qed.

(** ** At a text that holds the code of the document's tree *)

Fixpoint value_tree (v : Value) : gen_tree string :=
  match v with
  | VNull => GenNode 0 []
  | VBool b => GenNode (if b then 1 else 2) []
  | VNumber t => GenNode 3 [GenLeaf t]
  | VString s => GenNode 4 [GenLeaf s]
  | VArray items => GenNode 5 (map value_tree items)
  | VObject fs => GenNode 6 (map (fun p => GenNode 7 [GenLeaf p.1; value_tree p.2]) fs)
  end.
Fixpoint tree_value (t : gen_tree string) : Value :=
  match t with
  | GenNode 1 _ => VBool true
  | GenNode 2 _ => VBool false
  | GenNode 3 [GenLeaf t] => VNumber t
  | GenNode 4 [GenLeaf s] => VString s
  | GenNode 5 l => VArray (map tree_value l)
  | GenNode 6 l => VObject (map (fun t => match t with
                                          | GenNode _ [GenLeaf k; v] => (k, tree_value v)
                                          | _ => ("", VNull)
                                          end) l)
  | _ => VNull
  end.

Fixpoint tree_value_tree (v : Value) : tree_value (value_tree v) = v :=
  match v with
  | VNull => eq_refl
  | VBool b => match b with true => eq_refl | false => eq_refl end
  | VNumber t => eq_refl
  | VString s => eq_refl
  | VArray items =>
      f_equal VArray
        ((fix go (l : list Value) : map tree_value (map value_tree l) = l :=
            match l with
            | [] => eq_refl
            | v :: l' => f_equal2 cons (tree_value_tree v) (go l')
            end) items)
  | VObject fs =>
      f_equal VObject
        ((fix go (l : Fields) : map (fun t => match t with
                                              | GenNode _ [GenLeaf k; v] => (k, tree_value v)
                                              | _ => ("", VNull)
                                              end) (map (fun p => GenNode 7 [GenLeaf p.1; value_tree p.2]) l) = l :=
            match l with
            | [] => eq_refl
            | (k, v) :: l' => f_equal2 cons (f_equal (pair k) (tree_value_tree v)) (go l')
            end) fs)
  end.

Definition demo_print (v : Value) : bytes := bits_of (countable.encode (value_tree v)).
Definition demo_parse (b : bytes) : option Value := tree_value <$> countable.decode (of_bits b).
Definition demo_json_text : JsonText := {|
  wasm_print := demo_print; wasm_parse := demo_parse; wasm_error _ := "not a document";
  enclave_print := demo_print; enclave_parse := demo_parse
|}.

Lemma demo_parse_print v : demo_parse (demo_print v) = Some v.
Proof. unfold demo_parse, demo_print. rw of_bits_of countable.decode_encode. cbn. by rw tree_value_tree. Qed.

Lemma demo_json_text_laws : JsonTextLaws (H := demo_json_text).
Proof. split; intros v _; apply demo_parse_print. Qed.

#[local] Existing Instance demo_primitives.
#[local] Existing Instance demo_codecs.
#[local] Existing Instance demo_codec_laws.
#[local] Existing Instance demo_json_coins.
#[local] Existing Instance demo_json_string.
#[local] Existing Instance demo_json_value.
#[local] Existing Instance demo_json_text.
#[local] Existing Instance demo_json_text_laws.

Definition demo_response : HandleResponse Empty :=
  mkHandleResponse [CosmosWasm (Std.Instantiate 7 "hash" (lit "msg") [Std.coin 5 "scrt"] "label")]
                   [Std.log "action" "burn"] (Some (lit "data")).

Lemma contract_output_is_understood_witness :
  exists key, calc_encryption_key demo_km demo_nonce demo_user = Ok key /\
    encrypt_output (H1 := output_json) demo_km
      (wasm_print (variant "Ok" (StdWire.ser_handle StdWire.ser_empty demo_response))) demo_nonce demo_user (lit "me")
    = (encrypted ← encrypt_wasm_output demo_km key demo_nonce demo_user (lit "me")
         (OkObject (mkContractResult
            [SecretMsg.MsgWasm (SecretMsg.Instantiate 7 "hash" (lit "msg") [SecretMsg.mkCoin "scrt" "5"] "label" None)]
            [SecretMsg.mkLog "action" "burn"] (Some (lit "data"))));
       Ok (enclave_print (EnclaveWire.ser_output encrypted))).
Proof.
  destruct (calc_encryption_key demo_km demo_nonce demo_user) as [key| |] eqn:Hk; [|by vm_compute in Hk..].
  exists key. split; [done|].
  edestruct (contract_output_is_understood (fun s => s) StdWire.ser_empty demo_km (Ok demo_response)
        (variant "Ok" (StdWire.ser_handle StdWire.ser_empty demo_response)) demo_nonce demo_user (lit "me") key) as [E _];
    [..|exact E].
  - done.
  - intros x [= <-]. constructor; [by vm_compute|constructor].
  - by vm_compute.
  - done.
Defined.

Lemma queries_and_answers_cross_witness :
  query_from_slice (wasm_print (StdWire.ser_query StdWire.ser_empty (WasmReq (Querying.Smart "addr" "hash" (lit "q")))))
  = Some (QWasm (QueryChain.Smart "addr" "hash" (lit "q"))) /\
  answer_from_slice (fun s => s) "answer" (answer_to_vec (ContractErr (QueryChain.NotFound "key"))) = Ok (Ok (Err (Math.NotFound "key"))).
Proof.
  apply (queries_and_answers_cross (fun s => s) "answer" StdWire.ser_empty (WasmReq (Querying.Smart "addr" "hash" (lit "q")))
           (ContractErr (QueryChain.NotFound "key"))); by vm_compute.
Defined.
