(* ===== verification/Runtime.v ===== *)
(** * Running a contract: wasmi-runtime/src/wasm/runtime and wasm/gas.rs

    contract.rs, externals.rs and engine.rs: the host functions a contract can call, gas
    accounting, and the regions by which values cross the border of its memory.  The
    contract itself is any program: a tree of steps on its own memory and calls of host
    functions ([guest]).  wasmi's linear memory is the class [WasmMemory]. *)

From Stdlib Require Import Strings.String.
From stdpp Require Import base tactics list numbers strings ssreflect.
From S2P Require Import Prelude Utf8 Crypto SecretMsg Signatures Validation EnclaveDb QueryChain.

Local Open Scope string_scope.
Local Open Scope list_scope.

(** ** gas.rs *)

Record WasmCosts : Type := mkWasmCosts {
  regular : Z;
  div : Z;
  mul : Z;
  mem : Z;
  static_u256 : Z;
  static_address : Z;
  initial_mem : Z;
  grow_mem : Z;
  memcpy : Z;
  max_stack_height : Z;
  opcodes_mul : Z;
  opcodes_div : Z;
  external_humanize_address : Z;
  external_canonicalize_address : Z
}.

Definition default_wasm_costs : WasmCosts := {|
  regular := 1;
  div := 16;
  mul := 4;
  mem := 2;
  static_u256 := 64;
  static_address := 40;
  initial_mem := 8192;
  grow_mem := 8192;
  memcpy := 1;
  max_stack_height := 64 * 1024;
  opcodes_mul := 3;
  opcodes_div := 8;
  external_humanize_address := 8192;
  external_canonicalize_address := 8192
|}.

Inductive InstructionType : Type :=
| IBit | IAdd | IMul | IDiv | ILoad | IStore | IConst | IFloat | ILocal | IGlobal | IControlFlow
| IIntegerComparison | IFloatComparison | IConversion | IReinterpretation | IUnreachable | INop
| ICurrentMemory | IGrowMemory.

(** [gas_rules]: the cost of an instruction under the rule set, and of growing memory. *)
Definition gas_rules (costs : WasmCosts) : (InstructionType -> Z) * Z :=
  (fun i => match i with
            | ILoad => mem costs
            | IStore => mem costs
            | IDiv => div costs
            | IMul => mul costs
            | ICurrentMemory => initial_mem costs
            | _ => regular costs
            end, grow_mem costs).

(** ** Linear memory *)

(** Reading [len] bytes and writing bytes at an offset; [None] out of bounds. *)
Class WasmMemory (Mem : Type) : Type := {
  mem_get (m : Mem) (offset : Z) (len : nat) : option bytes;
  mem_set (m : Mem) (offset : Z) (data : bytes) : option Mem
}.
#[global] Hint Mode WasmMemory + : typeclass_instances.

Class WasmMemoryLaws (Mem : Type) `{WasmMemory Mem} : Prop := {
  get_after_set (m m' : Mem) o d : mem_set m o d = Some m' -> mem_get m' o (length d) = Some d;
  get_after_set_apart (m m' : Mem) o d o' n :
    mem_set m o d = Some m' -> (o' + Z.of_nat n <= o \/ o + Z.of_nat (length d) <= o')%Z ->
    mem_get m' o' n = mem_get m o' n
}.

(** Little-endian [u32]s in memory. *)
Definition get_u32 {Mem} `{WasmMemory Mem} (m : Mem) (offset : Z) : option Z :=
  (fun b => from_be_bytes (rev b)) <$> mem_get m offset 4.
Definition set_u32 {Mem} `{WasmMemory Mem} (m : Mem) (offset value : Z) : option Mem :=
  mem_set m offset (rev (be_bytes 4 value)).

(** Casts between [i32], [u32] and [u64]. *)
Definition as_u32 (z : Z) : Z := (z mod 2^32)%Z.
Definition as_i32 (z : Z) : Z := let u := as_u32 z in if (u <? 2^31)%Z then u else (u - 2^32)%Z.
Definition as_u64 (z : Z) : Z := (z mod 2^64)%Z.

(** ** The contract and the machine it runs on *)

Inductive ContractOperation : Type := OpInit | OpHandle | OpQuery.

Definition is_query (op : ContractOperation) : bool :=
  match op with OpQuery => true | _ => false end.

(** How a call into a contract can fail: a host function's error, a trap, or a missing
    export or a value of the wrong type. *)
Inductive RunError : Type :=
| HostErr (e : WasmEngineError)
| TrapErr (k : TrapKind)
| InterpreterErr.

Section Machine.
Context {Mem : Type}.

#[local] Unset Elimination Schemes.
(** A computation of the contract: it ends with a value or a trap, computes on its
    memory, or calls the host function of an index. *)
Inductive guest : Type :=
| GReturn (v : option Z)
| GTrap (k : TrapKind)
| GStep (f : Mem -> Mem * guest)
| GCall (index : Z) (args : list Z) (k : option Z -> guest).
#[local] Set Elimination Schemes.

Record Exports : Type := mkExports {
  exp_allocate : option (Z -> guest);
  exp_init : option (Z -> Z -> guest);
  exp_handle : option (Z -> Z -> guest);
  exp_query : option (Z -> guest)
}.

Record ContractInstance : Type := mkInstance {
  memory : Mem;
  gas_limit : Z;
  gas_used : Z;
  gas_used_externally : Z;
  gas_costs : WasmCosts;
  instance_key : bytes;
  module_exports : Exports;
  operation : ContractOperation;
  instance_nonce : IoNonce;
  instance_user_key : bytes
}.

Definition set_memory (m : Mem) (i : ContractInstance) : ContractInstance :=
  mkInstance m (gas_limit i) (gas_used i) (gas_used_externally i) (gas_costs i) (instance_key i)
    (module_exports i) (operation i) (instance_nonce i) (instance_user_key i).
Definition set_gas (used externally : Z) (i : ContractInstance) : ContractInstance :=
  mkInstance (memory i) (gas_limit i) used externally (gas_costs i) (instance_key i)
    (module_exports i) (operation i) (instance_nonce i) (instance_user_key i).

(** The instance and the ocalls made so far. *)
Record VM : Type := mkVM { instance : ContractInstance; trace : Trace }.

(** Computations on the machine; [None] is out of fuel. *)
Definition X (E A : Type) : Type := VM -> option (VM * result E A).

#[export] Instance X_ret {E} : MRet (X E) := fun A a vm => Some (vm, Ok a).
#[export] Instance X_bind {E} : MBind (X E) := fun A B f m vm =>
  match m vm with
  | Some (vm', Ok a) => f a vm'
  | Some (vm', Err e) => Some (vm', Err e)
  | Some (vm', Panic) => Some (vm', Panic)
  | None => None
  end.

Definition liftX {E A} (r : result E A) : X E A := fun vm => Some (vm, r).
Definition throwX {E A} (e : E) : X E A := liftX (Err e).
Definition readI {E A} (f : ContractInstance -> A) : X E A := fun vm => Some (vm, Ok (f (instance vm))).
Definition modifyI {E} (f : ContractInstance -> ContractInstance) : X E unit :=
  fun vm => Some (mkVM (f (instance vm)) (trace vm), Ok tt).
(** A computation on the trace of ocalls. *)
Definition onTrace {E A} (m : M Trace E A) : X E A :=
  fun vm => let '(h, r) := m (trace vm) in Some (mkVM (instance vm) h, r).
Definition mapErrX {E F A} (f : E -> F) (m : X E A) : X F A :=
  fun vm => match m vm with Some (vm', r) => Some (vm', map_err f r) | None => None end.

End Machine.
Arguments guest : clear implicits.
Arguments Exports : clear implicits.
Arguments ContractInstance : clear implicits.
Arguments VM : clear implicits.
Arguments X : clear implicits.

(** ** contract.rs *)

Section Contract.
Context {Mem : Type} `{WM : WasmMemory Mem}.

(** [extract_vector]: the pointer is that of a region, whose bytes 0-3 are the address
    and 8-11 the length of the data. *)
Definition extract_vector_inner (m : Mem) (vec_ptr_ptr : Z) : option bytes :=
  ptr ← get_u32 m vec_ptr_ptr;
  if (ptr =? 0)%Z then None
  else
    len ← get_u32 m (as_u32 (vec_ptr_ptr + 8));
    mem_get m ptr (Z.to_nat len).

Definition extract_vector (vec_ptr_ptr : Z) : X Mem WasmEngineError bytes :=
  m ← readI memory;
  liftX (ok_or WMemoryReadError (extract_vector_inner m vec_ptr_ptr)).

(** [write_to_allocated_memory_inner]: the writes reach the memory one by one. *)
Definition write_to_allocated_memory (buf : bytes) (region : Z) : X Mem WasmEngineError Z :=
  let len := as_u32 (Z.of_nat (length buf)) in
  m ← readI memory;
  addr ← liftX (ok_or WMemoryWriteError (get_u32 m region));
  if (addr =? 0)%Z then throwX WMemoryWriteError
  else
    cap ← liftX (ok_or WMemoryWriteError (get_u32 m (as_u32 (region + 4))));
    if (cap <? len)%Z then throwX WMemoryWriteError
    else
      m1 ← liftX (ok_or WMemoryWriteError (mem_set m addr buf));
      _ ← modifyI (set_memory m1);
      m2 ← liftX (ok_or WMemoryWriteError (set_u32 m1 (as_u32 (region + 8)) len));
      _ ← modifyI (set_memory m2);
      mret region.

(** Gas: [u64]s that saturate. *)
Definition sat_add (a b : Z) : Z := Z.min U64_MAX (a + b).
Definition sat_sub (a b : Z) : Z := Z.max 0 (a - b).

Definition is_gas_depleted (i : ContractInstance Mem) : bool :=
  (gas_limit i <? sat_add (gas_used i) (gas_used_externally i))%Z.

Definition gas_left (i : ContractInstance Mem) : Z :=
  sat_sub (sat_sub (gas_limit i) (gas_used i)) (gas_used_externally i).

Definition check_gas_usage : X Mem WasmEngineError unit :=
  depleted ← readI is_gas_depleted;
  if depleted : bool then throwX WOutOfGas else mret tt.

Definition use_gas (gas_amount : Z) : X Mem WasmEngineError unit :=
  _ ← modifyI (fun i => set_gas (sat_add (gas_used i) gas_amount) (gas_used_externally i) i);
  check_gas_usage.

Definition use_gas_externally (gas_amount : Z) : X Mem WasmEngineError unit :=
  _ ← modifyI (fun i => set_gas (gas_used i) (sat_add (gas_used_externally i) gas_amount) i);
  check_gas_usage.

(** Host functions that return a value to the contract write it to memory that the
    contract's own [allocate] hands out: [run_allocate] runs that export. *)
Context `{P : Primitives} `{C : Codecs} `{Ho : Host}.
Context `{Json QueryRequest} `{Json QueryAnswer} `{Json StdError} `{JE : JsonErrors}.
Variable km : Keychain.
Variable depth : Z.
Variable run_allocate : Z -> X Mem RunError (option Z).

Definition allocate (len : Z) : X Mem WasmEngineError Z :=
  v ← mapErrX (fun _ => WMemoryAllocationError) (run_allocate (as_i32 len));
  match v with
  | Some offset => if (offset =? 0)%Z then throwX WMemoryAllocationError else mret (as_u32 offset)
  | None => throwX WMemoryAllocationError
  end.

Definition write_to_memory (buf : bytes) : X Mem WasmEngineError Z :=
  region ← allocate (as_u32 (Z.of_nat (length buf)));
  write_to_allocated_memory buf region.

Definition read_db_index (state_key_ptr_ptr : Z) : X Mem WasmEngineError (option Z) :=
  state_key_name ← extract_vector (as_u32 state_key_ptr_ptr);
  ck ← readI instance_key;
  p ← onTrace (read_encrypted_key km state_key_name ck);
  _ ← use_gas_externally p.2;
  match p.1 with
  | None => mret (Some 0%Z)
  | Some value =>
      region ← write_to_memory value;
      mret (Some (as_i32 region))
  end.

Definition remove_db_index (state_key_ptr_ptr : Z) : X Mem WasmEngineError (option Z) :=
  op ← readI operation;
  if is_query op then throwX WUnauthorizedWrite
  else
    state_key_name ← extract_vector (as_u32 state_key_ptr_ptr);
    ck ← readI instance_key;
    gas ← onTrace (remove_encrypted_key state_key_name ck);
    _ ← use_gas_externally gas;
    mret None.

Definition write_db_index (state_key_ptr_ptr value_ptr_ptr : Z) : X Mem WasmEngineError (option Z) :=
  op ← readI operation;
  if is_query op then throwX WUnauthorizedWrite
  else
    state_key_name ← extract_vector (as_u32 state_key_ptr_ptr);
    value ← extract_vector (as_u32 value_ptr_ptr);
    ck ← readI instance_key;
    gas ← onTrace (write_encrypted_key km state_key_name value ck);
    _ ← use_gas_externally gas;
    mret None.

(** [gas_amount as u64] extends the sign of the [i32]. *)
Definition gas_index (gas_amount : Z) : X Mem WasmEngineError (option Z) :=
  _ ← use_gas (as_u64 gas_amount);
  mret None.

Definition query_chain_index (query_ptr_ptr : Z) : X Mem WasmEngineError (option Z) :=
  query_buffer ← extract_vector (as_u32 query_ptr_ptr);
  n ← readI instance_nonce;
  pk ← readI instance_user_key;
  left ← readI gas_left;
  p ← onTrace (encrypt_and_query_chain km depth query_buffer n pk left);
  _ ← use_gas_externally p.2;
  region ← write_to_memory p.1;
  mret (Some (as_i32 region)).

(** Writes an error text for the contract and returns its region. *)
Definition answer_text (text : bytes) : X Mem WasmEngineError (option Z) :=
  region ← write_to_memory text;
  mret (Some (as_i32 region)).

End Contract.

Definition BECH32_PREFIX_ACC_ADDR : string := "secret".

(** The texts of the bech32 crate's errors. *)
Class Bech32Errors : Type := {
  bech32_decode_error : string -> string;
  bech32_encode_error : string -> bytes -> string
}.

Section Addresses.
Context {Mem : Type} `{WM : WasmMemory Mem} `{C : Codecs} `{BE : Bech32Errors}.
Variable run_allocate : Z -> X Mem RunError (option Z).

Definition canonicalize_address_index (human_ptr_ptr canonical_ptr_ptr : Z)
  : X Mem WasmEngineError (option Z) :=
  costs ← readI gas_costs;
  _ ← use_gas_externally (external_canonicalize_address costs);
  human ← extract_vector (as_u32 human_ptr_ptr);
  if negb (Text.from_utf8 human) then answer_text run_allocate (lit "input is not valid UTF-8")
  else
    let human_addr_str := Text.trim human in
    match human_addr_str with
    | [] => answer_text run_allocate (lit "input is empty")
    | _ =>
        let text := string_of_list_byte human_addr_str in
        match bech32_decode text with
        | None => answer_text run_allocate (lit (bech32_decode_error text))
        | Some (decoded_prefix, data) =>
            if negb (decoded_prefix =? BECH32_PREFIX_ACC_ADDR)%string
            then answer_text run_allocate (lit "wrong address prefix: " ++ Text.debug decoded_prefix)
            else
              canonical ← liftX (ok_or WBase32Error (from_base32 data));
              _ ← write_to_allocated_memory canonical (as_u32 canonical_ptr_ptr);
              mret (Some 0%Z)
        end
    end.

Definition humanize_address_index (canonical_ptr_ptr human_ptr_ptr : Z)
  : X Mem WasmEngineError (option Z) :=
  costs ← readI gas_costs;
  _ ← use_gas_externally (external_humanize_address costs);
  canonical ← extract_vector (as_u32 canonical_ptr_ptr);
  match bech32_encode BECH32_PREFIX_ACC_ADDR (to_base32 canonical) with
  | None => answer_text run_allocate (lit (bech32_encode_error BECH32_PREFIX_ACC_ADDR (to_base32 canonical)))
  | Some human =>
      _ ← write_to_allocated_memory (lit human) (as_u32 human_ptr_ptr);
      mret (Some 0%Z)
  end.

End Addresses.

(** ** externals.rs *)

Inductive HostFunctions : Type :=
| ReadDbIndex | WriteDbIndex | RemoveDbIndex | CanonicalizeAddressIndex | HumanizeAddressIndex
| GasIndex | QueryChainIndex | UnknownIndex.

Definition HostFunctions_from (v : Z) : HostFunctions :=
  if (v =? 0)%Z then ReadDbIndex
  else if (v =? 1)%Z then WriteDbIndex
  else if (v =? 2)%Z then RemoveDbIndex
  else if (v =? 3)%Z then CanonicalizeAddressIndex
  else if (v =? 4)%Z then HumanizeAddressIndex
  else if (v =? 5)%Z then GasIndex
  else if (v =? 6)%Z then QueryChainIndex
  else UnknownIndex.

Section Externals.
Context {Mem : Type} `{WM : WasmMemory Mem}.
Context `{P : Primitives} `{C : Codecs} `{Ho : Host} `{BE : Bech32Errors}.
Context `{Json QueryRequest} `{Json QueryAnswer} `{Json StdError} `{JE : JsonErrors}.
Variable km : Keychain.
Variable depth : Z.

(** [RuntimeArgs::nth_checked]. *)
Definition nth_checked (args : list Z) (n : nat) : X Mem RunError Z :=
  liftX (ok_or (TrapErr UnexpectedSignature) (args !! n)).

Definition invoke_index (run_allocate : Z -> X Mem RunError (option Z)) (index : Z) (args : list Z)
  : X Mem RunError (option Z) :=
  match HostFunctions_from index with
  | ReadDbIndex =>
      key ← nth_checked args 0;
      mapErrX HostErr (read_db_index km run_allocate key)
  | RemoveDbIndex =>
      key ← nth_checked args 0;
      mapErrX HostErr (remove_db_index key)
  | WriteDbIndex =>
      key ← nth_checked args 0;
      value ← nth_checked args 1;
      mapErrX HostErr (write_db_index km key value)
  | CanonicalizeAddressIndex =>
      human ← nth_checked args 0;
      canonical ← nth_checked args 1;
      mapErrX HostErr (canonicalize_address_index run_allocate human canonical)
  | HumanizeAddressIndex =>
      canonical ← nth_checked args 0;
      human ← nth_checked args 1;
      mapErrX HostErr (humanize_address_index run_allocate canonical human)
  | QueryChainIndex =>
      query ← nth_checked args 0;
      mapErrX HostErr (query_chain_index km depth run_allocate query)
  | GasIndex =>
      gas_amount ← nth_checked args 0;
      mapErrX HostErr (gas_index gas_amount)
  | UnknownIndex => throwX (HostErr WNonExistentImportFunction)
  end.

(** The interpreter on a contract's program; [fuel] bounds its steps. *)
Fixpoint run (fuel : nat) (g : guest Mem) : X Mem RunError (option Z) :=
  match fuel with
  | O => fun _ => None
  | S fuel' =>
      match g with
      | GReturn v => mret v
      | GTrap k => throwX (TrapErr k)
      | GStep f => fun vm =>
          let '(m, g') := f (memory (instance vm)) in
          run fuel' g' (mkVM (set_memory m (instance vm)) (trace vm))
      | GCall index args k =>
          let run_allocate len : X Mem RunError (option Z) := fun vm =>
            match exp_allocate (module_exports (instance vm)) with
            | Some f => run fuel' (f len) vm
            | None => Some (vm, Err InterpreterErr)
            end in
          v ← invoke_index run_allocate index args;
          run fuel' (k v)
      end
  end.

(** ** engine.rs *)

Definition run_to_enclave_error (e : RunError) : EnclaveError :=
  match e with
  | HostErr e' => engine_to_enclave_error e'
  | TrapErr k => trap_kind_to_enclave_error k
  | InterpreterErr => FailedFunctionCall
  end.

(** What a call of an export returned, as a pointer. *)
Definition invoke_export (fuel : nat) (g : option (guest Mem)) : X Mem EnclaveError Z :=
  v ← mapErrX run_to_enclave_error
        (match g with Some g' => run fuel g' | None => throwX InterpreterErr end);
  match v with
  | Some offset => mret (as_u32 offset)
  | None => throwX FailedFunctionCall
  end.

Definition engine_init (fuel : nat) (env_ptr msg_ptr : Z) : X Mem EnclaveError Z :=
  exports ← readI module_exports;
  invoke_export fuel ((fun f => f (as_i32 env_ptr) (as_i32 msg_ptr)) <$> exp_init exports).

Definition engine_handle (fuel : nat) (env_ptr msg_ptr : Z) : X Mem EnclaveError Z :=
  exports ← readI module_exports;
  invoke_export fuel ((fun f => f (as_i32 env_ptr) (as_i32 msg_ptr)) <$> exp_handle exports).

Definition engine_query (fuel : nat) (msg_ptr : Z) : X Mem EnclaveError Z :=
  exports ← readI module_exports;
  invoke_export fuel ((fun f => f (as_i32 msg_ptr)) <$> exp_query exports).

(** Writing an argument before the call: [allocate] is an export of the contract too. *)
Definition engine_write_to_memory (fuel : nat) (buf : bytes) : X Mem EnclaveError Z :=
  mapErrX engine_to_enclave_error
    (write_to_memory (fun len vm =>
       match exp_allocate (module_exports (instance vm)) with
       | Some f => run fuel (f len) vm
       | None => Some (vm, Err InterpreterErr)
       end) buf).

End Externals.

(** ** Properties *)

Definition read_only (c : Ocall) : Prop :=
  match c with OReadDb _ | OQueryChain _ _ => True | _ => False end.

Section Safety.
Context {Mem : Type} `{WM : WasmMemory Mem}.

(** What no step of a contract can change, and the ocalls it may add. *)
Definition evolves (vm vm' : VM Mem) : Prop :=
  gas_limit (instance vm') = gas_limit (instance vm) /\
  operation (instance vm') = operation (instance vm) /\
  instance_key (instance vm') = instance_key (instance vm) /\
  exists new, trace vm' = new ++ trace vm /\
    (is_query (operation (instance vm)) = true -> Forall read_only new).

(** A computation that, in the operations [Q] allows (told whether it is a query), evolves
    the machine and, when it succeeds, has not run out of gas. *)
Definition safe (Q : bool -> Prop) {E A} (m : X Mem E A) : Prop :=
  forall vm vm' r, Q (is_query (operation (instance vm))) -> m vm = Some (vm', r) ->
    evolves vm vm' /\
    (is_ok r = true -> is_gas_depleted (instance vm) = false -> is_gas_depleted (instance vm') = false).

Lemma evolves_refl vm : evolves vm vm.
Proof. by split_and!; try exists []. Qed.

Lemma evolves_trans vm1 vm2 vm3 : evolves vm1 vm2 -> evolves vm2 vm3 -> evolves vm1 vm3.
Proof.
  intros (Hg & Ho & Hk & n1 & Ht & Hq) (Hg' & Ho' & Hk' & n2 & Ht' & Hq').
  split_and!; [congruence..|]. exists (n2 ++ n1). rw Ht' Ht app_assoc. split; [done|].
  intros Hop. apply Forall_app. split; [apply Hq'; by rw Ho|by apply Hq].
Qed.

Lemma safe_pure Q {E A} (f : VM Mem -> result E A) : safe Q (fun vm => Some (vm, f vm)).
Proof. intros vm vm' r _ [= <- _]. split; [apply evolves_refl|done]. Qed.

Lemma safe_bind Q {E A B} (m : X Mem E A) (k : A -> X Mem E B) :
  safe Q m -> (forall a, safe Q (k a)) -> safe Q (m ≫= k).
Proof.
  intros Hm Hk vm vm' r HQ. unfold mbind, X_bind.
  destruct (m vm) as [[vm1 [a|e|]]|] eqn:Em; [| | |done].
  - intros Ek. destruct (Hm _ _ _ HQ Em) as [E1 G1].
    assert (Q (is_query (operation (instance vm1)))) as HQ1 by (destruct E1 as (_ & -> & _); done).
    destruct (Hk _ _ _ _ HQ1 Ek) as [E2 G2]. split; [by eapply evolves_trans|]. intros Hr Hd. by apply G2, G1.
  - intros [= <- <-]. by destruct (Hm _ _ _ HQ Em) as [E1 _].
  - intros [= <- <-]. by destruct (Hm _ _ _ HQ Em) as [E1 _].
Qed.

Lemma safe_mapErr Q {E F A} (f : E -> F) (m : X Mem E A) : safe Q m -> safe Q (mapErrX f m).
Proof.
  intros Hm vm vm' r HQ. unfold mapErrX. destruct (m vm) as [[vm1 r1]|] eqn:Em; [|done].
  intros [= <- <-]. destruct (Hm _ _ _ HQ Em) as [E1 G1]. split; [done|].
  by destruct r1.
Qed.

(** A memory write keeps everything but the memory. *)
Lemma safe_set_memory Q {E} (f : Mem) : safe Q (modifyI (E := E) (set_memory f)).
Proof. intros vm vm' r _ [= <- <-]. split; [by split_and!; try exists []|done]. Qed.

(** Charging gas and checking it. *)
Lemma safe_charge Q (f : ContractInstance Mem -> Z * Z) :
  safe Q (_ ← modifyI (fun i => set_gas (f i).1 (f i).2 i); check_gas_usage).
Proof.
  intros vm vm' r _. cbv [mbind X_bind modifyI check_gas_usage readI]. cbn [instance].
  destruct (is_gas_depleted _) eqn:Hd; cbv [throwX liftX mret X_ret]; intros [= <- <-].
  - split; [by split_and!; try exists []|done].
  - split; [by split_and!; try exists []|]. by intros _ _.
Qed.

Lemma safe_use_gas Q a : safe Q (use_gas (Mem := Mem) a).
Proof. apply (safe_charge Q (fun i => (sat_add (gas_used i) a, gas_used_externally i))). Qed.

Lemma safe_use_gas_externally Q a : safe Q (use_gas_externally (Mem := Mem) a).
Proof. apply (safe_charge Q (fun i => (gas_used i, sat_add (gas_used_externally i) a))). Qed.

(** A computation on the trace that only adds reads and queries. *)
Lemma safe_onTrace (Q : bool -> Prop) {E A} (m : M Trace E A) :
  (forall h, exists new, (m h).1 = new ++ h /\ (Q true -> Forall read_only new)) ->
  safe Q (onTrace m).
Proof.
  intros Hm vm vm' r HQ. unfold onTrace. destruct (Hm (trace vm)) as (new & Ht & Hn).
  destruct (m (trace vm)) as [h r']. intros [= <- <-]. cbn in Ht. subst h.
  split; [|done]. split_and!; [done..|]. exists new. split; [done|].
  intros Hop. rw Hop in HQ. by apply Hn.
Qed.

(** A guard that refuses queries. *)
Lemma safe_guarded Q {E A} (deny : E) (m : X Mem E A) :
  safe (fun q => q = false) m -> safe Q (op ← readI operation; if is_query op then throwX deny else m).
Proof.
  intros Hm vm vm' r _. cbv [mbind X_bind readI].
  destruct (is_query (operation (instance vm))) eqn:Hop; [|by apply Hm].
  cbv [throwX liftX]. intros [= <- <-]. split; [apply evolves_refl|done].
Qed.

End Safety.

(** Splits a host function into its primitive steps. *)
Ltac safe_steps :=
  repeat match goal with
  | |- safe _ (mbind _ _) => apply safe_bind; [|intros]
  | |- safe _ (mret _) => apply (safe_pure _ (fun _ => Ok _))
  | |- safe _ (liftX ?r) => apply (safe_pure _ (fun _ => r))
  | |- safe _ (throwX ?e) => apply (safe_pure _ (fun _ => Err e))
  | |- safe _ (readI ?f) => apply (safe_pure _ (fun vm => Ok (f (instance vm))))
  | |- safe _ (modifyI (set_memory _)) => apply safe_set_memory
  | |- safe _ (use_gas _) => apply safe_use_gas
  | |- safe _ (use_gas_externally _) => apply safe_use_gas_externally
  | |- safe _ (mapErrX _ _) => apply safe_mapErr
  | |- safe _ (if ?b then _ else _) => destruct b
  | |- safe _ (match ?o with _ => _ end) => destruct o
  | |- safe _ (let '(_, _) := ?p in _) => destruct p
  end.

Section HostFunctionSafety.
Context {Mem : Type} `{WM : WasmMemory Mem}.
Context `{P : Primitives} `{C : Codecs} `{Ho : Host} `{BE : Bech32Errors}.
Context `{Json QueryRequest} `{Json QueryAnswer} `{Json StdError} `{JE : JsonErrors}.
Variable km : Keychain.
Variable depth : Z.

Lemma safe_extract Q ptr : safe (Mem := Mem) Q (extract_vector ptr).
Proof. unfold extract_vector. safe_steps. Qed.

Lemma safe_write_allocated Q buf region : safe (Mem := Mem) Q (write_to_allocated_memory buf region).
Proof. unfold write_to_allocated_memory. safe_steps. Qed.

(** The ocalls of the storage operations. *)
Lemma read_encrypted_trace key ck h : (read_encrypted_key km key ck h).1 = OReadDb (field_name_digest key ck) :: h.
Proof.
  cbv [read_encrypted_key read_db ocall mbind M_bind liftR mret M_ret].
  destruct (ocall_status _); [|done..]. destruct (ok_or _ _) as [[v|]| |]; [|done..].
  cbn [fst]. by destruct (decrypt_key _ _ _ _).
Qed.

Lemma remove_encrypted_trace key ck h :
  exists new, (remove_encrypted_key key ck h).1 = new ++ h.
Proof.
  cbv [remove_encrypted_key remove_db ocall mbind M_bind liftR mret M_ret].
  exists [ORemoveDb (field_name_digest key ck)]. by destruct (ocall_status _).
Qed.

Lemma write_encrypted_trace key value ck h :
  exists new, (write_encrypted_key km key value ck h).1 = new ++ h.
Proof.
  set (name := field_name_digest key ck).
  cbv [write_encrypted_key derive_ad_for_field read_db write_db ocall mbind M_bind liftR mret M_ret].
  destruct (ocall_status _); [|by exists [OReadDb name]..].
  destruct (ok_or _ _) as [v| |]; [|by exists [OReadDb name]..]. cbn [fst snd].
  destruct (match v with Some _ => _ | None => _ end) as [ad| |]; [|by exists [OReadDb name]..].
  cbn [fst snd]. destruct (encrypt_key _ _ _ _ _) as [c| |]; [|by exists [OReadDb name]..].
  exists [OWriteDb name (sha_256 ad ++ c); OReadDb name]. by destruct (ocall_status _).
Qed.

Section WithAllocate.
Variable run_allocate : Z -> X Mem RunError (option Z).
Hypothesis safe_allocate : forall Q len, safe Q (run_allocate len).

Lemma safe_write Q buf : safe Q (write_to_memory run_allocate buf).
Proof.
  unfold write_to_memory, allocate. safe_steps; [apply safe_allocate|apply safe_write_allocated].
Qed.

Lemma safe_read_db Q ptr : safe Q (read_db_index km run_allocate ptr).
Proof.
  unfold read_db_index. safe_steps; [apply safe_extract| |apply safe_write].
  apply safe_onTrace. intros h. rw read_encrypted_trace. eexists [_]. by repeat constructor.
Qed.

Lemma safe_query_chain Q ptr : safe Q (query_chain_index km depth run_allocate ptr).
Proof.
  unfold query_chain_index. safe_steps; [apply safe_extract| |apply safe_write].
  apply safe_onTrace. intros h.
  destruct (query_chain_trace km depth a a0 a1 a2 h) as [->|(_ & q & ->)]; [by exists []|].
  eexists [_]. by repeat constructor.
Qed.

Lemma safe_answer Q text : safe Q (answer_text run_allocate text).
Proof. unfold answer_text. safe_steps. apply safe_write. Qed.

Lemma safe_canonicalize Q h c : safe Q (canonicalize_address_index run_allocate h c).
Proof.
  unfold canonicalize_address_index.
  safe_steps; (apply safe_extract || apply safe_answer || apply safe_write_allocated).
Qed.

Lemma safe_humanize Q c h : safe Q (humanize_address_index run_allocate c h).
Proof.
  unfold humanize_address_index.
  safe_steps; (apply safe_extract || apply safe_answer || apply safe_write_allocated).
Qed.

End WithAllocate.

Lemma safe_write_db k v : safe (Mem := Mem) (fun _ => True) (write_db_index km k v).
Proof.
  apply safe_guarded. safe_steps; try apply safe_extract.
  apply safe_onTrace. intros h. destruct (write_encrypted_trace a a0 a1 h) as (new & ->). by exists new.
Qed.

Lemma safe_remove_db k : safe (Mem := Mem) (fun _ => True) (remove_db_index k).
Proof.
  apply safe_guarded. safe_steps; try apply safe_extract.
  apply safe_onTrace. intros h. destruct (remove_encrypted_trace a a0 h) as (new & ->). by exists new.
Qed.

Lemma safe_invoke (run_allocate : Z -> X Mem RunError (option Z)) index args :
  (forall Q len, safe Q (run_allocate len)) ->
  safe (fun _ => True) (invoke_index km depth run_allocate index args).
Proof.
  intros Ha. unfold invoke_index, nth_checked, gas_index.
  destruct (HostFunctions_from index); safe_steps; try done;
    by (apply safe_read_db || apply safe_write_db || apply safe_remove_db || apply safe_canonicalize
        || apply safe_humanize || apply safe_query_chain).
Qed.

Lemma safe_weaken Q {E A} (m : X Mem E A) : safe (fun _ => True) m -> safe Q m.
Proof. intros Hm vm vm' r _. by apply Hm. Qed.

Lemma safe_run fuel (g : guest Mem) : safe (fun _ => True) (run km depth fuel g).
Proof.
  revert g. induction fuel as [|fuel IH]; intros g; [by intros vm vm' r|].
  destruct g as [v|k|f|index args k]; cbn [run].
  - apply (safe_pure _ (fun _ => Ok _)).
  - apply (safe_pure _ (fun _ => Err _)).
  - intros vm vm' r _. destruct (f _) as [m g']. intros E.
    destruct (IH _ _ _ _ I E) as [E1 G1].
    split; [|done]. eapply evolves_trans; [|done]. by split_and!; try exists [].
  - apply safe_bind; [|intros; apply IH]. apply safe_invoke. intros Q len. apply safe_weaken.
    intros vm vm' r _. destruct (exp_allocate _) as [g|]; [by apply IH|].
    intros [= <- <-]. split; [apply evolves_refl|done].
Qed.

(** Whatever program a contract runs, during a query it makes no write or remove ocall, for any
    host and any amount of fuel. *)
Theorem query_never_writes fuel g (vm vm' : VM Mem) r :
  operation (instance vm) = OpQuery -> run km depth fuel g vm = Some (vm', r) ->
  exists new, trace vm' = new ++ trace vm /\ Forall read_only new.
Proof.
  intros Hop Hr. destruct (safe_run fuel g vm vm' r I Hr) as [(_ & _ & _ & new & Ht & Hq) _].
  exists new. split; [done|]. apply Hq. by rw Hop.
Qed.

(** C3: Whatever program a contract runs, on an instance whose gas is not already depleted and
    whose gas limit is below the largest u64: when the call into it succeeds, the gas used
    inside and outside wasm is together within the gas limit, and the limit is unchanged.
    (At a limit of the largest u64 the check compares with a saturated sum and never fails.) *)
Theorem contract_stays_within_gas fuel g (vm vm' : VM Mem) v :
  is_gas_depleted (instance vm) = false -> (gas_limit (instance vm) < U64_MAX)%Z -> run km depth fuel g vm = Some (vm', Ok v) ->
  gas_limit (instance vm') = gas_limit (instance vm) /\
  (gas_used (instance vm') + gas_used_externally (instance vm') <= gas_limit (instance vm))%Z.
Proof.
  intros Hd Hl Hr. destruct (safe_run fuel g vm vm' (Ok v) I Hr) as [(Hg & _) Hok].
  split; [done|]. specialize (Hok eq_refl Hd). unfold is_gas_depleted, sat_add in Hok.
  apply Z.ltb_ge in Hok. lia.
Qed.

End HostFunctionSafety.

Section Regions.
Context {Mem : Type} `{WM : WasmMemory Mem} {HM : WasmMemoryLaws Mem}.

Lemma get_set_u32 (m m' : Mem) o v :
  (0 <= v < 2^32)%Z -> set_u32 m o v = Some m' -> get_u32 m' o = Some v.
Proof.
  intros Hv Hs. unfold get_u32, set_u32 in *. apply get_after_set in Hs.
  rw length_rev be_bytes_length in Hs. rw Hs. cbn [fmap option_fmap option_map].
  rw rev_involutive from_to_be_bytes Z.mod_small //.
Qed.

Lemma get_u32_apart (m m' : Mem) o d o' :
  mem_set m o d = Some m' -> (o' + 4 <= o \/ o + Z.of_nat (length d) <= o')%Z ->
  get_u32 m' o' = get_u32 m o'.
Proof. intros Hs Ho. unfold get_u32. by rw (get_after_set_apart _ _ _ _ o' 4 Hs); [|lia]. Qed.

(** A buffer written to an allocated region that does not overlap its own descriptor is read
    back unchanged by extract_vector. *)
Theorem region_roundtrip buf region addr (vm vm' : VM Mem) r :
  (0 <= region)%Z -> (region + 12 <= 2^32)%Z -> (Z.of_nat (length buf) < 2^32)%Z ->
  get_u32 (memory (instance vm)) region = Some addr ->
  (addr + Z.of_nat (length buf) <= region \/ region + 12 <= addr)%Z ->
  write_to_allocated_memory buf region vm = Some (vm', Ok r) ->
  r = region /\ extract_vector region vm' = Some (vm', Ok buf).
Proof.
  intros Hr0 Hr Hlen Haddr Hapart. unfold write_to_allocated_memory.
  cbv [mbind X_bind readI liftX]. rw Haddr. cbn [ok_or].
  destruct (Z.eqb_spec addr 0) as [|Hne]; [done|].
  assert (as_u32 (Z.of_nat (length buf)) = Z.of_nat (length buf)) as Hl by (apply Z.mod_small; lia).
  assert (as_u32 (region + 8) = region + 8)%Z as H8 by (apply Z.mod_small; lia).
  rw Hl H8. destruct (get_u32 _ (as_u32 (region + 4))) as [cap|]; [|done]. cbn [ok_or].
  destruct (cap <? _)%Z; [done|].
  destruct (mem_set _ addr buf) as [m1|] eqn:E1; [|done]. cbn [ok_or modifyI].
  destruct (set_u32 m1 (region + 8) _) as [m2|] eqn:E2; [|done]. cbn [ok_or modifyI].
  intros [= <- <-]. split; [done|]. cbv [extract_vector mbind X_bind readI liftX]. cbn [instance memory set_memory].
  unfold extract_vector_inner. rw H8 (get_set_u32 m1 m2 _ (Z.of_nat (length buf))) //; [|lia].
  unfold set_u32 in E2.
  rw (get_u32_apart m1 m2 _ _ _ E2); [|lia]. rw (get_u32_apart _ m1 _ _ _ E1); [|lia]. rw Haddr.
  cbn [mbind option_bind]. destruct (Z.eqb_spec addr 0); [done|]. cbn [mbind option_bind].
  rw Nat2Z.id.
  assert (mem_get m2 addr (length buf) = mem_get m1 addr (length buf)) as ->.
  { apply (get_after_set_apart _ _ _ _ _ _ E2). rw length_rev be_bytes_length. lia. }
  by rw (get_after_set _ _ _ _ E1).
Qed.

End Regions.

(** ** A concrete memory and contract *)

(** A linear memory of a fixed size. *)
Definition list_get (m : bytes) (o : Z) (n : nat) : option bytes :=
  if bool_decide (0 <= o /\ o + Z.of_nat n <= Z.of_nat (length m))%Z
  then Some (take n (drop (Z.to_nat o) m)) else None.
Definition list_set (m : bytes) (o : Z) (d : bytes) : option bytes :=
  if bool_decide (0 <= o /\ o + Z.of_nat (length d) <= Z.of_nat (length m))%Z
  then Some (take (Z.to_nat o) m ++ d ++ drop (Z.to_nat o + length d) m) else None.

Definition list_memory : WasmMemory bytes := {| mem_get := list_get; mem_set := list_set |}.

Lemma list_memory_laws : @WasmMemoryLaws bytes list_memory.
Proof.
  split; cbn [mem_get mem_set list_memory]; unfold list_get, list_set.
  - intros m m' o d. case_bool_decide as Ho; [|done]. intros [= <-].
    rw bool_decide_true; [|rw !length_app length_take length_drop; lia].
    rw drop_app_length'; [|rw length_take; lia]. by rw take_app_length.
  - intros m m' o d o' n. case_bool_decide as Ho; [|done]. intros [= <-] Hapart.
    assert (length (take (Z.to_nat o) m ++ d ++ drop (Z.to_nat o + length d) m) = length m) as ->.
    { rw !length_app length_take length_drop. lia. }
    case_bool_decide as Ho'; [|done]. f_equal. destruct Hapart as [Hb|Ha].
    + rw drop_app_le; [|rw length_take; lia].
      rw take_app_le; [|rw length_drop length_take; lia].
      rw skipn_firstn_comm take_take. f_equal. lia.
    + rw app_assoc drop_app_ge; [|rw length_app length_take; lia].
      rw drop_drop length_app length_take. do 2 f_equal. lia.
Qed.

#[local] Existing Instance list_memory.
#[local] Existing Instance list_memory_laws.
#[local] Existing Instance demo_primitives.
#[local] Existing Instance demo_codecs.
#[local] Existing Instance demo_host.

Definition no_json (T : Type) : Json T := {| json_to_vec _ := None; json_from_slice _ := None |}.
#[local] Existing Instance no_json.
Definition demo_json_errors : JsonErrors := {| json_error _ := "error" |}.
#[local] Existing Instance demo_json_errors.
Definition demo_bech32_errors : Bech32Errors := {|
  bech32_decode_error _ := "error"; bech32_encode_error _ _ := "error"
|}.
#[local] Existing Instance demo_bech32_errors.

(** A region at 16 that describes the byte at 64. *)
Definition demo_memory : bytes :=
  replicate 16 Byte.x00 ++ [Byte.x40] ++ replicate 3 Byte.x00 ++ [Byte.x08] ++ replicate 3 Byte.x00
  ++ [Byte.x01] ++ replicate 103 Byte.x00.

(** Reads the key in the region, pays ten gas and returns the answer. *)
Definition demo_guest : guest bytes :=
  GCall 0 [16%Z] (fun v => GCall 5 [10%Z] (fun _ => GReturn v)).

Definition demo_vm (op : ContractOperation) : VM bytes :=
  mkVM (mkInstance demo_memory 1000 0 0 default_wasm_costs (replicate 64 Byte.x07)
          (mkExports None None None None) op demo_nonce demo_user) [].

Lemma query_never_writes_witness :
  exists vm' new, run demo_db_km 1 5 demo_guest (demo_vm OpQuery) = Some (vm', Ok (Some 0%Z)) /\
    trace vm' = new /\ Forall read_only new.
Proof.
  assert ((fun o => snd <$> o) (run demo_db_km 1 5 demo_guest (demo_vm OpQuery))
          = Some (Ok (Some 0%Z))) as Hv by (vm_compute; reflexivity).
  destruct (run demo_db_km 1 5 demo_guest (demo_vm OpQuery)) as [[vm' r]|] eqn:E; [|discriminate].
  cbn in Hv. injection Hv as ->.
  destruct (query_never_writes demo_db_km 1 5 demo_guest (demo_vm OpQuery) vm' _ eq_refl E)
    as (new & Ht & Hn).
  exists vm', new. split; [reflexivity|]. split; [|exact Hn]. rw Ht. apply app_nil_r.
Defined.

(** A read costs 100 outside and the program pays 10 inside, of 1000. *)
Lemma contract_stays_within_gas_witness :
  exists vm', run demo_db_km 1 5 demo_guest (demo_vm OpHandle) = Some (vm', Ok (Some 0%Z)) /\
    gas_used (instance vm') = 10%Z /\ gas_used_externally (instance vm') = 100%Z /\ gas_limit (instance vm') = 1000%Z /\
    (gas_used (instance vm') + gas_used_externally (instance vm') <= 1000)%Z.
Proof.
  assert ((fun o => (fun p => (gas_used (instance p.1), gas_used_externally (instance p.1), p.2)) <$> o)
            (run demo_db_km 1 5 demo_guest (demo_vm OpHandle)) = Some (10%Z, 100%Z, Ok (Some 0%Z))) as Hv by (vm_compute; reflexivity).
  destruct (run demo_db_km 1 5 demo_guest (demo_vm OpHandle)) as [[vm' r]|] eqn:E; [|discriminate].
  cbn in Hv. injection Hv as Hu Hx ->. exists vm'. split; [reflexivity|]. split; [exact Hu|]. split; [exact Hx|].
  exact (contract_stays_within_gas demo_db_km 1 5 demo_guest (demo_vm OpHandle) vm' _ eq_refl eq_refl E).
Defined.

Lemma region_roundtrip_witness :
  exists vm' : VM bytes, extract_vector 16 vm' = Some (vm', Ok (lit "hello")).
Proof.
  assert ((fun o => snd <$> o) (write_to_allocated_memory (lit "hello") 16 (demo_vm OpHandle))
          = Some (Ok 16%Z)) as Hv by (vm_compute; reflexivity).
  destruct (write_to_allocated_memory (lit "hello") 16 (demo_vm OpHandle)) as [[vm' r]|] eqn:E;
    [|discriminate].
  cbn in Hv. injection Hv as ->. exists vm'.
  refine (proj2 (region_roundtrip (lit "hello") 16 64 (demo_vm OpHandle) vm' 16 _ _ _ _ _ E));
    [lia|lia|cbn; lia|vm_compute; reflexivity|right; lia].
Defined.
