(* ===== verification/GuestMemory.v ===== *)
(** * The contract's side of the memory border: std/src/memory.rs

    A contract compiled against cosmwasm-std exchanges byte strings with the enclave through
    [Region]s on its heap.  Its functions are programs of the machine of Runtime.v, written
    in a continuation monad [G]; the heap is Rust's global allocator, the class
    [Allocator], whose laws are the contract of [GlobalAlloc]. *)

From stdpp Require Import base tactics list numbers ssreflect.
From S2P Require Import Prelude EnclaveDb Runtime.

Local Open Scope Z_scope.

(** ** Programs of a contract *)

Section Programs.
Context {Mem : Type}.

(** A program that goes on with a value of type [A]. *)
Definition G (A : Type) : Type := (A -> guest Mem) -> guest Mem.

#[export] Instance G_ret : MRet G := fun A a k => k a.
#[export] Instance G_bind : MBind G := fun A B f p k => p (fun a => f a k).

(** A panic of a contract compiled to wasm is the instruction [unreachable]. *)
Definition panic {A} : G A := fun _ => GTrap Unreachable.
Definition assert (b : bool) : G unit := if b then mret tt else panic.

(** A computation on memory; an access out of bounds traps. *)
Definition on_memory {A} (f : Mem -> option (Mem * A)) : G A := fun k =>
  GStep (fun m => match f m with
                  | Some (m', a) => (m', k a)
                  | None => (m, GTrap MemoryAccessOutOfBounds)
                  end).

(** A call of an imported function of the host. *)
Definition import (index : Z) (args : list Z) : G (option Z) := fun k => GCall index args k.

End Programs.
Arguments G : clear implicits.

(** ** The allocator *)

(** The global allocator: [malloc] of a size and an alignment is [None] when there is no memory
    left. *)
Class Allocator (Mem : Type) : Type := {
  malloc (m : Mem) (size align : Z) : option (Mem * Z);
  free (m : Mem) (ptr size align : Z) : Mem
}.
#[global] Hint Mode Allocator + : typeclass_instances.

Definition disjoint_blocks (p n q k : Z) : Prop := p + n <= q \/ q + k <= p.

(** [m'] has the live blocks of [m] with the same bytes. *)
Definition frame {Mem} `{WasmMemory Mem} (live : Mem -> Z -> Z -> Prop) (m m' : Mem) : Prop :=
  forall q k, live m q k -> live m' q k /\
    forall o n, q <= o -> o + Z.of_nat n <= q + k -> mem_get m' o n = mem_get m o n.

(** The largest object and the bytes an allocation may cost beyond its size. *)
Definition ISIZE_MAX : Z := 2^31 - 1.
Definition SLACK : Z := 16.
(** [NonNull::dangling] for bytes: where an empty vector points. *)
Definition DANGLING : Z := 1.

(** What the program relies on: [live m p n] are the blocks that belong to it, [room m] the
    bytes that can still be handed out for certain. *)
Class AllocatorLaws (Mem : Type) `{WasmMemory Mem} `{Allocator Mem} : Type := {
  live : Mem -> Z -> Z -> Prop;
  room : Mem -> Z;
  live_bounds m p n : live m p n -> 0 < p /\ 0 < n /\ p + n <= 2^32;
  live_store m p n o d :
    live m p n -> p <= o -> o + Z.of_nat (length d) <= p + n ->
    exists m', mem_set m o d = Some m' /\ (forall q k, live m q k -> live m' q k) /\ room m <= room m';
  malloc_live m n al :
    0 < n <= ISIZE_MAX -> n + SLACK <= room m ->
    exists m' p, malloc m n al = Some (m', p) /\ live m' p n /\
      (forall q k, live m q k -> disjoint_blocks p n q k) /\
      frame live m m' /\ room m - (n + SLACK) <= room m';
  free_keeps m p n al q k :
    live m p n -> live m q k -> disjoint_blocks p n q k ->
    live (free m p n al) q k /\
    forall o l, q <= o -> o + Z.of_nat l <= q + k -> mem_get (free m p n al) o l = mem_get m o l;
  room_bound m : room m <= ISIZE_MAX;
  free_room m p n al : live m p n -> room m <= room (free m p n al);
  dangling_get (m : Mem) : mem_get m DANGLING 0 = Some [];
  dangling_set (m : Mem) : mem_set m DANGLING [] = Some m
}.

Section Memory.
Context {Mem : Type} `{WM : WasmMemory Mem} `{AL : Allocator Mem}.
#[local] Abbreviation G := (G Mem).

(** Running out of memory aborts the program. *)
Definition allocate_block (size align : Z) : G Z := fun k =>
  GStep (fun m => match malloc m size align with
                  | Some (m', p) => (m', k p)
                  | None => (m, GTrap Unreachable)
                  end).
Definition free_block (ptr size align : Z) : G unit := on_memory (fun m => Some (free m ptr size align, tt)).

Definition load_u32 (ptr : Z) : G Z := on_memory (fun m => v ← get_u32 m ptr; Some (m, v)).
Definition store_u32 (ptr v : Z) : G unit := on_memory (fun m => m' ← set_u32 m ptr v; Some (m', tt)).

(** ** Vectors and slices of bytes *)

Record Slice : Type := mkSlice { slice_ptr : Z; slice_len : Z }.
Record Vec : Type := mkVec { vec_ptr : Z; vec_len : Z; vec_cap : Z }.

(** [Vec::with_capacity]: nothing is allocated for no bytes. *)
Definition with_capacity (cap : Z) : G Vec :=
  if cap >? ISIZE_MAX then panic
  else if cap =? 0 then mret (mkVec DANGLING 0 0)
  else p ← allocate_block cap 1; mret (mkVec p 0 cap).

Definition drop_vec (v : Vec) : G unit :=
  if vec_cap v =? 0 then mret tt else free_block (vec_ptr v) (vec_cap v) 1.

Definition as_slice (v : Vec) : Slice := mkSlice (vec_ptr v) (vec_len v).

(** The bytes of a slice, as the program reads them. *)
Definition read_slice (s : Slice) : G bytes :=
  on_memory (fun m => d ← mem_get m (slice_ptr s) (Z.to_nat (slice_len s)); Some (m, d)).

(** A vector of exactly these bytes. *)
Definition vec_of (d : bytes) : G Vec :=
  v ← with_capacity (Z.of_nat (length d));
  _ ← on_memory (fun m => m' ← mem_set m (vec_ptr v) d; Some (m', tt));
  mret (mkVec (vec_ptr v) (Z.of_nat (length d)) (vec_cap v)).

(** ** memory.rs *)

(** [Region] is [repr(C)]: three [u32]s. *)
Record Region : Type := mkRegion { offset : Z; capacity : Z; region_length : Z }.
Definition REGION_SIZE : Z := 12.

Definition box_region (r : Region) : G Z :=
  p ← allocate_block REGION_SIZE 4;
  _ ← store_u32 p (offset r);
  _ ← store_u32 (p + 4) (capacity r);
  _ ← store_u32 (p + 8) (region_length r);
  mret p.
Definition drop_region (ptr : Z) : G unit := free_block ptr REGION_SIZE 4.

(** [u32::try_from] of a [usize]. *)
Definition try_u32 (z : Z) : G Z := if (0 <=? z) && (z <=? U32_MAX) then mret z else panic.

Definition build_region_from_components (off cap len : Z) : G Z := box_region (mkRegion off cap len).

Definition build_region (data : Slice) : G Z :=
  p ← try_u32 (slice_ptr data);
  c ← try_u32 (slice_len data);
  l ← try_u32 (slice_len data);
  build_region_from_components p c l.

Definition alloc (size : Z) : G Z :=
  data ← with_capacity size;
  p ← try_u32 (vec_ptr data);
  c ← try_u32 (vec_cap data);
  build_region_from_components p c 0.

Definition release_buffer (buffer : Vec) : G Z := build_region (as_slice buffer).

(** The box is freed when the function returns. *)
Definition consume_region (ptr : Z) : G Vec :=
  _ ← assert (negb (ptr =? 0));
  off ← load_u32 ptr;
  cap ← load_u32 (ptr + 4);
  len ← load_u32 (ptr + 8);
  _ ← assert (negb (off =? 0));
  _ ← drop_region ptr;
  mret (mkVec off len cap).

(** ** The exports of exports.rs that manage memory *)

Definition allocate_export (size : Z) : guest Mem :=
  alloc (as_u32 size) (fun p => GReturn (Some (as_i32 p))).
Definition deallocate_export (pointer : Z) : guest Mem :=
  (v ← consume_region (as_u32 pointer); drop_vec v) (fun _ => GReturn None).

End Memory.

(** ** Execution *)

Definition vm_with {Mem} (m : Mem) (vm : VM Mem) : VM Mem := mkVM (set_memory m (instance vm)) (trace vm).

Lemma vm_with_with {Mem} (m m' : Mem) vm : vm_with m (vm_with m' vm) = vm_with m vm.
Proof. done. Qed.
Lemma vm_with_memory {Mem} (vm : VM Mem) : vm_with (memory (instance vm)) vm = vm.
Proof. by destruct vm as [[] ?]. Qed.
Lemma vm_with_instance {Mem} (i : ContractInstance Mem) h : vm_with (memory i) (mkVM i h) = mkVM i h.
Proof. by destruct i. Qed.

(** ** More fuel changes nothing *)

Section Fuel.
Context {Mem : Type} `{WM : WasmMemory Mem}.
Context `{P : Crypto.Primitives} `{C : SecretMsg.Codecs} `{Ho : Host} `{BE : Bech32Errors}.
Context `{JQ : SecretMsg.Json QueryChain.QueryRequest} `{JA : SecretMsg.Json QueryChain.QueryAnswer}.
Context `{JS : SecretMsg.Json QueryChain.StdError} `{JE : QueryChain.JsonErrors}.
Variable km : Crypto.Keychain.
Variable depth : Z.

(** [b] ends as [a] wherever [a] ends. *)
Definition extends {E A} (a b : X Mem E A) : Prop := forall vm out, a vm = Some out -> b vm = Some out.

Lemma extends_refl {E A} (a : X Mem E A) : extends a a.
Proof. by intros vm out. Qed.
Lemma extends_bind {E A B} (a a' : X Mem E A) (f f' : A -> X Mem E B) :
  extends a a' -> (forall x, extends (f x) (f' x)) -> extends (a ≫= f) (a' ≫= f').
Proof.
  intros Ha Hf vm out. cbv [mbind X_bind]. destruct (a vm) as [[vm1 r]|] eqn:E1; [|done].
  rw (Ha _ _ E1). destruct r; [apply Hf|done..].
Qed.
Lemma extends_mapErr {E F A} (g : E -> F) (a a' : X Mem E A) :
  extends a a' -> extends (mapErrX g a) (mapErrX g a').
Proof.
  intros Ha vm out. unfold mapErrX. destruct (a vm) as [[vm1 r]|] eqn:E1; [|done]. by rw (Ha _ _ E1).
Qed.

Ltac extends_steps :=
  repeat (apply extends_refl || match goal with H : forall _, extends _ _ |- _ => apply H end ||
          (apply extends_bind; [|intros ?]) || apply extends_mapErr || case_match).

Lemma extends_write (r r' : Z -> X Mem RunError (option Z)) buf :
  (forall len, extends (r len) (r' len)) -> extends (write_to_memory r buf) (write_to_memory r' buf).
Proof. intros Hr. unfold write_to_memory, allocate. extends_steps. Qed.

Lemma extends_invoke (r r' : Z -> X Mem RunError (option Z)) index args :
  (forall len, extends (r len) (r' len)) ->
  extends (invoke_index km depth r index args) (invoke_index km depth r' index args).
Proof.
  intros Hr. assert (forall buf, extends (write_to_memory r buf) (write_to_memory r' buf)) as Hw
    by (intros; by apply extends_write).
  unfold invoke_index, read_db_index, query_chain_index, canonicalize_address_index, humanize_address_index,
    answer_text.
  destruct (HostFunctions_from index); extends_steps.
Qed.

Lemma run_more fuel g : extends (run (Mem := Mem) km depth fuel g) (run km depth (S fuel) g).
Proof.
  revert g. induction fuel as [|fuel IH]; intros g vm out Hg; [done|].
  cbn [run] in Hg. destruct g as [v|k|f|index args k]; cbn [run]; [done|done| |].
  - destruct (f (memory (instance vm))) as [m g']. by apply IH.
  - revert vm out Hg. apply extends_bind; [|intros v; apply IH].
    apply extends_invoke. intros len vm out. destruct (exp_allocate _); [apply IH|done].
Qed.

Lemma run_fuel n fuel g : extends (run (Mem := Mem) km depth fuel g) (run km depth (n + fuel) g).
Proof. induction n as [|n IH]; [apply extends_refl|]. intros vm out Hg. apply run_more. by apply IH. Qed.

End Fuel.

Section Execution.
Context {Mem : Type} `{WM : WasmMemory Mem}.
Context `{P : Crypto.Primitives} `{C : SecretMsg.Codecs} `{Ho : Host} `{BE : Bech32Errors}.
Context `{JQ : SecretMsg.Json QueryChain.QueryRequest} `{JA : SecretMsg.Json QueryChain.QueryAnswer}.
Context `{JS : SecretMsg.Json QueryChain.StdError} `{JE : QueryChain.JsonErrors}.
Variable km : Crypto.Keychain.
Variable depth : Z.
#[local] Abbreviation run := (run km depth).

(** From [vm], [n] steps are enough for the program [p] to reach [vm'], where it goes on with a
    value or ends with an error, whatever it is followed by. *)
Definition takes {A} (n : nat) (p : G Mem A) (vm vm' : VM Mem) (r : result RunError A) : Prop :=
  forall fuel k out,
    match r with
    | Ok a => run fuel (k a) vm' = Some out
    | Err e => out = (vm', Err e)
    | Panic => out = (vm', Panic)
    end -> run (n + fuel) (p k) vm = Some out.

Definition executes {A} (p : G Mem A) (vm vm' : VM Mem) (r : result RunError A) : Prop :=
  exists n, takes n p vm vm' r.

Lemma takes_ret {A} (a : A) vm : takes 0 (mret a) vm vm (Ok a).
Proof. by intros fuel k out. Qed.

Lemma takes_bind {A B} n1 n2 (p : G Mem A) (f : A -> G Mem B) vm vm1 vm2 a r :
  takes n1 p vm vm1 (Ok a) -> takes n2 (f a) vm1 vm2 r -> takes (n1 + n2) (p ≫= f) vm vm2 r.
Proof.
  intros T1 T2 fuel k out Hk. cbv [mbind G_bind]. rw -Nat.add_assoc. apply T1. by apply T2.
Qed.

Lemma takes_bind_err {A B} n (p : G Mem A) (f : A -> G Mem B) vm vm1 e :
  takes n p vm vm1 (Err e) -> takes n (p ≫= f) vm vm1 (Err e).
Proof. intros T fuel k out Hk. cbv [mbind G_bind]. by apply T. Qed.

Lemma takes_bind_panic {A B} n (p : G Mem A) (f : A -> G Mem B) vm vm1 :
  takes n p vm vm1 Panic -> takes n (p ≫= f) vm vm1 Panic.
Proof. intros T fuel k out Hk. cbv [mbind G_bind]. by apply T. Qed.

Lemma takes_memory {A} (f : Mem -> option (Mem * A)) vm m' a :
  f (memory (instance vm)) = Some (m', a) -> takes 1 (on_memory f) vm (vm_with m' vm) (Ok a).
Proof. intros Hf fuel k out Hk. cbn. by rw Hf. Qed.

Lemma takes_panic {A} vm : takes 1 (panic (A := A)) vm vm (Err (TrapErr Unreachable)).
Proof. by intros fuel k out ->. Qed.

Lemma executes_ret {A} (a : A) vm : executes (mret a) vm vm (Ok a).
Proof. exists 0%nat. apply takes_ret. Qed.
Lemma executes_bind {A B} (p : G Mem A) (f : A -> G Mem B) vm vm1 vm2 a r :
  executes p vm vm1 (Ok a) -> executes (f a) vm1 vm2 r -> executes (p ≫= f) vm vm2 r.
Proof. intros [n1 H1] [n2 H2]. exists (n1 + n2)%nat. by eapply takes_bind. Qed.
Lemma executes_bind_err {A B} (p : G Mem A) (f : A -> G Mem B) vm vm1 e :
  executes p vm vm1 (Err e) -> executes (p ≫= f) vm vm1 (Err e).
Proof. intros [n H1]. exists n. by apply takes_bind_err. Qed.
Lemma executes_bind_panic {A B} (p : G Mem A) (f : A -> G Mem B) vm vm1 :
  executes p vm vm1 Panic -> executes (p ≫= f) vm vm1 Panic.
Proof. intros [n H1]. exists n. by apply takes_bind_panic. Qed.

End Execution.

(** ** What the functions of memory.rs do *)

Section MemoryFacts.
Context {Mem : Type} `{WM : WasmMemory Mem} {ML : WasmMemoryLaws Mem} `{AL : Allocator Mem} {LL : AllocatorLaws Mem}.
Context `{P : Crypto.Primitives} `{C : SecretMsg.Codecs} `{Ho : Host} `{BE : Bech32Errors}.
Context `{JQ : SecretMsg.Json QueryChain.QueryRequest} `{JA : SecretMsg.Json QueryChain.QueryAnswer}.
Context `{JS : SecretMsg.Json QueryChain.StdError} `{JE : QueryChain.JsonErrors}.
Variable km : Crypto.Keychain.
Variable depth : Z.
#[local] Abbreviation frame := (frame (Mem := Mem) live).
#[local] Abbreviation executes := (executes (Mem := Mem) km depth).

(** A program that only works on memory and ends in the memory [m'] with [a]. *)
Definition computes {A} (p : G Mem A) (m m' : Mem) (a : A) : Prop :=
  forall vm, executes p (vm_with m vm) (vm_with m' vm) (Ok a).

(** A block that meets none of the blocks of [m]. *)
Definition fresh (m : Mem) (p n : Z) : Prop := forall q k, live m q k -> disjoint_blocks p n q k.

Lemma computes_ret {A} (a : A) m : computes (mret a) m m a.
Proof. intros vm. apply executes_ret. Qed.
Lemma computes_bind {A B} (p : G Mem A) (f : A -> G Mem B) m m1 m2 a b :
  computes p m m1 a -> computes (f a) m1 m2 b -> computes (p ≫= f) m m2 b.
Proof. intros H1 H2 vm. eapply executes_bind; [apply H1|apply H2]. Qed.
Lemma computes_memory {A} (f : Mem -> option (Mem * A)) m m' a :
  f m = Some (m', a) -> computes (on_memory f) m m' a.
Proof. intros Hf vm. exists 1%nat. by apply (takes_memory _ _ f (vm_with m vm)). Qed.

Lemma frame_refl m : frame m m.
Proof. by intros q k Hl. Qed.
Lemma frame_trans m1 m2 m3 : frame m1 m2 -> frame m2 m3 -> frame m1 m3.
Proof.
  intros H1 H2 q k [Hl E1]%H1. destruct (H2 q k Hl) as [Hl2 E2]. split; [done|].
  intros o n Hlo Hn. by rw E2 // E1.
Qed.
Lemma fresh_frame m m' p n : frame m m' -> fresh m' p n -> fresh m p n.
Proof. intros Hf Hn q k [Hl _]%Hf. by apply Hn. Qed.

(** Writing to or freeing a block allocated since [base] leaves what was there before. *)
Lemma frame_store base m p n o d :
  frame base m -> fresh base p n -> live m p n -> p <= o -> o + Z.of_nat (length d) <= p + n ->
  exists m', mem_set m o d = Some m' /\ frame base m' /\ (forall q k, live m q k -> live m' q k) /\
    room m <= room m'.
Proof.
  intros Hf Hn Hl Hlo Hd. destruct (live_store m p n o d Hl Hlo Hd) as (m' & Hs & Hk & Hr).
  exists m'. split_and!; [done| |done|done]. intros q k Hq. destruct (Hf q k Hq) as [Hq' E].
  split; [by apply Hk|]. intros o' l Hlo' Hl'. rw (get_after_set_apart _ _ _ _ o' l Hs); [by apply E|].
  destruct (Hn q k Hq); lia.
Qed.

Lemma frame_free base m p n al :
  frame base m -> fresh base p n -> live m p n -> frame base (free m p n al).
Proof.
  intros Hf Hn Hl q k Hq. destruct (Hf q k Hq) as [Hq' E].
  destruct (free_keeps m p n al q k Hl Hq' (Hn q k Hq)) as [Hk E']. split; [done|].
  intros o l Hlo Hol. by rw E' // E.
Qed.

(** The descriptor of a region in memory. *)
Definition region_at (m : Mem) (p : Z) (r : Region) : Prop :=
  get_u32 m p = Some (offset r) /\ get_u32 m (p + 4) = Some (capacity r) /\
  get_u32 m (p + 8) = Some (region_length r).

Lemma region_at_same m m' p r :
  (forall o n, p <= o -> o + Z.of_nat n <= p + REGION_SIZE -> mem_get m' o n = mem_get m o n) ->
  region_at m p r -> region_at m' p r.
Proof.
  intros Eq (E0 & E4 & E8). unfold region_at, get_u32, REGION_SIZE in *.
  rw !Eq; [done|lia..].
Qed.

Lemma allocate_block_computes m n al :
  0 < n <= ISIZE_MAX -> n + SLACK <= room m ->
  exists m' p, computes (allocate_block n al) m m' p /\ live m' p n /\ fresh m p n /\ frame m m' /\
    room m - (n + SLACK) <= room m'.
Proof.
  intros Hn Hr. destruct (malloc_live m n al Hn Hr) as (m' & p & Hm & Hl & Hf & Hk & Hr').
  exists m', p. split_and!; [|done..]. intros vm. exists 1%nat. intros fuel k' out Hk'. cbn. by rw Hm.
Qed.

Lemma set_u32_frame base m p n o v :
  frame base m -> fresh base p n -> live m p n -> p <= o -> o + 4 <= p + n -> 0 <= v < 2^32 ->
  exists m', set_u32 m o v = Some m' /\ frame base m' /\ (forall q k, live m q k -> live m' q k) /\
    room m <= room m' /\ get_u32 m' o = Some v /\
    (forall o', o' + 4 <= o \/ o + 4 <= o' -> get_u32 m' o' = get_u32 m o').
Proof.
  intros Hf Hn Hl Hlo Hlo' Hv.
  destruct (frame_store base m p n o (rev (be_bytes 4 v)) Hf Hn Hl Hlo) as (m' & Hs & Hk & Hlv & Hr).
  { rw length_rev be_bytes_length. lia. }
  exists m'. split_and!; [done..| |].
  - by apply (get_set_u32 m).
  - intros o' Ha. apply (get_u32_apart m m' o _ o' Hs). rw length_rev be_bytes_length. lia.
Qed.

Lemma store_u32_computes m m' o v : set_u32 m o v = Some m' -> computes (store_u32 o v) m m' tt.
Proof. intros Hs. apply computes_memory. by rw Hs. Qed.

Definition is_u32 (z : Z) : Prop := 0 <= z < 2^32.

Lemma box_region_computes m r :
  is_u32 (offset r) -> is_u32 (capacity r) -> is_u32 (region_length r) -> REGION_SIZE + SLACK <= room m ->
  exists m' p, computes (box_region r) m m' p /\ region_at m' p r /\ live m' p REGION_SIZE /\
    fresh m p REGION_SIZE /\ frame m m' /\ room m - (REGION_SIZE + SLACK) <= room m'.
Proof.
  intros Hlo Hc Hl Hr. unfold REGION_SIZE in *.
  destruct (allocate_block_computes m 12 4) as (m1 & p & X1 & L1 & F1 & K1 & R1); [unfold ISIZE_MAX; lia|done|].
  destruct (set_u32_frame m m1 p 12 p (offset r)) as (m2 & X2 & K2 & L2 & R2 & E2 & A2);
    [done|done|done|lia|lia|done|].
  destruct (set_u32_frame m m2 p 12 (p + 4) (capacity r)) as (m3 & X3 & K3 & L3 & R3 & E3 & A3);
    [done|done|by apply L2|lia|lia|done|].
  destruct (set_u32_frame m m3 p 12 (p + 8) (region_length r)) as (m4 & X4 & K4 & L4 & R4 & E4 & A4);
    [done|done|by apply L3, L2|lia|lia|done|].
  exists m4, p. split_and!; [|split_and!|by apply L4, L3, L2|done|done|lia].
  - eapply computes_bind; [done|]. do 3 (eapply computes_bind; [by apply store_u32_computes|]). apply computes_ret.
  - rw A4; [|lia]. rw A3; [done|lia].
  - rw A4; [done|lia].
  - done.
Qed.

(** Memory of [cap] bytes at [off]: a live block, or nothing for no bytes. *)
Definition owns (m : Mem) (off cap : Z) : Prop :=
  (cap = 0 /\ off = DANGLING) \/ live m off cap.

Lemma owns_bounds m off cap : owns m off cap -> 0 < off /\ 0 <= cap /\ off + cap <= 2^32.
Proof. intros [[-> ->]|H%live_bounds]; unfold DANGLING in *; lia. Qed.

Lemma fresh_dangling m : fresh m DANGLING 0.
Proof. intros q k H%live_bounds. left. unfold DANGLING. lia. Qed.

Lemma owns_keeps m m' off cap : (forall q k, live m q k -> live m' q k) -> owns m off cap -> owns m' off cap.
Proof. intros Hk [?|?]; [by left|right; by apply Hk]. Qed.
Lemma owns_frame m m' off cap : frame m m' -> owns m off cap -> owns m' off cap.
Proof. intros Hf. apply owns_keeps. by intros q k [? _]%Hf. Qed.

Lemma get_frame m m' off cap n :
  frame m m' -> owns m off cap -> Z.of_nat n <= cap -> mem_get m' off n = mem_get m off n.
Proof.
  intros Hf [[-> ->]|Hl] Hn; [|apply (Hf off cap Hl); lia].
  assert (n = 0%nat) as -> by lia. by rw !dangling_get.
Qed.

(** Writing to memory of one's own. *)
Lemma owned_store base m off cap d :
  frame base m -> fresh base off cap -> owns m off cap -> Z.of_nat (length d) <= cap ->
  exists m', mem_set m off d = Some m' /\ frame base m' /\ (forall q k, live m q k -> live m' q k) /\
    room m <= room m'.
Proof.
  intros Hf Hn [[-> ->]|Hl] Hd; [|apply (frame_store base m off cap); by [|lia]].
  assert (d = []) as -> by (destruct d; [done|cbn in Hd; lia]). exists m. by rw dangling_set.
Qed.

(** A vector of the bytes [d] that was allocated after [base]. *)
Definition vec_holds (base m : Mem) (v : Vec) (d : bytes) : Prop :=
  frame base m /\ owns m (vec_ptr v) (vec_cap v) /\ fresh base (vec_ptr v) (vec_cap v) /\
  vec_len v = Z.of_nat (length d) /\ vec_len v <= vec_cap v /\
  mem_get m (vec_ptr v) (length d) = Some d.

(** A region whose buffer holds the bytes [d], both allocated after [base]. *)
Definition region_holds (base m : Mem) (p : Z) (d : bytes) : Prop :=
  exists off cap, region_at m p (mkRegion off cap (Z.of_nat (length d))) /\
    live m p REGION_SIZE /\ fresh base p REGION_SIZE /\ disjoint_blocks p REGION_SIZE off cap /\
    vec_holds base m (mkVec off (Z.of_nat (length d)) cap) d.

(** A slice into a block of the program, or an empty one. *)
Definition slice_holds (m : Mem) (s : Slice) (d : bytes) : Prop :=
  slice_len s = Z.of_nat (length d) /\ mem_get m (slice_ptr s) (length d) = Some d /\
  ((d = [] /\ slice_ptr s = DANGLING) \/
   exists q k, live m q k /\ q <= slice_ptr s < q + k /\ slice_ptr s + slice_len s <= q + k).

Lemma slice_frame m m' s d : frame m m' -> slice_holds m s d -> slice_holds m' s d.
Proof.
  intros Hf (Hl & Hg & [[-> Hp]|(q & k & Hq & Hlo & Hhi)]); (split; [done|]).
  - split; [rw Hp; apply dangling_get|by left].
  - destruct (Hf q k Hq) as [Hq' E]. split; [rw E //; lia|right; eauto].
Qed.

Lemma vec_slice base m v d : vec_holds base m v d -> slice_holds m (as_slice v) d.
Proof.
  intros (Hf & [[Hc Hp]|Hl] & Hn & He & Hle & Hg); (split; [done|]); (split; [done|]).
  - left. split; [destruct d; [done|cbn in He; lia]|done].
  - right. exists (vec_ptr v), (vec_cap v). cbn. split; [done|]. apply live_bounds in Hl. lia.
Qed.

Lemma slice_u32 m s d : slice_holds m s d -> is_u32 (slice_ptr s) /\ is_u32 (slice_len s) /\ slice_ptr s <> 0.
Proof.
  unfold is_u32. intros (Hl & Hg & [[-> Hp]|(q & k & Hq%live_bounds & Hlo & Hhi)]).
  - rw Hp Hl. unfold DANGLING. cbn. lia.
  - lia.
Qed.

Lemma try_u32_computes m z : is_u32 z -> computes (try_u32 z) m m z.
Proof.
  intros Hz. unfold try_u32, is_u32, U32_MAX in *.
  destruct (Z.leb_spec 0 z), (Z.leb_spec z (2^32 - 1)); try lia. apply computes_ret.
Qed.

Lemma build_region_computes m s d :
  slice_holds m s d -> REGION_SIZE + SLACK <= room m ->
  exists m' p, computes (build_region s) m m' p /\
    region_at m' p (mkRegion (slice_ptr s) (slice_len s) (slice_len s)) /\ live m' p REGION_SIZE /\
    fresh m p REGION_SIZE /\ frame m m' /\ room m - (REGION_SIZE + SLACK) <= room m'.
Proof.
  intros (Hp & Hl & _)%slice_u32 Hr.
  destruct (box_region_computes m (mkRegion (slice_ptr s) (slice_len s) (slice_len s))) as (m' & p & X & H');
    [done..|].
  exists m', p. split; [|done]. unfold build_region.
  eapply computes_bind; [by apply try_u32_computes|].
  eapply computes_bind; [by apply try_u32_computes|].
  by eapply computes_bind; [apply try_u32_computes|].
Qed.

Lemma with_capacity_computes m cap :
  0 <= cap <= ISIZE_MAX -> cap + SLACK <= room m ->
  exists m' off, computes (with_capacity cap) m m' (mkVec off 0 cap) /\ owns m' off cap /\ fresh m off cap /\
    frame m m' /\ room m - (cap + SLACK) <= room m'.
Proof.
  intros Hc Hr. unfold with_capacity. destruct (Z.gtb_spec cap ISIZE_MAX); [lia|].
  destruct (Z.eqb_spec cap 0) as [->|].
  - exists m, DANGLING. split_and!; [apply computes_ret|by left|apply fresh_dangling|apply frame_refl|unfold SLACK; lia].
  - destruct (allocate_block_computes m cap 1) as (m' & p & X & L & F & K & R); [lia|done|].
    exists m', p. split_and!; [|by right|done..]. eapply computes_bind; [done|apply computes_ret].
Qed.

Lemma vec_of_computes m d :
  Z.of_nat (length d) <= ISIZE_MAX -> Z.of_nat (length d) + SLACK <= room m ->
  exists m' v, computes (vec_of d) m m' v /\ vec_holds m m' v d /\
    room m - (Z.of_nat (length d) + SLACK) <= room m'.
Proof.
  intros Hd Hr. destruct (with_capacity_computes m (Z.of_nat (length d))) as (m1 & off & X1 & O1 & F1 & K1 & R1);
    [lia|done|].
  destruct (owned_store m m1 off (Z.of_nat (length d)) d) as (m2 & S2 & K2 & L2 & R2); [done..|].
  exists m2, (mkVec off (Z.of_nat (length d)) (Z.of_nat (length d))). split_and!; [|split_and!|lia]; cbn; try done.
  - eapply computes_bind; [done|]. eapply computes_bind; [apply computes_memory; by rw S2|apply computes_ret].
  - by eapply owns_keeps.
  - by apply (get_after_set m1).
Qed.

Lemma read_slice_computes m s d : slice_holds m s d -> computes (read_slice s) m m d.
Proof. intros (Hl & Hg & _). apply computes_memory. by rw Hl Nat2Z.id Hg. Qed.

Lemma drop_vec_computes base m v d :
  vec_holds base m v d ->
  exists m', computes (drop_vec v) m m' tt /\ frame base m' /\ room m <= room m'.
Proof.
  intros (Hf & Ho' & Hn & _). unfold drop_vec. destruct (Z.eqb_spec (vec_cap v) 0) as [E|E].
  - exists m. split_and!; [apply computes_ret|done|lia].
  - destruct Ho' as [[? _]|Hl]; [done|]. eexists. split; [by apply computes_memory|].
    split; [by apply frame_free|by apply free_room].
Qed.
(** A region with room for [cap] bytes, allocated after [base] and not yet filled. *)
Definition region_free (base m : Mem) (p cap : Z) : Prop :=
  exists off, region_at m p (mkRegion off cap 0) /\ live m p REGION_SIZE /\ fresh base p REGION_SIZE /\
    owns m off cap /\ fresh base off cap /\ disjoint_blocks p REGION_SIZE off cap /\ frame base m.

Lemma disjoint_sym p n q k : disjoint_blocks p n q k -> disjoint_blocks q k p n.
Proof. unfold disjoint_blocks. lia. Qed.

Lemma fresh_owns m p n off cap : 0 < p -> fresh m p n -> owns m off cap -> disjoint_blocks p n off cap.
Proof. intros Hp Hf [[-> ->]|Hl]; [right; unfold DANGLING; lia|by apply Hf]. Qed.

Lemma alloc_computes m size :
  0 <= size <= ISIZE_MAX -> size + SLACK + (REGION_SIZE + SLACK) <= room m ->
  exists m' p, computes (alloc size) m m' p /\ region_free m m' p size /\
    room m - (size + SLACK + (REGION_SIZE + SLACK)) <= room m'.
Proof.
  intros Hs Hr.
  destruct (with_capacity_computes m size) as (m1 & off & X1 & O1 & F1 & K1 & R1);
    [done|unfold REGION_SIZE, SLACK in *; lia|].
  pose proof (owns_bounds _ _ _ O1) as Hb.
  assert (is_u32 off /\ is_u32 size) as [Uo Us].
  { unfold is_u32, ISIZE_MAX in *. destruct O1 as [[-> ->]|H1%live_bounds]; unfold DANGLING in *; lia. }
  destruct (box_region_computes m1 (mkRegion off size 0)) as (m2 & p & X2 & A2 & L2 & F2 & K2 & R2);
    [done|done|done|lia|].
  exists m2, p. split_and!; [| |lia].
  - unfold alloc. eapply computes_bind; [done|].
    eapply computes_bind; [by apply try_u32_computes|].
    by eapply computes_bind; [apply try_u32_computes|].
  - exists off. pose proof (live_bounds _ _ _ L2).
    split_and!; [done|done|by eapply fresh_frame|by eapply owns_frame|done|by eapply fresh_owns; [lia|..]|
      by eapply frame_trans].
Qed.

(** A released buffer: the capacity is forgotten, the bytes stay. *)
Lemma release_buffer_computes base m v d :
  vec_holds base m v d -> REGION_SIZE + SLACK <= room m ->
  exists m' p, computes (release_buffer v) m m' p /\
    region_at m' p (mkRegion (vec_ptr v) (vec_len v) (vec_len v)) /\ 0 < p /\ p + REGION_SIZE <= 2^32 /\
    mem_get m' (vec_ptr v) (length d) = Some d /\ vec_ptr v <> 0 /\ frame base m' /\
    room m - (REGION_SIZE + SLACK) <= room m'.
Proof.
  intros Hv Hr. pose proof (vec_slice _ _ _ _ Hv) as Hs.
  destruct (build_region_computes m (as_slice v) d Hs Hr) as (m' & p & X & A & L & F & K & R).
  destruct Hv as (Hf & Hown & Hn & He & Hle & Hg).
  pose proof (live_bounds _ _ _ L). pose proof (owns_bounds _ _ _ Hown).
  exists m', p. split_and!; [done|done|lia|lia| |lia|by eapply frame_trans|done].
  rw (get_frame m m' _ (vec_cap v) _ K Hown); [done|lia].
Qed.

(** A vector survives the release of another block. *)
Lemma vec_free_other base m p n al v d :
  live m p n -> fresh base p n -> disjoint_blocks p n (vec_ptr v) (vec_cap v) -> vec_holds base m v d ->
  vec_holds base (free m p n al) v d.
Proof.
  intros Hl Hn Hd (Hf & Hown & Hfr & He & Hle & Hg).
  split_and!; [by apply frame_free| |done|done|done|].
  - destruct Hown as [?|Ho2]; [by left|right]. by eapply free_keeps.
  - destruct Hown as [[Hc Hp]|Ho2].
    + assert (d = []) as -> by (destruct d; [done|cbn in *; lia]). rw Hp. apply dangling_get.
    + rw -Hg. eapply (free_keeps m p n al (vec_ptr v) (vec_cap v)); [done|done|done|lia|lia].
Qed.

Lemma consume_region_exact m p off cap len :
  region_at m p (mkRegion off cap len) -> live m p REGION_SIZE -> owns m off cap ->
  computes (consume_region p) m (free m p REGION_SIZE 4) (mkVec off len cap).
Proof.
  intros (E0 & E4 & E8) Hl Hown. cbn in *.
  pose proof (live_bounds _ _ _ Hl). pose proof (owns_bounds _ _ _ Hown).
  unfold consume_region. destruct (Z.eqb_spec p 0); [lia|].
  eapply computes_bind; [apply computes_ret|].
  eapply computes_bind; [apply computes_memory; by rw E0|].
  eapply computes_bind; [apply computes_memory; by rw E4|].
  eapply computes_bind; [apply computes_memory; by rw E8|].
  destruct (Z.eqb_spec off 0); [lia|].
  eapply computes_bind; [apply computes_ret|].
  eapply computes_bind; [by apply computes_memory|apply computes_ret].
Qed.

(** The bytes at the pointer the program was given become a vector, and the descriptor is freed. *)
Lemma consume_region_computes base m p d :
  region_holds base m p d ->
  exists m' v, computes (consume_region p) m m' v /\ vec_holds base m' v d /\ room m <= room m'.
Proof.
  intros (off & cap & Hr & Hl & Hn & Hd & Hv).
  eexists _, _. split_and!; [apply consume_region_exact; [done|done|apply Hv]| |by apply free_room].
  by apply vec_free_other.
Qed.

(** The enclave's [write_to_allocated_memory] on a region the contract allocated. *)
Lemma host_fills_region base m p cap d vm :
  region_free base m p cap -> Z.of_nat (length d) <= cap -> cap <= ISIZE_MAX ->
  exists m', write_to_allocated_memory d p (vm_with m vm) = Some (vm_with m' vm, Ok p) /\
    region_holds base m' p d /\ room m <= room m'.
Proof.
  intros (off & (E0 & E4 & E8) & Hl & Hn & Hown & Hfr & Hd & Hf) Hlen Hcap. cbn in *.
  pose proof (live_bounds _ _ _ Hl) as Hb. pose proof (owns_bounds _ _ _ Hown).
  unfold REGION_SIZE, ISIZE_MAX in *.
  assert (as_u32 (Z.of_nat (length d)) = Z.of_nat (length d)) as Hu by (apply Z.mod_small; lia).
  assert (as_u32 (p + 4) = p + 4) as H4 by (apply Z.mod_small; lia).
  assert (as_u32 (p + 8) = p + 8) as H8 by (apply Z.mod_small; lia).
  destruct (owned_store base m off cap d) as (m1 & S1 & K1 & L1 & R1); [done..|].
  destruct (set_u32_frame base m1 p 12 (p + 8) (Z.of_nat (length d))) as (m2 & S2 & K2 & L2 & R2 & G2 & A2);
    [done|done|by apply L1|lia|lia|lia|].
  exists m2. split_and!; [| |lia].
  - unfold write_to_allocated_memory. cbv [mbind X_bind readI liftX modifyI]. cbn [instance vm_with memory set_memory].
    rw E0. cbn [ok_or]. destruct (Z.eqb_spec off 0); [lia|]. rw H4 E4 Hu. cbn [ok_or].
    destruct (Z.ltb_spec cap (Z.of_nat (length d))); [lia|]. rw S1. cbn [ok_or]. rw H8 S2. done.
  - assert (forall o, p <= o -> o + 4 <= p + 12 -> get_u32 m1 o = get_u32 m o) as B1.
    { intros o Hlo Hhi. apply (get_u32_apart m m1 off d o S1). destruct Hd; lia. }
    exists off, cap. split_and!; [split_and!; cbn|by apply L2, L1|done|done|split_and!; cbn]; try done.
    + rw A2; [|lia]. rw B1 //; lia.
    + rw A2; [|lia]. rw B1 //; lia.
    + by eapply owns_keeps, owns_keeps.
    + unfold set_u32 in S2. rw (get_after_set_apart m1 m2 (p + 8) _ off _ S2); [by apply (get_after_set m)|].
      rw length_rev be_bytes_length. destruct Hd; lia.
Qed.
Lemma vec_holds_frame base m m' v d : vec_holds base m v d -> frame m m' -> vec_holds base m' v d.
Proof.
  intros (Hf & Hown & Hn & He & Hle & Hg) Hm. split_and!; [by eapply frame_trans|by eapply owns_frame|done..|].
  rw (get_frame m m' _ _ _ Hm Hown); [done|lia].
Qed.

(** Freeing another block that was allocated after [base] and before the vector. *)
Lemma vec_after_free base m1 m2 p n al v d :
  frame base m1 -> live m1 p n -> fresh base p n -> vec_holds m1 m2 v d ->
  vec_holds base (free m2 p n al) v d.
Proof.
  intros Hf1 Hl Hfr (Hf & Hown & Hn & Hrest). apply vec_free_other; [by apply Hf|done|by apply disjoint_sym, Hn|].
  split_and!; [by eapply frame_trans|done|by apply (fresh_frame _ m1)|apply Hrest..].
Qed.

(** Two regions the host filled one after the other, consumed in the same order. *)
Lemma consume_two m m1 m2 ep eb mp mb :
  region_holds m m1 ep eb -> region_holds m1 m2 mp mb ->
  exists m' env msg, computes (env ← consume_region ep; msg ← consume_region mp; mret (env, msg)) m2 m' (env, msg) /\
    vec_holds m m' env eb /\ vec_holds m m' msg mb /\
    disjoint_blocks (vec_ptr msg) (vec_cap msg) (vec_ptr env) (vec_cap env) /\ room m2 <= room m'.
Proof.
  intros (o1 & c1 & A1 & L1 & F1 & D1 & V1) (o2 & c2 & A2 & L2 & F2 & D2 & V2).
  assert (frame m1 m2) as K2 by apply V2. assert (frame m m1) as K1 by apply V1.
  assert (frame m m2) as K by (by eapply frame_trans).
  set (v1 := mkVec o1 (Z.of_nat (length eb)) c1) in *. set (v2 := mkVec o2 (Z.of_nat (length mb)) c2) in *.
  assert (owns m1 o1 c1) as O1 by apply V1. assert (owns m2 o2 c2) as O2 by apply V2.
  assert (fresh m1 o2 c2) as N2 by apply V2.
  pose proof (live_bounds _ _ _ L2) as B2. pose proof (owns_bounds _ _ _ O2) as B2'.
  assert (disjoint_blocks mp REGION_SIZE o1 c1) as D3 by (by eapply fresh_owns; [lia|..]).
  assert (disjoint_blocks o2 c2 o1 c1) as D4 by (by eapply fresh_owns; [lia|..]).
  assert (disjoint_blocks ep REGION_SIZE mp REGION_SIZE) as D5 by (by apply disjoint_sym, F2).
  assert (disjoint_blocks ep REGION_SIZE o2 c2) as D6 by (by apply disjoint_sym, N2).
  assert (live m2 ep REGION_SIZE) as L1' by (by apply K2).
  assert (vec_holds m m2 v1 eb) as V1' by (by eapply vec_holds_frame).
  assert (vec_holds m m2 v2 mb) as V2'.
  { destruct V2 as (_ & _ & _ & Hrest). split_and!; [done|done|by apply (fresh_frame _ m1)|apply Hrest..]. }
  assert (region_at m2 ep (mkRegion o1 c1 (Z.of_nat (length eb)))) as A1'.
  { eapply region_at_same; [|exact A1]. by apply K2. }
  set (m3 := free m2 ep REGION_SIZE 4).
  destruct (free_keeps m2 ep REGION_SIZE 4 mp REGION_SIZE L1' L2 D5) as [L3 Eq3].
  assert (region_at m3 mp (mkRegion o2 c2 (Z.of_nat (length mb)))) as A3.
  { by eapply region_at_same. }
  assert (vec_holds m m3 v1 eb) as V13 by (by apply vec_free_other).
  assert (vec_holds m m3 v2 mb) as V23 by (by apply vec_free_other).
  assert (fresh m mp REGION_SIZE) as F2' by (by apply (fresh_frame _ m1)).
  exists (free m3 mp REGION_SIZE 4), v1, v2. split_and!; [|by apply vec_free_other..|done|].
  - eapply computes_bind; [apply consume_region_exact; [done|done|apply V1']|].
    eapply computes_bind; [apply consume_region_exact; [done|done|apply V23]|apply computes_ret].
  - pose proof (free_room m2 ep REGION_SIZE 4 L1'). pose proof (free_room m3 mp REGION_SIZE 4 L3). fold m3 in H. lia.
Qed.

Lemma drop_vec_other base m v d w e :
  vec_holds base m v d -> vec_holds base m w e -> disjoint_blocks (vec_ptr v) (vec_cap v) (vec_ptr w) (vec_cap w) ->
  exists m', computes (drop_vec v) m m' tt /\ vec_holds base m' w e /\ room m <= room m'.
Proof.
  intros (Hf & Hown & Hn & _) Hw Hd. unfold drop_vec. destruct (Z.eqb_spec (vec_cap v) 0) as [E|E].
  - exists m. split_and!; [apply computes_ret|done|lia].
  - destruct Hown as [[? _]|Hl]; [done|]. eexists. split; [by apply computes_memory|].
    split; [by apply vec_free_other|by apply free_room].
Qed.

Lemma drop_region_computes base m p :
  frame base m -> fresh base p REGION_SIZE -> live m p REGION_SIZE ->
  computes (drop_region p) m (free m p REGION_SIZE 4) tt /\ frame base (free m p REGION_SIZE 4) /\
  room m <= room (free m p REGION_SIZE 4).
Proof.
  intros Hf Hn Hl. split_and!; [by apply computes_memory|by apply frame_free|by apply free_room].
Qed.

(** A buffer that is too small is refused. *)
Lemma host_refuses_region base m p cap d vm :
  region_free base m p cap -> cap < Z.of_nat (length d) <= ISIZE_MAX ->
  write_to_allocated_memory d p (vm_with m vm) = Some (vm_with m vm, Err WMemoryWriteError).
Proof.
  intros (off & (E0 & E4 & E8) & Hl & _ & Hown & _) Hlen. cbn in *.
  pose proof (live_bounds _ _ _ Hl) as Hb. pose proof (owns_bounds _ _ _ Hown).
  unfold REGION_SIZE, ISIZE_MAX in *.
  assert (as_u32 (Z.of_nat (length d)) = Z.of_nat (length d)) as Hu by (apply Z.mod_small; lia).
  assert (as_u32 (p + 4) = p + 4) as H4 by (apply Z.mod_small; lia).
  unfold write_to_allocated_memory. cbv [mbind X_bind readI liftX modifyI]. cbn [instance vm_with memory set_memory].
  rw E0. cbn [ok_or]. destruct (Z.eqb_spec off 0); [lia|]. rw H4 E4 Hu. cbn [ok_or].
  by destruct (Z.ltb_spec cap (Z.of_nat (length d))); [|lia].
Qed.

Lemma region_free_frame base m m' p cap : region_free base m p cap -> frame m m' -> region_free base m' p cap.
Proof.
  intros (off & Hr & Hl & Hn & Hown & Hfr & Hd & Hf) Hm. exists off. destruct (Hm _ _ Hl) as [Hl' Eq].
  split_and!; [by eapply region_at_same|done|done|by eapply owns_frame|done|done|by eapply frame_trans].
Qed.

(** The enclave reads what a region built over a slice describes. *)
Lemma host_reads_slice m p s d vm :
  region_at m p (mkRegion (slice_ptr s) (slice_len s) (slice_len s)) -> live m p REGION_SIZE -> slice_holds m s d ->
  extract_vector p (vm_with m vm) = Some (vm_with m vm, Ok d).
Proof.
  intros (E0 & E4 & E8) Hl Hs. cbn in *. pose proof (live_bounds _ _ _ Hl) as Hb. unfold REGION_SIZE in Hb.
  destruct (slice_u32 _ _ _ Hs) as (_ & _ & Hp). destruct Hs as (Hlen & Hg & _).
  cbv [extract_vector mbind X_bind readI liftX]. cbn [instance vm_with memory set_memory].
  unfold extract_vector_inner. rw E0. cbn [mbind option_bind]. destruct (Z.eqb_spec (slice_ptr s) 0); [done|].
  assert (as_u32 (p + 8) = p + 8) as -> by (apply Z.mod_small; lia).
  rw E8. cbn [mbind option_bind]. by rw Hlen Nat2Z.id Hg.
Qed.
End MemoryFacts.
