(* ===== verification/GuestArena.v ===== *)
(** * A concrete allocator

    A bump allocator over a memory of fixed size that hands the block freed last out again: it
    has the laws of GuestMemory.v and runs the contracts of the examples. *)

From stdpp Require Import base tactics list numbers ssreflect.
From S2P Require Import Prelude Runtime GuestMemory.

Local Open Scope Z_scope.

Record arena : Type := mkArena { cells : bytes; brk : Z; blocks : list (Z * Z); spare : option (Z * Z) }.

(** Address 0 is not a cell. *)
Definition whole (a : arena) : bytes := Byte.x00 :: cells a.
Definition arena_get (a : arena) (o : Z) (n : nat) : option bytes := list_get (whole a) o n.
Definition arena_set (a : arena) (o : Z) (d : bytes) : option arena :=
  if bool_decide (0 < o) then
    w ← list_set (whole a) o d;
    Some (mkArena (tail w) (brk a) (blocks a) (spare a))
  else None.
Definition arena_memory : WasmMemory arena := {| mem_get := arena_get; mem_set := arena_set |}.

Definition round_up (z : Z) : Z := 8 * ((z + 7) / 8).
Definition arena_malloc (a : arena) (size align : Z) : option (arena * Z) :=
  match spare a with
  | Some (p, n) =>
      if bool_decide (n = size) then Some (mkArena (cells a) (brk a) ((p, n) :: blocks a) None, p)
      else
        let q := round_up (brk a) in
        if q + size <=? Z.of_nat (length (whole a))
        then Some (mkArena (cells a) (q + size) ((q, size) :: blocks a) (spare a), q) else None
  | None =>
      let q := round_up (brk a) in
      if q + size <=? Z.of_nat (length (whole a))
      then Some (mkArena (cells a) (q + size) ((q, size) :: blocks a) None, q) else None
  end.
Definition arena_free (a : arena) (p n align : Z) : arena :=
  if bool_decide ((p, n) ∈ blocks a)
  then mkArena (cells a) (brk a) (filter (fun b => b <> (p, n)) (blocks a)) (Some (p, n))
  else a.
Definition arena_allocator : Allocator arena := {| malloc := arena_malloc; free := arena_free |}.

(** ** Its invariant *)

Definition apart_from (b c : Z * Z) : Prop := disjoint_blocks b.1 b.2 c.1 c.2.
Fixpoint apart (l : list (Z * Z)) : Prop :=
  match l with [] => True | b :: l' => Forall (apart_from b) l' /\ apart l' end.
Definition all_blocks (a : arena) : list (Z * Z) := option_list (spare a) ++ blocks a.
Definition block_ok (limit : Z) (b : Z * Z) : Prop := 0 < b.1 /\ 0 < b.2 /\ b.1 + b.2 <= limit.
Definition arena_ok (a : arena) : Prop :=
  0 < brk a <= Z.of_nat (length (whole a)) /\ Z.of_nat (length (whole a)) <= ISIZE_MAX /\
  Forall (block_ok (brk a)) (all_blocks a) /\ apart (all_blocks a).

#[local] Instance apart_from_dec b c : Decision (apart_from b c).
Proof. unfold apart_from, disjoint_blocks. apply _. Defined.
#[local] Instance apart_dec l : Decision (apart l).
Proof. induction l; cbn; apply _. Defined.
#[local] Instance block_ok_dec n b : Decision (block_ok n b).
Proof. unfold block_ok. apply _. Defined.
#[local] Instance arena_ok_dec a : Decision (arena_ok a).
Proof. unfold arena_ok. apply _. Defined.

Definition arena_live (a : arena) (p n : Z) : Prop := arena_ok a /\ (p, n) ∈ blocks a.
Definition arena_room (a : arena) : Z :=
  if decide (arena_ok a) then Z.of_nat (length (whole a)) - brk a else -1.

#[local] Existing Instance arena_memory.
#[local] Existing Instance arena_allocator.

Lemma set_whole (a b : arena) o d : arena_set a o d = Some b ->
  0 < o /\ list_set (whole a) o d = Some (whole b) /\ length (whole b) = length (whole a) /\
  brk b = brk a /\ blocks b = blocks a /\ spare b = spare a.
Proof.
  unfold arena_set, list_set. case_bool_decide as Ho; [|done]. case_bool_decide as Hd; [|done].
  cbn [mbind option_bind]. intros [= <-]. cbn [brk blocks spare cells whole].
  destruct (Z.to_nat o) as [|k] eqn:Ek; [lia|]. cbn [take app tail whole cells].
  split_and!; [done|done| |done..].
  unfold whole in *. cbn [length cells] in *. rw !length_app length_take length_drop. cbn [length]. lia.
Qed.

Lemma arena_laws : @WasmMemoryLaws arena arena_memory.
Proof.
  split; cbn [mem_get mem_set arena_memory]; unfold arena_get.
  - intros m m' o d (_ & Hs & _)%set_whole. by apply (@get_after_set _ _ list_memory_laws) in Hs.
  - intros m m' o d o' n (_ & Hs & _)%set_whole Ha. by apply (@get_after_set_apart _ _ list_memory_laws _ _ _ _ o' n) in Hs.
Qed.

Lemma arena_ok_cells a b :
  length (whole b) = length (whole a) -> brk b = brk a -> blocks b = blocks a -> spare b = spare a ->
  arena_ok a -> arena_ok b.
Proof. unfold arena_ok, all_blocks. by intros -> -> -> ->. Qed.

Lemma room_ok a : arena_ok a -> arena_room a = Z.of_nat (length (whole a)) - brk a.
Proof. intros Ha. unfold arena_room. by rewrite decide_True. Qed.

Lemma apart_elem l b c : apart l -> b ∈ l -> c ∈ l -> b = c \/ apart_from b c.
Proof.
  induction l as [|x l IH]; [by intros _ ?%elem_of_nil|]. intros [Hx Hl]. rw !elem_of_cons.
  intros [->|Hb] [->|Hc].
  - by left.
  - right. by eapply Forall_forall in Hx.
  - right. eapply Forall_forall in Hx; [|done]. unfold apart_from, disjoint_blocks in *. lia.
  - by apply IH.
Qed.

Lemma apart_filter l (Q : Z * Z -> Prop) `{forall x, Decision (Q x)} : apart l -> apart (filter Q l).
Proof.
  induction l as [|x l IH]; [done|]. intros [Hx Hl]. rw filter_cons. case_decide; [|by apply IH].
  split; [|by apply IH]. apply Forall_forall. intros y [_ Hy]%list_elem_of_filter. by eapply Forall_forall in Hx.
Qed.

Lemma arena_live_store a p n o d :
  arena_live a p n -> p <= o -> o + Z.of_nat (length d) <= p + n ->
  exists b, arena_set a o d = Some b /\ (forall q k, arena_live a q k -> arena_live b q k) /\ arena_room a <= arena_room b.
Proof.
  intros [Hok Hb] Ho Hd. assert (block_ok (brk a) (p, n)) as (Hp & Hn & Hlim).
  { destruct Hok as (_ & _ & Hall & _). eapply Forall_forall; [exact Hall|]. unfold all_blocks. rw elem_of_app. by right. }
  cbn in *. destruct Hok as (Hbrk & Hlen & Hrest) eqn:E. clear E.
  assert (exists w, list_set (whole a) o d = Some w) as [w Hw].
  { unfold list_set. rw bool_decide_true; [by eexists|lia]. }
  assert (arena_set a o d = Some (mkArena (tail w) (brk a) (blocks a) (spare a))) as Hs.
  { unfold arena_set. rw bool_decide_true; [|lia]. by rw Hw. }
  destruct (set_whole _ _ _ _ Hs) as (_ & _ & El & Eb & Ebl & Es).
  assert (arena_ok (mkArena (tail w) (brk a) (blocks a) (spare a))) as Hok' by (by eapply arena_ok_cells).
  eexists. split_and!; [done|by intros q k [_ Hq]|]. by rw !room_ok // El Eb.
Qed.

(** Adding a block to a list of blocks that are all apart. *)
Lemma apart_app_cons l1 l2 b :
  apart (l1 ++ l2) -> Forall (apart_from b) (l1 ++ l2) -> apart (l1 ++ b :: l2).
Proof.
  induction l1 as [|x l1 IH]; [by split|]. cbn. intros [Hx Hl] Hb. apply Forall_cons in Hb as [Hbx Hb].
  split; [|by apply IH]. apply Forall_app in Hx as [H1 H2]. apply Forall_app. split; [done|]. constructor; [|done].
  unfold apart_from, disjoint_blocks in *. lia.
Qed.

(** A new block behind all others. *)
Lemma arena_bump a q size :
  arena_ok a -> 0 < size -> brk a <= q -> q + size <= Z.of_nat (length (whole a)) ->
  arena_ok (mkArena (cells a) (q + size) ((q, size) :: blocks a) (spare a)).
Proof.
  intros (Hb & Hl & Hall & Hap) Hs Hq Hlim. unfold arena_ok, all_blocks in *.
  change (whole (mkArena _ _ _ _)) with (whole a). cbn [brk spare blocks].
  assert (Forall (block_ok (q + size)) (option_list (spare a) ++ blocks a)) as Hall'.
  { eapply Forall_impl; [exact Hall|]. intros c (? & ? & ?). split_and!; [done|done|lia]. }
  split_and!; [lia|lia|lia| |].
  - apply Forall_app in Hall' as [H1 H2]. apply Forall_app. split; [done|]. constructor; [|done].
    split_and!; cbn; lia.
  - apply apart_app_cons; [done|]. eapply Forall_impl; [exact Hall|]. intros c (? & ? & ?). right. cbn. lia.
Qed.

(** The block freed last in use again. *)
Lemma arena_reuse a p n :
  arena_ok a -> spare a = Some (p, n) -> arena_ok (mkArena (cells a) (brk a) ((p, n) :: blocks a) None).
Proof.
  intros (Hb & Hl & Hall & Hap) Hs. unfold arena_ok, all_blocks in *. rw Hs in Hall Hap.
  change (whole (mkArena _ _ _ _)) with (whole a). cbn [brk]. by split_and!; [lia|lia|lia| |].
Qed.

Lemma arena_release a p n al : arena_live a p n -> arena_ok (arena_free a p n al).
Proof.
  intros [(Hb & Hl & Hall & Hap) Hin]. unfold arena_free. rw bool_decide_true //.
  unfold arena_ok, all_blocks in *. change (whole (mkArena _ _ _ _)) with (whole a). cbn [brk spare blocks option_list app].
  apply Forall_app in Hall as [_ Hall]. assert (apart (blocks a)) as Hap'.
  { destruct (spare a); cbn in Hap; [by destruct Hap|done]. }
  assert (Forall (fun b => block_ok (brk a) b /\ (b = (p, n) \/ apart_from (p, n) b)) (blocks a)) as Hboth.
  { apply Forall_forall. intros b Hbin. split; [by eapply Forall_forall in Hall|].
    destruct (apart_elem _ (p, n) b Hap' Hin Hbin) as [<-|?]; [by left|by right]. }
  split_and!; [lia..| |].
  - constructor; [by eapply Forall_forall in Hall|]. apply Forall_forall. intros b [_ Hbin]%list_elem_of_filter.
    by eapply Forall_forall in Hall.
  - split; [|by apply apart_filter]. apply Forall_forall. intros b [Hne Hbin]%list_elem_of_filter.
    eapply Forall_forall in Hboth as [_ [?|?]]; done.
Qed.

Lemma live_block a p n : arena_live a p n -> block_ok (brk a) (p, n).
Proof.
  intros [(_ & _ & Hall & _) Hin]. eapply Forall_forall; [exact Hall|]. unfold all_blocks. rw elem_of_app. by right.
Qed.

Lemma round_up_bounds z : z <= round_up z < z + 8.
Proof. unfold round_up. pose proof (Z.div_mod (z + 7) 8). pose proof (Z.mod_pos_bound (z + 7) 8). lia. Qed.

Lemma arena_malloc_cases a n al :
  arena_ok a -> 0 < n -> n + SLACK <= arena_room a ->
  exists b p, arena_malloc a n al = Some (b, p) /\ cells b = cells a /\ arena_ok b /\ (p, n) ∈ blocks b /\
    (forall c, c ∈ blocks a -> c ∈ blocks b /\ apart_from (p, n) c) /\ brk b <= brk a + n + SLACK.
Proof.
  intros Hok Hn Hroom. rw room_ok // in Hroom. pose proof (round_up_bounds (brk a)) as Hq. unfold SLACK in *.
  assert (arena_ok (mkArena (cells a) (round_up (brk a) + n) ((round_up (brk a), n) :: blocks a) (spare a))) as Hbump.
  { apply arena_bump; [done|lia|lia|lia]. }
  assert (forall c, c ∈ blocks a -> c ∈ (round_up (brk a), n) :: blocks a /\ apart_from (round_up (brk a), n) c) as Hold.
  { intros c Hc. split; [by right|]. destruct c as [q k]. destruct (live_block a q k (conj Hok Hc)) as (? & ? & ?).
    right. cbn in *. lia. }
  unfold arena_malloc. destruct (Z.leb_spec (round_up (brk a) + n) (Z.of_nat (length (whole a)))) as [Hle|]; [|lia].
  destruct (spare a) as [[p k]|] eqn:Es.
  2: { eexists _, _. split_and!; [done|done|done|by left|done|cbn; lia]. }
  case_bool_decide as Hk.
  2: { eexists _, _. split_and!; [done|done|done|by left|done|cbn; lia]. }
  subst k. pose proof (arena_reuse a p n Hok Es) as Hre.
  eexists _, _. split_and!; [done|done|done|by left| |cbn; lia].
  intros c Hc. split; [by right|]. destruct Hok as (_ & _ & _ & Hap). unfold all_blocks in Hap. rw Es in Hap.
  destruct Hap as [Hf _]. by eapply Forall_forall in Hf.
Qed.

Definition arena_allocator_laws : AllocatorLaws arena.
Proof.
  refine {| live := arena_live; room := arena_room |}.
  - intros m p n Hl. destruct (live_block _ _ _ Hl) as (? & ? & ?). destruct Hl as [(? & ? & _) _].
    unfold ISIZE_MAX in *. cbn in *. lia.
  - apply arena_live_store.
  - intros m n al Hn Hroom. assert (arena_ok m) as Hok.
    { unfold arena_room in Hroom. case_decide; [done|]. unfold SLACK in *. lia. }
    destruct (arena_malloc_cases m n al Hok) as (b & p & Hm & Hc & Hb & Hin & Hold & Hbrk); [lia|done|].
    exists b, p. split_and!; [done|done|intros q k [_ Hq]; apply (Hold (q, k) Hq)| |].
    + intros q k [_ Hq]. split; [split; [done|by apply Hold]|]. intros o l _ _. cbn. unfold arena_get, whole. by rw Hc.
    + rw !room_ok //. unfold whole. rw Hc. lia.
  - intros m p n al q k Hl [Hok Hq] Hd. split.
    + split; [by apply arena_release|]. cbn. unfold arena_free. destruct Hl as [_ Hin]. rw bool_decide_true //. cbn.
      apply list_elem_of_filter. split; [|done]. intros [= -> ->]. destruct (live_block m p n (conj Hok Hin)) as (? & ? & ?).
      destruct Hd; cbn in *; lia.
    + intros o l _ _. cbn. unfold arena_free. by case_bool_decide.
  - intros m. unfold arena_room. case_decide as Hok; [|unfold ISIZE_MAX; lia]. destruct Hok as (? & ? & _). lia.
  - intros m p n al Hl. pose proof (arena_release m p n al Hl) as Hok. rw room_ok; [|apply Hl]. rw room_ok //.
    cbn. unfold arena_free. case_bool_decide; cbn; lia.
  - intros m. cbn. unfold arena_get, list_get, DANGLING. rw bool_decide_true; [done|cbn; lia].
  - intros m. cbn. unfold arena_set, list_set, DANGLING. rw !bool_decide_true; [|cbn; lia|lia]. by destruct m.
Defined.
