(* ===== verification/Operations.v ===== *)
(** * The three entry points: wasmi-runtime/src/wasm/contract_operations.rs and memory.rs

    [init], [handle] and [query]: parsing, authentication, decryption, loading of the
    contract, the call and the encryption of the output.  Parsing, instrumenting and
    instantiating a wasm module (crates parity-wasm, pwasm-utils, wasmi) are the class
    [WasmLoader]. *)

From Stdlib Require Import Strings.String.
From stdpp Require Import base tactics list numbers strings ssreflect.
From S2P Require Import Prelude Crypto SecretMsg Signatures Validation EnclaveDb QueryChain Runtime.

Local Open Scope string_scope.
Local Open Scope list_scope.

(** ** memory.rs *)

Record MemoryType : Type := mkMemoryType { initial_pages : Z; maximum_pages : option Z }.

Class WasmLoader (Mem : Type) : Type := {
  ParityModule : Type;
  WasmiModule : Type;
  deserialize_buffer : bytes -> option ParityModule;
  memory_section : ParityModule -> option (list MemoryType);
  with_memory_section : ParityModule -> list MemoryType -> ParityModule;
  inject_gas_counter : ParityModule -> (InstructionType -> Z) * Z -> option ParityModule;
  from_parity_wasm_module : ParityModule -> option WasmiModule;
  has_floating_point : WasmiModule -> bool;
  (** The exports, the memory if it is exported, and whether there is a start function. *)
  new_instance : WasmiModule -> option (Exports Mem * option Mem * bool)
}.
#[global] Hint Mode WasmLoader + : typeclass_instances.

Class WasmLoaderLaws (Mem : Type) `{WasmLoader Mem} : Prop := {
  section_after_set (p : ParityModule (Mem := Mem)) s :
    memory_section (with_memory_section p s) = Some s
}.

Definition maximum_allowed_pages : Z := 192.

Definition validate_memory {Mem} `{WasmLoader Mem} (p : ParityModule (Mem := Mem))
  : result EnclaveError (ParityModule (Mem := Mem)) :=
  entries ← ok_or CannotInitializeWasmMemory (memory_section p);
  if negb (length entries =? 1)%nat then Err CannotInitializeWasmMemory
  else
    memory_entry ← ok_or CannotInitializeWasmMemory (head entries);
    let requested_initial_pages := initial_pages memory_entry in
    if (requested_initial_pages >? maximum_allowed_pages)%Z then Err CannotInitializeWasmMemory
    else Ok (with_memory_section p
               [mkMemoryType requested_initial_pages (Some maximum_allowed_pages)]).

(** ** contract_operations.rs *)

Record InitSuccess : Type := mkInitSuccess { init_output : bytes; init_contract_key : bytes }.

(** What an operation leaves behind: the ocalls, the gas it reported if it did, and its
    result. *)
Record Outcome (A : Type) : Type := mkOutcome {
  out_trace : Trace;
  out_gas : option Z;
  out_result : result EnclaveError A
}.
Arguments mkOutcome {A} out_trace out_gas out_result.
Arguments out_trace {A} o.
Arguments out_gas {A} o.
Arguments out_result {A} o.

Section Operations.
Context {Mem : Type} `{WM : WasmMemory Mem} `{WL : WasmLoader Mem}.
Context `{P : Primitives} `{C : Codecs} `{Pr : Prost} `{Ho : Host} `{BE : Bech32Errors}.
Context `{Json Env} `{Json SigInfo} `{Json SignDoc} `{Json (list Coin)}.
Context `{Json Value} `{Json string} `{Json WasmOutput}.
Context `{Json QueryRequest} `{Json QueryAnswer} `{Json StdError} `{JE : JsonErrors}.
Variable km : Keychain.
Variable depth : Z.
Variable fuel : nat.

Definition start_engine (limit : Z) (code key : bytes) (op : ContractOperation) (n : IoNonce) (pk : bytes)
  : result EnclaveError (ContractInstance Mem) :=
  p_module ← ok_or InvalidWasm (deserialize_buffer code);
  p_module ← validate_memory p_module;
  let wasm_costs := default_wasm_costs in
  contract_module ← ok_or FailedGasMeteringInjection (inject_gas_counter p_module (gas_rules wasm_costs));
  module ← ok_or InvalidWasm (from_parity_wasm_module contract_module);
  if has_floating_point module then Err WasmModuleWithFP
  else
    inst ← ok_or InvalidWasm (new_instance module);
    let '(exports, mem, has_start) := inst in
    if has_start : bool then Err WasmModuleWithStart
    else
      m ← expect mem;
      Ok (mkInstance m limit 0 0 wasm_costs key exports op n pk).

(** The block whose errors still report the gas used: the call, its output, the
    encryption of the output. *)
Definition run_and_encrypt (call : X Mem EnclaveError Z) (n : IoNonce) (pk addr : bytes)
  : X Mem EnclaveError bytes :=
  vec_ptr ← call;
  output ← mapErrX engine_to_enclave_error (extract_vector vec_ptr);
  liftX (encrypt_output km output n pk addr).

(** Runs the engine from the first argument on. [args] writes the arguments to memory;
    an error there reports no gas. *)
Definition drive {A B} (h : Trace) (started : result EnclaveError (ContractInstance Mem))
    (args : X Mem EnclaveError A) (call : A -> X Mem EnclaveError Z) (n : IoNonce) (pk addr : bytes)
    (success : bytes -> B) : option (Outcome B) :=
  match started with
  | Ok i =>
      match args (mkVM i h) with
      | None => None
      | Some (vm, Ok a) =>
          match run_and_encrypt (call a) n pk addr vm with
          | None => None
          | Some (vm', Panic) => Some (mkOutcome (trace vm') None Panic)
          | Some (vm', r) =>
              Some (mkOutcome (trace vm') (Some (gas_used (instance vm'))) (success <$> r))
          end
      | Some (vm, Err e) => Some (mkOutcome (trace vm) None (Err e))
      | Some (vm, Panic) => Some (mkOutcome (trace vm) None Panic)
      end
  | Err e => Some (mkOutcome h None (Err e))
  | Panic => Some (mkOutcome h None Panic)
  end.

(** Continues with the value of a check that touches nothing. *)
Definition check {A B} (r : result EnclaveError A) (h : Trace) (k : A -> option (Outcome B))
  : option (Outcome B) :=
  match r with
  | Ok a => k a
  | Err e => Some (mkOutcome h None (Err e))
  | Panic => Some (mkOutcome h None Panic)
  end.

Definition with_code_hash (env : Env) (code : bytes) : Env :=
  mkEnv (block env) (message env) (contract env) (contract_key env)
    (hex_encode (calc_contract_hash code)).

(** Serialises the environment and writes it and the message to the contract's memory. *)
Definition write_args (env : Env) (code validated_msg : bytes) : X Mem EnclaveError (Z * Z) :=
  new_env ← liftX (ok_or FailedToSerialize (json_to_vec (with_code_hash env code)));
  env_ptr ← engine_write_to_memory km depth fuel new_env;
  msg_ptr ← engine_write_to_memory km depth fuel validated_msg;
  mret (env_ptr, msg_ptr).

Definition init (limit : Z) (code env msg_bytes sig_info : bytes) (h : Trace)
  : option (Outcome InitSuccess) :=
  check (ok_or FailedToDeserialize (json_from_slice env)) h (fun parsed_env =>
  check (ok_or FailedToDeserialize (CanonicalAddr_from_human (address (contract parsed_env)))) h (fun addr =>
  check (generate_encryption_key km parsed_env code addr) h (fun key =>
  check (ok_or FailedToDeserialize (json_from_slice sig_info)) h (fun info =>
  check (secret_from_slice msg_bytes) h (fun secret_msg =>
  check (verify_params km info parsed_env secret_msg) h (fun _ =>
  check (decrypt km secret_msg) h (fun decrypted_msg =>
  check (validate_msg decrypted_msg code) h (fun validated_msg =>
  drive h (start_engine limit code key OpInit (nonce secret_msg) (user_public_key secret_msg))
    (write_args parsed_env code validated_msg)
    (fun p => engine_init km depth fuel p.1 p.2)
    (nonce secret_msg) (user_public_key secret_msg) addr
    (fun output => mkInitSuccess output key))))))))).

(** The source parses the message a second time before decrypting it; parsing is pure, so the
    first result is used here. *)
Definition handle (limit : Z) (code env msg_bytes sig_info : bytes) (h : Trace)
  : option (Outcome bytes) :=
  check (ok_or FailedToDeserialize (json_from_slice env)) h (fun parsed_env =>
  check (ok_or FailedToDeserialize (json_from_slice sig_info)) h (fun info =>
  check (secret_from_slice msg_bytes) h (fun secret_msg =>
  check (verify_params km info parsed_env secret_msg) h (fun _ =>
  check (extract_contract_key parsed_env) h (fun key =>
  check (decrypt km secret_msg) h (fun decrypted_msg =>
  check (validate_msg decrypted_msg code) h (fun validated_msg =>
  check (ok_or FailedToDeserialize (CanonicalAddr_from_human (address (contract parsed_env)))) h (fun addr =>
  check (validate_contract_key km key addr code) h (fun valid : bool =>
  if negb valid then Some (mkOutcome h None (Err FailedContractAuthentication))
  else
  drive h (start_engine limit code key OpHandle (nonce secret_msg) (user_public_key secret_msg))
    (write_args parsed_env code validated_msg)
    (fun p => engine_handle km depth fuel p.1 p.2)
    (nonce secret_msg) (user_public_key secret_msg) addr (fun output => output)))))))))).

Definition query (limit : Z) (code msg_bytes : bytes) (h : Trace) : option (Outcome bytes) :=
  if (length msg_bytes <? CONTRACT_KEY_LENGTH)%nat
  then Some (mkOutcome h None (Err FailedFunctionCall))
  else
    let key := take CONTRACT_KEY_LENGTH msg_bytes in
    let body := drop CONTRACT_KEY_LENGTH msg_bytes in
    check (secret_from_slice body) h (fun secret_msg =>
    check (decrypt km secret_msg) h (fun decrypted_msg =>
    check (validate_msg decrypted_msg code) h (fun validated_msg =>
    drive h (start_engine limit code key OpQuery (nonce secret_msg) (user_public_key secret_msg))
      (engine_write_to_memory km depth fuel validated_msg)
      (fun msg_ptr => engine_query km depth fuel msg_ptr)
      (nonce secret_msg) (user_public_key secret_msg) [] (fun output => output)))).

End Operations.

(** ** Properties *)

(** A module that passes validate_memory has exactly one memory, with at most 192 initial pages
    and the maximum set to 192 pages. *)
Theorem validated_memory_is_bounded {Mem} `{WasmLoaderLaws Mem} (p p' : ParityModule (Mem := Mem)) :
  validate_memory p = Ok p' ->
  exists n, memory_section p' = Some [mkMemoryType n (Some maximum_allowed_pages)] /\
            (n <= maximum_allowed_pages)%Z.
Proof.
  unfold validate_memory. destruct (memory_section p) as [entries|]; [|done].
  cbn [ok_or mbind result_bind]. destruct (negb _); [done|].
  destruct (head entries) as [e|]; [|done]. cbn [ok_or mbind result_bind].
  destruct (Z.gtb_spec (initial_pages e) maximum_allowed_pages); [done|]. intros [= <-].
  exists (initial_pages e). rw section_after_set. by split; [|lia].
Qed.

Section OperationFacts.
Context {Mem : Type} `{WM : WasmMemory Mem} `{WL : WasmLoader Mem}.
Context `{P : Primitives} `{C : Codecs} `{Pr : Prost} `{Ho : Host} `{BE : Bech32Errors}.
Context `{Json Env} `{Json SigInfo} `{Json SignDoc} `{Json (list Coin)}.
Context `{Json Value} `{Json string} `{Json WasmOutput}.
Context `{Json QueryRequest} `{Json QueryAnswer} `{Json StdError} `{JE : JsonErrors}.
Variable km : Keychain.
Variable depth : Z.
Variable fuel : nat.

Lemma check_cases {A B} (r : result EnclaveError A) h (k : A -> option (Outcome B)) o :
  check r h k = Some o ->
  (out_trace o = h /\ is_ok (out_result o) = false) \/ exists a, r = Ok a /\ k a = Some o.
Proof.
  destruct r as [a|e|]; cbn; intros E; [right; by exists a|left; by simplify_eq..].
Qed.

(** C1: handle makes no ocall and returns no output unless the message parsed, its signature or
    callback signature verified, the contract key authenticated this address and code, and
    the message decrypted and named this code. *)
Theorem handle_is_authenticated limit code env msg_bytes sig_info h o :
  handle (Mem := Mem) km depth fuel limit code env msg_bytes sig_info h = Some o ->
  (out_trace o = h /\ is_ok (out_result o) = false) \/
  exists parsed_env info m key addr plain inner,
    json_from_slice env = Some parsed_env /\ json_from_slice sig_info = Some info /\
    secret_from_slice msg_bytes = Ok m /\ verify_params km info parsed_env m = Ok tt /\
    extract_contract_key parsed_env = Ok key /\
    CanonicalAddr_from_human (address (contract parsed_env)) = Some addr /\
    validate_contract_key km key addr code = Ok true /\
    decrypt km m = Ok plain /\ validate_msg plain code = Ok inner.
Proof.
  unfold handle. intros [?|(e & He & Hh)]%check_cases; [by left|].
  apply check_cases in Hh as [?|(info & Hi & Hh)]; [by left|].
  apply check_cases in Hh as [?|(m & Hm & Hh)]; [by left|].
  apply check_cases in Hh as [?|([] & Hv & Hh)]; [by left|].
  apply check_cases in Hh as [?|(key & Hk & Hh)]; [by left|].
  apply check_cases in Hh as [?|(plain & Hp & Hh)]; [by left|].
  apply check_cases in Hh as [?|(inner & Hn & Hh)]; [by left|].
  apply check_cases in Hh as [?|(addr & Ha & Hh)]; [by left|].
  apply check_cases in Hh as [?|([|] & Hvalid & Hh)]; [by left| |left; cbn in Hh; by simplify_eq].
  destruct (json_from_slice env) as [e'|] eqn:Ee; [|done].
  destruct (json_from_slice sig_info) as [i'|] eqn:Es; [|done].
  destruct (CanonicalAddr_from_human _) as [a'|] eqn:Ea; [|done]. cbn in He, Hi, Ha. simplify_eq.
  right. by exists e, info, m, key, addr, plain, inner.
Qed.

(** The ocalls of a drive are those of the contract. *)
Lemma drive_evolves {A B} h started (args : X Mem EnclaveError A) call n pk addr (success : bytes -> B) o i :
  started = Ok i -> safe (fun _ => True) args -> (forall a, safe (fun _ => True) (call a)) ->
  drive km h started args call n pk addr success = Some o ->
  exists new, out_trace o = new ++ h /\ (is_query (operation i) = true -> Forall read_only new).
Proof.
  intros -> Ha Hc. unfold drive.
  assert (forall a, safe (fun _ => True) (run_and_encrypt (Mem := Mem) km (call a) n pk addr)) as Hr.
  { intros a. unfold run_and_encrypt. safe_steps; [apply Hc|apply safe_extract]. }
  destruct (args (mkVM i h)) as [[vm r]|] eqn:Ea; [|done].
  destruct (Ha _ _ _ I Ea) as [E1 _].
  assert (forall vm', evolves (mkVM i h) vm' -> exists new, trace vm' = new ++ h /\
            (is_query (operation i) = true -> Forall read_only new)) as Hev.
  { by intros vm' (_ & _ & _ & Hnew). }
  destruct r as [a|e|]; [|intros [= <-]; by apply Hev..].
  destruct (run_and_encrypt km (call a) n pk addr vm) as [[vm' r']|] eqn:Er; [|done].
  destruct (Hr _ _ _ _ I Er) as [E2 _].
  destruct r'; intros [= <-]; apply Hev; by eapply evolves_trans.
Qed.

Lemma start_engine_operation limit code key op n pk i :
  start_engine (Mem := Mem) limit code key op n pk = Ok i -> operation i = op.
Proof.
  unfold start_engine. destruct (deserialize_buffer code); [|done]. cbn [ok_or mbind result_bind].
  destruct (validate_memory _); [|done..]. cbn [mbind result_bind].
  destruct (inject_gas_counter _ _); [|done]. cbn [ok_or mbind result_bind].
  destruct (from_parity_wasm_module _) as [m|]; [|done]. cbn [ok_or mbind result_bind].
  destruct (has_floating_point m); [done|]. destruct (new_instance m) as [[[ex mm] st]|]; [|done].
  cbn [ok_or mbind result_bind]. destruct st; [done|]. destruct mm; [|done]. by intros [= <-].
Qed.

Lemma safe_engine_write buf : safe (Mem := Mem) (fun _ => True) (engine_write_to_memory km depth fuel buf).
Proof.
  unfold engine_write_to_memory. apply safe_mapErr, safe_write. intros Q len. apply safe_weaken.
  intros vm vm' r _. destruct (exp_allocate _) as [g|]; [by apply safe_run|].
  intros [= <- <-]. split; [apply evolves_refl|done].
Qed.

Lemma safe_invoke_export g : safe (Mem := Mem) (fun _ => True) (invoke_export km depth fuel g).
Proof. unfold invoke_export. safe_steps. apply safe_run. Qed.

(** C8: The query entry point makes only read and query ocalls, for any contract code, message
    and host. *)
Theorem query_operation_is_read_only limit code msg_bytes h o :
  query (Mem := Mem) km depth fuel limit code msg_bytes h = Some o ->
  exists new, out_trace o = new ++ h /\ Forall read_only new.
Proof.
  assert (forall o' : Outcome bytes, out_trace o' = h -> exists new, out_trace o' = new ++ h /\ Forall read_only new)
    as Hnone.
  { intros o' ->. by exists []. }
  unfold query. destruct (length msg_bytes <? _)%nat; [intros [= <-]; by apply Hnone|].
  intros [[? _]|(m & Hm & Hh)]%check_cases; [by apply Hnone|].
  apply check_cases in Hh as [[? _]|(plain & Hp & Hh)]; [by apply Hnone|].
  apply check_cases in Hh as [[? _]|(inner & Hn & Hh)]; [by apply Hnone|].
  destruct (start_engine _ _ _ _ _ _) as [i|e|] eqn:Es; [|injection Hh as <-; by apply Hnone..].
  eapply drive_evolves in Hh as (new & Ht & Hq); [|reflexivity|apply safe_engine_write|].
  2: { intros p. unfold engine_query. safe_steps. apply safe_invoke_export. }
  exists new. split; [done|]. apply Hq. by rw (start_engine_operation _ _ _ _ _ _ _ Es).
Qed.

(** C16: The contract key returned by a successful init is 64 bytes long and is the one the
    handle entry point accepts for this contract address and code. *)
Theorem init_key_opens_handle {HP : PrimitiveLaws} limit code env msg_bytes sig_info h o s :
  init (Mem := Mem) km depth fuel limit code env msg_bytes sig_info h = Some o -> out_result o = Ok s ->
  exists parsed_env addr, json_from_slice env = Some parsed_env /\
    CanonicalAddr_from_human (address (contract parsed_env)) = Some addr /\
    length (init_contract_key s) = CONTRACT_KEY_LENGTH /\
    validate_contract_key km (init_contract_key s) addr code = Ok true.
Proof.
  assert (forall o' : Outcome InitSuccess, is_ok (out_result o') = false -> out_result o' = Ok s -> False)
    as Hno.
  { intros o' Hf Hs'. by rw Hs' in Hf. }
  unfold init. intros [[_ ?]|(e & He & Hh)]%check_cases Hs; [by destruct (Hno o)|].
  apply check_cases in Hh as [[_ ?]|(addr & Ha & Hh)]; [by destruct (Hno o)|].
  apply check_cases in Hh as [[_ ?]|(key & Hk & Hh)]; [by destruct (Hno o)|].
  do 5 (apply check_cases in Hh as [[_ ?]|(? & _ & Hh)]; [by destruct (Hno o)|]).
  destruct (json_from_slice env) as [e'|] eqn:Ee; [|done].
  destruct (CanonicalAddr_from_human _) as [a'|] eqn:Ea; [|done]. cbn in He, Ha. simplify_eq.
  exists e, addr. split; [done|]. split; [done|].
  assert (init_contract_key s = key) as ->; [|by apply (generated_key_validates km e)].
  unfold drive in Hh. destruct (start_engine _ _ _ _ _ _) as [i| |]; [|by simplify_eq/=..].
  destruct (write_args _ _ _ _ _ _ _) as [[vm [p| |]]|]; [|by simplify_eq/=..].
  destruct (run_and_encrypt _ _ _ _ _ _) as [[vm' [out| |]]|]; by simplify_eq/=.
Qed.

End OperationFacts.

(** ** The properties at a concrete contract *)

#[local] Existing Instance list_memory.
#[local] Existing Instance demo_primitives.
#[local] Existing Instance demo_primitive_laws.
#[local] Existing Instance demo_codecs.
#[local] Existing Instance demo_prost.
#[local] Existing Instance demo_host.
#[local] Existing Instance demo_bech32_errors.
#[local] Existing Instance demo_json_errors.
#[local] Existing Instance no_json.
#[local] Existing Instance demo_json_coins.
#[local] Existing Instance demo_json_string.
#[local] Existing Instance demo_json_value.
#[local] Existing Instance demo_json_signdoc.

(** A contract whose exports hand out and return the region at 16. *)
Definition demo_exports : Exports bytes :=
  mkExports (Some (fun _ => GReturn (Some 16%Z))) (Some (fun _ _ => GReturn (Some 16%Z)))
    (Some (fun _ _ => GReturn (Some 16%Z))) (Some (fun _ => GCall 0 [16%Z] (fun _ => GReturn (Some 16%Z)))).

Definition demo_loader : WasmLoader bytes := {|
  ParityModule := list MemoryType;
  WasmiModule := unit;
  deserialize_buffer _ := Some [mkMemoryType 17 None];
  memory_section p := Some p;
  with_memory_section _ s := s;
  inject_gas_counter p _ := Some p;
  from_parity_wasm_module _ := Some tt;
  has_floating_point _ := false;
  new_instance _ := Some (demo_exports, Some demo_memory, false)
|}.
#[local] Existing Instance demo_loader.

Lemma demo_loader_laws : WasmLoaderLaws bytes.
Proof. by split. Qed.
#[local] Existing Instance demo_loader_laws.

Lemma validated_memory_is_bounded_witness :
  exists n, memory_section (Mem := bytes) [mkMemoryType 17 (Some 192%Z)]
            = Some [mkMemoryType n (Some maximum_allowed_pages)] /\ (n <= maximum_allowed_pages)%Z.
Proof.
  exact (validated_memory_is_bounded (Mem := bytes) [mkMemoryType 17 None]
           [mkMemoryType 17 (Some 192%Z)] eq_refl).
Defined.

(** The environment and signature the host passes in are fixed. *)
Definition demo_json_env : Json Env := {|
  json_to_vec _ := Some (lit "env");
  json_from_slice _ :=
    Some (mkEnv (mkBlock 12 1571797419 "secret-1") (mkMessage "alice" [mkCoin "uscrt" "5"])
            (mkContract "to") (Some (string_of_list_byte demo_contract_key)) "")
|}.
Definition demo_json_siginfo : Json SigInfo := {|
  json_to_vec _ := None;
  json_from_slice _ := Some demo_callback
|}.
Definition demo_json_output : Json WasmOutput := {|
  json_to_vec _ := Some (lit "output");
  json_from_slice _ := Some (OkString "done")
|}.
#[local] Existing Instance demo_json_env.
#[local] Existing Instance demo_json_siginfo.
#[local] Existing Instance demo_json_output.

Lemma handle_is_authenticated_witness :
  exists o, handle (Mem := bytes) demo_km 1 5 1000 demo_code [] demo_call.1 [] [] = Some o /\
    out_result o = Ok (lit "output") /\
    exists m, secret_from_slice demo_call.1 = Ok m.
Proof.
  assert ((fun o => out_result <$> o)
            (handle (Mem := bytes) demo_km 1 5 1000 demo_code [] demo_call.1 [] [])
          = Some (Ok (lit "output"))) as Hr by (vm_compute; reflexivity).
  destruct (handle (Mem := bytes) demo_km 1 5 1000 demo_code [] demo_call.1 [] []) as [o|] eqn:E;
    [|discriminate]. cbn in Hr. injection Hr as Hr.
  exists o. split; [reflexivity|]. split; [exact Hr|].
  destruct (handle_is_authenticated (Mem := bytes) demo_km 1 5 1000 demo_code [] demo_call.1 [] [] o E)
    as [[_ Hf]|(env & info & m & key & addr & plain & inner & _ & _ & Hm & _)].
  - rw Hr in Hf. discriminate.
  - exists m. exact Hm.
Defined.

Lemma init_key_opens_handle_witness :
  exists o s, init (Mem := bytes) demo_km 1 5 1000 demo_code [] demo_call.1 [] [] = Some o /\
    out_result o = Ok s /\ length (init_contract_key s) = CONTRACT_KEY_LENGTH.
Proof.
  assert ((fun o => is_ok ∘ out_result <$> o)
            (init (Mem := bytes) demo_km 1 5 1000 demo_code [] demo_call.1 [] [])
          = Some true) as Hr by (vm_compute; reflexivity).
  destruct (init (Mem := bytes) demo_km 1 5 1000 demo_code [] demo_call.1 [] []) as [o|] eqn:E;
    [|discriminate]. cbn in Hr.
  destruct (out_result o) as [s| |] eqn:Ho; [|discriminate..].
  destruct (init_key_opens_handle (Mem := bytes) demo_km 1 5 1000 demo_code [] demo_call.1 [] [] o s E Ho)
    as (env & addr & _ & _ & Hl & _).
  exists o, s. split; [reflexivity|]. split; [exact Ho|exact Hl].
Defined.

Lemma query_operation_is_read_only_witness :
  exists o, query (Mem := bytes) demo_km 1 5 1000 demo_code (demo_contract_key ++ demo_call.1) [] = Some o /\
    is_ok (out_result o) = true /\ length (out_trace o) = 1 /\ Forall read_only (out_trace o).
Proof.
  assert ((fun o => (fun o' => (is_ok (out_result o'), length (out_trace o'))) <$> o)
            (query (Mem := bytes) demo_km 1 5 1000 demo_code (demo_contract_key ++ demo_call.1) [])
          = Some (true, 1)) as Hr by (vm_compute; reflexivity).
  destruct (query (Mem := bytes) demo_km 1 5 1000 demo_code (demo_contract_key ++ demo_call.1) [])
    as [o|] eqn:E; [|discriminate]. cbn in Hr. injection Hr as Hr1 Hr2.
  destruct (query_operation_is_read_only (Mem := bytes) demo_km 1 5 1000 demo_code
              (demo_contract_key ++ demo_call.1) [] o E) as (new & Ht & Hn).
  exists o. split; [reflexivity|]. split; [exact Hr1|]. split; [exact Hr2|].
  rw Ht app_nil_r. exact Hn.
Defined.
