(* ===== verification/Metering.v ===== *)
(** * Gas metering: what inject_gas_counter adds to a contract

    contract_operations.rs (start_engine) has the gas counter injected into the module before it
    is instantiated: the crate pwasm-utils puts a call of the host function [gas], with the cost
    of the block, in front of every block of instructions, and changes nothing else.  Here a
    metered program is one with such calls inserted anywhere ([metered]).  A metered program
    does what the original does, on a host whose queries are given the gas that metering
    left, until gas is depleted ([metered_runs]); and it always ends ([run_ends]).

    Between the two machines memory, ocalls and results agree; gas used inside of wasm, and so the
    gas that a query may use, does not.  The original runs with a limit of its own: the largest
    one, which it cannot exceed, or the limit less a bound on what metering charges, in which
    case the metered program does not run out of gas either. *)

From Stdlib Require Import Strings.String.
From stdpp Require Import base tactics list numbers strings ssreflect.
From S2P Require Import Prelude Utf8 Crypto SecretMsg EnclaveDb QueryChain Runtime Operations GuestMemory.

Local Open Scope list_scope.
Local Open Scope Z_scope.

(** ** Metered programs *)

(** The index of the host function [gas]. *)
Definition GAS : Z := 5.

Section Metered.
Context {Mem : Type}.
(** When the charges are [bounded], [alloc] bounds what one call of the export allocate charges;
    the host makes at most one such call for each call it serves. *)
Variable bounded : Prop.
Variable alloc : Z.

(** [metered b p q]: [q] is [p] with calls of [gas]; [b] bounds what they charge on any path. *)
Inductive metered : Z -> guest Mem -> guest Mem -> Prop :=
| metered_return b v : (bounded -> 0 <= b) -> metered b (GReturn v) (GReturn v)
| metered_trap b k : (bounded -> 0 <= b) -> metered b (GTrap k) (GTrap k)
| metered_step b f f' :
    (bounded -> 0 <= b) -> (forall m, (f' m).1 = (f m).1) -> (forall m, metered b (f m).2 (f' m).2) ->
    metered b (GStep f) (GStep f')
| metered_call b index args k k' :
    (bounded -> 0 <= b) -> (forall v, metered (b - alloc) (k v) (k' v)) ->
    metered b (GCall index args k) (GCall index args k')
| metered_gas b amount p q :
    0 <= amount < 2^31 -> metered (b - amount) p q -> metered b p (GCall GAS [amount] (fun _ => q)).

(** The exports of a module and of the metered one. *)
Definition metered_export {A} (b : Z) (f f' : option (A -> guest Mem)) : Prop :=
  match f, f' with
  | Some f, Some f' => forall x, metered b (f x) (f' x)
  | None, None => True
  | _, _ => False
  end.

Record metered_exports (b : Z) (e e' : Exports Mem) : Prop := {
  metered_allocate : metered_export alloc (exp_allocate e) (exp_allocate e');
  metered_init : metered_export b (uncurry <$> exp_init e) (uncurry <$> exp_init e');
  metered_handle : metered_export b (uncurry <$> exp_handle e) (uncurry <$> exp_handle e');
  metered_query : metered_export b (exp_query e) (exp_query e')
}.

(** A program with at most [n] calls on any path. *)
Inductive calls : nat -> guest Mem -> Prop :=
| calls_return n v : calls n (GReturn v)
| calls_trap n k : calls n (GTrap k)
| calls_step n f : (forall m, calls n (f m).2) -> calls n (GStep f)
| calls_call n index args k : (forall v, calls n (k v)) -> calls (S n) (GCall index args k).

(** A program that calls nothing but [gas]. *)
Inductive gas_only : guest Mem -> Prop :=
| gas_only_return v : gas_only (GReturn v)
| gas_only_trap k : gas_only (GTrap k)
| gas_only_step f : (forall m, gas_only (f m).2) -> gas_only (GStep f)
| gas_only_gas amount g : gas_only g -> gas_only (GCall GAS [amount] (fun _ => g)).

Lemma metered_gas_only b p q : metered b p q -> calls 0 p -> gas_only q.
Proof.
  induction 1 as [| |b f f' Hb H1 H2 IH|b index args k k' Hb H1 IH|b amount p q Ha H1 IH]; intros Hc.
  - constructor.
  - constructor.
  - inversion Hc as [| |n f0 Hf|]; subst. constructor. intros m. by apply IH.
  - inversion Hc.
  - constructor. by apply IH.
Qed.

End Metered.

(** Bounds can be forgotten. *)
Lemma metered_unbounded {Mem} bounded alloc b (p q : guest Mem) alloc' b' :
  metered bounded alloc b p q -> metered False alloc' b' p q.
Proof. intros Hm. revert b'. induction Hm; intros b'; by constructor; auto. Qed.

Lemma metered_exports_unbounded {Mem} bounded alloc b (e e' : Exports Mem) alloc' b' :
  metered_exports bounded alloc b e e' -> metered_exports False alloc' b' e e'.
Proof.
  assert (forall A c c' (f f' : option (A -> guest Mem)), metered_export bounded alloc c f f' -> metered_export False alloc' c' f f') as Hx.
  { intros A c c' [f|] [f'|]; try done. intros Hf x. by eapply metered_unbounded. }
  intros [Ha Hi Hh Hq]. split; by eapply Hx.
Qed.

(** ** The host as a metered program sees it *)

(** [d i] is the gas that was left when the [i]-th ocall was made. *)
Definition with_gas (g : Z) (c : Ocall) : Ocall :=
  match c with OQueryChain q _ => OQueryChain q g | _ => c end.

Fixpoint as_metered (d : nat -> Z) (h : Trace) : Trace :=
  match h with
  | [] => []
  | c :: h' => with_gas (d (length h')) c :: as_metered d h'
  end.

Definition metered_host (Ho : Host) (d : nat -> Z) : Host :=
  {| host_answer h c := @host_answer Ho (as_metered d h) (with_gas (d (length h)) c) |}.

Definition agree (n : nat) (d d' : nat -> Z) : Prop := forall i, (i < n)%nat -> d i = d' i.

Lemma agree_trans n m d d' d'' : (n <= m)%nat -> agree n d d' -> agree m d' d'' -> agree n d d''.
Proof. intros Hn H1 H2 i Hi. rw H1 //. apply H2. lia. Qed.
Lemma agree_less n m d d' : (n <= m)%nat -> agree m d d' -> agree n d d'.
Proof. intros Hn H i Hi. apply H. lia. Qed.

Lemma as_metered_length d h : length (as_metered d h) = length h.
Proof. induction h as [|c h IH]; [done|]. cbn. by rw IH. Qed.

Lemma as_metered_agree d d' h : agree (length h) d d' -> as_metered d' h = as_metered d h.
Proof.
  induction h as [|c h IH]; intros H; [done|]. cbn [as_metered length] in *. rw (H (length h)); [|lia].
  f_equal. apply IH. eapply agree_less; [|done]. lia.
Qed.

(** Ocalls on the store are not changed. *)
Lemma as_metered_db d new h : Forall (fun c => is_db c = true) new -> as_metered d (new ++ h) = new ++ as_metered d h.
Proof. induction 1 as [|c new Hc _ IH]; [done|]. cbn. rw IH. by destruct c. Qed.

Lemma replay_metered base d h k : replay base (as_metered d h) k = replay base h k.
Proof. induction h as [|c h IH]; [done|]. by destruct c; cbn; rw IH. Qed.

(** Some gas for each ocall of a history. *)
Lemma metered_self h : exists d, as_metered d h = h.
Proof.
  induction h as [|c h [d IH]]; [by exists (fun _ => 0)|].
  exists (fun i => if (i =? length h)%nat then match c with OQueryChain _ g => g | _ => 0 end else d i).
  cbn [as_metered]. rw Nat.eqb_refl. rw (as_metered_agree d).
  - rw IH. by destruct c.
  - intros i Hi. by destruct (Nat.eqb_spec i (length h)); [lia|].
Qed.

(** A host that keeps what was written does so behind metering. *)
Lemma metered_honest (Ho : Host) base cost d :
  @HonestHost base cost Ho -> @HonestHost base (fun h c => cost (as_metered d h) (with_gas (d (length h)) c)) (metered_host Ho d).
Proof.
  intros HH. split. intros h c Hc. cbn [host_answer metered_host].
  assert (with_gas (d (length h)) c = c) as E by (by destruct c).
  rw E honest //. unfold honest_answer. rw E. f_equal. f_equal. destruct c; [|done..]. by rw replay_metered.
Qed.

(** ** The two machines *)

Section Simulation.
Context {Mem : Type} `{WM : WasmMemory Mem}.
Context `{P : Primitives} `{C : Codecs} {Ho : Host} `{BE : Bech32Errors}.
Context `{JQ : Json QueryRequest} `{JA : Json QueryAnswer} `{JS : Json StdError} `{JE : JsonErrors}.
Variable km : Keychain.
Variable depth : Z.
(** Whether the charges are bounded, the bound for allocate, and the limits and exports of the
    original (first) and of the metered module. *)
Variable bounded : Prop.
Variable alloc : Z.
Variables (lp lq : Z) (ep eqx : Exports Mem).
Hypothesis allocate_metered : metered_export bounded alloc alloc (exp_allocate ep) (exp_allocate eqx).
#[local] Abbreviation metered := (metered (Mem := Mem) bounded alloc).
#[local] Abbreviation hostd d := (metered_host Ho d).

(** The instance without metering. *)
Definition unmetered (limit used : Z) (e : Exports Mem) (i : ContractInstance Mem) : ContractInstance Mem :=
  mkInstance (memory i) limit used (gas_used_externally i) (gas_costs i) (instance_key i) e (operation i)
    (instance_nonce i) (instance_user_key i).

(** [x] more units can still be charged by metering. *)
Definition related (x : Z) (d : nat -> Z) (vmp vmq : VM Mem) : Prop :=
  gas_limit (instance vmq) = lq /\ module_exports (instance vmq) = eqx /\
  instance vmp = unmetered lp (gas_used (instance vmp)) ep (instance vmq) /\
  trace vmq = as_metered d (trace vmp) /\
  gas_used (instance vmp) <= gas_used (instance vmq) <= U64_MAX /\
  is_gas_depleted (instance vmp) = false /\
  (bounded -> 0 <= x /\ gas_used (instance vmq) + x <= gas_used (instance vmp) + (lq - lp)).

(** The metered computation [aq], which charges at most [s] for metering, ends as [ap] does; or [ap]
    has run out of gas; or, if there is no bound, [aq] has. *)
Definition grows {E A} (a : X Mem E A) : Prop :=
  forall vm vm' r, a vm = Some (vm', r) -> (length (trace vm) <= length (trace vm'))%nat.

Definition sim (s : Z) {E A} (gone : E -> Prop) (aq : X Mem E A) (ap : (nat -> Z) -> X Mem E A) : Prop :=
  grows aq /\ forall x d0 vmp vmq vmq' r,
    (bounded -> 0 <= x) -> related (s + x) d0 vmp vmq -> aq vmq = Some (vmq', r) ->
    exists d1, agree (length (trace vmq)) d0 d1 /\
      ((exists vmp', related x d1 vmp' vmq' /\
          forall d, agree (length (trace vmq')) d1 d -> ap d vmp = Some (vmp', r)) \/
       (exists vmp' e, is_gas_depleted (instance vmp') = true /\ gas_limit (instance vmp') = lp /\
          forall d, agree (length (trace vmq')) d1 d -> ap d vmp = Some (vmp', Err e)) \/
       (~ bounded /\ is_gas_depleted (instance vmq') = true /\ exists e, r = Err e /\ gone e)).

Lemma related_less x y d vmp vmq : (bounded -> 0 <= y <= x) -> related x d vmp vmq -> related y d vmp vmq.
Proof. intros Hy (? & ? & ? & ? & [? ?] & ? & Hb). split_and!; [done..|]. intros Bd. specialize (Hb Bd). specialize (Hy Bd). lia. Qed.

Lemma related_agree x d d' vmp vmq :
  agree (length (trace vmq)) d d' -> related x d vmp vmq -> related x d' vmp vmq.
Proof.
  intros Ha (? & ? & ? & Ht & [? ?] & ? & ?). split_and!; [done..| |done|done|done|done].
  rw Ht in Ha |- *. rw as_metered_length in Ha. by rw (as_metered_agree d d').
Qed.

Lemma sim_bind s1 s2 {E A B} gone (aq : X Mem E A) ap (fq : A -> X Mem E B) fp :
  (bounded -> 0 <= s2) ->
  sim s1 gone aq ap -> (forall a, sim s2 gone (fq a) (fun d => fp d a)) ->
  sim (s1 + s2) gone (aq ≫= fq) (fun d => ap d ≫= fp d).
Proof.
  intros Hs2 [Ga Ha] Hf. split.
  { intros vm vm' r. cbv [mbind X_bind]. destruct (aq vm) as [[vm1 [a|e|]]|] eqn:E1; [| | |done].
    - intros E2. etrans; [by eapply Ga|]. by eapply (proj1 (Hf a)).
    - intros [= <- <-]. by eapply Ga.
    - intros [= <- <-]. by eapply Ga. }
  intros x d0 vmp vmq vmq' r Hx Hr. cbv [mbind X_bind]. destruct (aq vmq) as [[vm1 r1]|] eqn:E1; [|done].
  rw -Z.add_assoc in Hr. intros E2.
  assert (length (trace vm1) <= length (trace vmq'))%nat as Hl.
  { destruct r1 as [a|e|]; [by eapply (proj1 (Hf a))|by simplify_eq..]. }
  destruct (Ha (s2 + x) d0 vmp vmq vm1 r1) as (d1 & A1 & H1); [intros Bd; specialize (Hs2 Bd); specialize (Hx Bd); lia|done|done|].
  pose proof (Ga _ _ _ E1) as Hl1.
  destruct H1 as [(vmp1 & R1 & T1)|[(vmp1 & e & D1 & L1 & T1)|(B1 & D1 & e & -> & G1)]].
  - destruct r1 as [a|e|].
    + destruct (proj2 (Hf a) x d1 vmp1 vm1 vmq' r Hx R1 E2) as (d2 & A2 & H2). exists d2.
      split; [by eapply agree_trans|].
      assert (forall d, agree (length (trace vmq')) d2 d -> ap d vmp = Some (vmp1, Ok a)) as T1'.
      { intros d Hd. apply T1. intros i Hi. rw A2 //. apply Hd. lia. }
      destruct H2 as [(vmp2 & R2 & T2)|[(vmp2 & e & D2 & L2 & T2)|H2]].
      * left. exists vmp2. split; [done|]. intros d Hd. rw (T1' d Hd). by apply T2.
      * right. left. exists vmp2, e. split_and!; [done|done|]. intros d Hd. rw (T1' d Hd). by apply T2.
      * by right; right.
    + injection E2 as <- <-. exists d1. split; [done|]. left. exists vmp1.
      split; [|intros d Hd; by rw T1]. eapply related_less; [|done]. intros Bd. specialize (Hx Bd); specialize (Hs2 Bd); lia.
    + injection E2 as <- <-. exists d1. split; [done|]. left. exists vmp1.
      split; [|intros d Hd; by rw T1]. eapply related_less; [|done]. intros Bd. specialize (Hx Bd); specialize (Hs2 Bd); lia.
  - exists d1. split; [done|]. right. left. exists vmp1, e. split_and!; [done|done|]. intros d Hd. rw T1 //. by eapply agree_less.
  - injection E2 as <- <-. exists d1. split; [done|]. right. right. split_and!; [done|done|eauto].
Qed.

Lemma sim_less s s' {E A} gone (aq : X Mem E A) ap : (bounded -> s <= s') -> sim s gone aq ap -> sim s' gone aq ap.
Proof.
  intros Hs [Ga Ha]. split; [done|]. intros x d0 vmp vmq vmq' r Hx Hr Eq.
  destruct (Ha (x + (s' - s)) d0 vmp vmq vmq' r) as (d1 & A1 & H1).
  - intros Bd. specialize (Hs Bd); specialize (Hx Bd). lia.
  - by replace (s + (x + (s' - s))) with (s' + x) by lia.
  - done.
  - exists d1. split; [done|]. destruct H1 as [(vmp1 & R1 & T1)|H1]; [|by right]. left. exists vmp1. split; [|done].
    eapply related_less; [|done]. intros Bd. specialize (Hs Bd); specialize (Hx Bd). lia.
Qed.

(** A computation of [s] units followed by one of none, or after one of none. *)
Lemma sim_then s {E A B} gone (aq : X Mem E A) ap (fq : A -> X Mem E B) fp :
  sim s gone aq ap -> (forall a, sim 0 gone (fq a) (fun d => fp d a)) -> sim s gone (aq ≫= fq) (fun d => ap d ≫= fp d).
Proof. intros H1 H2. replace s with (s + 0) by lia. by apply sim_bind. Qed.
Lemma sim_first s {E A B} gone (aq : X Mem E A) ap (fq : A -> X Mem E B) fp :
  (bounded -> 0 <= s) ->
  sim 0 gone aq ap -> (forall a, sim s gone (fq a) (fun d => fp d a)) -> sim s gone (aq ≫= fq) (fun d => ap d ≫= fp d).
Proof. intros Hs H1 H2. replace s with (0 + s) by lia. by apply sim_bind. Qed.

Lemma sim_mapErr s {E F A} (gone : E -> Prop) (gone' : F -> Prop) (g : E -> F) (aq : X Mem E A) ap :
  (forall e, gone e -> gone' (g e)) -> sim s gone aq ap -> sim s gone' (mapErrX g aq) (fun d => mapErrX g (ap d)).
Proof.
  intros Hg [Ga Ha]. split.
  { intros vm vm' r. unfold mapErrX. destruct (aq vm) as [[vm1 r1]|] eqn:E1; [|done]. intros [= <- <-]. by eapply Ga. }
  intros x d0 vmp vmq vmq' r Hx Hr. unfold mapErrX. destruct (aq vmq) as [[vm1 r1]|] eqn:E1; [|done]. intros [= <- <-].
  destruct (Ha x d0 vmp vmq vm1 r1 Hx Hr E1) as (d1 & A1 & H1). exists d1. split; [done|].
  destruct H1 as [(vmp1 & R1 & T1)|[(vmp1 & e & D1 & L1 & T1)|(B1 & D1 & e & -> & G1)]].
  - left. exists vmp1. split; [done|]. intros d Hd. by rw T1.
  - right. left. exists vmp1, (g e). split_and!; [done|done|]. intros d Hd. by rw T1.
  - right. right. split_and!; [done|done|]. exists (g e). auto.
Qed.

(** A computation that changes neither gas nor trace, with the same memory in both machines. *)
Lemma sim_local {E A} gone (a : X Mem E A) (m' : ContractInstance Mem -> Mem) (r : ContractInstance Mem -> result E A) :
  (forall vm, a vm = Some (mkVM (set_memory (m' (instance vm)) (instance vm)) (trace vm), r (instance vm))) ->
  (forall used i, m' (unmetered lp used ep i) = m' i /\ r (unmetered lp used ep i) = r i) ->
  sim 0 gone a (fun _ => a).
Proof.
  intros Ha Hu. split; [by intros vm vm' r'; rw Ha; intros [= <- _]|].
  intros x d0 vmp vmq vmq' r' Hx (Hg & He & Hi & Ht & [Hu1 Hu2] & Hd & Hb). rw Ha. intros [= <- <-].
  exists d0. split; [done|]. left. exists (mkVM (set_memory (m' (instance vmp)) (instance vmp)) (trace vmp)).
  destruct (Hu (gas_used (instance vmp)) (instance vmq)) as [Hm Hr]. rw -Hi in Hm, Hr. split.
  - split_and!; cbn [instance trace set_memory gas_limit module_exports gas_used]; try done.
    rw Hm. rw {1}Hi. by destruct (instance vmq).
  - intros d _. by rw Ha Hr.
Qed.

Lemma sim_lift {E A} gone (r : result E A) : sim 0 gone (liftX r) (fun _ => liftX r).
Proof.
  apply (sim_local gone _ memory (fun _ => r)); [|done]. intros vm. by destruct vm as [[] ?].
Qed.

Lemma sim_read {E A} gone (f : ContractInstance Mem -> A) :
  (forall used i, f (unmetered lp used ep i) = f i) -> sim 0 gone (readI (E := E) f) (fun _ => readI f).
Proof.
  intros Hf. apply (sim_local gone _ memory (fun i => Ok (f i))); [|by intros; rw Hf]. intros vm. by destruct vm as [[] ?].
Qed.

Lemma sim_memory {E} gone (m : Mem) : sim 0 gone (modifyI (E := E) (set_memory m)) (fun _ => modifyI (set_memory m)).
Proof. by apply (sim_local gone _ (fun _ => m) (fun _ => Ok tt)). Qed.

(** Ocalls on the store: [mq] under the host and [mp] behind metering make the same ones. *)
Definition mirrors {E A} (mq : M Trace E A) (mp : (nat -> Z) -> M Trace E A) : Prop :=
  forall d h, exists new r, mq (as_metered d h) = (new ++ as_metered d h, r) /\
    mp d h = (new ++ h, r) /\ Forall (fun c => is_db c = true) new.

Lemma sim_mirrors {E A} gone (mq : M Trace E A) mp :
  grows (onTrace mq) -> mirrors mq mp -> sim 0 gone (onTrace mq) (fun d => onTrace (mp d)).
Proof.
  intros Gm Hm. split; [done|]. intros x d0 vmp vmq vmq' r Hx (Hg & He & Hi & Ht & [Hu1 Hu2] & Hd & Hb). unfold onTrace.
  destruct (Hm d0 (trace vmp)) as (new & r1 & Eq & Ep & Hdb). rw Ht Eq. intros [= <- <-].
  exists d0. split; [done|]. left. exists (mkVM (instance vmp) (new ++ trace vmp)). split.
  - split_and!; try done. cbn. by rw as_metered_db. 
  - cbn [trace]. intros d Ha.
    assert (as_metered d (trace vmp) = as_metered d0 (trace vmp)) as Es.
    { apply as_metered_agree. eapply agree_less; [|done]. rw length_app as_metered_length. lia. }
    destruct (Hm d (trace vmp)) as (new' & r' & Eq' & -> & _). rw Es Eq in Eq'. injection Eq' as Hn ->.
    by apply app_inv_tail in Hn as ->.
Qed.

(** *** Gas *)

(** Running out of gas shows as such, or as a failed allocation when allocate did. *)
Definition out_of_gas (e : WasmEngineError) : Prop := e = WOutOfGas \/ e = WMemoryAllocationError.
Definition run_out (e : RunError) : Prop := exists e', e = HostErr e' /\ out_of_gas e'.

Lemma within_budget (ip iq : ContractInstance Mem) x :
  bounded -> 0 <= x -> gas_limit ip = lp -> gas_limit iq = lq -> gas_used_externally ip = gas_used_externally iq ->
  gas_used ip <= gas_used iq -> gas_used iq + x <= gas_used ip + (lq - lp) ->
  is_gas_depleted ip = false -> is_gas_depleted iq = false.
Proof.
  intros _ Hx Hp Hq He Hu Hb. unfold is_gas_depleted, sat_add. rw Hp Hq He. intros H%Z.ltb_ge. apply Z.ltb_ge. lia.
Qed.

Lemma sim_gas_externally g : sim 0 out_of_gas (use_gas_externally (Mem := Mem) g) (fun _ => use_gas_externally g).
Proof.
  assert (forall vm : VM Mem, use_gas_externally g vm =
    let i := set_gas (gas_used (instance vm)) (sat_add (gas_used_externally (instance vm)) g) (instance vm) in
    Some (mkVM i (trace vm), if is_gas_depleted i then Err WOutOfGas else Ok tt)) as Hv.
  { intros vm. cbv [use_gas_externally check_gas_usage mbind X_bind modifyI readI throwX liftX mret X_ret]. cbn [instance trace].
    by destruct (is_gas_depleted _). }
  split; [by intros vm vm' r; rw Hv; intros [= <- _]|].
  intros x d0 vmp vmq vmq' r Hx (Hg & He & Hi & Ht & [Hu1 Hu2] & Hd & Hb). rw Hv. cbv zeta.
  set (iq := set_gas _ _ (instance vmq)).
  set (ip := set_gas (gas_used (instance vmp)) (sat_add (gas_used_externally (instance vmp)) g) (instance vmp)).
  intros [= <- <-]. exists d0. split; [done|].
  assert (gas_limit ip = lp) as Hlp by (unfold ip; rw Hi; done).
  destruct (is_gas_depleted ip) eqn:Ep.
  { right. left. exists (mkVM ip (trace vmp)), WOutOfGas. split_and!; [done|done|]. intros d _. rw Hv. cbv zeta. fold ip. by rw Ep. }
  assert (gas_used_externally ip = gas_used_externally iq) as Hext by (unfold ip, iq; rw Hi; done).
  destruct (is_gas_depleted iq) eqn:Eq.
  { right. right. split_and!; [|done|by exists WOutOfGas; split; [|left]]. intros Bd. specialize (Hb Bd). specialize (Hx Bd).
    rw (within_budget ip iq x Bd) in Eq; try done; unfold ip, iq; cbn; lia. }
  left. exists (mkVM ip (trace vmp)). split.
  - split_and!; try done. cbn [instance]. unfold ip, iq. rw {3}Hi. by destruct (instance vmq); cbn; rw Hi.
  - intros d _. rw Hv. cbv zeta. fold ip. by rw Ep.
Qed.

(** Gas that the original charges itself. *)
Lemma use_gas_eq a (vm : VM Mem) :
  use_gas a vm =
  let i := set_gas (sat_add (gas_used (instance vm)) a) (gas_used_externally (instance vm)) (instance vm) in
  Some (mkVM i (trace vm), if is_gas_depleted i then Err WOutOfGas else Ok tt).
Proof.
  cbv [use_gas check_gas_usage mbind X_bind modifyI readI throwX liftX mret X_ret]. cbn [instance trace].
  by destruct (is_gas_depleted _).
Qed.

Lemma sim_gas a : 0 <= a -> sim 0 out_of_gas (use_gas (Mem := Mem) a) (fun _ => use_gas a).
Proof.
  intros Ha. split; [by intros vm vm' r; rw use_gas_eq; intros [= <- _]|].
  intros x d0 vmp vmq vmq' r Hx (Hg & He & Hi & Ht & [Hu1 Hu2] & Hd & Hb). rw use_gas_eq. cbv zeta.
  set (iq := set_gas _ _ (instance vmq)).
  set (ip := set_gas (sat_add (gas_used (instance vmp)) a) (gas_used_externally (instance vmp)) (instance vmp)).
  intros [= <- <-]. exists d0. split; [done|].
  assert (gas_limit ip = lp) as Hlp by (unfold ip; rw Hi; done).
  destruct (is_gas_depleted ip) eqn:Ep.
  { right. left. exists (mkVM ip (trace vmp)), WOutOfGas. split_and!; [done|done|]. intros d _. rw use_gas_eq. cbv zeta. fold ip. by rw Ep. }
  assert (gas_used_externally ip = gas_used_externally iq) as Hext by (unfold ip, iq; rw Hi; done).
  assert (gas_used ip <= gas_used iq) as Hle by (unfold ip, iq, sat_add; cbn; lia).
  assert (bounded -> gas_used iq + x <= gas_used ip + (lq - lp)) as Hb'.
  { intros Bd. specialize (Hb Bd). specialize (Hx Bd). unfold ip, iq, sat_add. cbn. lia. }
  destruct (is_gas_depleted iq) eqn:Eq.
  { right. right. split_and!; [|done|by exists WOutOfGas; split; [|left]]. intros Bd.
    rw (within_budget ip iq x Bd) in Eq; try done; [by apply Hx|by apply Hb']. }
  left. exists (mkVM ip (trace vmp)). split.
  - split_and!; try done.
    + cbn [instance]. unfold ip, iq. by destruct (instance vmq); cbn in *; rw Hi.
    + unfold iq, sat_add. cbn. lia.
    + intros Bd. split; [by apply Hx|by apply Hb'].
  - intros d _. rw use_gas_eq. cbv zeta. fold ip. by rw Ep.
Qed.

(** A charge that metering inserted. *)
Lemma charged_related a x d vmp vmq :
  0 <= a < 2^31 -> (bounded -> 0 <= x) -> related (a + x) d vmp vmq ->
  let i := set_gas (sat_add (gas_used (instance vmq)) a) (gas_used_externally (instance vmq)) (instance vmq) in
  (is_gas_depleted i = true /\ ~ bounded) \/ (is_gas_depleted i = false /\ related x d vmp (mkVM i (trace vmq))).
Proof.
  intros Ha Hx (Hg & He & Hi & Ht & [Hu1 Hu2] & Hd & Hb). cbv zeta. set (i := set_gas _ _ _).
  assert (gas_used (instance vmp) <= gas_used i <= U64_MAX) as Hle by (unfold i, sat_add, U64_MAX in *; cbn; lia).
  assert (bounded -> gas_used i + x <= gas_used (instance vmp) + (lq - lp)) as Hb'.
  { intros Bd. specialize (Hb Bd). specialize (Hx Bd). unfold i, sat_add. cbn. lia. }
  destruct (is_gas_depleted i) eqn:Eq; [left|right]; (split; [done|]).
  - intros Bd. rw (within_budget (instance vmp) i x Bd) in Eq; try done; try (by rw Hi); [by apply Hx|lia|by apply Hb'].
  - destruct Hle. split_and!; try done.
    intros Bd. split; [by apply Hx|by apply Hb'].
Qed.

(** *** Ocalls *)

Lemma answer_db d h c : is_db c = true -> @host_answer (hostd d) h c = @host_answer Ho (as_metered d h) c.
Proof. intros Hc. cbn. by destruct c. Qed.

Lemma read_mirrors key ck : mirrors (read_encrypted_key (Ho := Ho) km key ck) (fun d => read_encrypted_key (Ho := hostd d) km key ck).
Proof.
  intros d h. cbv [read_encrypted_key read_db ocall mbind M_bind liftR mret M_ret]. rw answer_db //.
  destruct (ocall_status _); [|by eexists [_], _; split_and!; [done..|repeat constructor]..].
  destruct (ok_or _ _) as [[v|]| |]; [|by eexists [_], _; split_and!; [done..|repeat constructor]..].
  cbn [fst snd]. destruct (decrypt_key _ _ _ _); by eexists [_], _; split_and!; [done..|repeat constructor].
Qed.

Lemma remove_mirrors key ck : mirrors (remove_encrypted_key (Ho := Ho) key ck) (fun d => remove_encrypted_key (Ho := hostd d) key ck).
Proof.
  intros d h. cbv [remove_encrypted_key remove_db ocall mbind M_bind liftR mret M_ret]. rw answer_db //.
  destruct (ocall_status _); by eexists [_], _; split_and!; [done..|repeat constructor].
Qed.

Lemma write_mirrors key value ck :
  mirrors (write_encrypted_key (Ho := Ho) km key value ck) (fun d => write_encrypted_key (Ho := hostd d) km key value ck).
Proof.
  intros d h. set (name := field_name_digest key ck).
  cbv [write_encrypted_key derive_ad_for_field read_db write_db ocall mbind M_bind liftR mret M_ret]. fold name. rw answer_db //.
  destruct (ocall_status _); [|by eexists [_], _; split_and!; [done..|repeat constructor]..].
  destruct (ok_or _ _) as [v| |]; [|by eexists [_], _; split_and!; [done..|repeat constructor]..]. cbn [fst snd].
  destruct (match v with Some _ => _ | None => _ end) as [ad| |]; [|by eexists [_], _; split_and!; [done..|repeat constructor]..].
  cbn [fst snd]. destruct (encrypt_key _ _ _ _ _) as [c| |]; [|by eexists [_], _; split_and!; [done..|repeat constructor]..].
  rw answer_db //. cbn [as_metered with_gas].
  destruct (ocall_status _); by eexists [_; _], _; split_and!; [done..|repeat constructor].
Qed.

Lemma mirrors_grows {E A} (mq : M Trace E A) mp : mirrors mq mp -> grows (onTrace mq).
Proof.
  intros Hm vm vm' r. unfold onTrace. destruct (metered_self (trace vm)) as [d Hd].
  destruct (Hm d (trace vm)) as (new & r' & Eq & _). rw Hd in Eq. rw Eq. intros [= <- _]. cbn [trace]. rw length_app. lia.
Qed.

(** A nested query is refused without an ocall, or makes one. *)
Lemma query_chain_cases query n pk :
  (exists r, forall (Ho : Host) g h, encrypt_and_query_chain (Ho := Ho) km depth query n pk g h = (h, r)) \/
  (exists q f, forall (Ho : Host) g h, encrypt_and_query_chain (Ho := Ho) km depth query n pk g h =
     (OQueryChain q g :: h, f (host_answer h (OQueryChain q g)))).
Proof.
  unfold encrypt_and_query_chain. destruct (check_recursion_limit depth) as [a|].
  { left. destruct (serialize_error_response a); by eexists. }
  destruct (json_from_slice query) as [qs|].
  2: { left. destruct (system_error_invalid_request query); by eexists. }
  destruct (encrypt_query_request km qs n pk) as [p|e|]; [|left; by eexists..].
  destruct (json_to_vec p.1) as [q|] eqn:E2.
  2: { left. eexists. intros. cbv [mbind M_bind liftR]. by rw E2. }
  right. exists q, (fun a =>
    _ ← ocall_status a;
    buf ← ok_or WHostMisbehavior (buffer a);
    if negb p.2 then Ok (default [] buf, answer_gas a)
    else match json_from_slice (T := QueryAnswer) (default [] buf) with
         | None => r ← system_error_invalid_response (default [] buf); Ok (r, answer_gas a)
         | Some answer => r ← decrypt_answer km answer n pk; Ok (r, answer_gas a)
         end).
  intros Ho' g h. cbv [query_chain ocall mbind M_bind liftR mret M_ret]. rw E2. cbn [ok_or].
  destruct (ocall_status _) as [u|e|]; [|done..]. cbn [result_bind]. destruct (ok_or _ (buffer _)) as [buf|e|]; [|done..].
  cbn [result_bind]. destruct (negb p.2); [done|]. cbn [fst snd].
  destruct (json_from_slice _) as [answer|].
  - by destruct (decrypt_answer km answer n pk).
  - by destruct (system_error_invalid_response _).
Qed.

(** The query is given the gas that is left. *)
Definition ask (Ho : Host) (query : bytes) (n : IoNonce) (pk : bytes) : X Mem WasmEngineError (bytes * Z) :=
  left ← readI gas_left;
  onTrace (encrypt_and_query_chain (Ho := Ho) km depth query n pk left).

Lemma sim_ask query n pk : sim 0 out_of_gas (ask Ho query n pk) (fun d => ask (hostd d) query n pk).
Proof.
  unfold ask. cbv [mbind X_bind readI onTrace]. destruct (query_chain_cases query n pk) as [[r Hc]|(q & f & Hc)].
  - split; [by intros vm vm' r'; rw Hc; intros [= <- _]|].
    intros x d0 vmp vmq vmq' r' Hx (Hg & He & Hi & Ht & [Hu1 Hu2] & Hd & Hb). rw Hc. intros [= <- <-].
    exists d0. split; [done|]. left. exists vmp. split; [by split_and!|]. intros d _. rw Hc. by destruct vmp.
  - split; [intros vm vm' r'; rw Hc; intros [= <- _]; cbn; lia|].
    intros x d0 vmp vmq vmq' r' Hx (Hg & He & Hi & Ht & [Hu1 Hu2] & Hd & Hb). rw Hc. intros [= <- <-].
    set (g := gas_left (instance vmq)). set (n0 := length (trace vmq)).
    exists (fun i => if (i =? n0)%nat then g else d0 i).
    assert (agree n0 d0 (fun i => if (i =? n0)%nat then g else d0 i)) as Ha.
    { intros i Hi'. destruct (Nat.eqb_spec i n0); [lia|done]. }
    assert (length (trace vmp) = n0) as Hn by (unfold n0; by rw Ht as_metered_length).
    split; [done|]. left. exists (mkVM (instance vmp) (OQueryChain q (gas_left (instance vmp)) :: trace vmp)). split.
    + split_and!; try done. cbn [trace as_metered]. rw Hn Nat.eqb_refl. cbn [with_gas]. f_equal.
      rw Ht. symmetry. apply as_metered_agree. by rw Hn.
    + intros d Hd'. cbn [trace length] in Hd'. fold n0 in Hd'. rw Hc. cbn [host_answer metered_host with_gas].
      rw Hn -(Hd' n0); [|lia]. rw Nat.eqb_refl Ht. do 4 f_equal. apply as_metered_agree. rw Hn.
      eapply (agree_trans _ (S n0)); [lia|exact Ha|exact Hd'].
Qed.

Lemma sim_ext s {E A} gone (aq aq' : X Mem E A) ap ap' :
  (forall vm, aq vm = aq' vm) -> (forall d vm, ap d vm = ap' d vm) -> sim s gone aq' ap' -> sim s gone aq ap.
Proof.
  intros Hq Hp [Ga Ha]. split; [intros vm vm' r; rw Hq; apply Ga|].
  intros x d0 vmp vmq vmq' r Hx Hr. rw Hq. intros E1. destruct (Ha x d0 vmp vmq vmq' r Hx Hr E1) as (d1 & A1 & H1).
  exists d1. split; [done|]. destruct H1 as [(v & R & T)|[(v & e & D & L & T)|H1]].
  - left. exists v. split; [done|]. intros d Hd. rw Hp. by apply T.
  - right. left. exists v, e. split_and!; [done|done|]. intros d Hd. rw Hp. by apply T.
  - by right; right.
Qed.

(** *** The host functions *)

Hypothesis alloc_pos : bounded -> 0 <= alloc.

Ltac sim_steps :=
  repeat match goal with
  | |- sim 0 _ (mbind _ _) _ => apply sim_then; [|intros ?]
  | |- sim 0 _ (mret ?a) _ => apply (sim_lift _ (Ok a))
  | |- sim 0 _ (throwX ?e) _ => apply (sim_lift _ (Err e))
  | |- sim 0 _ (liftX ?r) _ => apply sim_lift
  | |- sim 0 _ (readI ?f) _ => apply sim_read; done
  | |- sim 0 _ (modifyI (set_memory _)) _ => apply sim_memory
  | |- sim 0 _ (use_gas_externally _) _ => apply sim_gas_externally
  | |- sim 0 _ (if ?b then _ else _) _ => destruct b
  | |- sim 0 _ (match ?o with _ => _ end) _ => destruct o
  end.

Lemma sim_extract ptr : sim 0 out_of_gas (extract_vector (Mem := Mem) ptr) (fun _ => extract_vector ptr).
Proof. unfold extract_vector. sim_steps. Qed.

Lemma sim_write_allocated buf region :
  sim 0 out_of_gas (write_to_allocated_memory (Mem := Mem) buf region) (fun _ => write_to_allocated_memory buf region).
Proof. unfold write_to_allocated_memory. sim_steps. Qed.

Section WithAllocate.
Variable rq : Z -> X Mem RunError (option Z).
Variable rp : (nat -> Z) -> Z -> X Mem RunError (option Z).
Hypothesis sim_allocate : forall len, sim alloc run_out (rq len) (fun d => rp d len).

Lemma sim_write buf : sim alloc out_of_gas (write_to_memory rq buf) (fun d => write_to_memory (rp d) buf).
Proof.
  unfold write_to_memory, allocate. apply sim_then; [|intros; apply sim_write_allocated].
  apply sim_then; [|intros v; sim_steps]. eapply sim_mapErr; [|apply sim_allocate]. by right.
Qed.

Lemma sim_answer text : sim alloc out_of_gas (answer_text rq text) (fun d => answer_text (rp d) text).
Proof. unfold answer_text. apply sim_then; [apply sim_write|intros; sim_steps]. Qed.

(** Begins a host function with steps that allocate nothing. *)
Ltac sim_free := apply sim_first; [done| |intros ?].
Ltac sim_none := apply (sim_less 0); [done|].

Lemma sim_read_db ptr : sim alloc out_of_gas (read_db_index (Ho := Ho) km rq ptr) (fun d => read_db_index (Ho := hostd d) km (rp d) ptr).
Proof.
  unfold read_db_index. sim_free; [apply sim_extract|]. sim_free; [sim_steps|].
  sim_free; [apply sim_mirrors; [eapply mirrors_grows|]; apply read_mirrors|]. sim_free; [sim_steps|].
  destruct a1.1; [|sim_none; sim_steps]. apply sim_then; [apply sim_write|intros; sim_steps].
Qed.

Lemma sim_query ptr :
  sim alloc out_of_gas (query_chain_index (Ho := Ho) km depth rq ptr) (fun d => query_chain_index (Ho := hostd d) km depth (rp d) ptr).
Proof.
  unfold query_chain_index. sim_free; [apply sim_extract|]. do 2 (sim_free; [sim_steps|]).
  eapply (sim_ext _ _ _ (p ← ask Ho a a0 a1; _ ← use_gas_externally p.2; region ← write_to_memory rq p.1; mret (Some (as_i32 region)))
            _ (fun d => p ← ask (hostd d) a a0 a1; _ ← use_gas_externally p.2; region ← write_to_memory (rp d) p.1; mret (Some (as_i32 region)))).
  1, 2: unfold ask; cbv [mbind X_bind readI]; intros; done.
  sim_free; [apply sim_ask|]. sim_free; [sim_steps|]. apply sim_then; [apply sim_write|intros; sim_steps].
Qed.

Lemma sim_canonicalize h c :
  sim alloc out_of_gas (canonicalize_address_index rq h c) (fun d => canonicalize_address_index (rp d) h c).
Proof.
  unfold canonicalize_address_index. do 2 (sim_free; [sim_steps|]). sim_free; [apply sim_extract|].
  destruct (negb _); [apply sim_answer|]. destruct (Text.trim a1); [apply sim_answer|].
  destruct (bech32_decode _) as [[]|]; [|apply sim_answer]. destruct (negb _); [apply sim_answer|].
  sim_none. sim_steps. apply sim_write_allocated.
Qed.

Lemma sim_humanize c h :
  sim alloc out_of_gas (humanize_address_index rq c h) (fun d => humanize_address_index (rp d) c h).
Proof.
  unfold humanize_address_index. do 2 (sim_free; [sim_steps|]). sim_free; [apply sim_extract|].
  destruct (bech32_encode _ _); [|apply sim_answer]. sim_none. sim_steps. apply sim_write_allocated.
Qed.

Lemma sim_write_db k v : sim 0 out_of_gas (write_db_index (Mem := Mem) (Ho := Ho) km k v) (fun d => write_db_index (Ho := hostd d) km k v).
Proof.
  unfold write_db_index. sim_steps; try apply sim_extract. apply sim_mirrors; [eapply mirrors_grows|]; apply write_mirrors.
Qed.

Lemma sim_remove_db k : sim 0 out_of_gas (remove_db_index (Mem := Mem) (Ho := Ho) k) (fun d => remove_db_index (Ho := hostd d) k).
Proof.
  unfold remove_db_index. sim_steps; try apply sim_extract. apply sim_mirrors; [eapply mirrors_grows|]; apply remove_mirrors.
Qed.

Lemma sim_host s {A} (aq : X Mem WasmEngineError A) ap :
  sim s out_of_gas aq ap -> sim s run_out (mapErrX HostErr aq) (fun d => mapErrX HostErr (ap d)).
Proof. intros H. eapply sim_mapErr; [|exact H]. intros e He. by exists e. Qed.

Lemma sim_invoke index args :
  sim alloc run_out (invoke_index (Ho := Ho) km depth rq index args) (fun d => invoke_index (Ho := hostd d) km depth (rp d) index args).
Proof.
  unfold invoke_index, nth_checked, gas_index.
  destruct (HostFunctions_from index); repeat (sim_free; [sim_steps|]); try apply sim_host.
  - apply sim_read_db.
  - sim_none. apply sim_write_db.
  - sim_none. apply sim_remove_db.
  - apply sim_canonicalize.
  - apply sim_humanize.
  - sim_none. sim_steps. apply sim_gas. unfold as_u64. apply Z.mod_pos_bound. lia.
  - apply sim_query.
  - sim_none. sim_steps.
Qed.
End WithAllocate.

(** ** A metered program against the original *)

Lemma metered_pos b p q : metered b p q -> bounded -> 0 <= b.
Proof. induction 1; auto. intros Bd. specialize (IHmetered Bd). lia. Qed.

Lemma run_grows n (g : guest Mem) : grows (run (Ho := Ho) km depth n g).
Proof.
  intros vm vm' r Hr. destruct (safe_run km depth n g vm vm' r I Hr) as [(_ & _ & _ & new & -> & _) _]. rw length_app. lia.
Qed.

(** The program under a charge that was inserted. *)
Lemma sim_charge n b a p q :
  0 <= a < 2^31 -> (bounded -> 0 <= b - a) ->
  sim (b - a) run_out (run (Ho := Ho) km depth n q) (fun d => run (Ho := hostd d) km depth n p) ->
  sim b run_out (run (Ho := Ho) km depth (S n) (GCall GAS [a] (fun _ => q))) (fun d => run (Ho := hostd d) km depth (S n) p).
Proof.
  intros Ha Hba [_ Hq]. split; [apply run_grows|]. intros x d0 vmp vmq vmq' r Hx Hr. cbn [run].
  assert (forall ra (vm : VM Mem), invoke_index (Ho := Ho) km depth ra GAS [a] vm =
    match use_gas a vm with Some (vm', r) => Some (vm', map_err HostErr ((fun _ => None) <$> r)) | None => None end) as Hinv.
  { intros ra vm. cbv [invoke_index GAS HostFunctions_from Z.eqb Pos.eqb nth_checked lookup list_lookup liftX ok_or mbind X_bind mapErrX gas_index].
    unfold as_u64. rw Z.mod_small; [|lia]. by destruct (use_gas a vm) as [[vm1 [u|e|]]|]. }
  cbv [mbind X_bind]. rw Hinv use_gas_eq. cbv zeta.
  replace (b + x) with (a + ((b - a) + x)) in Hr by lia.
  destruct (charged_related a ((b - a) + x) d0 vmp vmq Ha) as [[Hd Hn]|[Hd Hr']]; [|done|..].
  { intros Bd. specialize (Hx Bd). specialize (Hba Bd). lia. }
  - cbv zeta in Hd. rw Hd. cbn. intros [= <- <-]. exists d0. split; [done|]. right. right. split_and!; [done|done|].
    exists (HostErr WOutOfGas). split; [done|]. by exists WOutOfGas; split; [|left].
  - cbv zeta in Hd, Hr'. rw Hd. cbn [map_err fmap result_fmap]. intros E1.
    destruct (Hq x d0 vmp _ vmq' r Hx Hr' E1) as (d1 & A1 & H1). exists d1. split; [done|].
    destruct H1 as [(v & R & T)|[(v & e & D & L & T)|H1]]; [left|right; left|by right; right].
    + exists v. split; [done|]. intros d Hd'. apply (run_more (Ho := hostd d)). by apply T.
    + exists v, e. split_and!; [done|done|]. intros d Hd'. apply (run_more (Ho := hostd d)). by apply T.
Qed.

(** The export allocate, as the host functions call it. *)
Definition run_allocate_of (Ho : Host) (n : nat) (len : Z) : X Mem RunError (option Z) := fun vm =>
  match exp_allocate (module_exports (instance vm)) with
  | Some f => run (Ho := Ho) km depth n (f len) vm
  | None => Some (vm, Err InterpreterErr)
  end.

Lemma sim_run_allocate n len :
  (forall p q, metered alloc p q -> sim alloc run_out (run (Ho := Ho) km depth n q) (fun d => run (Ho := hostd d) km depth n p)) ->
  sim alloc run_out (run_allocate_of Ho n len) (fun d => run_allocate_of (hostd d) n len).
Proof.
  intros IH. unfold run_allocate_of. split.
  - intros vm vm' r. destruct (exp_allocate (module_exports (instance vm))) as [g|]; [apply run_grows|by intros [= <- _]].
  - intros x d0 vmp vmq vmq' r Hx Hr. pose proof Hr as (_ & He & Hi & _). rw He.
    assert (module_exports (instance vmp) = ep) as -> by (by rw Hi). revert Hr. unfold metered_export in allocate_metered.
    destruct (exp_allocate ep) as [f|], (exp_allocate eqx) as [f'|]; [|done..|].
    + intros Hr. by apply (proj2 (IH _ _ (allocate_metered len))).
    + intros Hr [= <- <-]. exists d0. split; [done|]. left. exists vmp. split; [|done].
      eapply related_less; [|done]. intros Bd. specialize (Hx Bd). specialize (alloc_pos Bd). lia.
Qed.

(** A metered program does what the original does on the host behind metering, until one of them
    has run out of gas. *)
Theorem metered_runs n b p q :
  metered b p q -> sim b run_out (run (Ho := Ho) km depth n q) (fun d => run (Ho := hostd d) km depth n p).
Proof.
  revert b p q. induction n as [|n IH]; intros b p q Hm; [by split; [intros vm vm' r|intros x d0 vmp vmq vmq' r]|].
  destruct Hm as [b v Hb|b k Hb|b f f' Hb H1 H2|b index args k k' Hb Hk|b a p q Ha Hq].
  - apply (sim_less 0); [done|]. apply (sim_lift _ (Ok v)).
  - apply (sim_less 0); [done|]. apply (sim_lift _ (Err _)).
  - split; [apply run_grows|]. cbn [run].
    intros x d0 vmp vmq vmq' r Hx (Hg & He & Hi & Ht & [Hu1 Hu2] & Hd & Hbd).
    specialize (H1 (memory (instance vmq))). specialize (H2 (memory (instance vmq))).
    destruct (f' (memory (instance vmq))) as [m g']. destruct (f (memory (instance vmq))) as [m0 g0] eqn:Ef. cbn in H1, H2. subst m.
    intros E1.
    destruct (proj2 (IH _ _ _ H2) x d0 (mkVM (set_memory m0 (instance vmp)) (trace vmp))
                (mkVM (set_memory m0 (instance vmq)) (trace vmq)) vmq' r Hx) as (d1 & A1 & H3); [|done|].
    { split_and!; try done. cbn [instance]. rw {1}Hi. by destruct (instance vmq). }
    exists d1. split; [done|]. assert (memory (instance vmp) = memory (instance vmq)) as -> by (by rw Hi). by rw Ef.
  - cbn [run]. replace b with (alloc + (b - alloc)) by lia. apply sim_bind.
    + intros Bd. exact (metered_pos _ _ _ (Hk None) Bd).
    + apply (sim_invoke _ (fun d => run_allocate_of (hostd d) n)). intros len. apply sim_run_allocate. intros f f' Hf. by apply IH.
    + intros v. by apply IH.
  - apply sim_charge; [done|by apply (metered_pos _ _ _ Hq)|by apply IH].
Qed.

(** ** Calls of the engine *)

Variable entry : Z.
Hypothesis exports_metered : metered_exports bounded alloc entry ep eqx.

Definition enclave_out_of_gas (e : EnclaveError) : Prop := e = OutOfGas \/ e = MemoryAllocationError.

Lemma sim_engine_write n buf :
  sim alloc enclave_out_of_gas (engine_write_to_memory (Ho := Ho) km depth n buf) (fun d => engine_write_to_memory (Ho := hostd d) km depth n buf).
Proof.
  unfold engine_write_to_memory. apply (sim_mapErr _ out_of_gas); [by intros e [-> | ->]; [left|right]|].
  apply (sim_write _ (fun d => run_allocate_of (hostd d) n)). intros len. apply sim_run_allocate. intros p q Hm. by apply metered_runs.
Qed.

Lemma sim_invoke_export n gp gq :
  match gp, gq with Some p, Some q => metered entry p q | None, None => True | _, _ => False end ->
  (bounded -> 0 <= entry) ->
  sim entry enclave_out_of_gas (invoke_export (Ho := Ho) km depth n gq) (fun d => invoke_export (Ho := hostd d) km depth n gp).
Proof.
  intros Hg He. unfold invoke_export. apply sim_then; [|intros v; sim_steps].
  eapply (sim_mapErr _ run_out); [by intros e (e' & -> & [-> | ->]); [left|right]|].
  destruct gp as [p|], gq as [q|]; [by apply metered_runs|done|done|]. apply (sim_less 0); [done|]. apply (sim_lift _ (Err _)).
Qed.

(** Calls of an export by its name. *)
Lemma sim_exported {E A} s gone (aq : Exports Mem -> X Mem E A) ap :
  sim s gone (aq eqx) (fun d => ap d ep) -> (forall e, grows (aq e)) ->
  sim s gone (exports ← readI module_exports; aq exports) (fun d => exports ← readI module_exports; ap d exports).
Proof.
  intros [_ Ha] Hg. cbv [mbind X_bind readI]. split; [intros vm vm' r; apply Hg|].
  intros x d0 vmp vmq vmq' r Hx Hr. pose proof Hr as (_ & He & Hi & _). rw He.
  assert (module_exports (instance vmp) = ep) as -> by (by rw Hi). by apply Ha.
Qed.

Lemma grows_invoke_export n g : grows (invoke_export (Mem := Mem) (Ho := Ho) km depth n g).
Proof.
  intros vm vm' r. unfold invoke_export. cbv [mbind X_bind mapErrX]. destruct g as [g|].
  - destruct (run km depth n g vm) as [[vm1 r1]|] eqn:E1; [|done]. apply run_grows in E1.
    destruct r1 as [[o|]|e|]; by intros [= <- _].
  - by intros [= <- _].
Qed.

Lemma sim_engine_handle n a b :
  (bounded -> 0 <= entry) ->
  sim entry enclave_out_of_gas (engine_handle (Ho := Ho) km depth n a b) (fun d => engine_handle (Ho := hostd d) km depth n a b).
Proof.
  intros He. unfold engine_handle. apply (sim_exported _ _ (fun e => invoke_export (Ho := Ho) km depth n ((fun f => f (as_i32 a) (as_i32 b)) <$> exp_handle e))
    (fun d e => invoke_export (Ho := hostd d) km depth n ((fun f => f (as_i32 a) (as_i32 b)) <$> exp_handle e))); [|intros; apply grows_invoke_export].
  apply sim_invoke_export; [|done]. pose proof (metered_handle _ _ _ _ _ exports_metered) as Hm.
  destruct (exp_handle ep) as [f|], (exp_handle eqx) as [f'|]; try done. exact (Hm (as_i32 a, as_i32 b)).
Qed.

Lemma sim_engine_query n a :
  (bounded -> 0 <= entry) ->
  sim entry enclave_out_of_gas (engine_query (Ho := Ho) km depth n a) (fun d => engine_query (Ho := hostd d) km depth n a).
Proof.
  intros He. unfold engine_query. apply (sim_exported _ _ (fun e => invoke_export (Ho := Ho) km depth n ((fun f => f (as_i32 a)) <$> exp_query e))
    (fun d e => invoke_export (Ho := hostd d) km depth n ((fun f => f (as_i32 a)) <$> exp_query e))); [|intros; apply grows_invoke_export].
  apply sim_invoke_export; [|done]. pose proof (metered_query _ _ _ _ _ exports_metered) as Hm.
  destruct (exp_query ep) as [f|], (exp_query eqx) as [f'|]; try done. exact (Hm (as_i32 a)).
Qed.

(** The output of a call is read and encrypted. *)
Lemma sim_sealed `{JV : Json Value} `{JT : Json string} `{JW : Json WasmOutput} `{JC : Json (list Coin)} s cq cp no pk addr :
  sim s enclave_out_of_gas cq cp ->
  sim s enclave_out_of_gas (run_and_encrypt km cq no pk addr) (fun d => run_and_encrypt km (cp d) no pk addr).
Proof.
  intros Hc. unfold run_and_encrypt. apply sim_then; [done|]. intros v. apply sim_then; [|intros; sim_steps].
  apply (sim_mapErr _ out_of_gas); [by intros e [-> | ->]; [left|right]|apply sim_extract].
Qed.

End Simulation.

(** ** Metered programs end *)

Section Termination.
Context {Mem : Type} `{WM : WasmMemory Mem}.
Context `{P : Primitives} `{C : Codecs} `{Ho : Host} `{BE : Bech32Errors}.
Context `{JQ : Json QueryRequest} `{JA : Json QueryAnswer} `{JS : Json StdError} `{JE : JsonErrors}.
Variable km : Keychain.
Variable depth : Z.
Variable e : Exports Mem.
Hypothesis allocate_gas_only : forall f len, exp_allocate e = Some f -> gas_only (f len).

(** With fuel enough, [a] ends on a machine with these exports, and more fuel changes nothing. *)
Definition ends {E A} (a : nat -> X Mem E A) : Prop :=
  (forall n, extends (a n) (a (S n))) /\
  forall vm, module_exports (instance vm) = e ->
    exists n vm' r, a n vm = Some (vm', r) /\ module_exports (instance vm') = e.

Lemma extends_more {E A} (a : nat -> X Mem E A) n k : (forall n, extends (a n) (a (S n))) -> extends (a n) (a (n + k)%nat).
Proof.
  intros Ha. induction k as [|k IH]; [rw Nat.add_0_r; apply extends_refl|].
  intros vm out Hn. rw Nat.add_succ_r. by apply Ha, IH.
Qed.

Lemma ends_bind {E A B} (a : nat -> X Mem E A) (f : nat -> A -> X Mem E B) :
  ends a -> (forall x, ends (fun n => f n x)) -> ends (fun n => a n ≫= f n).
Proof.
  intros [Xa Ta] Hf. split; [intros n; apply extends_bind; [done|intros x; apply (proj1 (Hf x))]|].
  intros vm He. destruct (Ta vm He) as (n1 & vm1 & r1 & E1 & He1). destruct r1 as [x|er|].
  - destruct (proj2 (Hf x) vm1 He1) as (n2 & vm2 & r2 & E2 & He2). exists (n1 + n2)%nat, vm2, r2. split; [|done].
    cbv [mbind X_bind]. rw (extends_more a n1 n2 Xa _ _ E1).
    rw Nat.add_comm. by apply (extends_more (fun n => f n x) n2 n1 (proj1 (Hf x))).
  - exists n1, vm1, (Err er). split; [|done]. cbv [mbind X_bind]. by rw E1.
  - exists n1, vm1, Panic. split; [|done]. cbv [mbind X_bind]. by rw E1.
Qed.

Lemma ends_mapErr {E F A} (g : E -> F) (a : nat -> X Mem E A) : ends a -> ends (fun n => mapErrX g (a n)).
Proof.
  intros [Xa Ta]. split; [intros n; by apply extends_mapErr|].
  intros vm He. destruct (Ta vm He) as (n1 & vm1 & r1 & E1 & He1). exists n1, vm1, (map_err g r1). unfold mapErrX. by rw E1.
Qed.

(** Computations without fuel. *)
Lemma ends_const {E A} (a : X Mem E A) :
  (forall vm, exists vm' r, a vm = Some (vm', r) /\ module_exports (instance vm') = module_exports (instance vm)) ->
  ends (fun _ => a).
Proof.
  intros Ha. split; [intros n; apply extends_refl|]. intros vm He. destruct (Ha vm) as (vm' & r & E1 & E2).
  exists 0%nat, vm', r. split; [done|congruence].
Qed.
Lemma ends_lift {E A} (r : result E A) : ends (fun _ => liftX r).
Proof. apply ends_const. intros vm. by exists vm, r. Qed.
Lemma ends_read {E A} (f : ContractInstance Mem -> A) : ends (fun _ => readI (E := E) f).
Proof. apply ends_const. intros vm. by exists vm, (Ok (f (instance vm))). Qed.
Lemma ends_memory {E} m : ends (fun _ => modifyI (E := E) (set_memory m)).
Proof. apply ends_const. intros vm. by eexists _, _. Qed.
Lemma ends_trace {E A} (t : M Trace E A) : ends (fun _ => onTrace t).
Proof. apply ends_const. intros vm. unfold onTrace. destruct (t (trace vm)). by eexists _, _. Qed.
Lemma ends_gas a : ends (fun _ => use_gas (Mem := Mem) a).
Proof. apply ends_const. intros vm. rw use_gas_eq. by eexists _, _. Qed.
Lemma ends_gas_externally a : ends (fun _ => use_gas_externally (Mem := Mem) a).
Proof.
  apply ends_const. intros vm. cbv [use_gas_externally check_gas_usage mbind X_bind modifyI readI throwX liftX mret X_ret].
  cbn [instance]. destruct (is_gas_depleted _); by eexists _, _.
Qed.

Ltac ends_steps :=
  repeat match goal with
  | |- ends (fun n => mapErrX _ _) => apply ends_mapErr
  | |- ends (fun n => mbind _ _) => apply (ends_bind _ (fun n => _)); [|intros ?]
  | |- ends (fun _ => mret ?a) => apply (ends_lift (Ok a))
  | |- ends (fun _ => throwX ?x) => apply (ends_lift (Err x))
  | |- ends (fun _ => liftX _) => apply ends_lift
  | |- ends (fun _ => readI _) => apply ends_read
  | |- ends (fun _ => modifyI (set_memory _)) => apply ends_memory
  | |- ends (fun _ => onTrace _) => apply ends_trace
  | |- ends (fun _ => use_gas _) => apply ends_gas
  | |- ends (fun _ => use_gas_externally _) => apply ends_gas_externally
  | |- ends (fun _ => if ?b then _ else _) => destruct b
  | |- ends (fun _ => match ?o with _ => _ end) => destruct o
  end.

Section HostCalls.
Variable ra : nat -> Z -> X Mem RunError (option Z).
Hypothesis allocate_ends : forall len, ends (fun n => ra n len).

Lemma ends_write_allocated buf region : ends (fun _ => write_to_allocated_memory (Mem := Mem) buf region).
Proof. unfold write_to_allocated_memory. ends_steps. Qed.
Lemma ends_extract ptr : ends (fun _ => extract_vector (Mem := Mem) ptr).
Proof. unfold extract_vector. ends_steps. Qed.
Lemma ends_write buf : ends (fun n => write_to_memory (ra n) buf).
Proof. unfold write_to_memory, allocate. ends_steps; [apply allocate_ends|apply ends_write_allocated]. Qed.
Lemma ends_answer text : ends (fun n => answer_text (ra n) text).
Proof. unfold answer_text. ends_steps. apply ends_write. Qed.

Lemma ends_invoke index args : ends (fun n => invoke_index km depth (ra n) index args).
Proof.
  unfold invoke_index, nth_checked, read_db_index, write_db_index, remove_db_index, canonicalize_address_index,
    humanize_address_index, query_chain_index, gas_index.
  destruct (HostFunctions_from index); ends_steps;
    (apply ends_extract || apply ends_write || apply ends_answer || apply ends_write_allocated).
Qed.
End HostCalls.

(** The recursion of programs. *)
Lemma guest_rect_prop (Pg : guest Mem -> Prop) :
  (forall v, Pg (GReturn v)) -> (forall k, Pg (GTrap k)) ->
  (forall f, (forall m, Pg (f m).2) -> Pg (GStep f)) ->
  (forall index args k, (forall v, Pg (k v)) -> Pg (GCall index args k)) -> forall g, Pg g.
Proof.
  intros H1 H2 H3 H4. fix IH 1. intros [v|k|f|index args k].
  - apply H1.
  - apply H2.
  - apply H3. intros m. destruct (f m) as [m' g]. apply IH.
  - apply H4. intros v. apply IH.
Qed.

Lemma run_ends_step f : (forall m, ends (fun n => run km depth n (f m).2)) -> ends (fun n => run km depth n (GStep f)).
Proof.
  intros Hf. split; [intros n; apply run_more|]. intros vm He.
  destruct (Hf (memory (instance vm))) as [_ Ht]. destruct (f (memory (instance vm))) as [m g] eqn:Ef.
  destruct (Ht (mkVM (set_memory m (instance vm)) (trace vm)) He) as (n & vm' & r & E1 & E2).
  exists (S n), vm', r. split; [|done]. cbn [run]. by rw Ef.
Qed.

Lemma run_ends_call index args k :
  ends (fun n => invoke_index km depth (run_allocate_of km depth Ho n) index args) ->
  (forall v, ends (fun n => run km depth n (k v))) -> ends (fun n => run km depth n (GCall index args k)).
Proof.
  intros Hi Hk. split; [intros n; apply run_more|]. intros vm He.
  destruct (proj2 (ends_bind _ (fun n v => run km depth n (k v)) Hi Hk) vm He) as (n & vm' & r & E1 & E2).
  by exists (S n), vm', r.
Qed.

Lemma gas_only_ends g : gas_only g -> ends (fun n => run km depth n g).
Proof.
  induction 1 as [v|k|f _ IH|amount g _ IH].
  - split; [intros n; apply run_more|]. intros vm He. by exists 1%nat, vm, (Ok v).
  - split; [intros n; apply run_more|]. intros vm He. by exists 1%nat, vm, (Err (TrapErr k)).
  - by apply run_ends_step.
  - apply run_ends_call; [|done].
    cbv [invoke_index GAS HostFunctions_from Z.eqb Pos.eqb nth_checked gas_index]. ends_steps.
Qed.

Lemma run_allocate_ends len : ends (fun n => run_allocate_of km depth Ho n len).
Proof.
  split.
  - intros n vm out. unfold run_allocate_of. destruct (exp_allocate (module_exports (instance vm))); [apply run_more|done].
  - intros vm He. unfold run_allocate_of. rw He. destruct (exp_allocate e) as [f|] eqn:Ea.
    + by apply (gas_only_ends (f len)); [apply allocate_gas_only|].
    + by exists 0%nat, vm, (Err InterpreterErr).
Qed.

(** Every program ends on such a machine. *)
Theorem run_ends g : ends (fun n => run km depth n g).
Proof.
  induction g as [v|k|f IH|index args k IH] using guest_rect_prop.
  - split; [intros n; apply run_more|]. intros vm He. by exists 1%nat, vm, (Ok v).
  - split; [intros n; apply run_more|]. intros vm He. by exists 1%nat, vm, (Err (TrapErr k)).
  - by apply run_ends_step.
  - apply run_ends_call; [apply ends_invoke, run_allocate_ends|done].
Qed.

Lemma engine_write_ends buf : ends (fun n => engine_write_to_memory km depth n buf).
Proof. unfold engine_write_to_memory. apply ends_mapErr. apply (ends_write (run_allocate_of km depth Ho)), run_allocate_ends. Qed.

Lemma invoke_export_ends g : ends (fun n => invoke_export km depth n g).
Proof. unfold invoke_export. destruct g as [g|]; [|ends_steps]. apply (ends_bind _ (fun n => _)); [apply ends_mapErr, run_ends|intros v; ends_steps]. Qed.

Lemma engine_handle_ends a b : ends (fun n => engine_handle km depth n a b).
Proof. unfold engine_handle. ends_steps. apply invoke_export_ends. Qed.
Lemma engine_query_ends a : ends (fun n => engine_query km depth n a).
Proof. unfold engine_query. ends_steps. apply invoke_export_ends. Qed.

Lemma run_and_encrypt_ends `{JV : Json Value} `{JT : Json string} `{JW : Json WasmOutput} `{JC : Json (list Coin)}
    (call : nat -> X Mem EnclaveError Z) no pk addr :
  ends call -> ends (fun n => run_and_encrypt km (call n) no pk addr).
Proof. intros Hc. unfold run_and_encrypt. ends_steps; [done|apply ends_extract]. Qed.

End Termination.

(** ** Outcomes *)

(** A metered computation that ends, against the original, whose runs on the hosts behind metering
    are known. *)
Section Outcome.
Context {Mem : Type} `{Ho : Host}.
Variables (bounded : Prop) (lp lq : Z) (ep eqx : Exports Mem).

Lemma metered_outcome {E A} s x d0 gone (bq : nat -> X Mem E A) (bp : (nat -> Z) -> nat -> X Mem E A) vmp vmq
    (spec : (nat -> Z) -> VM Mem -> result E A -> Prop) :
  ends eqx bq -> (forall d n, extends (bp d n) (bp d (S n))) ->
  (forall n, sim bounded lp lq ep eqx s gone (bq n) (fun d => bp d n)) ->
  (bounded -> 0 <= x) -> related bounded lp lq ep eqx (s + x) d0 vmp vmq ->
  (forall d, agree (length (trace vmq)) d0 d ->
     exists n0 vm' r, spec d vm' r /\ forall k, bp d (n0 + k)%nat vmp = Some (vm', r)) ->
  exists n0 d vmq' r, agree (length (trace vmq)) d0 d /\ (forall k, bq (n0 + k)%nat vmq = Some (vmq', r)) /\
    ((exists vm', spec d vm' r /\ trace vmq' = as_metered d (trace vm')) \/
     (exists vm' r', spec d vm' r' /\ is_gas_depleted (instance vm') = true /\ gas_limit (instance vm') = lp) \/
     (~ bounded /\ is_gas_depleted (instance vmq') = true /\ exists e, r = Err e /\ gone e)).
Proof.
  intros [Xq Tq] Xp Hsim Hx Hr Hspec. pose proof Hr as (_ & He & _).
  destruct (Tq vmq He) as (n & vmq' & r & Eq & _).
  destruct (proj2 (Hsim n) x d0 vmp vmq vmq' r Hx Hr Eq) as (d & Ad & H1). exists n, d, vmq', r.
  split; [done|]. split; [intros k; by apply (extends_more bq n k)|].
  destruct (Hspec d Ad) as (n0 & vm' & r' & Hs & Hall).
  assert (forall out, bp d n vmp = Some out -> out = (vm', r')) as Huniq.
  { intros out Ho'. apply (extends_more (bp d) n n0 (Xp d)) in Ho'. rw Nat.add_comm Hall in Ho'. by injection Ho'. }
  destruct H1 as [(v & R & T)|[(v & e & D & L & T)|H1]].
  - left. specialize (T d (fun _ _ => eq_refl)). apply Huniq in T as [= -> ->]. exists vm'. split; [done|]. apply R.
  - right. left. specialize (T d (fun _ _ => eq_refl)). apply Huniq in T as [= -> <-]. by exists vm', (Err e).
  - by right; right.
Qed.

(** [drive] in one piece. *)
Lemma drive_runs `{WM : WasmMemory Mem} `{P : Primitives} `{C : Codecs} `{JV : Json Value} `{JT : Json string} `{JW : Json WasmOutput}
    `{JC : Json (list Coin)} {A B} km h i (args : X Mem EnclaveError A) call no pk addr (success : bytes -> B) vm' r :
  (a ← args; run_and_encrypt km (call a) no pk addr) (mkVM i h) = Some (vm', r) ->
  exists gas, drive km h (Ok i) args call no pk addr success = Some (mkOutcome (trace vm') gas (success <$> r)).
Proof.
  unfold drive. cbv [mbind X_bind]. destruct (args (mkVM i h)) as [[vm1 [a|er|]]|]; [|intros [= <- <-]; by eexists..|done].
  intros ->. destruct r; by eexists.
Qed.

Lemma drive_ran `{WM : WasmMemory Mem} `{P : Primitives} `{C : Codecs} `{JV : Json Value} `{JT : Json string} `{JW : Json WasmOutput}
    `{JC : Json (list Coin)} {A B} km h i (args : X Mem EnclaveError A) call no pk addr (success : bytes -> B) o :
  drive km h (Ok i) args call no pk addr success = Some o ->
  exists vm' r, (a ← args; run_and_encrypt km (call a) no pk addr) (mkVM i h) = Some (vm', r) /\
    out_trace o = trace vm' /\ out_result o = success <$> r.
Proof.
  unfold drive. cbv [mbind X_bind]. destruct (args (mkVM i h)) as [[vm1 [a|er|]]|]; [|intros [= <-]; by eexists _, _..|done].
  destruct (run_and_encrypt _ _ _ _ _ _) as [[vm2 [b|er|]]|]; [intros [= <-]; by eexists _, _..|done].
Qed.
End Outcome.

(** ** A way of metering *)

(** The same amount is charged at the entry and after every call. *)
Section Meter.
Context {Mem : Type}.
Variables (bounded : Prop) (alloc amount : Z).
Hypothesis amount_i32 : 0 <= amount < 2^31.
Hypothesis alloc_pos : 0 <= alloc.

Definition charge (g : guest Mem) : guest Mem := GCall GAS [amount] (fun _ => g).

Fixpoint meter_blocks (g : guest Mem) : guest Mem :=
  match g with
  | GReturn v => GReturn v
  | GTrap k => GTrap k
  | GStep f => GStep (fun m => let (m', g') := f m in (m', meter_blocks g'))
  | GCall index args k => GCall index args (fun v => charge (meter_blocks (k v)))
  end.

Definition meter (g : guest Mem) : guest Mem := charge (meter_blocks g).

Lemma meter_metered n g :
  calls n g -> metered bounded alloc (Z.of_nat (S n) * amount + Z.of_nat n * alloc) g (meter g).
Proof.
  intros Hc. constructor; [done|].
  replace (Z.of_nat (S n) * amount + Z.of_nat n * alloc - amount) with (Z.of_nat n * (amount + alloc)) by lia.
  assert (forall n, bounded -> 0 <= Z.of_nat n * (amount + alloc)) as Hp by (intros; nia).
  induction Hc as [n v|n k|n f Hf IH|n index args k Hk IH]; cbn [meter_blocks]; constructor; auto.
  - by intros m; destruct (f m).
  - intros m. specialize (IH m). destruct (f m). cbn. apply IH.
  - intros v. constructor; [done|]. replace (Z.of_nat (S n) * (amount + alloc) - alloc - amount) with (Z.of_nat n * (amount + alloc)) by lia.
    apply IH.
Qed.

Definition meter_exports (e : Exports Mem) : Exports Mem :=
  mkExports ((fun f x => meter (f x)) <$> exp_allocate e) ((fun f x y => meter (f x y)) <$> exp_init e)
    ((fun f x y => meter (f x y)) <$> exp_handle e) ((fun f x => meter (f x)) <$> exp_query e).

End Meter.

(** ** Programs of a contract and the calls they make *)

Section CallCount.
Context {Mem : Type}.

(** At most [n] calls before it goes on. *)
Definition callsG {A} (n : nat) (p : G Mem A) : Prop :=
  forall m k, (forall a, calls m (k a)) -> calls (n + m) (p k).

Lemma callsG_ret {A} (a : A) : callsG 0 (mret a).
Proof. intros m k Hk. apply Hk. Qed.
Lemma callsG_bind {A B} n n' (p : G Mem A) (f : A -> G Mem B) :
  callsG n p -> (forall a, callsG n' (f a)) -> callsG (n + n') (p ≫= f).
Proof. intros Hp Hf m k Hk. rw -Nat.add_assoc. apply Hp. intros a. by apply Hf. Qed.
Lemma callsG_trap {A} n t : callsG (A := A) n (fun _ => GTrap t).
Proof. intros m k Hk. constructor. Qed.
Lemma callsG_memory {A} (f : Mem -> option (Mem * A)) : callsG 0 (on_memory f).
Proof. intros m k Hk. constructor. intros x. destruct (f x) as [[m' a]|]; [apply Hk|constructor]. Qed.
Lemma callsG_import index args : callsG 1 (import index args : G Mem (option Z)).
Proof. intros m k Hk. by constructor. Qed.
Lemma calls_more n n' (g : guest Mem) : calls n g -> (n <= n')%nat -> calls n' g.
Proof.
  intros Hc. revert n'. induction Hc as [| |n f _ IH|n index args k _ IH]; intros n' Hn; [constructor..|constructor; auto|].
  destruct n' as [|n']; [lia|]. constructor. intros v. apply IH. lia.
Qed.
Lemma callsG_more {A} n n' (p : G Mem A) : callsG n p -> (n <= n')%nat -> callsG n' p.
Proof. intros Hp Hn m k Hk. eapply calls_more; [by apply Hp|lia]. Qed.
Lemma callsG_free {A B} n (p : G Mem A) (f : A -> G Mem B) :
  callsG 0 p -> (forall a, callsG n (f a)) -> callsG n (p ≫= f).
Proof. apply (callsG_bind 0). Qed.
Lemma callsG_then {A B} n (p : G Mem A) (f : A -> G Mem B) :
  callsG n p -> (forall a, callsG 0 (f a)) -> callsG n (p ≫= f).
Proof. intros H1 H2. rw -(Nat.add_0_r n). by apply callsG_bind. Qed.
End CallCount.
