(* ===== verification/Ecalls.v ===== *)
(** * The border of the enclave: wasmi-runtime/src/exports.rs, oom_handler.rs, results.rs

    The table of buffers the host allocates inside the enclave and the enclave takes back
    (Module [Buffers]), the reserve of memory that lets the enclave survive an allocation
    failure (Module [Safety]), and the ecalls around the entry points of [Operations].
    Raw pointers are numbers, [0] is null; where an allocation ends up, or whether it
    fails, is an argument of the operation. *)

From Stdlib Require Import Strings.String.
From stdpp Require Import base tactics list numbers strings ssreflect gmap relations.
From S2P Require Import Prelude Crypto SecretMsg Signatures Validation EnclaveDb QueryChain Runtime Operations.

Local Open Scope list_scope.

(** ** ecall_allocate and recover_buffer *)

Module Buffers.

(** The boxed vectors alive on the enclave's heap, [ECALL_ALLOCATE_STACK], and whether its
    lock is poisoned by a panic that happened while it was held. *)
Record Table : Type := mkTable {
  boxes : gmap Z bytes;
  stack : list Z;
  poisoned : bool
}.

Definition initial : Table := mkTable ∅ [] false.

(** What the allocator does for one [ecall_allocate]: all allocations succeed and the box is
    at [p]; copying the data fails; or the box is at [p] and growing the stack fails. *)
Inductive Allocation : Type :=
| Allocated (p : Z)
| CopyFails
| PushFails (p : Z).

(** The body of [ecall_allocate] under [catch_unwind]; [0] is the default buffer. *)
Definition allocate_body (how : Allocation) (data : bytes) (t : Table) : Table * Z :=
  match how with
  | Allocated p =>
      if poisoned t then (mkTable (<[p := data]> (boxes t)) (stack t) true, 0%Z)
      else (mkTable (<[p := data]> (boxes t)) (stack t ++ [p]) false, p)
  | CopyFails => (t, 0%Z)
  | PushFails p => (mkTable (<[p := data]> (boxes t)) (stack t) true, 0%Z)
  end.

(** [iter().position]. *)
Fixpoint position (p : Z) (l : list Z) : option nat :=
  match l with
  | [] => None
  | q :: l' => if (q =? p)%Z then Some 0 else S <$> position p l'
  end.

(** [Vec::swap_remove]: the last element takes the place of the removed one. *)
Definition swap_remove (i : nat) (l : list Z) : list Z :=
  match last l with
  | Some x => removelast (<[i := x]> l)
  | None => l
  end.

Inductive BufferRecoveryError : Type := NoSuchBuffer.

(** How memory can be misused: [Box::from_raw] of something that is no live box. *)
Inductive Recovered : Type :=
| Recovery (r : result BufferRecoveryError (option bytes))
| UseAfterFree.

Definition recover_buffer (ptr : Z) (t : Table) : Table * Recovered :=
  if (ptr =? 0)%Z then (t, Recovery (Ok None))
  else if poisoned t then (t, Recovery Panic)
  else
    match position ptr (reverse (stack t)) with
    | None => (t, Recovery (Err NoSuchBuffer))
    | Some index_from_the_end =>
        let index := length (stack t) - index_from_the_end - 1 in
        let stack' := swap_remove index (stack t) in
        match boxes t !! ptr with
        | Some data => (mkTable (delete ptr (boxes t)) stack' false, Recovery (Ok (Some data)))
        | None => (mkTable (boxes t) stack' false, UseAfterFree)
        end
    end.

(** The allocator returns non-null addresses where nothing lives. *)
Definition fresh_at (how : Allocation) (t : Table) : Prop :=
  match how with
  | Allocated p | PushFails p => p <> 0%Z /\ boxes t !! p = None
  | CopyFails => True
  end.

(** The host may allocate at any time, and pass any pointer to the enclave, in any order. *)
Inductive step : Table -> Table -> Prop :=
| step_allocate how data t : fresh_at how t -> step t (allocate_body how data t).1
| step_recover ptr t : step t (recover_buffer ptr t).1.

(** Every pointer of the stack is a live box, and appears once. *)
Definition sound (t : Table) : Prop :=
  NoDup (stack t) /\ forall p, p ∈ stack t -> p <> 0%Z /\ is_Some (boxes t !! p).

Lemma position_Some p l i : position p l = Some i -> l !! i = Some p.
Proof.
  revert i. induction l as [|q l IH]; intros i; [done|]. cbn [position].
  destruct (Z.eqb_spec q p) as [->|]; [by intros [= <-]|].
  destruct (position p l); [|done]. intros [= <-]. by apply IH.
Qed.

Lemma position_None p l : position p l = None -> p ∉ l.
Proof.
  induction l as [|q l IH]; cbn [position]; [intros _; apply not_elem_of_nil|].
  destruct (Z.eqb_spec q p); [done|]. destruct (position p l); [done|].
  intros _ [?|?]%elem_of_cons; [done|by apply IH].
Qed.

(** The index counted from the end is that of the pointer. *)
Lemma position_rev p l i :
  position p (reverse l) = Some i -> i < length l /\ l !! (length l - i - 1) = Some p.
Proof.
  intros H%position_Some. pose proof (lookup_lt_Some _ _ _ H) as Hi.
  rw length_reverse in Hi. split; [done|]. apply reverse_lookup_Some in H as [H _].
  by replace (length l - i - 1) with (length l - S i) by lia.
Qed.

Lemma swap_remove_perm i l p : l !! i = Some p -> l ≡ₚ p :: swap_remove i l.
Proof.
  intros Hi. unfold swap_remove. destruct (last l) as [x|] eqn:Hl.
  2: { apply last_None in Hl. by subst. }
  apply last_Some in Hl as [l' ->]. destruct (decide (i < length l')) as [Hlt|Hge].
  - rw insert_app_l //. rw removelast_last. rw lookup_app_l // in Hi.
    rw -{1}(take_drop_middle l' i p Hi) insert_take_drop // -app_assoc. cbn [app].
    etrans; [symmetry; apply Permutation_middle|]. apply perm_skip, Permutation_app_head.
    symmetry. apply Permutation_cons_append.
  - assert (i = length l') as ->.
    { apply lookup_lt_Some in Hi. rw length_app in Hi. cbn in Hi. lia. }
    rw list_lookup_middle // in Hi. injection Hi as ->.
    rw insert_app_r_alt // Nat.sub_diag. cbn. rw removelast_last. apply Permutation_app_comm.
Qed.

Lemma recover_found ptr t i :
  sound t -> position ptr (reverse (stack t)) = Some i -> poisoned t = false ->
  exists data stack', boxes t !! ptr = Some data /\ stack t ≡ₚ ptr :: stack' /\
    recover_buffer ptr t = (mkTable (delete ptr (boxes t)) stack' false, Recovery (Ok (Some data))).
Proof.
  intros [Hnd Hlive] Hp Hpois. destruct (position_rev _ _ _ Hp) as [_ Hl].
  destruct (Hlive ptr) as [Hz [data Hd]]; [by eapply list_elem_of_lookup_2|].
  exists data, (swap_remove (length (stack t) - i - 1) (stack t)).
  split_and!; [done|by apply swap_remove_perm|]. unfold recover_buffer.
  destruct (Z.eqb_spec ptr 0); [done|]. by rw Hpois Hp Hd.
Qed.

Lemma recover_cases ptr t :
  sound t ->
  (recover_buffer ptr t).1 = t /\
    (recover_buffer ptr t).2 ∈ [Recovery (Ok None); Recovery Panic; Recovery (Err NoSuchBuffer)] \/
  exists data stack', ptr <> 0%Z /\ boxes t !! ptr = Some data /\ stack t ≡ₚ ptr :: stack' /\
    recover_buffer ptr t = (mkTable (delete ptr (boxes t)) stack' false, Recovery (Ok (Some data))).
Proof.
  intros Hs. destruct (position ptr (reverse (stack t))) as [i|] eqn:Hp.
  - destruct (Z.eqb_spec ptr 0) as [->|Hz]; [left; split; [done|left]|].
    destruct (poisoned t) eqn:Hpois.
    + left. unfold recover_buffer. destruct (Z.eqb_spec ptr 0); [done|]. rw Hpois. split; [done|right; left].
    + right. destruct (recover_found _ _ _ Hs Hp Hpois) as (d & l & H). by exists d, l.
  - left. unfold recover_buffer. rw Hp. destruct (ptr =? 0)%Z; [split; [done|left]|].
    destruct (poisoned t); (split; [done|]); repeat (first [left|right]).
Qed.

Lemma recovered_sound ptr t stack' :
  sound t -> stack t ≡ₚ ptr :: stack' -> sound (mkTable (delete ptr (boxes t)) stack' false).
Proof.
  intros [Hnd Hlive] Hperm. rw Hperm in Hnd. apply NoDup_cons in Hnd as [Hn Hnd].
  split; [done|]. cbn [stack boxes]. intros q Hq. destruct (Hlive q) as [? ?]; [rw Hperm; by right|].
  split; [done|]. rw lookup_delete_ne //. by intros ->.
Qed.

Lemma step_sound t t' : sound t -> step t t' -> sound t'.
Proof.
  intros Hs Hstep. revert Hs. destruct Hstep as [how data t Hf|ptr t]; intros Hs.
  - destruct Hs as [Hnd Hlive]. assert (forall p, boxes t !! p = None -> p ∉ stack t) as Hout.
    { intros p Hp Hin. destruct (Hlive p Hin) as [_ [? ?]]. congruence. }
    assert (forall p q, q ∈ stack t -> q <> 0%Z /\ is_Some (<[p := data]> (boxes t) !! q)) as Hins.
    { intros p q Hq. destruct (Hlive q Hq) as [? ?]. split; [done|].
      destruct (decide (p = q)) as [->|]; [rw lookup_insert_eq //|rw lookup_insert_ne //]. }
    destruct how as [p| |p]; cbn [allocate_body fst]; [|done|by split; [|apply Hins]].
    destruct Hf as [Hz Hf]. destruct (poisoned t); [by split; [|apply Hins]|]. cbn [fst]. split; cbn [stack boxes].
    + apply NoDup_app. split_and!; [done| |apply NoDup_singleton].
      intros q Hq ->%list_elem_of_singleton. by apply (Hout p).
    + intros q [Hq| ->%list_elem_of_singleton]%elem_of_app; [by apply Hins|].
      split; [done|]. by rw lookup_insert_eq.
  - destruct (recover_cases ptr t Hs) as [[-> _]|(d & l & _ & _ & Hp & ->)]; [done|].
    by apply recovered_sound.
Qed.

Lemma reachable_sound t : rtc step initial t -> sound t.
Proof.
  intros Hr. refine (rtc_ind_r sound _ _ _ _ Hr).
  - split; [constructor|]. by intros p Hp%not_elem_of_nil.
  - intros t1 t2 _ Hs H1. by eapply step_sound.
Qed.

(** C21: Whatever the host allocates and whatever pointers it passes, in any order, the enclave
    never frees or reads a buffer that is not alive: recovery returns exactly the allocated
    bytes, once, and leaves the other buffers alone. *)
Theorem buffers_are_recovered_once t ptr :
  rtc step initial t ->
  (recover_buffer ptr t).2 <> UseAfterFree /\
  forall t' data, recover_buffer ptr t = (t', Recovery (Ok (Some data))) ->
    boxes t !! ptr = Some data /\ recover_buffer ptr t' = (t', Recovery (Err NoSuchBuffer)) /\
    forall q, q <> ptr -> boxes t' !! q = boxes t !! q /\ (q ∈ stack t' <-> q ∈ stack t).
Proof.
  intros Hs%reachable_sound.
  destruct (recover_cases ptr t Hs) as [[Ht Hr]|(d & l & Hz & Hd & Hp & Hr)].
  - destruct (recover_buffer ptr t) as [t1 r]. cbn [fst snd] in *. subst t1. split.
    + intros ->. set_solver.
    + intros t' data [= <- ->]. set_solver.
  - rw Hr. split; [done|]. intros t' data [= <- <-]. split; [done|]. split.
    + destruct (recovered_sound _ _ _ Hs Hp) as [_ Hlive]. unfold recover_buffer. cbn [stack boxes poisoned].
      destruct (Z.eqb_spec ptr 0); [done|]. destruct (position ptr (reverse l)) as [i|] eqn:Hi; [|done].
      exfalso. apply position_rev in Hi as [_ Hi].
      destruct (Hlive ptr) as [_ [? Hx]]; [by eapply list_elem_of_lookup_2|]. cbn [boxes] in Hx.
      by rw lookup_delete_eq in Hx.
    + intros q Hq. cbn [boxes stack]. split; [by rw lookup_delete_ne|]. rw Hp. set_solver.
Qed.

(** Two buffers, one taken back by the enclave. *)
Definition demo_table : Table :=
  (allocate_body (Allocated 4096) [Byte.x02] (allocate_body (Allocated 8192) [Byte.x01] initial).1).1.

Lemma buffers_are_recovered_once_witness :
  (recover_buffer 8192 demo_table).2 = Recovery (Ok (Some [Byte.x01])) /\
  (recover_buffer 8192 (recover_buffer 8192 demo_table).1).2 = Recovery (Err NoSuchBuffer).
Proof.
  split; [reflexivity|].
  destruct (buffers_are_recovered_once demo_table 8192) as [_ H].
  - eapply rtc_l; [apply (step_allocate (Allocated 8192) [Byte.x01]); done|].
    apply rtc_once. apply (step_allocate (Allocated 4096) [Byte.x02]); done.
  - destruct (H (recover_buffer 8192 demo_table).1 [Byte.x01]) as (_ & E & _); [reflexivity|].
    exact (f_equal snd E).
Defined.

End Buffers.

(** ** oom_handler.rs *)

Module Safety.

(** The reserve: how many one-KiB chunks it holds and the capacity of the vector of them. *)
Record SafetyBuffer : Type := mkSafety {
  chunks : nat;
  min_chunks : nat;
  held : nat;
  capacity : nat
}.

(** The allocator's answers while the reserve is filled: whether [Vec::with_capacity] can allocate
    the vector of [new], whether [try_reserve_exact] finds a chunk in round [i], and whether
    [Vec::push] can move a full vector to one of capacity [c].  The first and the last abort the
    computation when they fail: the error hook is not there yet when the reserve is built, and later
    it waits for the lock that its own thread holds during [restore]. *)
Record Supply : Type := mkSupply {
  vector : bool;
  chunk : nat -> bool;
  growth : nat -> bool
}.

Definition plenty : Supply := mkSupply true (fun _ => true) (fun _ => true).

Section Safety.
(** How [Vec::push] grows a full vector. *)
Variable grow : nat -> nat.

(** [None]: the allocation of a larger vector failed. *)
Definition push (s : Supply) (b : SafetyBuffer) : option SafetyBuffer :=
  if (held b =? capacity b)%nat then
    if growth s (grow (capacity b)) then Some (mkSafety (chunks b) (min_chunks b) (S (held b)) (grow (capacity b))) else None
  else Some (mkSafety (chunks b) (min_chunks b) (S (held b)) (capacity b)).

(** The loop of [top_up_buffer] for the indices [held b, ..., held b + n - 1].  [Panic]: the call does
    not come back. *)
Fixpoint top_up_loop (n : nat) (s : Supply) (b : SafetyBuffer) : SafetyBuffer * result EnclaveError unit :=
  match n with
  | O => (b, Ok tt)
  | S n' =>
      let i := held b in
      if chunk s i then
        match push s b with
        | Some b' => top_up_loop n' s b'
        | None => (b, Panic)
        end
      else if (min_chunks b <? i)%nat then (b, Ok tt)
      else (b, Err MemorySafetyAllocationError)
  end.

Definition top_up_buffer (s : Supply) (b : SafetyBuffer) :=
  top_up_loop (chunks b - held b) s b.

(** [SafetyBuffer::new]; an error of [build_buffer] is unwrapped. *)
Definition new (s : Supply) (n m : nat) : result EnclaveError SafetyBuffer :=
  if vector s then
    match top_up_buffer s (mkSafety n m 0 n) with
    | (b, Ok _) => Ok b
    | (_, _) => Panic
    end
  else Panic.

Definition clear (b : SafetyBuffer) : SafetyBuffer := mkSafety (chunks b) (min_chunks b) 0 0.

Definition restore (s : Supply) (b : SafetyBuffer) : SafetyBuffer * result EnclaveError unit :=
  if (capacity b <? chunks b)%nat then top_up_buffer s b else (b, Ok tt).

(** What happens to the reserve: it is restored at every entry and exit of the enclave and
    cleared when an allocation fails. *)
Inductive step : SafetyBuffer -> SafetyBuffer -> Prop :=
| step_restore s b : step b (restore s b).1
| step_clear b : step b (clear b).

(** Above the minimum, unless the next restore will try again. *)
Definition guarded (b : SafetyBuffer) : Prop :=
  held b <= capacity b /\ (capacity b < chunks b \/ min_chunks b < held b).

Lemma push_shape s b b' :
  push s b = Some b' ->
  chunks b' = chunks b /\ min_chunks b' = min_chunks b /\ held b' = S (held b) /\
  capacity b' = if (held b =? capacity b)%nat then grow (capacity b) else capacity b.
Proof. unfold push. destruct (_ =? _)%nat; [|by intros [= <-]]. destruct (growth _ _); [|done]. by intros [= <-]. Qed.

Lemma top_up_shape n s b :
  chunks (top_up_loop n s b).1 = chunks b /\ min_chunks (top_up_loop n s b).1 = min_chunks b.
Proof.
  revert b. induction n as [|n IH]; intros b; cbn [top_up_loop]; [done|].
  destruct (chunk s (held b)); [|by destruct (_ <? _)]. destruct (push s b) as [b'|] eqn:E; [|done].
  apply push_shape in E as (<- & <- & _). apply IH.
Qed.

Lemma top_up_capacity (Hgrow : forall c, c < grow c) n s b :
  capacity b <= capacity (top_up_loop n s b).1.
Proof.
  revert b. induction n as [|n IH]; intros b; cbn [top_up_loop]; [done|].
  destruct (chunk s (held b)); [|by destruct (_ <? _)]. destruct (push s b) as [b'|] eqn:E; [|done].
  etrans; [|apply IH]. apply push_shape in E as (_ & _ & _ & ->). pose proof (Hgrow (capacity b)). destruct (_ =? _); lia.
Qed.

(** A loop that does not come back met a vector that could not grow. *)
Lemma top_up_stuck n s b : (top_up_loop n s b).2 = Panic -> exists c, growth s c = false.
Proof.
  revert b. induction n as [|n IH]; intros b; cbn [top_up_loop]; [done|].
  destruct (chunk s (held b)); [|by destruct (_ <? _)]. destruct (push s b) as [b'|] eqn:E; [apply IH|].
  intros _. revert E. unfold push. destruct (_ =? _)%nat; [|done]. destruct (growth s (grow (capacity b))) eqn:Eg; [done|]. by exists (grow (capacity b)).
Qed.

(** While there is room in the vector it does not grow. *)
Lemma top_up_spacious n s b : held b + n <= capacity b -> (top_up_loop n s b).2 <> Panic.
Proof.
  revert b. induction n as [|n IH]; intros b Hn; cbn [top_up_loop]; [done|].
  destruct (chunk s (held b)); [|by destruct (_ <? _)]. destruct (push s b) as [b'|] eqn:E.
  - apply push_shape in E as (_ & _ & Hh & Hc). apply IH. destruct (Nat.eqb_spec (held b) (capacity b)); lia.
  - unfold push in E. by destruct (Nat.eqb_spec (held b) (capacity b)); [lia|].
Qed.

Lemma top_up_error n s b e : (top_up_loop n s b).2 = Err e -> e = MemorySafetyAllocationError.
Proof.
  revert b. induction n as [|n IH]; intros b; cbn [top_up_loop]; [done|].
  destruct (chunk s (held b)).
  - destruct (push s b); [apply IH|done].
  - destruct (_ <? _); [done|]. by intros [= <-].
Qed.

(** The first failing chunk decides. *)
Lemma top_up_short n s b e :
  (top_up_loop n s b).2 = Err e -> exists i, held b <= i <= min_chunks b /\ chunk s i = false.
Proof.
  revert b. induction n as [|n IH]; intros b; cbn [top_up_loop]; [done|].
  destruct (chunk s (held b)) eqn:Ec.
  - destruct (push s b) as [b'|] eqn:E; [|done]. intros H. destruct (IH _ H) as (i & Hi & Hf).
    apply push_shape in E as (_ & Hm & Hh & _). exists i. split; [lia|done].
  - destruct (Nat.ltb_spec (min_chunks b) (held b)); [done|]. intros _. exists (held b). split; [lia|done].
Qed.

Hypothesis grows : forall c, c < grow c <= Nat.max 4 (2 * c).

Lemma push_le s b b' : push s b = Some b' -> held b <= capacity b -> held b' <= capacity b'.
Proof.
  intros (_ & _ & -> & ->)%push_shape Hle. pose proof (grows (capacity b)). destruct (Nat.eqb_spec (held b) (capacity b)); lia.
Qed.

Lemma top_up_guarded n s b :
  held b <= capacity b -> 4 < chunks b /\ 2 * min_chunks b <= chunks b -> guarded b ->
  guarded (top_up_loop n s b).1.
Proof.
  revert b. induction n as [|n IH]; intros b Hle Hc Hg; cbn [top_up_loop]; [done|].
  destruct (chunk s (held b)); [|by destruct (_ <? _)]. destruct (push s b) as [b'|] eqn:E; [|done].
  pose proof (push_le _ _ _ E Hle) as Hle'. apply push_shape in E as (Ec & Em & Eh & Ek).
  pose proof (grows (capacity b)) as Hgr. unfold guarded in Hg. apply IH; [done|lia|]. split; [done|]. rw Ec Em Eh Ek.
  destruct (Nat.eqb_spec (held b) (capacity b)); lia.
Qed.

(** A successful loop of enough rounds leaves more than the minimum. *)
Lemma top_up_enough n s b b' :
  top_up_loop n s b = (b', Ok tt) -> chunks b <= held b + n -> min_chunks b < chunks b ->
  min_chunks b' < held b'.
Proof.
  revert b. induction n as [|n IH]; intros b; cbn [top_up_loop].
  - intros [= <-] ? ?. lia.
  - destruct (chunk s (held b)).
    + destruct (push s b) as [b1|] eqn:E; [|done]. apply push_shape in E as (Ec & Em & Eh & _).
      intros H Hn Hm. apply (IH _ H); lia.
    + destruct (Nat.ltb_spec (min_chunks b) (held b)); [|done]. by intros [= <-].
Qed.

(** The reserve of the enclave: 4 MiB, at least 2 MiB. *)
Definition well_sized (b : SafetyBuffer) : Prop :=
  guarded b /\ 4 < chunks b /\ 2 * min_chunks b <= chunks b /\ min_chunks b < chunks b.

Lemma step_well_sized b b' : well_sized b -> step b b' -> well_sized b'.
Proof.
  intros Hw Hs. revert Hw. destruct Hs as [s b|b]; intros (Hg & H1 & H2 & H3).
  - unfold restore. destruct (_ <? _); [|done]. unfold well_sized, top_up_buffer.
    destruct (top_up_shape (chunks b - held b) s b) as [-> ->].
    split_and!; [|done..]. apply top_up_guarded; [apply Hg|done|done].
  - split_and!; [|done..]. split; cbn [held capacity chunks clear]; lia.
Qed.

Lemma top_up_le n s b :
  held b <= capacity b -> held (top_up_loop n s b).1 <= capacity (top_up_loop n s b).1.
Proof.
  revert b. induction n as [|n IH]; intros b Hle; cbn [top_up_loop]; [done|].
  destruct (chunk s (held b)); [|by destruct (_ <? _)]. destruct (push s b) as [b'|] eqn:E; [|done].
  apply IH. by eapply push_le.
Qed.

Lemma new_well_sized s n m b :
  new s n m = Ok b -> 4 < n -> 2 * m <= n -> m < n -> well_sized b.
Proof.
  unfold new, top_up_buffer. destruct (vector s); [|done]. cbn [chunks held]. rw Nat.sub_0_r.
  destruct (top_up_shape n s (mkSafety n m 0 n)) as [Ec Em].
  pose proof (top_up_le n s (mkSafety n m 0 n)) as Hle.
  destruct (top_up_loop n s (mkSafety n m 0 n)) as [b' [[]| |]] eqn:E; [|done..].
  intros [= <-] H1 H2 H3. cbn [fst chunks min_chunks held capacity] in *.
  pose proof (top_up_enough _ _ _ _ E) as Hen. cbn [chunks min_chunks held] in Hen.
  unfold well_sized, guarded. rw Ec Em. rw Em in Hen. split_and!; [apply Hle; lia|right; apply Hen; lia|lia..].
Qed.

(** [new] panics exactly where its vector or one of the first chunks is refused. *)
Lemma new_panics s n m :
  new s n m = Panic -> vector s = false \/ exists i, i <= m /\ chunk s i = false.
Proof.
  unfold new, top_up_buffer. destruct (vector s); [|by left]. cbn [chunks held]. rw Nat.sub_0_r. intros H. right.
  pose proof (top_up_spacious n s (mkSafety n m 0 n)) as Hsp. pose proof (top_up_short n s (mkSafety n m 0 n)) as Hs.
  destruct (top_up_loop n s (mkSafety n m 0 n)) as [b' [[]|e|]]; [done| |].
  - destruct (Hs e eq_refl) as (i & [_ Hi] & Hf). by exists i.
  - exfalso. apply Hsp; [cbn; lia|done].
Qed.

(** With [restore] before and after every ecall. *)
Lemma restored_above_minimum s b b' :
  well_sized b -> restore s b = (b', Ok tt) -> min_chunks b' < held b'.
Proof.
  intros (Hg & H1 & H2 & H3). unfold restore.
  destruct (Nat.ltb_spec (capacity b) (chunks b)) as [Hc|Hc].
  - intros H. apply (top_up_enough _ _ _ _ H); [|done]. destruct Hg. lia.
  - intros [= <-]. destruct Hg as [_ [?|?]]; [lia|done].
Qed.

End Safety.

Definition CHUNKS : nat := 4 * 1024.
Definition MIN_CHUNKS : nat := 2 * 1024.

(** The enclave's reserve. *)
Definition SAFETY_BUFFER (grow : nat -> nat) (s : Supply) : result EnclaveError SafetyBuffer :=
  new grow s CHUNKS MIN_CHUNKS.

(** The [lazy_static] around it: the first use builds the reserve; if that panics, so does every
    later use. *)
Inductive Reserve : Type := Unbuilt | Broken | Built (b : SafetyBuffer).

Definition force (grow : nat -> nat) (s : Supply) (r : Reserve) : Reserve * result EnclaveError SafetyBuffer :=
  match r with
  | Built b => (r, Ok b)
  | Broken => (Broken, Panic)
  | Unbuilt =>
      match SAFETY_BUFFER grow s with
      | Ok b => (Built b, Ok b)
      | _ => (Broken, Panic)
      end
  end.

(** In every state reached from start-up by restoring and by clearing the memory reserve, a
    restore that succeeds leaves more than the minimum of 2048 chunks. *)
Theorem reserve_never_below_minimum grow s b0 b s' b' :
  (forall c, c < grow c <= Nat.max 4 (2 * c)) ->
  SAFETY_BUFFER grow s = Ok b0 -> rtc (step grow) b0 b ->
  restore grow s' b = (b', Ok tt) -> min_chunks b' < held b'.
Proof.
  intros Hgrow Hnew Hr Hrest. eapply restored_above_minimum; [|exact Hrest].
  refine (rtc_ind_r (well_sized) _ _ _ _ Hr).
  - eapply new_well_sized; [exact Hgrow|exact Hnew|unfold CHUNKS, MIN_CHUNKS; lia..].
  - intros b1 b2 _ Hs Hw. by eapply step_well_sized.
Qed.

(** A reserve that start-up could fill only partly is never completed: restore looks at the
    capacity of the vector, which is already full size, and does nothing however much memory
    there is. *)
Theorem short_reserve_is_not_topped_up grow s b0 s' :
  (forall c, c < grow c) -> SAFETY_BUFFER grow s = Ok b0 ->
  restore grow s' b0 = (b0, Ok tt).
Proof.
  intros Hgrow. unfold SAFETY_BUFFER, new, top_up_buffer, restore. destruct (vector s); [|done]. cbn [chunks held]. rw Nat.sub_0_r.
  set (n := CHUNKS). pose proof (top_up_capacity grow Hgrow n s (mkSafety n MIN_CHUNKS 0 n)) as Hc.
  destruct (top_up_shape grow n s (mkSafety n MIN_CHUNKS 0 n)) as [Ec _].
  destruct (top_up_loop grow n s _) as [b [[]| |]]; [|done..]. intros [= <-].
  cbn [fst chunks capacity] in *. rw Ec. by destruct (Nat.ltb_spec (capacity b) n); [lia|].
Qed.

(** Doubling, as the vectors of the standard library grow. *)
Definition vec_grow (c : nat) : nat := Nat.max 4 (2 * c).

Lemma vec_grows c : c < vec_grow c <= Nat.max 4 (2 * c).
Proof. unfold vec_grow. lia. Qed.

Definition short_supply : Supply := mkSupply true (fun i => i <? 3000) (fun _ => true).

(** After a failed allocation, 3000 chunks are there again. *)
Lemma reserve_never_below_minimum_witness :
  exists b0 b', SAFETY_BUFFER vec_grow plenty = Ok b0 /\
    restore vec_grow short_supply (clear b0) = (b', Ok tt) /\ min_chunks b' < held b'.
Proof.
  eexists _, _. split; [vm_compute; reflexivity|]. split; [vm_compute; reflexivity|].
  eapply (reserve_never_below_minimum vec_grow plenty _ _ short_supply _ vec_grows);
    [vm_compute; reflexivity|apply rtc_once, step_clear|vm_compute; reflexivity].
Defined.

(** Only 3000 chunks at the start, and memory to spare later. *)
Lemma short_reserve_is_not_topped_up_witness :
  exists b0, SAFETY_BUFFER vec_grow short_supply = Ok b0 /\ held b0 = 3000 /\
    restore vec_grow plenty b0 = (b0, Ok tt).
Proof.
  eexists. split; [vm_compute; reflexivity|]. split; [reflexivity|].
  apply (short_reserve_is_not_topped_up vec_grow short_supply _ plenty
           (fun c => proj1 (vec_grows c))).
  vm_compute. reflexivity.
Defined.

End Safety.

(** ** exports.rs: the ecalls *)

(** The enclave's global state: the recursion counter, the buffers, the reserve and the flag
    [OOM_HAPPENED]. *)
Record Shared : Type := mkShared {
  rec_depth : Z;
  table : Buffers.Table;
  safety : Safety.Reserve;
  oom_happened : bool
}.

Definition set_depth (d : Z) (st : Shared) := mkShared d (table st) (safety st) (oom_happened st).
Definition set_table (t : Buffers.Table) (st : Shared) := mkShared (rec_depth st) t (safety st) (oom_happened st).
Definition set_safety (b : Safety.Reserve) (st : Shared) := mkShared (rec_depth st) (table st) b (oom_happened st).
Definition set_oom (o : bool) (st : Shared) := mkShared (rec_depth st) (table st) (safety st) o.

(** A pointer and length from the host, with the bytes found there. *)
Record HostSlice : Type := mkSlice { s_addr : Z; s_data : bytes }.

(** utils.rs: [validate_const_ptr]. *)
Definition validate_const_ptr (s : HostSlice) : bool :=
  negb ((s_addr s =? 0)%Z || (length (s_data s) =? 0)%nat).

(** What is outside the control of the enclave during one ecall: whether [used_gas] points
    into the enclave, the allocator's answers to the reserve on entry and on exit, what the
    ecalls made from within ocalls leave of the global state, and the ocalls made up to an
    allocation failure, if there is one. *)
Record World : Type := mkWorld {
  gas_inside : bool;
  reserve_in : Safety.Supply;
  reserve_out : Safety.Supply;
  nested : Shared -> Shared;
  exhausted : option Trace
}.

Record Returned (R : Type) : Type := mkReturned { ret : R; ret_gas : Z; ret_trace : Trace }.
Arguments mkReturned {R} ret ret_gas ret_trace.
Arguments ret {R} r.
Arguments ret_gas {R} r.
Arguments ret_trace {R} r.

Inductive InitResult : Type := InitSuccessful (output : Z) (contract_key : bytes) | InitFailure (err : EnclaveError).
Inductive HandleResult : Type := HandleSuccessful (output : Z) | HandleFailure (err : EnclaveError).
Inductive QueryResult : Type := QuerySuccessful (output : Z) | QueryFailure (err : EnclaveError).

Section Ecalls.
Variable grow : nat -> nat.
(** [ocall_allocate]: the host's address of a copy of the output. *)
Variable ocall_allocate : bytes -> option Z.

(** [SAFETY_BUFFER.lock().unwrap().restore()]: the first use builds the reserve.  Nothing unwinds while
    the lock is held, so it is never poisoned.  [Panic]: the call does not come back, because it
    unwinds out of the ecall, the enclave aborts or it waits for its own lock. *)
Definition restore_safety_buffer (s : Safety.Supply) (st : Shared) : Shared * result EnclaveError unit :=
  match Safety.force grow s (safety st) with
  | (_, Ok b) => let '(b', r) := Safety.restore grow s b in (set_safety (Safety.Built b') st, r)
  | (r, _) => (set_safety r st, Panic)
  end.

Definition register_oom_handler (s : Safety.Supply) (st : Shared) : Shared * result EnclaveError unit :=
  match restore_safety_buffer s st with
  | (st', Ok _) => (set_oom false st', Ok tt)
  | (st', r) => (st', r)
  end.

(** The hook that runs when an allocation fails, before it panics.  It is set after the reserve was
    restored, so the reserve exists. *)
Definition alloc_error_hook (st : Shared) : Shared :=
  let r := match safety st with Safety.Built b => Safety.Built (Safety.clear b) | r => r end in
  set_safety r (set_oom true st).

(** [None]: the ecall does not return. *)
Definition ecall_allocate (w : World) (how : Buffers.Allocation) (buffer : HostSlice) (st : Shared) : option (Shared * Z) :=
  match register_oom_handler (reserve_in w) st with
  | (st1, Ok _) =>
      if negb (validate_const_ptr buffer) then Some (st1, 0%Z)
      else
        let '(t, p) := Buffers.allocate_body how (s_data buffer) (table st1) in
        let st2 := set_table t st1 in
        let st3 := match how with Buffers.Allocated _ => st2 | _ => alloc_error_hook st2 end in
        match restore_safety_buffer (reserve_out w) st3 with
        | (st4, Ok _) => Some (if (p =? 0)%Z then set_oom false st4 else st4, p)
        | (st4, Err _) => Some (st4, 0%Z)
        | (_, Panic) => None
        end
  | (st1, Err _) => Some (st1, 0%Z)
  | (_, Panic) => None
  end.

(** results.rs *)
Definition result_init_success_to_initresult (r : result EnclaveError InitSuccess) : InitResult :=
  match r with
  | Ok s => match ocall_allocate (init_output s) with
            | Some p => InitSuccessful p (init_contract_key s)
            | None => InitFailure (FailedOcall default_vm_error)
            end
  | Err e => InitFailure e
  | Panic => InitFailure EnclavePanic
  end.

Definition result_handle_success_to_handleresult (r : result EnclaveError bytes) : HandleResult :=
  match r with
  | Ok output => match ocall_allocate output with
                 | Some p => HandleSuccessful p
                 | None => HandleFailure (FailedOcall default_vm_error)
                 end
  | Err e => HandleFailure e
  | Panic => HandleFailure EnclavePanic
  end.

Definition result_query_success_to_queryresult (r : result EnclaveError bytes) : QueryResult :=
  match r with
  | Ok output => match ocall_allocate output with
                 | Some p => QuerySuccessful p
                 | None => QueryFailure (FailedOcall default_vm_error)
                 end
  | Err e => QueryFailure e
  | Panic => QueryFailure EnclavePanic
  end.

(** The closure under [catch_unwind]: the state it leaves, its value unless it panicked, the
    gas counter and the ocalls made. *)
Definition caught {A R} (w : World) (o : Outcome A) (convert : result EnclaveError A -> R)
    (used_gas : Z) (st : Shared) : Shared * option R * Z * Trace :=
  match exhausted w with
  | Some cut => (alloc_error_hook st, None, used_gas, cut)
  | None =>
      match out_result o with
      | Panic => (st, None, used_gas, out_trace o)
      | r => (st, Some (convert r), default used_gas (out_gas o), out_trace o)
      end
  end.

(** The guard is dropped on every return. *)
Definition drop_guard (st : Shared) : Shared := set_depth (Recursion.decrement (rec_depth st)) st.

(** From [catch_unwind] on: what is reported when the closure panicked. *)
Definition leave {A R} (w : World) (o : Outcome A) (convert : result EnclaveError A -> R) (failure : EnclaveError -> R)
    (gas_limit used_gas : Z) (st : Shared) : option (Shared * Returned R) :=
  let '(st3, res, gas, h') := caught w o convert used_gas st in
  match restore_safety_buffer (reserve_out w) st3 with
  | (st4, Ok _) =>
      match res with
      | Some r => Some (drop_guard st4, mkReturned r gas h')
      | None =>
          let err := if oom_happened st4 then OutOfMemory else EnclavePanic in
          Some (drop_guard (set_oom false st4), mkReturned (failure err) (gas_limit / 2)%Z h')
      end
  | (st4, Err e) => Some (drop_guard st4, mkReturned (failure e) gas h')
  | (st4, Panic) => None
  end.

(** What the three ecalls have in common: the guard, the memory reserve, the pointer checks and the
    call.  [None]: the ecall does not return. *)
Definition ecall {A R} (w : World) (slices : list HostSlice) (body : Z -> option (Outcome A))
    (convert : result EnclaveError A -> R) (failure : EnclaveError -> R) (gas_limit used_gas : Z)
    (h : Trace) (st : Shared) : option (Shared * Returned R) :=
  match Recursion.increment (rec_depth st) with
  | (d, Ok _) =>
      match register_oom_handler (reserve_in w) (set_depth d st) with
      | (st1, Ok _) =>
          if negb (gas_inside w && forallb validate_const_ptr slices)
          then Some (drop_guard st1, mkReturned (failure FailedFunctionCall) used_gas h)
          else
            match body d with
            | None => None
            | Some o => leave w o convert failure gas_limit used_gas (nested w st1)
            end
      | (st1, Err e) => Some (drop_guard st1, mkReturned (failure e) used_gas h)
      | (st1, Panic) => None
      end
  | (_, Err e) => Some (st, mkReturned (failure e) used_gas h)
  | (_, Panic) => None
  end.

Section Entry.
Context {Mem : Type} `{WM : WasmMemory Mem} `{WL : WasmLoader Mem}.
Context `{P : Primitives} `{C : Codecs} `{Pr : Prost} `{Ho : Host} `{BE : Bech32Errors}.
Context `{Json Env} `{Json SigInfo} `{Json SignDoc} `{Json (list Coin)}.
Context `{Json Value} `{Json string} `{Json WasmOutput}.
Context `{Json QueryRequest} `{Json QueryAnswer} `{Json StdError} `{JE : JsonErrors}.
Variable km : Keychain.
Variable fuel : nat.

Definition ecall_init (w : World) (gas_limit used_gas : Z) (contract env msg sig_info : HostSlice)
    (h : Trace) : Shared -> option (Shared * Returned InitResult) :=
  ecall w [env; msg; contract; sig_info]
    (fun depth => init (Mem := Mem) km depth fuel gas_limit (s_data contract) (s_data env) (s_data msg)
                    (s_data sig_info) h)
    result_init_success_to_initresult InitFailure gas_limit used_gas h.

Definition ecall_handle (w : World) (gas_limit used_gas : Z) (contract env msg sig_info : HostSlice)
    (h : Trace) : Shared -> option (Shared * Returned HandleResult) :=
  ecall w [env; msg; contract; sig_info]
    (fun depth => handle (Mem := Mem) km depth fuel gas_limit (s_data contract) (s_data env) (s_data msg)
                    (s_data sig_info) h)
    result_handle_success_to_handleresult HandleFailure gas_limit used_gas h.

Definition ecall_query (w : World) (gas_limit used_gas : Z) (contract msg : HostSlice)
    (h : Trace) : Shared -> option (Shared * Returned QueryResult) :=
  ecall w [msg; contract]
    (fun depth => query (Mem := Mem) km depth fuel gas_limit (s_data contract) (s_data msg) h)
    result_query_success_to_queryresult QueryFailure gas_limit used_gas h.

End Entry.

(** ** When an ecall returns *)

(** The reserve exists. *)
Definition is_built (st : Shared) : Prop := exists b, safety st = Safety.Built b.

(** What keeps an ecall from coming back at its start: the reserve could not be built before, or it
    cannot be built now, or its vector cannot grow. *)
Definition reserve_fails (s : Safety.Supply) (st : Shared) : Prop :=
  safety st = Safety.Broken \/
  (safety st = Safety.Unbuilt /\
   (Safety.vector s = false \/ exists i, (i <= Safety.MIN_CHUNKS)%nat /\ Safety.chunk s i = false)) \/
  exists c, Safety.growth s c = false.

Lemma restore_panics s st : (restore_safety_buffer s st).2 = Panic -> reserve_fails s st.
Proof.
  unfold restore_safety_buffer, reserve_fails, Safety.force, Safety.restore. destruct (safety st) as [| |b].
  - intros H. right. destruct (Safety.SAFETY_BUFFER grow s) as [b|e|] eqn:En.
    + right. destruct (_ <? _); [|done]. pose proof (Safety.top_up_stuck grow (Safety.chunks b - Safety.held b) s b) as Hx.
      unfold Safety.top_up_buffer in H. destruct (Safety.top_up_loop _ _ _ _) as [b' r]. cbn [snd] in *. by apply Hx.
    + exfalso. revert En. unfold Safety.SAFETY_BUFFER, Safety.new. destruct (Safety.vector s); [|done].
      by destruct (Safety.top_up_buffer _ _ _) as [? []].
    + left. split; [done|]. by apply (Safety.new_panics grow s Safety.CHUNKS).
  - by left.
  - intros H. right. right. destruct (_ <? _); [|done]. pose proof (Safety.top_up_stuck grow (Safety.chunks b - Safety.held b) s b) as Hx.
    unfold Safety.top_up_buffer in H. destruct (Safety.top_up_loop _ _ _ _) as [b' r]. cbn [snd] in *. by apply Hx.
Qed.

Lemma restore_panics_built s st : is_built st -> (restore_safety_buffer s st).2 = Panic -> exists c, Safety.growth s c = false.
Proof. intros [b Hb] [Hx|[[Hx _]|Hx]]%restore_panics; [congruence..|done]. Qed.

Lemma restore_builds s st st' u : restore_safety_buffer s st = (st', Ok u) -> is_built st'.
Proof.
  unfold restore_safety_buffer. destruct (Safety.force _ _ _) as [r [b| |]]; [|done..].
  destruct (Safety.restore grow s b) as [b' res]. intros [= <- _]. by exists b'.
Qed.

Lemma restore_keeps_depth s st st' r :
  restore_safety_buffer s st = (st', r) -> rec_depth st' = rec_depth st.
Proof.
  unfold restore_safety_buffer. destruct (Safety.force _ _ _) as [? [b| |]]; [|by intros [= <- _]..].
  destruct (Safety.restore grow s b). by intros [= <- _].
Qed.

Lemma restore_error s st st' e :
  restore_safety_buffer s st = (st', Err e) -> e = MemorySafetyAllocationError.
Proof.
  unfold restore_safety_buffer, Safety.restore. destruct (Safety.force _ _ _) as [? [b| |]]; [|done..].
  destruct (_ <? _); [|done]. unfold Safety.top_up_buffer.
  pose proof (Safety.top_up_error grow (Safety.chunks b - Safety.held b) s b e) as Hn.
  destruct (Safety.top_up_loop _ _ _ _) as [b' res]. intros [= _ ->]. by apply Hn.
Qed.

Lemma hook_built st : is_built st -> is_built (alloc_error_hook st).
Proof. intros [b Hb]. unfold alloc_error_hook. rw Hb. by eexists. Qed.

Lemma caught_built {A R} w (o : Outcome A) (convert : result EnclaveError A -> R) gas st :
  is_built st -> is_built (caught w o convert gas st).1.1.1.
Proof. intros Hb. unfold caught. destruct (exhausted w); [by apply hook_built|]. by destruct (out_result o). Qed.

Lemma caught_depth {A R} w (o : Outcome A) (convert : result EnclaveError A -> R) gas st :
  rec_depth (caught w o convert gas st).1.1.1 = rec_depth st.
Proof. unfold caught. destruct (exhausted w); [done|]. by destruct (out_result o). Qed.

(** How an ecall ends: refused before the contract ran, with what the contract returned, or
    with an error when it panicked, ran out of memory or left too little reserve. *)
Definition ended {A R} (w : World) (slices : list HostSlice) (body : Z -> option (Outcome A))
    (convert : result EnclaveError A -> R) (failure : EnclaveError -> R) (gas_limit used_gas : Z)
    (h : Trace) (st : Shared) (r : Returned R) : Prop :=
  (exists e, r = mkReturned (failure e) used_gas h) \/
  gas_inside w = true /\ forallb validate_const_ptr slices = true /\ (rec_depth st < 5)%Z /\
  exists o, body (rec_depth st + 1)%Z = Some o /\
    ((out_result o <> Panic /\ exhausted w = None /\
      r = mkReturned (convert (out_result o)) (default used_gas (out_gas o)) (out_trace o)) \/
     ((out_result o = Panic \/ exhausted w <> None) /\
      (ret r = failure OutOfMemory \/ ret r = failure EnclavePanic) /\ ret_gas r = (gas_limit / 2)%Z) \/
     ret r = failure MemorySafetyAllocationError).

(** The exit of an ecall, after a body that ended with [o]. *)
Lemma leave_contained {A R} w (o : Outcome A) (convert : result EnclaveError A -> R) failure gas_limit used_gas st :
  is_built st -> (0 < rec_depth st)%Z ->
  (exists st' r, leave w o convert failure gas_limit used_gas st = Some (st', r) /\ rec_depth st' = (rec_depth st - 1)%Z /\
     ((out_result o <> Panic /\ exhausted w = None /\
       r = mkReturned (convert (out_result o)) (default used_gas (out_gas o)) (out_trace o)) \/
      ((out_result o = Panic \/ exhausted w <> None) /\
       (ret r = failure OutOfMemory \/ ret r = failure EnclavePanic) /\ ret_gas r = (gas_limit / 2)%Z) \/
      ret r = failure MemorySafetyAllocationError)) \/
  (leave w o convert failure gas_limit used_gas st = None /\ exists c, Safety.growth (reserve_out w) c = false).
Proof.
  intros Hb Hd. unfold leave.
  pose proof (caught_depth w o convert used_gas st) as Hcd. pose proof (caught_built w o convert used_gas st Hb) as Hcb.
  destruct (caught w o convert used_gas _) as [[[st3 res] gas] h'] eqn:Hc. cbn [fst] in Hcd, Hcb.
  pose proof (restore_panics_built (reserve_out w) st3 Hcb) as Hp3.
  destruct (restore_safety_buffer (reserve_out w) st3) as [st4 [u4|e|]] eqn:E4; [..|right; split; [done|by apply Hp3]]; left.
  - apply restore_keeps_depth in E4.
    assert (Recursion.decrement (rec_depth st4) = rec_depth st - 1)%Z as Hdec by (unfold Recursion.decrement; lia).
    unfold caught in Hc. destruct (exhausted w) as [cut|] eqn:Hx.
    + injection Hc as <- <- <- <-. eexists _, _. split; [done|]. split; [done|]. right. left. split; [by right|].
      split; [|done]. destruct (oom_happened st4); [by left|by right].
    + destruct (out_result o) as [a|e|] eqn:Hr; injection Hc as <- <- <- <-; (eexists _, _; split; [done|]); (split; [done|]).
      * by left.
      * by left.
      * right. left. split; [by left|]. split; [|done]. destruct (oom_happened st4); [by left|by right].
  - pose proof (restore_error _ _ _ _ E4) as ->. apply restore_keeps_depth in E4.
    eexists _, _. split; [done|]. split; [cbn [rec_depth set_depth drop_guard]; unfold Recursion.decrement; lia|]. by right; right.
Qed.

(** C22: An ecall whose contract call terminates returns to the host unless the memory reserve
    fails outside of what is caught. When it returns, the recursion counter is back to what
    it was, and the result is a refusal with nothing done, the result of the call with its
    gas, an out-of-memory or panic error charged half the gas limit, or a failure to refill
    the memory reserve. It does not return only when, on entry, an earlier attempt to build
    the reserve panicked, or the reserve is built for the first time and its vector or one
    of its first 2049 chunks cannot be allocated, or when on entry or exit the vector of the
    reserve cannot grow while its lock is held. Ecalls made from within ocalls are taken to
    leave the counter as it was and the reserve built, and unwinding to find memory in the
    freed reserve. *)
Theorem ecall_is_contained {A R} w slices (body : Z -> option (Outcome A))
    (convert : result EnclaveError A -> R) failure gas_limit used_gas h st :
  (0 <= rec_depth st <= Recursion.RECURSION_LIMIT)%Z ->
  (forall s, rec_depth (nested w s) = rec_depth s) -> (forall s, is_built s -> is_built (nested w s)) ->
  is_Some (body (rec_depth st + 1)%Z) ->
  (exists st' r, ecall w slices body convert failure gas_limit used_gas h st = Some (st', r) /\
     rec_depth st' = rec_depth st /\
     ended w slices body convert failure gas_limit used_gas h st r) \/
  (ecall w slices body convert failure gas_limit used_gas h st = None /\
   (reserve_fails (reserve_in w) st \/ exists c, Safety.growth (reserve_out w) c = false)).
Proof.
  intros Hd Hn Hnb [o Ho]. unfold ecall, Recursion.increment, Recursion.RECURSION_LIMIT, U8_MAX in *.
  destruct (Z.eqb_spec (rec_depth st) 5) as [E|E].
  { left. eexists _, _. split; [done|]. split; [done|]. left. by eexists. }
  replace (Z.min 255 (rec_depth st + 1)) with (rec_depth st + 1)%Z by lia.
  unfold register_oom_handler. pose proof (restore_panics (reserve_in w) (set_depth (rec_depth st + 1) st)) as Hp.
  destruct (restore_safety_buffer (reserve_in w) _) as [st1 [u|e|]] eqn:E1; [| |right; split; [done|left; by apply Hp]];
    pose proof (restore_keeps_depth _ _ _ _ E1) as D1; cbn [rec_depth set_depth] in D1.
  2: { left. eexists _, _. split; [done|]. split; [|left; by eexists]. cbn [rec_depth set_depth drop_guard].
       unfold Recursion.decrement. lia. }
  destruct (negb (gas_inside w && forallb validate_const_ptr slices)) eqn:Hptr.
  { left. eexists _, _. split; [done|]. split; [|left; by eexists]. cbn [rec_depth set_depth set_oom drop_guard].
    unfold Recursion.decrement. lia. }
  apply negb_false_iff, andb_true_iff in Hptr as [Hg Hs]. rw Ho.
  destruct (leave_contained w o convert failure gas_limit used_gas (nested w (set_oom false st1))) as [(st' & r & -> & Hdep & Hr)|[-> Hx]].
  - apply Hnb. destruct (restore_builds _ _ _ _ E1) as [b Hb]. by exists b.
  - rw Hn. cbn. lia.
  - left. exists st', r. split; [done|]. split; [rw Hdep Hn; cbn; lia|]. right. split_and!; [done..|lia|]. by exists o.
  - right. split; [done|]. by right.
Qed.

(** The first use of the reserve, when memory is short: the panic of its initialiser leaves the
    ecall. *)
Theorem unbuilt_reserve_panics {A R} w slices (body : Z -> option (Outcome A))
    (convert : result EnclaveError A -> R) failure gas_limit used_gas h st :
  (0 <= rec_depth st < Recursion.RECURSION_LIMIT)%Z -> safety st = Safety.Unbuilt -> Safety.chunk (reserve_in w) 0 = false ->
  ecall w slices body convert failure gas_limit used_gas h st = None.
Proof.
  intros Hd Hs Hc. unfold ecall, Recursion.increment. destruct (Z.eqb_spec (rec_depth st) Recursion.RECURSION_LIMIT); [lia|].
  unfold register_oom_handler, restore_safety_buffer, Safety.force, Safety.SAFETY_BUFFER, Safety.new, Safety.top_up_buffer.
  cbn [safety set_depth]. rw Hs. destruct (Safety.vector (reserve_in w)); [|done].
  cbn [Safety.chunks Safety.held]. destruct (Safety.CHUNKS - 0) as [|rounds] eqn:E; [done|]. cbn [Safety.top_up_loop Safety.held]. by rw Hc.
Qed.

(** After an allocation failed in the contract call, the reserve is refilled on the way out; if its
    vector cannot be allocated, the ecall does not come back. *)
Theorem refused_growth_blocks {A R} w (o : Outcome A) (convert : result EnclaveError A -> R) failure gas_limit used_gas st b cut :
  safety st = Safety.Built b -> 0 < Safety.chunks b -> exhausted w = Some cut ->
  Safety.chunk (reserve_out w) 0 = true -> Safety.growth (reserve_out w) (grow 0) = false ->
  leave w o convert failure gas_limit used_gas st = None.
Proof.
  intros Hs Hb Hx Hc Hg. unfold leave, caught. rw Hx. unfold alloc_error_hook, restore_safety_buffer, Safety.force. rw Hs. cbn [safety set_safety].
  unfold Safety.restore, Safety.clear. cbn [Safety.capacity Safety.chunks]. destruct (Nat.ltb_spec 0 (Safety.chunks b)); [|lia].
  unfold Safety.top_up_buffer. cbn [Safety.chunks Safety.held]. destruct (Safety.chunks b - 0) eqn:E; [lia|].
  cbn [Safety.top_up_loop Safety.held]. rw Hc. unfold Safety.push. cbn. by rw Hg.
Qed.

End Ecalls.

(** ** The ecall theorem at a contract call that panics two levels deep *)

Definition demo_world : World := mkWorld true Safety.plenty Safety.plenty (fun st => st) None.
Definition demo_shared : Shared :=
  mkShared 2 Buffers.initial (Safety.Built (Safety.mkSafety 8 4 8 8)) false.

Lemma ecall_is_contained_witness :
  exists st' r,
    ecall Safety.vec_grow demo_world [mkSlice 64 [Byte.x01]]
      (fun _ => Some (mkOutcome [] (Some 7%Z) Panic))
      (result_handle_success_to_handleresult (fun _ => None)) HandleFailure 1000 3 [] demo_shared
    = Some (st', r) /\ rec_depth st' = 2%Z /\ ret r = HandleFailure EnclavePanic /\ ret_gas r = 500%Z.
Proof.
  destruct (ecall_is_contained Safety.vec_grow demo_world [mkSlice 64 [Byte.x01]]
              (fun _ => Some (mkOutcome [] (Some 7%Z) Panic))
              (result_handle_success_to_handleresult (fun _ => None)) HandleFailure 1000 3 [] demo_shared)
    as [(st' & r & E & D & _)|[_ [[Hx|[[Hx _]|[c Hx]]]|[c Hx]]]]; [by split|reflexivity|done|by eexists| |discriminate..].
  exists st', r. split; [exact E|]. split; [exact D|]. vm_compute in E. injection E as _ <-. done.
Defined.

(** An enclave whose first ecall finds no memory for the reserve, and one in which memory runs out
    and the reserve cannot be refilled. *)
Lemma unbuilt_reserve_panics_witness :
  ecall Safety.vec_grow (mkWorld true (Safety.mkSupply true (fun _ => false) (fun _ => true)) Safety.plenty (fun st => st) None)
    [mkSlice 64 [Byte.x01]] (fun _ => Some (mkOutcome [] (Some 7%Z) (Ok [Byte.x01])))
    (result_handle_success_to_handleresult (fun _ => Some 1%Z)) HandleFailure 1000 3 []
    (mkShared 0 Buffers.initial Safety.Unbuilt false) = None.
Proof. apply unbuilt_reserve_panics; [by split|reflexivity|reflexivity]. Defined.

Lemma refused_growth_blocks_witness :
  leave Safety.vec_grow (mkWorld true Safety.plenty (Safety.mkSupply true (fun _ => true) (fun _ => false)) (fun st => st) (Some []))
    (mkOutcome [] (Some 7%Z) (Ok [Byte.x01])) (result_handle_success_to_handleresult (fun _ => Some 1%Z)) HandleFailure 1000 3
    demo_shared = None.
Proof. eapply refused_growth_blocks; [reflexivity|cbn; lia|reflexivity|reflexivity|reflexivity]. Defined.
