(* ===== verification/Logging.v ===== *)
(** * Logging of the enclave: wasmi-runtime/src/lib.rs and logger.rs

    The enclave logs plaintext messages and keys at the levels debug and trace.  What reaches
    the host's standard output is decided once, when the library is loaded: [init_logger] sets
    the greatest level, from the environment variable LOG_LEVEL of the host, within the bound of
    the build.  The macros of the crate log pass a record to the logger when its level is within
    that greatest level. *)

From Stdlib Require Import Strings.String.
From stdpp Require Import base tactics list numbers strings ssreflect.
From S2P Require Import Prelude.

Local Open Scope string_scope.
Local Open Scope list_scope.

(** [log::LevelFilter], ordered from [Off] to [Trace]; a record's level is one of them but [Off]. *)
Inductive LevelFilter : Type := Off | Error | Warn | Info | Debug | Trace.

#[export] Instance level_eq_dec : EqDecision LevelFilter.
Proof. solve_decision. Defined.

Definition rank (l : LevelFilter) : nat :=
  match l with Off => 0 | Error => 1 | Warn => 2 | Info => 3 | Debug => 4 | Trace => 5 end.
Definition level_leb (a b : LevelFilter) : bool := (rank a <=? rank b)%nat.

Definition display_level (l : LevelFilter) : string :=
  match l with
  | Off => "OFF" | Error => "ERROR" | Warn => "WARN" | Info => "INFO" | Debug => "DEBUG" | Trace => "TRACE"
  end.

Record LogRecord : Type := mkRecord { level : LevelFilter; target : string; args : string }.

(** The state of the crate log and the lines printed. *)
Record Logger : Type := mkLogger { installed : bool; max_level : LevelFilter; printed : list string }.

(** Before [init_logger]: no logger, and the greatest level is [Off]. *)
Definition fresh : Logger := mkLogger false Off [].

(** ** logger.rs *)

Definition enabled (_ : LogRecord) : bool := true.

Definition log_record (r : LogRecord) (l : Logger) : Logger :=
  mkLogger (installed l) (max_level l)
           (printed l ++ [display_level (level r) +:+ "  [" +:+ target r +:+ "] " +:+ args r]).

(** A logging macro, such as [debug!]. *)
Definition log_macro (r : LogRecord) (l : Logger) : Logger :=
  if installed l && level_leb (level r) (max_level l) then log_record r l else l.

(** ** lib.rs *)

Definition log_level_from_str (env_log_level : string) : option LevelFilter :=
  match env_log_level with
  | "OFF" => Some Off
  | "ERROR" => Some Error
  | "WARN" => Some Warn
  | "INFO" => Some Info
  | "DEBUG" => Some Debug
  | "TRACE" => Some Trace
  | _ => None
  end.

(** [env] is the variable LOG_LEVEL, if the host sets it to UTF-8 text. *)
Definition set_log_level_or_default (env : option string) (default_level max_lvl : LevelFilter)
  : M Logger Empty_set unit :=
  if negb (level_leb default_level max_lvl) then liftR Panic
  else
    let log_level :=
      match log_level_from_str (default "" env) with
      | Some env_log_level => if level_leb env_log_level max_lvl then env_log_level else default_level
      | None => default_level
      end in
    modifyS (fun l => mkLogger (installed l) log_level (printed l)).

(** [log::set_logger(...).unwrap()]: a second call panics. *)
Definition set_logger : M Logger Empty_set unit :=
  fun l => if installed l then (l, Panic) else (mkLogger true (max_level l) (printed l), Ok tt).

(** The two builds of [init_logger]. *)
Definition init_logger_production (env : option string) : M Logger Empty_set unit :=
  _ ← set_logger; set_log_level_or_default env Error Warn.
Definition init_logger_development (env : option string) : M Logger Empty_set unit :=
  _ ← set_logger; set_log_level_or_default env Trace Trace.

(** ** Properties *)

(** set_log_level_or_default never sets a level beyond the bound of the build, and panics exactly
    when the default is beyond it. *)
Theorem log_level_is_bounded env d m (l l' : Logger) r :
  set_log_level_or_default env d m l = (l', r) ->
  if decide (rank d <= rank m)%nat
  then r = Ok tt /\ (rank (max_level l') <= rank m)%nat /\ printed l' = printed l
  else r = Panic /\ l' = l.
Proof.
  unfold set_log_level_or_default, level_leb. destruct (Nat.leb_spec (rank d) (rank m)) as [Hd|Hd]; cbn [negb].
  - rw decide_True //. cbv [modifyS]. intros [= <- <-]. split_and!; [done| |done]. cbn [max_level].
    destruct (log_level_from_str _) as [e|]; [|done]. by destruct (Nat.leb_spec (rank e) (rank m)).
  - rw decide_False; [|lia]. cbv [liftR]. by intros [= <- <-].
Qed.

Lemma log_macro_keeps_level r l : installed (log_macro r l) = installed l /\ max_level (log_macro r l) = max_level l.
Proof. unfold log_macro. by destruct (_ && _). Qed.

Definition log_all (rs : list LogRecord) (l : Logger) : Logger := foldl (fun l r => log_macro r l) l rs.

Lemma log_all_above rs l :
  Forall (fun r => rank (max_level l) < rank (level r))%nat rs -> log_all rs l = l.
Proof.
  induction 1 as [|r rs Hr _ IH]; [done|]. unfold log_all in *. cbn [foldl].
  assert (log_macro r l = l) as ->; [|done]. unfold log_macro, level_leb.
  destruct (Nat.leb_spec (rank (level r)) (rank (max_level l))); [lia|]. by rw andb_false_r.
Qed.

(** In a production build, whatever the host puts in LOG_LEVEL, no sequence of records of level
    info, debug or trace changes what is printed. *)
Theorem production_does_not_leak env rs :
  Forall (fun r => rank Warn < rank (level r))%nat rs ->
  exists l, init_logger_production env fresh = (l, Ok tt) /\ printed (log_all rs l) = [].
Proof.
  intros Hrs. unfold init_logger_production. cbv [mbind M_bind]. cbn [set_logger fresh installed].
  destruct (set_log_level_or_default env Error Warn (mkLogger true (max_level fresh) (printed fresh))) as [l r] eqn:E.
  apply log_level_is_bounded in E as (-> & Hl & Hp). exists l. split; [done|].
  rw log_all_above; [done|]. eapply Forall_impl; [done|]. cbn in Hl |- *. intros x Hx. lia.
Qed.

(** The development build prints everything unless the host lowers the level. *)
Theorem development_prints_everything rs :
  exists l, init_logger_development None fresh = (l, Ok tt) /\ length (printed (log_all rs l)) = length rs.
Proof.
  exists (mkLogger true Trace []). split; [done|].
  assert (forall out, length (printed (log_all rs (mkLogger true Trace out))) = length out + length rs) as E; [|apply E].
  induction rs as [|r rs IH]; intros out; cbn [log_all foldl length]; [cbn; lia|].
  assert (log_macro r (mkLogger true Trace out) = log_record r (mkLogger true Trace out)) as E.
  { unfold log_macro. by destruct r as [[]]. }
  unfold log_all in IH. rw E. unfold log_record. cbn [installed max_level printed]. rw IH length_app. cbn. lia.
Qed.

Lemma production_does_not_leak_witness :
  exists l, init_logger_production (Some "TRACE") fresh = (l, Ok tt) /\
            printed (log_all [mkRecord Debug "io" "message: secret"] l) = [].
Proof.
  apply (production_does_not_leak (Some "TRACE") [mkRecord Debug "io" "message: secret"]).
  constructor; [cbn; lia|constructor].
Defined.
