(* ===== verification/SgxVm.v ===== *)
(** * The host side of the enclave: cosmwasm/packages/sgx-vm/src

    ffi.rs, errors/, traits.rs, context.rs, wasmi/exports.rs (the ocalls), wasmi/wrapper.rs
    (the calls into the enclave), wasmi/results.rs, instance.rs, calls.rs, backends/enclave.rs
    and testing/storage.rs.  Boxes on the heap of the host are maps from addresses to values,
    so that a box that is freed twice or used after it was freed is visible.  The answers of
    the ocalls make an instance of the class [Host] that the enclave was proved against. *)

From Stdlib Require Import Strings.String.
From stdpp Require Import base tactics list numbers strings ssreflect gmap.
From S2P Require Import Prelude Crypto Storage EnclaveDb Ecalls.

Local Open Scope string_scope.
Local Open Scope list_scope.

(** ** ffi.rs *)

Record GasInfo : Type := mkGasInfo { gas_cost : Z; externally_used : Z }.
Definition with_cost (amount : Z) : GasInfo := mkGasInfo amount 0.
Definition with_externally_used (amount : Z) : GasInfo := mkGasInfo 0 amount.
Definition free_gas : GasInfo := mkGasInfo 0 0.

Inductive FfiError : Type :=
| ForeignPanic
| BadArgument
| FfiInvalidUtf8
| FfiOutOfGas
| FfiUnknown (msg : option string)
| UserErr (msg : string).

(** [FfiResult<T>]; a panic of the implementation is [Panic]. *)
Abbreviation FfiResult T := ((result FfiError T) * GasInfo)%type.

(** ** errors *)

Inductive RegionValidationError : Type :=
| LengthExceedsCapacity (length capacity : Z)
| OutOfRange (offset capacity : Z)
| ZeroOffset.

Inductive CommunicationError : Type :=
| DerefErr (offset : Z) (msg : string)
| InvalidOrder (value : Z)
| InvalidRegion (source : RegionValidationError)
| CommInvalidUtf8 (msg : string)
| RegionLengthTooBig (length max_length : Z)
| RegionTooSmall (size required : Z)
| ZeroAddress.

(** errors/enclave.rs: an error of the enclave or of the SGX call itself. *)
Inductive VmEnclaveError : Type :=
| EnclaveSideErr (error : EnclaveError)
| SdkErr (status : Z).

Inductive VmError : Type :=
| CacheErr (msg : string)
| CommunicationErr (source : CommunicationError)
| CompileErr (msg : string)
| ConversionErr (from_type to_type input : string)
| VmGenericErr (msg : string)
| InstantiationErr (msg : string)
| IntegrityErr
| IteratorDoesNotExist (id : Z)
| VmParseErr (target msg : string)
| VmSerializeErr (source msg : string)
| ResolveErr (msg : string)
| RuntimeErr (msg : string)
| StaticValidationErr (msg : string)
| UninitializedContextData (kind : string)
| FfiErr (source : FfiError)
| GasDepletion
| WriteAccessDenied
| EnclaveErr (source : VmEnclaveError).

Abbreviation VmResult := (result VmError).

(** [From<FfiError> for VmError]. *)
Definition vm_error_of_ffi (ffi_error : FfiError) : VmError :=
  match ffi_error with
  | FfiOutOfGas => GasDepletion
  | _ => FfiErr ffi_error
  end.

(** ** The heap of the host *)

(** Boxes by address; [None] where a freed or foreign box is used. *)
Abbreviation Boxes A := (gmap Z A).

(** [Box::from_raw] and the move out of the box. *)
Definition unbox {A} (p : Z) (boxes : Boxes A) : option (Boxes A * A) :=
  a ← boxes !! p; Some (delete p boxes, a).

(** Where the allocator puts a new box: not at null, and not where something lives. *)
Class Allocator : Type := {
  address_for (used : gset Z) : Z;
  address_not_null used : address_for used <> 0%Z;
  address_unused used : address_for used ∉ used
}.

(** [From<enclave_ffi_types::EnclaveError> for VmError]: an error boxed during an ocall is
    taken out of its box. *)
Definition vm_error_of_enclave (error : EnclaveError) (errors : Boxes VmError)
  : option (Boxes VmError * VmError) :=
  match error with
  | OutOfGas => Some (errors, GasDepletion)
  | FailedOcall vm_error =>
      if (vm_ptr vm_error =? 0)%Z then Some (errors, EnclaveErr (EnclaveSideErr error))
      else unbox (vm_ptr vm_error) errors
  | _ => Some (errors, EnclaveErr (EnclaveSideErr error))
  end.

(** ** traits.rs: the backend *)

(** [get] takes [&self], but the storage of a chain is behind a pointer and meters gas. *)
Class VmStorage (S : Type) : Type := {
  st_get : S -> bytes -> S * FfiResult (option bytes);
  st_set : S -> bytes -> bytes -> S * FfiResult unit;
  st_remove : S -> bytes -> S * FfiResult unit
}.

(** [R] is [SystemResult<StdResult<Binary>>], which this layer only encodes. *)
Class VmQuerier (Q R : Type) : Type := {
  query_raw : Q -> bytes -> Z -> FfiResult R;
  encode_answer : R -> option bytes
}.

(** ** context.rs *)

Section Context.
Context {S Q I : Type}.

(** [iterators] exists with the feature of that name. *)
Record ContextData : Type := mkContextData {
  ctx_storage : option S;
  storage_readonly : bool;
  ctx_querier : option Q;
  iterators : gmap Z I
}.

Definition create_unmanaged_context_data : ContextData := mkContextData None true None ∅.

Definition destroy_iterators (c : ContextData) : ContextData :=
  mkContextData (ctx_storage c) (storage_readonly c) (ctx_querier c) ∅.

(** Takes the storage and the querier out. *)
Definition move_out_of_context (c : ContextData) : ContextData * (option S * option Q) :=
  (mkContextData None (storage_readonly c) None ∅, (ctx_storage c, ctx_querier c)).

Definition move_into_context (c : ContextData) (storage : S) (querier : Q) : ContextData :=
  mkContextData (Some storage) (storage_readonly c) (Some querier) (iterators c).

Definition set_storage_readonly (c : ContextData) (new_value : bool) : ContextData :=
  mkContextData (ctx_storage c) new_value (ctx_querier c) (iterators c).

(** A new iterator gets the number of iterators plus one; [Panic] beyond [i32::MAX]. *)
Definition add_iterator (c : ContextData) (iter : I) : result VmError (ContextData * Z) :=
  let last_id := Z.of_nat (size (iterators c)) in
  if (U32_MAX <? last_id)%Z then Panic
  else
    new_id ← arith U32_MAX (last_id + 1);
    if (2^31 - 1 <? new_id)%Z then Panic
    else Ok (mkContextData (ctx_storage c) (storage_readonly c) (ctx_querier c)
               (<[new_id := iter]> (iterators c)), new_id).

Definition with_storage_from_context {T} (c : ContextData) (func : S -> S * VmResult T)
  : ContextData * VmResult T :=
  match ctx_storage c with
  | Some data =>
      let (s, r) := func data in
      (mkContextData (Some s) (storage_readonly c) (ctx_querier c) (iterators c), r)
  | None => (c, Err (UninitializedContextData "storage"))
  end.

Definition with_querier_from_context {T} (c : ContextData) (func : Q -> VmResult T) : VmResult T :=
  match ctx_querier c with
  | Some querier => func querier
  | None => Err (UninitializedContextData "querier")
  end.

Definition with_iterator_from_context {T} (c : ContextData) (iterator_id : Z)
    (func : I -> I * VmResult T) : ContextData * VmResult T :=
  match iterators c !! iterator_id with
  | Some iterator =>
      let (i, r) := func iterator in
      (mkContextData (ctx_storage c) (storage_readonly c) (ctx_querier c)
         (<[iterator_id := i]> (iterators c)), r)
  | None => (c, Err (IteratorDoesNotExist iterator_id))
  end.

End Context.
Arguments ContextData : clear implicits.

(** ** wasmi/exports.rs *)

Section Ocalls.
Context {S Q I R : Type} `{HS : VmStorage S} `{HQ : VmQuerier Q R} `{AL : Allocator}.

(** [ffi_result.map(...).map_err(Into::into)] with the gas charged outside. *)
Definition with_gas {A B} (f : A -> Z -> B) (r : FfiResult A) : VmResult B :=
  match r.1 with
  | Ok a => Ok (f a (externally_used r.2))
  | Err e => Err (vm_error_of_ffi e)
  | Panic => Panic
  end.

Definition ocall_read_db_impl (c : ContextData S Q I) (key : bytes)
  : ContextData S Q I * VmResult (option bytes * Z) :=
  with_storage_from_context c (fun s => let (s', r) := st_get s key in (s', with_gas pair r)).

Definition ocall_query_chain_impl (c : ContextData S Q I) (query : bytes) (gas_limit : Z)
  : VmResult (R * Z) :=
  with_querier_from_context c (fun q => with_gas pair (query_raw q query gas_limit)).

Definition ocall_remove_db_impl (c : ContextData S Q I) (key : bytes) : ContextData S Q I * VmResult Z :=
  with_storage_from_context c (fun s => let (s', r) := st_remove s key in (s', with_gas (fun _ g => g) r)).

Definition ocall_write_db_impl (c : ContextData S Q I) (key value : bytes)
  : ContextData S Q I * VmResult Z :=
  with_storage_from_context c (fun s => let (s', r) := st_set s key value in (s', with_gas (fun _ g => g) r)).

(** The state of the host that ocalls change. *)
Record HostState : Type := mkHost {
  context : ContextData S Q I;
  errors : Boxes VmError
}.

(** What an ocall hands back: its status, the out-parameters, and what is behind the pointer
    to a buffer in the enclave ([None] is the null pointer). *)
Record OcallOut : Type := mkOut {
  out_return : OcallReturn;
  out_vm_error : UntrustedVmError;
  out_gas_used : Z;
  out_buffer : option bytes
}.

(** [store_vm_error]: the error is boxed and leaked. *)
Definition store_vm_error (err : VmError) (errs : Boxes VmError) : Boxes VmError * UntrustedVmError :=
  let p := address_for (dom errs) in (<[p := err]> errs, mkVmError p).

Definition failed (err : VmError) (c : ContextData S Q I) (errs : Boxes VmError) : HostState * OcallOut :=
  let (errs', e) := store_vm_error err errs in
  (mkHost c errs', mkOut OcallFailure e 0 None).

(** The out-parameters keep what the enclave put into them before the call. *)
Definition panicked (c : ContextData S Q I) (errs : Boxes VmError) : HostState * OcallOut :=
  (mkHost c errs, mkOut OcallPanic default_vm_error 0 None).

(** [allocate_enclave_buffer]: [allocated] is [None] where the SGX call fails; otherwise it is
    what the enclave will find behind the pointer that [ecall_allocate] returned, which the
    host does not look at. *)
Definition with_buffer (allocated : bytes -> option (option bytes)) (value : bytes) (gas : Z)
    (c : ContextData S Q I) (errs : Boxes VmError) : HostState * OcallOut :=
  match allocated value with
  | Some behind => (mkHost c errs, mkOut OcallSuccess default_vm_error gas behind)
  | None => (mkHost c errs, mkOut OcallFailure default_vm_error gas None)
  end.

Definition ocall_read_db (allocated : bytes -> option (option bytes)) (key : bytes) (h : HostState) : HostState * OcallOut :=
  match ocall_read_db_impl (context h) key with
  | (c, Ok (Some value, gas)) => with_buffer allocated value gas c (errors h)
  | (c, Ok (None, gas)) => (mkHost c (errors h), mkOut OcallSuccess default_vm_error gas None)
  | (c, Err err) => failed err c (errors h)
  | (c, Panic) => panicked c (errors h)
  end.

(** An answer that cannot be encoded becomes the null buffer. *)
Definition ocall_query_chain (allocated : bytes -> option (option bytes)) (query : bytes) (gas_limit : Z) (h : HostState)
  : HostState * OcallOut :=
  match ocall_query_chain_impl (context h) query gas_limit with
  | Ok (system_result, gas) =>
      match encode_answer system_result with
      | Some value => with_buffer allocated value gas (context h) (errors h)
      | None => (h, mkOut OcallSuccess default_vm_error gas None)
      end
  | Err err => failed err (context h) (errors h)
  | Panic => panicked (context h) (errors h)
  end.

Definition gas_only (r : ContextData S Q I * VmResult Z) (errs : Boxes VmError) : HostState * OcallOut :=
  match r with
  | (c, Ok gas) => (mkHost c errs, mkOut OcallSuccess default_vm_error gas None)
  | (c, Err err) => failed err c errs
  | (c, Panic) => panicked c errs
  end.

Definition ocall_remove_db (key : bytes) (h : HostState) : HostState * OcallOut :=
  gas_only (ocall_remove_db_impl (context h) key) (errors h).

Definition ocall_write_db (key value : bytes) (h : HostState) : HostState * OcallOut :=
  gas_only (ocall_write_db_impl (context h) key value) (errors h).

(** The table of implementations that a context carries dispatches on the kind of ocall. *)
Definition perform (allocated : bytes -> option (option bytes)) (call : Ocall) : HostState -> HostState * OcallOut :=
  match call with
  | OReadDb key => ocall_read_db allocated key
  | OWriteDb key value => ocall_write_db key value
  | ORemoveDb key => ocall_remove_db key
  | OQueryChain query gas_limit => ocall_query_chain allocated query gas_limit
  end.

End Ocalls.
Arguments HostState : clear implicits.

(** ** wasmi/results.rs and the buffers of user space *)

(** [ocall_allocate] copies a buffer of the enclave into a box of the host. *)
Definition ocall_allocate `{Allocator} (data : bytes) (buffers : Boxes bytes) : Boxes bytes * Z :=
  let p := address_for (dom buffers) in (<[p := data]> buffers, p).

(** [recover_buffer]: the outer [None] is the use of a box that is not alive. *)
Definition recover_user_buffer (ptr : Z) (buffers : Boxes bytes) : option (Boxes bytes * option bytes) :=
  if (ptr =? 0)%Z then Some (buffers, None)
  else '(buffers', data) ← unbox ptr buffers; Some (buffers', Some data).

(** The boxes of both kinds. *)
Record Heap : Type := mkHeap { vm_errors : Boxes VmError; user_buffers : Boxes bytes }.

Record VmInitSuccess : Type := mkVmInit { vm_output : bytes; vm_contract_key : bytes }.
Definition into_output (s : VmInitSuccess) : bytes := vm_contract_key s ++ vm_output s.

(** [None] is undefined behaviour. *)
Definition take_output (ptr : Z) (hp : Heap) : option (Heap * bytes) :=
  '(buffers, data) ← recover_user_buffer ptr (user_buffers hp);
  Some (mkHeap (vm_errors hp) buffers, default [] data).

Definition take_error {A} (err : EnclaveError) (hp : Heap) : option (Heap * VmResult A) :=
  '(errs, e) ← vm_error_of_enclave err (vm_errors hp);
  Some (mkHeap errs (user_buffers hp), Err e).

Definition init_result_to_vm_result (other : InitResult) (hp : Heap) : option (Heap * VmResult VmInitSuccess) :=
  match other with
  | InitSuccessful output contract_key =>
      '(hp', data) ← take_output output hp; Some (hp', Ok (mkVmInit data contract_key))
  | InitFailure err => take_error err hp
  end.

Definition handle_result_to_vm_result (other : HandleResult) (hp : Heap) : option (Heap * VmResult bytes) :=
  match other with
  | HandleSuccessful output => '(hp', data) ← take_output output hp; Some (hp', Ok data)
  | HandleFailure err => take_error err hp
  end.

Definition query_result_to_vm_result (other : QueryResult) (hp : Heap) : option (Heap * VmResult bytes) :=
  match other with
  | QuerySuccessful output => '(hp', data) ← take_output output hp; Some (hp', Ok data)
  | QueryFailure err => take_error err hp
  end.

(** ** wasmi/wrapper.rs: [Module] *)

Definition saturating_sub (a b : Z) : Z := Z.max 0 (a - b).
Definition saturating_add (a b : Z) : Z := Z.min U64_MAX (a + b).

Record Module_ : Type := mkModule { bytecode : bytes; module_limit : Z; used_gas : Z }.

Definition new_module (code : bytes) (gas_limit : Z) : Module_ := mkModule code gas_limit 0.
Definition gas_left (m : Module_) : Z := saturating_sub (module_limit m) (used_gas m).
Definition consume_gas (m : Module_) (gas : Z) : Module_ :=
  mkModule (bytecode m) (module_limit m) (saturating_add (used_gas m) gas).

(** One run of an ecall: the SGX status, the gas counter, the returned structure, the ocalls
    made on the way (latest first) and the buffers of user space afterwards. *)
Record EcallRun (R : Type) : Type := mkRun {
  status : Z;
  ecall_gas : Z;
  run_result : R;
  run_ocalls : Trace;
  run_buffers : Boxes bytes
}.
Arguments mkRun {R} status ecall_gas run_result run_ocalls run_buffers.
Arguments status {R} e.
Arguments ecall_gas {R} e.
Arguments run_result {R} e.
Arguments run_ocalls {R} e.
Arguments run_buffers {R} e.

Definition SGX_SUCCESS : Z := 0.

(** What [Module::init], [handle] and [query] do once the ecall returned; gas is charged
    whatever the outcome. *)
Definition finish_call {R A} (out : EcallRun R) (convert : R -> Heap -> option (Heap * VmResult A))
    (m : Module_) (hp : Heap) : option (Module_ * Heap * VmResult A) :=
  let m' := consume_gas m (ecall_gas out) in
  if (status out =? SGX_SUCCESS)%Z then
    match convert (run_result out) hp with
    | Some (hp', r) => Some (m', hp', r)
    | None => None
    end
  else Some (m', hp, Err (EnclaveErr (SdkErr (status out)))).

Definition module_init (out : EcallRun InitResult) := finish_call out init_result_to_vm_result.
Definition module_handle (out : EcallRun HandleResult) := finish_call out handle_result_to_vm_result.
Definition module_query (out : EcallRun QueryResult) := finish_call out query_result_to_vm_result.

(** ** instance.rs and calls.rs *)

Record GasReport : Type := mkGasReport {
  limit : Z;
  remaining : Z;
  report_externally : Z;
  used_internally : Z
}.

Definition create_gas_report (m : Module_) : GasReport :=
  mkGasReport (module_limit m) (gas_left m)
    (saturating_sub (saturating_sub (module_limit m) (gas_left m)) (used_gas m)) (used_gas m).

Section Instance.
Context {S Q I A : Type}.

Record Instance : Type := mkInstance {
  inner : Module_;
  inst_context : ContextData S Q I;
  inst_api : A
}.

(** [from_code] once the enclave is loaded; [from_wasmer] moves the dependencies in. *)
Definition from_code (code : bytes) (storage : S) (api : A) (querier : Q) (gas_limit : Z) : Instance :=
  mkInstance (new_module code gas_limit)
    (move_into_context create_unmanaged_context_data storage querier) api.

Definition recycle (i : Instance) : option (S * A * Q) :=
  match (move_out_of_context (inst_context i)).2 with
  | (Some storage, Some querier) => Some (storage, inst_api i, querier)
  | _ => None
  end.

Definition get_gas_left (i : Instance) : Z := remaining (create_gas_report (inner i)).
Definition get_gas_used (i : Instance) : Z := used_gas (inner i).

Definition readonly (i : Instance) (new_value : bool) : Instance :=
  mkInstance (inner i) (set_storage_readonly (inst_context i) new_value) (inst_api i).

End Instance.
Arguments Instance : clear implicits.

Section Calls.
Context {S Q I A R : Type} `{HS : VmStorage S} `{HQ : VmQuerier Q R} `{AL : Allocator}.
Variable allocated : bytes -> option (option bytes).

(** The state of the host after the ocalls of a history (latest first). *)
Fixpoint after (start : HostState S Q I) (h : Trace) : HostState S Q I :=
  match h with
  | [] => start
  | call :: h' => (perform allocated call (after start h')).1
  end.

(** An ecall, given the state of the host, the code, the gas left and the user buffers. *)
Definition Entry (X : Type) : Type := HostState S Q I -> bytes -> Z -> Boxes bytes -> EcallRun X.

Definition run_entry {X B} (entry : Entry X)
    (finish : EcallRun X -> Module_ -> Heap -> option (Module_ * Heap * VmResult B))
    (i : Instance S Q I A) (hp : Heap) : option (Instance S Q I A * Heap * VmResult B) :=
  let st := mkHost (inst_context i) (vm_errors hp) in
  let out := entry st (bytecode (inner i)) (gas_left (inner i)) (user_buffers hp) in
  let st' := after st (run_ocalls out) in
  match finish out (inner i) (mkHeap (errors st') (run_buffers out)) with
  | Some (m, hp', r) => Some (mkInstance m (context st') (inst_api i), hp', r)
  | None => None
  end.

Definition call_init_raw (entry : Entry InitResult) (i : Instance S Q I A) (hp : Heap)
  : option (Instance S Q I A * Heap * VmResult bytes) :=
  match run_entry entry module_init (readonly i false) hp with
  | Some (i', hp', r) => Some (i', hp', into_output <$> r)
  | None => None
  end.

Definition call_handle_raw (entry : Entry HandleResult) (i : Instance S Q I A) (hp : Heap)
  : option (Instance S Q I A * Heap * VmResult bytes) :=
  run_entry entry module_handle (readonly i false) hp.

(** [migrate] is not sent to the enclave. *)
Definition call_migrate_raw (i : Instance S Q I A) (hp : Heap)
  : option (Instance S Q I A * Heap * VmResult bytes) :=
  Some (readonly i false, hp, Ok []).

Definition call_query_raw (entry : Entry QueryResult) (i : Instance S Q I A) (hp : Heap)
  : option (Instance S Q I A * Heap * VmResult bytes) :=
  run_entry entry module_query (readonly i true) hp.

End Calls.

(** ** testing/storage.rs *)

Module MockStore.

Definition get (s : MemoryStorage) (key : bytes) : MemoryStorage * FfiResult (option bytes) :=
  (s, (Ok (btree_get (data s) key), with_externally_used (Z.of_nat (length key)))).
Definition set (s : MemoryStorage) (key value : bytes) : MemoryStorage * FfiResult unit :=
  (mkMemory (btree_insert (data s) key value),
   (Ok tt, with_externally_used (Z.of_nat (length key + length value)))).
Definition remove (s : MemoryStorage) (key : bytes) : MemoryStorage * FfiResult unit :=
  (mkMemory (btree_remove (data s) key), (Ok tt, with_externally_used (Z.of_nat (length key)))).

End MockStore.

#[export] Instance mock_vm_storage : VmStorage MemoryStorage := {|
  st_get := MockStore.get;
  st_set := MockStore.set;
  st_remove := MockStore.remove
|}.

(** ** The host that the enclave talks to *)

Section Host.
Context {S Q I R : Type} `{HS : VmStorage S} `{HQ : VmQuerier Q R} `{AL : Allocator}.
Variable allocated : bytes -> option (option bytes).
Variable start : HostState S Q I.

(** What the enclave reads from the out-parameters of an ocall. *)
Definition answer_of (o : OcallOut) : Answer :=
  mkAnswer true (out_return o) (out_vm_error o) (out_gas_used o) (Some (out_buffer o)).

Local Abbreviation after := (after allocated start).

Definition vm_host : Host :=
  {| host_answer h call := answer_of (perform allocated call (after h)).2 |}.

Definition vm_cost (h : Trace) (call : Ocall) : Z := out_gas_used (perform allocated call (after h)).2.

(** The error that the implementation of an ocall ends with. *)
Definition backend_error (call : Ocall) (h : HostState S Q I) : option VmError :=
  match call with
  | OReadDb key => match (ocall_read_db_impl (context h) key).2 with Err e => Some e | _ => None end
  | OWriteDb key value => match (ocall_write_db_impl (context h) key value).2 with Err e => Some e | _ => None end
  | ORemoveDb key => match (ocall_remove_db_impl (context h) key).2 with Err e => Some e | _ => None end
  | OQueryChain query gas_limit =>
      match ocall_query_chain_impl (context h) query gas_limit with Err e => Some e | _ => None end
  end.

Lemma store_take_error e errs :
  let (errs', v) := store_vm_error e errs in
  vm_ptr v <> 0%Z /\ unbox (vm_ptr v) errs' = Some (errs, e).
Proof.
  unfold store_vm_error, unbox. cbn. split; [apply address_not_null|].
  rw lookup_insert_eq. cbn. rw delete_insert_id //.
  apply not_elem_of_dom, address_unused.
Qed.

Lemma perform_failed call h e :
  backend_error call h = Some e ->
  exists c, perform allocated call h = failed e c (errors h).
Proof.
  destruct call; cbn [backend_error perform].
  - unfold ocall_read_db. destruct (ocall_read_db_impl _ _) as [c [[[v|] g]|e'|]]; try done.
    intros [= ->]. by exists c.
  - unfold ocall_write_db. destruct (ocall_write_db_impl _ _ _) as [c [g|e'|]]; try done.
    intros [= ->]. by exists c.
  - unfold ocall_remove_db. destruct (ocall_remove_db_impl _ _) as [c [g|e'|]]; try done.
    intros [= ->]. by exists c.
  - unfold ocall_query_chain. destruct (ocall_query_chain_impl _ _ _) as [[r g]|e'|]; try done.
    intros [= ->]. by exists (context h).
Qed.

(** C23: An error of the storage or querier that is boxed during an ocall, passed through the
    enclave as an opaque pointer and unboxed by the caller comes out as the same error,
    once, and the other boxed errors are untouched. *)
Theorem backend_error_survives_the_enclave h call e :
  backend_error call (after h) = Some e ->
  exists we, ocall_status (host_answer (Host := vm_host) h call) = Err we /\
    vm_error_of_enclave (engine_to_enclave_error we) (errors (after (call :: h)))
    = Some (errors (after h), e).
Proof.
  intros He. cbn [after]. destruct (perform_failed call (after h) e He) as [c Hp].
  unfold host_answer, vm_host. rw Hp. unfold failed.
  pose proof (store_take_error e (errors (after h))) as Hs.
  destruct (store_vm_error e (errors (after h))) as [errs' v]. destruct Hs as [Hz Hu].
  eexists. split; [reflexivity|]. cbn [engine_to_enclave_error vm_error_of_enclave out_vm_error vm_err answer_of snd fst errors].
  cbn [vm_ptr]. destruct (Z.eqb_spec (vm_ptr v) 0); done.
Qed.

End Host.

(** ** A backend that keeps what it is given *)

Class HonestStorage (S : Type) `{VmStorage S} : Type := {
  stored : S -> bytes -> option bytes;
  honest_get s k :
    (st_get s k).2.1 = Ok (stored s k) /\ forall k', stored (st_get s k).1 k' = stored s k';
  honest_set s k v :
    (st_set s k v).2.1 = Ok tt /\
    forall k', stored (st_set s k v).1 k' = if bool_decide (k = k') then Some v else stored s k';
  honest_remove s k :
    (st_remove s k).2.1 = Ok tt /\
    forall k', stored (st_remove s k).1 k' = if bool_decide (k = k') then None else stored s k'
}.

#[export] Instance mock_storage_honest : HonestStorage MemoryStorage.
Proof.
  refine {| stored s k := btree_get (data s) k |}; cbn.
  - done.
  - intros s k v. split; [done|]. intros k'. rw btree_get_insert. by repeat case_decide.
  - intros s k. split; [done|]. intros k'. rw btree_get_remove. by repeat case_decide.
Defined.

Section HonestBackend.
Context {S Q I R : Type} `{HS : VmStorage S} {HH : HonestStorage S} `{HQ : VmQuerier Q R} `{AL : Allocator}.
Variable allocated : bytes -> option (option bytes).
Variable start : HostState S Q I.
Variable s0 : S.
Hypothesis has_storage : ctx_storage (context start) = Some s0.
Hypothesis buffers_fit : forall v, allocated v = Some (returned (Some v)).

(** The storage after a history holds what a replay of it holds. *)
Lemma after_storage h :
  exists s, ctx_storage (context (after allocated start h)) = Some s /\
    forall k, stored s k = replay (stored s0) h k.
Proof.
  induction h as [|call h (s & Hs & Hk)]; cbn [after]; [by exists s0|].
  destruct (after allocated start h) as [c errs] eqn:Ha. cbn [context] in Hs.
  destruct call as [key|key value|key|query limit]; cbn [perform replay].
  - unfold ocall_read_db, ocall_read_db_impl, with_storage_from_context. cbn [context].
    rw Hs. destruct (honest_get s key) as [Hr Hw]. destruct (st_get s key) as [s' [r g]].
    cbn [fst snd] in *. subst r. exists s'. unfold with_gas. cbn [fst snd]. split; [|intros k; by rw Hw Hk].
    destruct (stored s key) as [v|]; [|done]. unfold with_buffer. by destruct (allocated _).
  - unfold ocall_write_db, ocall_write_db_impl, with_storage_from_context. cbn [context].
    rw Hs. destruct (honest_set s key value) as [Hr Hw]. destruct (st_set s key value) as [s' [r g]].
    cbn [fst snd] in *. subst r. exists s'. split; [done|]. intros k. by rw Hw Hk.
  - unfold ocall_remove_db, ocall_remove_db_impl, with_storage_from_context. cbn [context].
    rw Hs. destruct (honest_remove s key) as [Hr Hw]. destruct (st_remove s key) as [s' [r g]].
    cbn [fst snd] in *. subst r. exists s'. split; [done|]. intros k. by rw Hw Hk.
  - exists s. split; [|done]. unfold ocall_query_chain. cbn [context].
    destruct (ocall_query_chain_impl c query limit) as [[r g]|e|].
    + destruct (encode_answer r); [|done]. unfold with_buffer. by destruct (allocated _).
    + unfold failed. by destruct (store_vm_error _ _).
    + done.
Qed.

(** Every ocall to the store is answered as a replay of the history would. *)
Lemma vm_host_honest :
  HonestHost (stored s0) (vm_cost allocated start) (H := vm_host allocated start).
Proof.
  constructor. intros h call Hdb. unfold host_answer, vm_host, honest_answer, vm_cost.
  destruct (after_storage h) as (s & Hs & Hk).
  destruct (after allocated start h) as [c errs]. cbn [context] in Hs.
  destruct call as [key|key value|key|query limit]; [..|done]; cbn [perform].
  - unfold ocall_read_db, ocall_read_db_impl, with_storage_from_context. cbn [context]. rw Hs.
    destruct (honest_get s key) as [Hr _]. destruct (st_get s key) as [s' [r g]]. cbn [fst snd] in *. subst r.
    unfold with_gas. cbn [fst snd]. rw Hk. destruct (replay (stored s0) h key) as [v|]; [|done].
    unfold with_buffer. by rw buffers_fit.
  - unfold ocall_write_db, ocall_write_db_impl, with_storage_from_context. cbn [context].
    rw Hs. destruct (honest_set s key value) as [Hr _]. destruct (st_set s key value) as [s' [r g]].
    cbn [fst snd] in *. by subst r.
  - unfold ocall_remove_db, ocall_remove_db_impl, with_storage_from_context. cbn [context].
    rw Hs. destruct (honest_remove s key) as [Hr _]. destruct (st_remove s key) as [s' [r g]].
    cbn [fst snd] in *. by subst r.
Qed.

End HonestBackend.

(** C7: When every value the host copies into the enclave can be allocated there and arrives as
    it is (an empty one as a null pointer), the ocalls of sgx-vm over any backend that keeps
    what it is given answer the enclave like the abstract honest host the encrypted storage
    was proved against, from any initial contents. (Without that condition it does not hold:
    a failed allocation makes a stored value look absent.) *)
Theorem vm_host_is_honest {S Q I R : Type} `{HS : VmStorage S} {HH : HonestStorage S} `{HQ : VmQuerier Q R} `{AL : Allocator}
    allocated (start : HostState S Q I) (s0 : S) :
  ctx_storage (context start) = Some s0 -> (forall v, allocated v = Some (returned (Some v))) ->
  HonestHost (stored s0) (vm_cost allocated start) (H := vm_host allocated start).
Proof. intros Hs Hb. exact (vm_host_honest allocated start s0 Hs Hb). Qed.
