(* ===== verification/SgxVmFacts.v ===== *)
(** * What the host side of the enclave guarantees

    The theorems about [SgxVm] that join it to the enclave: buffers that cross the border in
    both directions, the gas and the storage of an instance over any sequence of calls. *)

From Stdlib Require Import Strings.String.
From stdpp Require Import base tactics list numbers strings ssreflect gmap.
From S2P Require Import Prelude Crypto Storage EnclaveDb Ecalls SgxVm.

Local Open Scope string_scope.
Local Open Scope list_scope.

(** ** From the host into the enclave *)

(** [allocate_enclave_buffer] followed by [recover_buffer]: the value is copied into the
    enclave by [ecall_allocate], and the enclave looks behind the pointer it gets back. *)
Definition cross_border (grow : nat -> nat) (w : World) (how : Buffers.Allocation) (address : Z)
    (st : Shared) (value : bytes) : option (option bytes) :=
  match ecall_allocate grow w how (mkSlice address value) st with
  | Some (st', p) =>
      match (Buffers.recover_buffer p (table st')).2 with
      | Buffers.Recovery (Ok behind) => Some behind
      | _ => None
      end
  | None => None
  end.

Section Border.
Variable grow : nat -> nat.

(** Memory is plentiful, so that the reserve can be built and kept. *)
Definition enough_memory (s : Safety.Supply) : Prop :=
  forall st, safety st <> Safety.Broken -> (restore_safety_buffer grow s st).2 = Ok tt.

Lemma restore_table s st st' r :
  restore_safety_buffer grow s st = (st', r) -> table st' = table st.
Proof.
  unfold restore_safety_buffer. destruct (Safety.force _ _ _) as [x [b| |]]; [|by intros [= <- _]..].
  destruct (Safety.restore grow s b). by intros [= <- _].
Qed.

Lemma built_not_broken st : is_built st -> safety st <> Safety.Broken.
Proof. intros [b ->]. done. Qed.

Lemma position_last p l : Buffers.position p (reverse (l ++ [p])) = Some 0%nat.
Proof. rw reverse_app. cbn. by rw Z.eqb_refl. Qed.

Lemma recover_pushed p value bx l :
  p <> 0%Z ->
  (Buffers.recover_buffer p (Buffers.mkTable (<[p := value]> bx) (l ++ [p]) false)).2
  = Buffers.Recovery (Ok (Some value)).
Proof.
  intros Hz. unfold Buffers.recover_buffer. destruct (Z.eqb_spec p 0); [done|].
  cbn [Buffers.poisoned Buffers.stack Buffers.boxes]. by rw position_last lookup_insert_eq.
Qed.

Lemma ecall_allocate_table w how address st value :
  enough_memory (reserve_in w) -> enough_memory (reserve_out w) -> safety st <> Safety.Broken -> address <> 0%Z ->
  exists st' p, ecall_allocate grow w how (mkSlice address value) st = Some (st', p) /\
  if decide (value = []) then p = 0%Z
  else (table st', p) = Buffers.allocate_body how value (table st).
Proof.
  intros Hin Hout Hs Ha. unfold ecall_allocate, register_oom_handler.
  specialize (Hin st Hs). destruct (restore_safety_buffer grow (reserve_in w) st) as [st1 r1] eqn:E1.
  cbn [snd] in Hin. subst r1. pose proof (restore_builds _ _ _ _ _ E1) as Hb. apply restore_table in E1.
  unfold validate_const_ptr. cbn [s_addr s_data].
  destruct (Z.eqb_spec address 0) as [|_]; [done|]. cbn [orb].
  destruct value as [|x value]; [by eexists _, _|]. cbn [length Nat.eqb negb table set_oom]. rw E1.
  destruct (Buffers.allocate_body how (x :: value) (table st)) as [t p] eqn:Eb.
  set (st2 := match how with Buffers.Allocated _ => _ | _ => _ end).
  assert (table st2 = t) as Ht by (by destruct how).
  assert (is_built st2) as Hb2 by (destruct Hb as [b Hb]; destruct how; [by exists b|apply hook_built; by exists b..]).
  specialize (Hout st2 (built_not_broken _ Hb2)). destruct (restore_safety_buffer grow (reserve_out w) st2) as [st4 r4] eqn:E2.
  cbn [snd] in Hout. subst r4. apply restore_table in E2.
  eexists _, _. split; [done|]. cbn. destruct (p =? 0)%Z; cbn [table set_oom]; by rw E2 Ht.
Qed.

(** A value that the host copies into the enclave with ecall_allocate is what recover_buffer
    finds behind the pointer; only the empty value becomes a null pointer. *)
Theorem value_crosses_border w p address st value :
  enough_memory (reserve_in w) -> enough_memory (reserve_out w) -> safety st <> Safety.Broken -> address <> 0%Z ->
  p <> 0%Z -> Buffers.poisoned (table st) = false ->
  cross_border grow w (Buffers.Allocated p) address st value = Some (returned (Some value)).
Proof.
  intros Hin Hout Hs Ha Hz Hp.
  destruct (ecall_allocate_table w (Buffers.Allocated p) address st value Hin Hout Hs Ha) as (st' & q & E & H).
  unfold cross_border. rw E.
  destruct (decide (value = [])) as [->|Hne]; [by subst q|].
  cbn [Buffers.allocate_body] in H. rw Hp in H. injection H as -> ->.
  rw recover_pushed //. by rw returned_nonempty.
Qed.

(** What an allocation failure in the enclave makes of a value. *)
Lemma value_lost_at_border w how address st value :
  enough_memory (reserve_in w) -> enough_memory (reserve_out w) -> safety st <> Safety.Broken -> address <> 0%Z ->
  (forall p, how <> Buffers.Allocated p) ->
  cross_border grow w how address st value = Some None.
Proof.
  intros Hin Hout Hs Ha Hhow. destruct (ecall_allocate_table w how address st value Hin Hout Hs Ha) as (st' & q & E & H).
  unfold cross_border. rw E.
  destruct (decide (value = [])) as [->|Hne]; [by subst q|].
  destruct how as [p| |p]; [by edestruct Hhow| |]; cbn in H; by injection H as _ ->.
Qed.

End Border.

Section LostValues.
Context {S Q I R : Type} `{HS : VmStorage S} {HH : HonestStorage S} `{HQ : VmQuerier Q R}.
Context `{AL : Allocator} `{P : Primitives}.

(** When the enclave cannot allocate a buffer for a value, ecall_allocate returns null, the host
    reports success, and the enclave takes every stored key for absent; the associated data
    of the next write starts over from the field name. *)
Theorem allocation_failure_hides_values grow w how address st (start : HostState S Q I) s0 key h :
  enough_memory grow (reserve_in w) -> enough_memory grow (reserve_out w) -> safety st <> Safety.Broken -> address <> 0%Z ->
  (forall p, how <> Buffers.Allocated p) -> ctx_storage (context start) = Some s0 ->
  let host := vm_host (cross_border grow w how address st) start in
  exists gas, (read_db (Ho := host) key h).2 = Ok (None, gas) /\
    (derive_ad_for_field (Ho := host) key h).2 = Ok (sha_256 key, gas).
Proof.
  intros Hin Hout Hnb Ha Hhow Hs host.
  destruct (after_storage (cross_border grow w how address st) start s0 Hs h) as (s & Hs' & _).
  assert (exists gas, read_db (Ho := host) key h = (OReadDb key :: h, Ok (None, gas))) as [gas Hr].
  { cbv [read_db mbind M_bind ocall liftR mret M_ret]. unfold host, vm_host, host_answer. cbn [perform].
    unfold ocall_read_db, ocall_read_db_impl, with_storage_from_context. rw Hs'.
    destruct (honest_get s key) as [Hr _]. destruct (st_get s key) as [s' [r g]]. cbn [fst snd] in *. subst r.
    unfold with_gas. cbn [fst snd]. destruct (stored s key) as [v|]; [|by eexists].
    unfold with_buffer. rw value_lost_at_border //. by eexists. }
  exists gas. unfold derive_ad_for_field. cbv [mbind M_bind liftR mret M_ret]. by rw Hr.
Qed.

End LostValues.

(** ** From the enclave to the host *)

Section Outputs.
Context `{AL : Allocator}.

Lemma unbox_allocated data buffers :
  let (buffers', p) := ocall_allocate data buffers in
  p <> 0%Z /\ unbox p buffers' = Some (buffers, data).
Proof.
  unfold ocall_allocate, unbox. split; [apply address_not_null|].
  rw lookup_insert_eq. cbn. rw delete_insert_id //. apply not_elem_of_dom, address_unused.
Qed.

Lemma take_allocated data hp :
  let (buffers', p) := ocall_allocate data (user_buffers hp) in
  take_output p (mkHeap (vm_errors hp) buffers') = Some (hp, data).
Proof.
  pose proof (unbox_allocated data (user_buffers hp)) as H.
  destruct (ocall_allocate data (user_buffers hp)) as [bs p]. destruct H as [Hz Hu].
  unfold take_output, recover_user_buffer. cbn [user_buffers]. destruct (Z.eqb_spec p 0); [done|].
  rw Hu. by destruct hp.
Qed.

(** The output that the enclave copies out with ocall_allocate is what Module::init, handle and
    query return, of any length, with the contract key in front for init, and its box is
    freed. *)
Theorem outputs_are_delivered output key hp :
  let pointer := (ocall_allocate output (user_buffers hp)).2 in
  let heap := mkHeap (vm_errors hp) (ocall_allocate output (user_buffers hp)).1 in
  let copied := fun _ : bytes => Some pointer in
  handle_result_to_vm_result (result_handle_success_to_handleresult copied (Ok output)) heap
    = Some (hp, Ok output) /\
  query_result_to_vm_result (result_query_success_to_queryresult copied (Ok output)) heap
    = Some (hp, Ok output) /\
  exists success,
    init_result_to_vm_result
      (result_init_success_to_initresult copied (Ok (Operations.mkInitSuccess output key))) heap
    = Some (hp, Ok success) /\ into_output success = key ++ output.
Proof.
  cbv zeta. pose proof (take_allocated output hp) as H.
  destruct (ocall_allocate output (user_buffers hp)) as [bs p]. cbn [fst snd].
  cbv [handle_result_to_vm_result result_handle_success_to_handleresult
       query_result_to_vm_result result_query_success_to_queryresult
       init_result_to_vm_result result_init_success_to_initresult].
  cbn [Operations.init_output Operations.init_contract_key]. rw H.
  split_and!; [done..|]. by eexists.
Qed.

End Outputs.

(** ** An instance over a sequence of calls *)

Section Sequences.
Context {S Q I A R : Type} `{HS : VmStorage S} `{HQ : VmQuerier Q R} `{AL : Allocator}.
Variable allocated : bytes -> option (option bytes).

Local Abbreviation Entry := (Entry (S := S) (Q := Q) (I := I)).

(** The calls of calls.rs, with the ecall they run. *)
Inductive Call : Type :=
| InitCall (entry : Entry InitResult)
| HandleCall (entry : Entry HandleResult)
| MigrateCall
| QueryCall (entry : Entry QueryResult).

Definition call_raw (c : Call) : Instance S Q I A -> Heap -> option (Instance S Q I A * Heap * VmResult bytes) :=
  match c with
  | InitCall entry => call_init_raw allocated entry
  | HandleCall entry => call_handle_raw allocated entry
  | MigrateCall => call_migrate_raw
  | QueryCall entry => call_query_raw allocated entry
  end.

(** What the ecall of a call is given, and the ocalls it makes and the gas it reports. *)
Definition observe {X} (entry : Entry X) (read_only : bool) (i : Instance S Q I A) (hp : Heap) : Trace * Z :=
  let out := entry (mkHost (inst_context (readonly i read_only)) (vm_errors hp))
               (bytecode (inner i)) (gas_left (inner i)) (user_buffers hp) in
  (run_ocalls out, ecall_gas out).

Definition observed (c : Call) (i : Instance S Q I A) (hp : Heap) : Trace * Z :=
  match c with
  | InitCall entry => observe entry false i hp
  | HandleCall entry => observe entry false i hp
  | MigrateCall => ([], 0%Z)
  | QueryCall entry => observe entry true i hp
  end.

(** A run of an instance: the calls made, all ocalls (latest first) and the gas of each call. *)
Inductive runs : Instance S Q I A -> Heap -> Trace -> list Z -> Instance S Q I A -> Heap -> Prop :=
| runs_none i hp : runs i hp [] [] i hp
| runs_call c i hp r i1 hp1 h gas i2 hp2 :
    call_raw c i hp = Some (i1, hp1, r) -> runs i1 hp1 h gas i2 hp2 ->
    runs i hp (h ++ (observed c i hp).1) ((observed c i hp).2 :: gas) i2 hp2.

Lemma finish_call_module {X B} (out : EcallRun X) (convert : X -> Heap -> option (Heap * VmResult B)) m hp m' hp' r :
  finish_call out convert m hp = Some (m', hp', r) -> m' = consume_gas m (ecall_gas out).
Proof.
  unfold finish_call. destruct (status out =? SGX_SUCCESS)%Z; [|by intros [= <- _ _]].
  destruct (convert _ _) as [[hp1 r1]|]; [|done]. by intros [= <- _ _].
Qed.

Lemma run_entry_effect {X B} (entry : Entry X)
    (convert : X -> Heap -> option (Heap * VmResult B)) i hp i' hp' r read_only :
  run_entry allocated entry (fun out => finish_call out convert) (readonly i read_only) hp = Some (i', hp', r) ->
  let (h, gas) := observe entry read_only i hp in
  inner i' = consume_gas (inner i) gas /\ inst_api i' = inst_api i /\
  inst_context i' = context (after allocated (mkHost (inst_context (readonly i read_only)) (vm_errors hp)) h).
Proof.
  unfold run_entry, observe. destruct (finish_call _ _ _ _) as [[[m hp1] r1]|] eqn:Hf; [|done].
  intros [= <- _ _]. by apply finish_call_module in Hf as ->.
Qed.

(** One call: the gas it reports is charged, and the context sees its ocalls. *)
Lemma call_raw_effect c i hp i' hp' r :
  call_raw c i hp = Some (i', hp', r) ->
  let (h, gas) := observed c i hp in
  (inner i' = consume_gas (inner i) gas \/ c = MigrateCall /\ inner i' = inner i) /\ inst_api i' = inst_api i /\
  exists b, inst_context i' = context (after allocated (mkHost (inst_context (readonly i b)) (vm_errors hp)) h).
Proof.
  destruct c as [entry|entry| |entry]; cbn [call_raw observed].
  - unfold call_init_raw. destruct (run_entry _ _ _ _ _) as [[[i1 hp1] r1]|] eqn:Hr; [|done].
    intros [= <- _ _]. apply run_entry_effect in Hr. destruct (observe _ _ _ _) as [h g].
    destruct Hr as (-> & -> & ->). split; [by left|]. split; [done|]. by exists false.
  - intros Hr. apply run_entry_effect in Hr. destruct (observe _ _ _ _) as [h g].
    destruct Hr as (-> & -> & ->). split; [by left|]. split; [done|]. by exists false.
  - intros [= <- _ _]. split; [by right|]. split; [done|]. by exists false.
  - intros Hr. apply run_entry_effect in Hr. destruct (observe _ _ _ _) as [h g].
    destruct Hr as (-> & -> & ->). split; [by left|]. split; [done|]. by exists true.
Qed.

(** *** The calls do not panic *)

Definition no_panic {X B} (convert : X -> Heap -> option (Heap * VmResult B)) : Prop :=
  forall x hp hp', convert x hp <> Some (hp', Panic).

Lemma take_error_no_panic {B} e hp hp' : take_error (A := B) e hp <> Some (hp', Panic).
Proof. unfold take_error. by destruct (vm_error_of_enclave _ _) as [[? ?]|]. Qed.

Lemma results_no_panic :
  no_panic init_result_to_vm_result /\ no_panic handle_result_to_vm_result /\ no_panic query_result_to_vm_result.
Proof.
  split_and!; intros [output|e] hp hp'; cbn; try apply take_error_no_panic; by destruct (take_output _ _) as [[? ?]|].
Qed.

Lemma run_entry_no_panic {X B} (entry : Entry X) (convert : X -> Heap -> option (Heap * VmResult B))
    (i i' : Instance S Q I A) hp hp' r :
  no_panic convert -> run_entry allocated entry (fun out => finish_call out convert) i hp = Some (i', hp', r) ->
  r <> Panic.
Proof.
  intros Hc. unfold run_entry, finish_call. cbv zeta.
  destruct (status _ =? SGX_SUCCESS)%Z; [|by intros [= _ _ <-]].
  destruct (convert _ _) as [[h1 r1]|] eqn:E; [|done]. intros [= _ _ <-] ->. by apply Hc in E.
Qed.

Lemma call_raw_no_panic c (i i' : Instance S Q I A) hp hp' r :
  call_raw c i hp = Some (i', hp', r) -> r <> Panic.
Proof.
  destruct results_no_panic as (Hi & Hh & Hq). destruct c as [entry|entry| |entry]; cbn [call_raw].
  - unfold call_init_raw. destruct (run_entry _ _ _ _ _) as [[[j h] r1]|] eqn:E; [|done]. intros [= _ _ <-].
    apply run_entry_no_panic in E; [by destruct r1|done].
  - by apply run_entry_no_panic.
  - by intros [= _ _ <-].
  - by apply run_entry_no_panic.
Qed.

Lemma perform_querier call (h : HostState S Q I) :
  ctx_querier (context (perform allocated call h).1) = ctx_querier (context h).
Proof.
  assert (forall T (f : S -> S * VmResult T) (c c' : ContextData S Q I) r,
    with_storage_from_context c f = (c', r) -> ctx_querier c' = ctx_querier c) as Hw.
  { intros T f c c' r. unfold with_storage_from_context. destruct (ctx_storage c); [|by intros [= <- _]].
    destruct (f _). by intros [= <- _]. }
  destruct call as [key|key value|key|query limit]; cbn [perform].
  - unfold ocall_read_db. destruct (ocall_read_db_impl _ _) as [c r] eqn:E. apply Hw in E.
    destruct r as [[[v|] g]|e|]; [|done..]. unfold with_buffer. by destruct (allocated v).
  - unfold ocall_write_db. destruct (ocall_write_db_impl _ _ _) as [c r] eqn:E. apply Hw in E. by destruct r.
  - unfold ocall_remove_db. destruct (ocall_remove_db_impl _ _) as [c r] eqn:E. apply Hw in E. by destruct r.
  - unfold ocall_query_chain. destruct (ocall_query_chain_impl _ _ _) as [[r g]|e|]; [|done..].
    destruct (encode_answer r); [|done]. unfold with_buffer. by destruct (allocated _).
Qed.

Lemma after_querier (start : HostState S Q I) h :
  ctx_querier (context (after allocated start h)) = ctx_querier (context start).
Proof. induction h as [|call h IH]; cbn [after]; [done|]. by rw perform_querier. Qed.

Lemma total_nonneg gas : Forall (fun g => 0 <= g)%Z gas -> (0 <= foldr Z.add 0%Z gas)%Z.
Proof. induction 1; cbn [foldr]; lia. Qed.

(** The gas charged in all is the sum of what the calls report, at most [u64::MAX]. *)
Lemma runs_gas i hp h gas i' hp' :
  runs i hp h gas i' hp' -> Forall (fun g => 0 <= g)%Z gas ->
  module_limit (inner i') = module_limit (inner i) /\
  ((used_gas (inner i) <= U64_MAX)%Z ->
   used_gas (inner i') = Z.min U64_MAX (used_gas (inner i) + foldr Z.add 0%Z gas)).
Proof.
  induction 1 as [i hp|c i hp r i1 hp1 h gas i2 hp2 Hc _ IH]; intros Hg.
  { split; [done|]. cbn [foldr]. lia. }
  apply Forall_cons in Hg as [Hg0 Hg]. destruct (IH Hg) as [-> Hu]. clear IH.
  pose proof (total_nonneg gas Hg) as Hpos.
  apply call_raw_effect in Hc. cbn [foldr]. destruct (observed c i hp) as [h1 g] eqn:Ho. cbn [snd] in *.
  destruct Hc as [[Hm|[-> Hm]] _]; rw Hm in Hu |- *.
  - unfold consume_gas, saturating_add in *. cbn [module_limit used_gas] in *. split; [done|]. intros _. rw Hu; lia.
  - injection Ho as _ <-. cbn [foldr]. split; [done|]. intros Hle. rw Hu; lia.
Qed.

(** C24: Over any sequence of calls, the gas report of an instance shows the sum of the gas of
    its ecalls, saturated at 2^64 - 1, what is left of the limit but never less than 0, and
    no gas used externally. *)
Theorem gas_is_accounted code s0 (api : A) q gas_limit hp h gas i hp' :
  runs (from_code code s0 api q gas_limit) hp h gas i hp' ->
  (0 <= gas_limit <= U64_MAX)%Z -> Forall (fun g => 0 <= g)%Z gas ->
  let total := foldr Z.add 0%Z gas in
  create_gas_report (inner i)
  = mkGasReport gas_limit (Z.max 0 (gas_limit - total)) 0 (Z.min U64_MAX total).
Proof.
  intros Hr Hl Hg total. destruct (runs_gas _ _ _ _ _ _ Hr Hg) as [Hm Hu]. cbn in Hm, Hu.
  unfold create_gas_report, gas_left, saturating_sub. rw Hm Hu; [|unfold U64_MAX; lia].
  pose proof (total_nonneg gas Hg). fold total. f_equal; lia.
Qed.

Context {HH : HonestStorage S}.

Lemma replay_app (base : bytes -> option bytes) h1 h2 k :
  replay (replay base h1) h2 k = replay base (h2 ++ h1) k.
Proof. by induction h2 as [|[?|?|?|?] h2 IH]; cbn [app replay]; rw ?IH. Qed.

Lemma replay_ext base base' h k :
  (forall k, base k = base' k) -> replay base h k = replay base' h k.
Proof. intros E. by induction h as [|[?|?|?|?] h IH]; cbn [replay]; rw ?IH. Qed.

Lemma runs_storage i hp h gas i' hp' s q :
  runs i hp h gas i' hp' ->
  ctx_storage (inst_context i) = Some s -> ctx_querier (inst_context i) = Some q ->
  exists s', recycle i' = Some (s', inst_api i, q) /\
    forall k, stored s' k = replay (stored s) h k.
Proof.
  intros Hr. revert s. induction Hr as [i hp|c i hp r i1 hp1 h gas i2 hp2 Hc _ IH]; intros s Hs Hq.
  { exists s. split; [|done]. unfold recycle, move_out_of_context. cbn [snd]. by rw Hs Hq. }
  apply call_raw_effect in Hc. destruct (observed c i hp) as [h1 g]. destruct Hc as (_ & Ha & b & Hctx).
  cbn [fst].
  destruct (after_storage allocated (mkHost (inst_context (readonly i b)) (vm_errors hp)) s Hs h1) as (s1 & Hs1 & Hk1).
  rw -Hctx in Hs1. destruct (IH s1 Hs1) as (s' & Hrec & Hk).
  { by rw Hctx after_querier. }
  exists s'. rw -Ha. split; [done|]. intros k. rw Hk -replay_app. by apply replay_ext.
Qed.

(** Whatever calls are made on an instance and however they end, recycling it gives back its api
    and querier and a storage that holds the initial contents with exactly the writes and
    removals its ecalls asked for, in order. *)
Theorem instance_keeps_the_writes code s0 (api : A) q gas_limit hp h gas i hp' :
  runs (from_code code s0 api q gas_limit) hp h gas i hp' ->
  exists s, recycle i = Some (s, api, q) /\ forall k, stored s k = replay (stored s0) h k.
Proof. intros Hr. exact (runs_storage _ _ _ _ _ _ s0 q Hr eq_refl eq_refl). Qed.

End Sequences.

(** ** Iterators *)

Section Iterators.
Context {S Q I : Type}.

(** The identifiers in use are [1..n]: iterators are only ever dropped all at once. *)
Definition ids_dense (c : ContextData S Q I) : Prop :=
  forall id, is_Some (iterators c !! id) <-> (1 <= id <= Z.of_nat (size (iterators c)))%Z.

Lemma dense_initially : ids_dense create_unmanaged_context_data.
Proof. intros id. cbn [iterators create_unmanaged_context_data]. rw map_size_empty lookup_empty. split; [by intros [? ?]|lia]. Qed.

(** Every iterator added to a context gets an unused identifier between 1 and 2^31 - 1, and the
    others keep theirs. *)
Theorem iterator_ids_are_fresh (c c' : ContextData S Q I) it id :
  ids_dense c -> add_iterator c it = Ok (c', id) ->
  (1 <= id < 2^31)%Z /\ iterators c !! id = None /\ iterators c' !! id = Some it /\
  (forall id', id' <> id -> iterators c' !! id' = iterators c !! id') /\ ids_dense c'.
Proof.
  intros Hd. unfold add_iterator. set (n := Z.of_nat (size (iterators c))) in *.
  destruct (U32_MAX <? n)%Z; [done|]. cbn [mbind result_bind].
  destruct (arith U32_MAX (n + 1)%Z) as [m| |] eqn:Em; [|done..]. apply arith_Ok in Em as [-> _].
  cbn [mbind result_bind]. destruct (Z.ltb_spec (2^31 - 1) (n + 1)); [done|].
  intros [= <- <-]. cbn [iterators].
  assert (iterators c !! (n + 1)%Z = None) as Hn.
  { destruct (iterators c !! (n + 1)%Z) eqn:E; [|done]. assert (is_Some (iterators c !! (n + 1)%Z)) as Hs by done.
    apply Hd in Hs. lia. }
  split_and!; [lia|lia|done|by rw lookup_insert_eq|intros id' Hne; by rw lookup_insert_ne|].
  intros id'. cbn [iterators]. rw map_size_insert_None // lookup_insert_is_Some Hd. fold n. lia.
Qed.

End Iterators.

(** ** The theorems at a concrete backend *)

(** A heap that grows upwards. *)
Definition next_address (used : gset Z) : Z := (1 + foldr Z.max 0 (elements used))%Z.

Lemma next_address_above (l : list Z) x : x ∈ l -> (x <= foldr Z.max 0 l)%Z.
Proof. induction l as [|y l IH]; cbn [foldr]; [by intros ?%not_elem_of_nil|]. intros [->|H%IH]%elem_of_cons; lia. Qed.

#[local] Instance demo_allocator : Allocator.
Proof.
  refine {| address_for := next_address |}; intros used; unfold next_address.
  - assert (0 <= foldr Z.max 0 (elements used))%Z by (induction (elements used); cbn [foldr]; lia). lia.
  - intros H%elem_of_elements%next_address_above. lia.
Defined.

(** A querier that answers with the query, or runs out of gas when there is none. *)
#[local] Instance demo_vm_querier : VmQuerier unit bytes := {|
  query_raw _ query gas := if (gas =? 0)%Z then (Err FfiOutOfGas, free_gas) else (Ok query, with_externally_used 5);
  encode_answer := Some
|}.

Definition demo_vm_store : MemoryStorage := mkMemory (btree_insert [] (lit "k") (lit "v")).
Definition demo_vm_start : HostState MemoryStorage unit Z :=
  mkHost (move_into_context create_unmanaged_context_data demo_vm_store tt) {[ 1%Z := WriteAccessDenied ]}.
Definition plentiful : bytes -> option (option bytes) := fun v => Some (returned (Some v)).

Lemma backend_error_survives_the_enclave_witness :
  exists we, ocall_status (host_answer (Host := vm_host plentiful demo_vm_start) [] (OQueryChain [] 0)) = Err we /\
    vm_error_of_enclave (engine_to_enclave_error we)
      (errors (after plentiful demo_vm_start [OQueryChain [] 0]))
    = Some ({[ 1%Z := WriteAccessDenied ]}, GasDepletion).
Proof.
  exact (backend_error_survives_the_enclave plentiful demo_vm_start [] (OQueryChain [] 0) GasDepletion eq_refl).
Defined.

Lemma vm_host_is_honest_witness :
  HonestHost (stored demo_vm_store) (vm_cost plentiful demo_vm_start) (H := vm_host plentiful demo_vm_start).
Proof. exact (vm_host_is_honest plentiful demo_vm_start demo_vm_store eq_refl (fun v => eq_refl)). Defined.

Lemma demo_memory : enough_memory Safety.vec_grow Safety.plenty.
Proof.
  intros st Hst.
  assert (forall n b, (Safety.top_up_loop Safety.vec_grow n Safety.plenty b).2 = Ok tt) as Hn.
  { induction n as [|n IH]; intros b; cbn [Safety.top_up_loop]; [done|]. cbn [Safety.chunk Safety.plenty].
    unfold Safety.push. cbn [Safety.growth Safety.plenty]. destruct (_ =? _)%nat; apply IH. }
  assert (forall b, (Safety.restore Safety.vec_grow Safety.plenty b).2 = Ok tt) as Hr.
  { intros b. unfold Safety.restore. destruct (_ <? _)%nat; [apply Hn|done]. }
  assert (exists r b, Safety.force Safety.vec_grow Safety.plenty (safety st) = (r, Ok b)) as (r & b & Hf).
  { unfold Safety.force. destruct (safety st) as [| |b]; [|done|by eexists _, _].
    unfold Safety.SAFETY_BUFFER, Safety.new, Safety.top_up_buffer. cbn [Safety.vector Safety.plenty].
    specialize (Hn (Safety.CHUNKS - 0)%nat (Safety.mkSafety Safety.CHUNKS Safety.MIN_CHUNKS 0 Safety.CHUNKS)).
    cbn [Safety.chunks Safety.held]. destruct (Safety.top_up_loop _ _ _ _) as [b' res]. cbn [snd] in Hn. subst res. by eexists _, _. }
  unfold restore_safety_buffer. rw Hf. specialize (Hr b). by destruct (Safety.restore _ _ _).
Qed.

Lemma value_crosses_border_witness :
  cross_border Safety.vec_grow demo_world (Buffers.Allocated 4096) 64 demo_shared (lit "v")
  = Some (Some (lit "v")) /\
  cross_border Safety.vec_grow demo_world (Buffers.Allocated 4096) 64 demo_shared [] = Some None.
Proof.
  split; apply (value_crosses_border Safety.vec_grow demo_world 4096 64 demo_shared);
    first [apply demo_memory|done].
Defined.

Lemma allocation_failure_hides_values_witness :
  let host := vm_host (cross_border Safety.vec_grow demo_world Buffers.CopyFails 64 demo_shared) demo_vm_start in
  stored demo_vm_store (lit "k") = Some (lit "v") /\
  exists gas, (read_db (Ho := host) (lit "k") []).2 = Ok (None, gas).
Proof.
  split; [reflexivity|].
  destruct (allocation_failure_hides_values (P := demo_primitives) Safety.vec_grow demo_world Buffers.CopyFails 64
              demo_shared demo_vm_start demo_vm_store (lit "k") []) as (gas & H & _);
    [apply demo_memory|apply demo_memory|done|done|done|reflexivity|].
  by exists gas.
Defined.

(** A call that writes, ends in an allocated output and reports 40 gas, then a query that
    asks for more than is left. *)
Definition demo_handle : Entry (S := MemoryStorage) (Q := unit) (I := Z) HandleResult :=
  fun st code gas buffers =>
    let (buffers', p) := ocall_allocate (lit "done") buffers in
    mkRun SGX_SUCCESS 40 (HandleSuccessful p) [OWriteDb (lit "k") (lit "w"); OReadDb (lit "k")] buffers'.
Definition demo_query : Entry (S := MemoryStorage) (Q := unit) (I := Z) QueryResult :=
  fun st code gas buffers =>
    mkRun SGX_SUCCESS (gas + 10) (QueryFailure OutOfGas) [OReadDb (lit "k")] buffers.

Definition demo_instance : Instance MemoryStorage unit Z string :=
  from_code (lit "wasm") demo_vm_store "api" tt 100.

Definition demo_heap : Heap := mkHeap ∅ ∅.

Lemma demo_runs :
  exists i hp, recycle i = Some (mkMemory [(lit "k", lit "w")], "api", tt) /\
    create_gas_report (inner i) = mkGasReport 100 0 0 110 /\
    runs plentiful demo_instance demo_heap
      ([OReadDb (lit "k")] ++ [OWriteDb (lit "k") (lit "w"); OReadDb (lit "k")]) [40%Z; 70%Z] i hp.
Proof.
  destruct (call_handle_raw plentiful demo_handle demo_instance demo_heap) as [[[i1 hp1] r1]|] eqn:E1;
    [|vm_compute in E1; discriminate].
  assert (gas_left (inner i1) = 60%Z) as Hl1 by (vm_compute in E1; injection E1 as <- _ _; reflexivity).
  destruct (call_query_raw plentiful demo_query i1 hp1) as [[[i2 hp2] r2]|] eqn:E2;
    [|vm_compute in E1; injection E1 as <- <- _; vm_compute in E2; discriminate].
  exists i2, hp2. split_and!;
    [vm_compute in E1; injection E1 as <- <- _; vm_compute in E2; injection E2 as <- _ _; reflexivity..|].
  eapply (runs_call plentiful (HandleCall demo_handle) demo_instance demo_heap r1 i1 hp1); [exact E1|].
  replace 70%Z with (observed (QueryCall demo_query) i1 hp1).2 by (cbn; rw Hl1; reflexivity).
  eapply (runs_call plentiful (QueryCall demo_query) i1 hp1 r2 i2 hp2 []); [exact E2|constructor].
Qed.

Lemma gas_is_accounted_witness :
  exists i : Instance MemoryStorage unit Z string, create_gas_report (inner i) = mkGasReport 100 0 0 110.
Proof.
  destruct demo_runs as (i & hp & _ & _ & Hr). exists i.
  refine (gas_is_accounted plentiful _ _ _ _ 100 _ _ _ i hp Hr _ _).
  - split; vm_compute; discriminate.
  - repeat constructor; vm_compute; discriminate.
Defined.

Lemma instance_keeps_the_writes_witness :
  exists (i : Instance MemoryStorage unit Z string) s,
    recycle i = Some (s, "api", tt) /\ stored s (lit "k") = Some (lit "w").
Proof.
  destruct demo_runs as (i & hp & _ & _ & Hr).
  destruct (instance_keeps_the_writes plentiful _ _ _ _ _ _ _ _ i hp Hr) as (s & Hs & Hk).
  exists i, s. split; [exact Hs|]. rw Hk. reflexivity.
Defined.

Definition demo_context : ContextData MemoryStorage unit Z := create_unmanaged_context_data.

Lemma iterator_ids_are_fresh_witness :
  exists c, add_iterator demo_context 7%Z = Ok (c, 1%Z) /\ ids_dense c.
Proof.
  destruct (add_iterator demo_context 7%Z) as [[c id]| |] eqn:E; [|vm_compute in E; discriminate..].
  assert (id = 1%Z) as -> by (by vm_compute in E; injection E).
  exists c. split; [reflexivity|].
  by destruct (iterator_ids_are_fresh demo_context c 7%Z 1 dense_initially E) as (_ & _ & _ & _ & H).
Defined.
