(* ===== verification/WasmerHost.v ===== *)
(** * The host functions of the wasmer engine: cosmwasm/packages/sgx-vm/src

    memory.rs, imports.rs, the metering of backends/ and the gas accounting of context.rs:
    the code that ran contracts on the host before they moved into the enclave, kept in the
    repository beside the code that replaced it (Runtime.v).  Wasmer itself is a parameter:
    the class [WasmerMemory] for linear memory and its checked pointers, the points used of
    the metering middleware, and the exports of the contract. *)

From Stdlib Require Import Strings.String.
From stdpp Require Import base tactics list numbers strings gmap ssreflect.
From S2P Require Import Prelude Utf8 Math Storage Std Querying Crypto SgxVm.

Local Open Scope string_scope.
Local Open Scope list_scope.
Local Open Scope Z_scope.

(** ** memory.rs *)

Record Region : Type := mkRegion { offset : Z; capacity : Z; region_length : Z }.

(** [WasmPtr<Region>::deref] with [Cell::get] and [Cell::set], and [WasmPtr<u8, Array>::deref]
    with the bytes behind it; [None] where the pointer does not lie in memory. *)
Class WasmerMemory (Mem : Type) : Type := {
  region_at : Mem -> Z -> option Region;
  set_region_at : Mem -> Z -> Region -> option Mem;
  cells_at : Mem -> Z -> Z -> option bytes;
  set_cells : Mem -> Z -> bytes -> Mem;
  size_bytes : Mem -> Z
}.
#[global] Hint Mode WasmerMemory + : typeclass_instances.

Definition REGION_SIZE : Z := 12.
Definition apart (o n p m : Z) : Prop := o + n <= p \/ p + m <= o.

(** The fields are [u32]s. *)
Definition region_u32 (r : Region) : Prop :=
  0 <= offset r <= U32_MAX /\ 0 <= capacity r <= U32_MAX /\ 0 <= region_length r <= U32_MAX.

Class WasmerMemoryLaws (Mem : Type) `{WasmerMemory Mem} : Prop := {
  region_at_u32 (m : Mem) p r : region_at m p = Some r -> region_u32 r;
  region_at_set (m m' : Mem) p r : region_u32 r -> set_region_at m p r = Some m' -> region_at m' p = Some r;
  cells_at_set_region (m m' : Mem) p r o n :
    set_region_at m p r = Some m' -> 0 <= n -> apart p REGION_SIZE o n -> cells_at m' o n = cells_at m o n;
  cells_at_set_cells (m : Mem) o d n :
    is_Some (cells_at m o n) -> Z.of_nat (length d) <= n ->
    cells_at (set_cells m o d) o (Z.of_nat (length d)) = Some d
}.

Definition debug_region (r : Region) : string :=
  "Region { offset: " +:+ u128_to_string (offset r) +:+ ", capacity: " +:+ u128_to_string (capacity r)
  +:+ ", length: " +:+ u128_to_string (region_length r) +:+ " }".

Definition validate_region (region : Region) : result RegionValidationError unit :=
  if offset region =? 0 then Err ZeroOffset
  else if capacity region <? region_length region
  then Err (LengthExceedsCapacity (region_length region) (capacity region))
  else if U32_MAX - offset region <? capacity region
  then Err (OutOfRange (offset region) (capacity region))
  else Ok tt.

Section Memory.
Context {Mem : Type} `{WM : WasmerMemory Mem}.

Definition get_region (m : Mem) (ptr : Z) : result CommunicationError Region :=
  match region_at m ptr with
  | Some region => _ ← map_err InvalidRegion (validate_region region); Ok region
  | None => Err (DerefErr ptr "Could not dereference this pointer to a Region")
  end.

Definition set_region (m : Mem) (ptr : Z) (data : Region) : result CommunicationError Mem :=
  match set_region_at m ptr data with
  | Some m' => Ok m'
  | None => Err (DerefErr ptr "Could not dereference this pointer to a Region")
  end.

Definition deref_failed (m : Mem) (region : Region) : CommunicationError :=
  DerefErr (offset region)
    ("Tried to access memory of region " +:+ debug_region region +:+ " in wasm memory of size "
     +:+ u128_to_string (size_bytes m)
     +:+ " bytes. This typically happens when the given Region pointer does not point to a proper Region struct.").

Definition read_region (m : Mem) (ptr : Z) (max_length : Z) : VmResult bytes :=
  region ← map_err CommunicationErr (get_region m ptr);
  if max_length <? region_length region
  then Err (CommunicationErr (RegionLengthTooBig (region_length region) max_length))
  else match cells_at m (offset region) (region_length region) with
       | Some result => Ok result
       | None => Err (CommunicationErr (deref_failed m region))
       end.

Definition maybe_read_region (m : Mem) (ptr : Z) (max_length : Z) : VmResult (option bytes) :=
  if ptr =? 0 then Ok None else Some <$> read_region m ptr max_length.

Definition write_region (m : Mem) (ptr : Z) (data : bytes) : VmResult Mem :=
  region ← map_err CommunicationErr (get_region m ptr);
  if capacity region <? Z.of_nat (length data)
  then Err (CommunicationErr (RegionTooSmall (capacity region) (Z.of_nat (length data))))
  else match cells_at m (offset region) (capacity region) with
       | Some _ =>
           map_err CommunicationErr
             (set_region (set_cells m (offset region) data) ptr
                (mkRegion (offset region) (capacity region) (Z.of_nat (length data))))
       | None => Err (CommunicationErr (deref_failed m region))
       end.

End Memory.

(** ** conversion.rs *)

(** At [usize], the type of lengths. *)
Definition to_u32 (input : Z) : VmResult Z :=
  if input <=? U32_MAX then Ok input else Err (ConversionErr "usize" "u32" (u128_to_string input)).

Definition to_i32 (input : Z) : VmResult Z :=
  if (-2^31 <=? input) && (input <? 2^31) then Ok input
  else Err (ConversionErr "usize" "i32" (u128_to_string input)).

(** ** errors/vm_error.rs: the errors of wasmer *)

(** [RuntimeError]: what a call of an export fails with.  Running out of gas is
    [InvokeError::FailedWithNoError]; an error of an import comes back as it was; of any other
    only the debug text is used. *)
Inductive RuntimeError : Type :=
| FailedWithNoError
| User (err : VmError)
| OtherRuntimeError (debug : string).

Definition vm_error_of_cache (debug : string) : VmError := CacheErr ("Wasmer cache error: " +:+ debug).
Definition vm_error_of_compile (debug : string) : VmError := CompileErr ("Wasmer compile error: " +:+ debug).
Definition vm_error_of_resolve (debug : string) : VmError := ResolveErr ("Wasmer resolve error: " +:+ debug).
Definition vm_error_of_runtime (original : RuntimeError) : VmError :=
  match original with
  | FailedWithNoError => GasDepletion
  | User err => err
  | OtherRuntimeError debug => RuntimeErr ("Wasmer runtime error: " +:+ debug)
  end.

(** [call(..)?] *)
Definition called {S A} (m : M S RuntimeError A) : M S VmError A := fun s =>
  let (s', r) := m s in (s', map_err vm_error_of_runtime r).

(** ** backends/singlepass.rs and backends/mod.rs *)

Definition MAX_GAS_LIMIT : Z := U64_MAX / 2.

(** ** context.rs *)

Record GasState : Type := mkGasState { gas_limit : Z; externally_used_gas : Z }.

Definition with_limit (limit : Z) : GasState := mkGasState limit 0.
Definition increase_externally_used_gas {E} (g : GasState) (amount : Z) : result E GasState :=
  used ← arith U64_MAX (externally_used_gas g + amount); Ok (mkGasState (gas_limit g) used).
Definition set_gas_limit (g : GasState) (limit : Z) : GasState := mkGasState limit (externally_used_gas g).

Definition state_gas_left (g : GasState) (wasmer_used_gas : Z) : Z :=
  saturating_sub (saturating_sub (gas_limit g) (externally_used_gas g)) wasmer_used_gas.
Definition get_gas_used_in_wasmer (g : GasState) (wasmer_gas_left : Z) : Z :=
  saturating_sub (saturating_sub (gas_limit g) (externally_used_gas g)) wasmer_gas_left.

Section Host.
Context {Mem S Q I R : Type} `{WM : WasmerMemory Mem} `{HS : VmStorage S} `{HQ : VmQuerier Q R}.

(** What a host function sees: the instance (memory and metering, if it was linked), the gas
    state and the context data. *)
Record Ctx : Type := mkCtx {
  memory : Mem;
  points_used : Z;
  linked : bool;
  gas_state : GasState;
  data : ContextData S Q I
}.
#[local] Abbreviation W A := (M Ctx VmError A).

Definition set_memory (m : Mem) (c : Ctx) : Ctx := mkCtx m (points_used c) (linked c) (gas_state c) (data c).
Definition set_points (p : Z) (c : Ctx) : Ctx := mkCtx (memory c) p (linked c) (gas_state c) (data c).
Definition set_gas_state (g : GasState) (c : Ctx) : Ctx := mkCtx (memory c) (points_used c) (linked c) g (data c).
Definition set_data (d : ContextData S Q I) (c : Ctx) : Ctx := mkCtx (memory c) (points_used c) (linked c) (gas_state c) d.

(** [create_unmanaged_context_data] with the gas state of this build. *)
Definition setup_context (m : Mem) (limit : Z) : Ctx :=
  mkCtx m 0 false (with_limit limit) create_unmanaged_context_data.
Definition set_wasmer_instance (is_some : bool) (c : Ctx) : Ctx :=
  mkCtx (memory c) (points_used c) is_some (gas_state c) (data c).

Definition set_gas_left (amount : Z) : W unit :=
  if MAX_GAS_LIMIT <? amount then liftR Panic
  else modifyS (set_points (MAX_GAS_LIMIT - amount)).
Definition get_gas_left (c : Ctx) : Z := saturating_sub MAX_GAS_LIMIT (points_used c).

(** [InsufficientGasLeft] becomes [GasDepletion]. *)
Definition decrease_gas_left (amount : Z) : W unit :=
  remaining ← readS (fun c => Ok (get_gas_left c));
  if remaining <? amount then _ ← set_gas_left 0; liftR (Err GasDepletion)
  else set_gas_left (remaining - amount).

Definition account_for_externally_used_gas (used_gas : Z) : W unit :=
  is_linked ← readS (fun c => Ok (linked c));
  if negb is_linked then liftR (Err (UninitializedContextData "wasmer_instance"))
  else
    wasmer_used_gas ← readS (fun c => Ok (get_gas_used_in_wasmer (gas_state c) (get_gas_left c)));
    g ← readS (fun c => increase_externally_used_gas (gas_state c) used_gas);
    _ ← modifyS (set_gas_state g);
    _ ← set_gas_left (state_gas_left g wasmer_used_gas);
    total ← liftR (arith U64_MAX (externally_used_gas g + wasmer_used_gas));
    if gas_limit g <? total then liftR (Err GasDepletion) else mret tt.

Definition process_gas_info (info : GasInfo) : W unit :=
  _ ← decrease_gas_left (gas_cost info);
  account_for_externally_used_gas (externally_used info).

Definition is_storage_readonly (c : Ctx) : bool := storage_readonly (data c).

Definition with_storage {T} (func : S -> S * VmResult T) : W T :=
  fun c => let (d, r) := with_storage_from_context (data c) func in (set_data d c, r).
Definition with_querier {T} (func : Q -> VmResult T) : W T :=
  readS (fun c => with_querier_from_context (data c) func).

(** ** imports.rs *)

Definition KI : Z := 1024.
Definition MAX_LENGTH_DB_KEY : Z := 64 * KI.
Definition MAX_LENGTH_DB_VALUE : Z := 128 * KI.
Definition MAX_LENGTH_CANONICAL_ADDRESS : Z := 32.
Definition MAX_LENGTH_HUMAN_ADDRESS : Z := 90.
Definition MAX_LENGTH_QUERY_CHAIN_REQUEST : Z := 64 * KI.

(** [Instance::exports::get]: the export of a name with so many arguments and results, or the text
    of wasmer's error; a call acts on the whole context, because it can call back. *)
Variable exports : string -> nat -> nat -> result string (list Z -> M Ctx RuntimeError Z).
(** What [to_vec] reports for an answer it cannot encode. *)
Variable serialize_error : VmError.
(** The backend's address functions and iterators. *)
Variables (canonical_address : string -> FfiResult bytes) (human_address : bytes -> FfiResult string).
Variable st_range : S -> option bytes -> option bytes -> Order -> FfiResult I.
Variable it_next : I -> I * FfiResult (option KV).

Definition read_from (ptr max_length : Z) : W bytes := readS (fun c => read_region (memory c) ptr max_length).
Definition write_at (ptr : Z) (input : bytes) : W unit :=
  m ← readS (fun c => write_region (memory c) ptr input); modifyS (set_memory m).

Definition with_func_from_context {T} (name : string) (args rets : nat) (callback : (list Z -> M Ctx RuntimeError Z) -> W T) : W T :=
  is_linked ← readS (fun c => Ok (linked c));
  if negb is_linked then liftR (Err (UninitializedContextData "wasmer_instance"))
  else
    func ← liftR (map_err vm_error_of_resolve (exports name args rets));
    callback func.

Definition write_to_contract (input : bytes) : W Z :=
  target_ptr ← with_func_from_context "allocate" 1 1 (fun allocate =>
    out_size ← liftR (to_u32 (Z.of_nat (length input)));
    ptr ← called (allocate [out_size]);
    if ptr =? 0 then liftR (Err (CommunicationErr ZeroAddress)) else mret ptr);
  _ ← write_at target_ptr input;
  mret target_ptr.

(** [result?] on an [FfiResult]. *)
Definition ffi {A} (r : result FfiError A) : W A := liftR (map_err vm_error_of_ffi r).

Definition do_read (key_ptr : Z) : W Z :=
  key ← read_from key_ptr MAX_LENGTH_DB_KEY;
  p ← with_storage (fun store => let (s, r) := st_get store key in (s, Ok r));
  _ ← process_gas_info p.2;
  value ← ffi p.1;
  match value with
  | Some out_data => write_to_contract out_data
  | None => mret 0
  end.

Definition do_write (key_ptr value_ptr : Z) : W unit :=
  readonly ← readS (fun c => Ok (is_storage_readonly c));
  if readonly : bool then liftR (Err WriteAccessDenied)
  else
    key ← read_from key_ptr MAX_LENGTH_DB_KEY;
    value ← read_from value_ptr MAX_LENGTH_DB_VALUE;
    p ← with_storage (fun store => let (s, r) := st_set store key value in (s, Ok r));
    _ ← process_gas_info p.2;
    ffi p.1.

Definition do_remove (key_ptr : Z) : W unit :=
  readonly ← readS (fun c => Ok (is_storage_readonly c));
  if readonly : bool then liftR (Err WriteAccessDenied)
  else
    key ← read_from key_ptr MAX_LENGTH_DB_KEY;
    p ← with_storage (fun store => let (s, r) := st_remove store key in (s, Ok r));
    _ ← process_gas_info p.2;
    ffi p.1.

(** The tail of the two address functions: the result is written to the caller's region, an error
    for the user is returned as a region with its text. *)
Definition answer_address (destination_ptr : Z) (r : FfiResult bytes) : W Z :=
  _ ← process_gas_info r.2;
  match r.1 with
  | Ok bytes => _ ← write_at destination_ptr bytes; mret 0
  | Err (UserErr msg) => write_to_contract (lit msg)
  | Err err => liftR (Err (vm_error_of_ffi err))
  | Panic => liftR Panic
  end.

Definition do_canonicalize_address (source_ptr destination_ptr : Z) : W Z :=
  source_data ← read_from source_ptr MAX_LENGTH_HUMAN_ADDRESS;
  match source_data with
  | [] => write_to_contract (lit "Input is empty")
  | _ =>
      if Text.from_utf8 source_data
      then answer_address destination_ptr (canonical_address (string_of_list_byte source_data))
      else write_to_contract (lit "Input is not valid UTF-8")
  end.

Definition do_humanize_address (source_ptr destination_ptr : Z) : W Z :=
  canonical ← read_from source_ptr MAX_LENGTH_CANONICAL_ADDRESS;
  let r := human_address canonical in
  answer_address destination_ptr (lit <$> r.1, r.2).

Definition do_query_chain (request_ptr : Z) : W Z :=
  request ← read_from request_ptr MAX_LENGTH_QUERY_CHAIN_REQUEST;
  gas_remaining ← readS (fun c => Ok (get_gas_left c));
  p ← with_querier (fun querier => Ok (query_raw querier request gas_remaining));
  _ ← process_gas_info p.2;
  answer ← ffi p.1;
  match encode_answer answer with
  | Some serialized => write_to_contract serialized
  | None => liftR (Err serialize_error)
  end.

Definition do_scan (start_ptr end_ptr order : Z) : W Z :=
  start ← readS (fun c => maybe_read_region (memory c) start_ptr MAX_LENGTH_DB_KEY);
  end_ ← readS (fun c => maybe_read_region (memory c) end_ptr MAX_LENGTH_DB_KEY);
  o ← liftR (map_err (fun _ => CommunicationErr (InvalidOrder order)) (order_try_from order));
  p ← with_storage (fun store => (store, Ok (st_range store start end_ o)));
  _ ← process_gas_info p.2;
  iterator ← ffi p.1;
  d ← readS (fun c => add_iterator (data c) iterator);
  _ ← modifyS (set_data d.1);
  mret d.2.

(** The entry as the contract reads it: value, key and the length of the key. *)
Definition next_out_data (kv : KV) : VmResult bytes :=
  keylen ← to_u32 (Z.of_nat (length kv.1));
  Ok (kv.2 ++ kv.1 ++ be_bytes 4 keylen).

Definition do_next (iterator_id : Z) : W Z :=
  p ← (fun c => let (d, r) := with_iterator_from_context (data c) iterator_id (fun i => let (i', r) := it_next i in (i', Ok r))
                in (set_data d c, r));
  _ ← process_gas_info p.2;
  kv ← ffi p.1;
  out_data ← liftR (next_out_data (default ([], []) kv));
  write_to_contract out_data.

End Host.

(** ** Properties *)

Lemma validate_region_Ok r :
  validate_region r = Ok tt <->
  offset r <> 0 /\ region_length r <= capacity r /\ offset r + capacity r <= U32_MAX.
Proof.
  unfold validate_region. destruct (Z.eqb_spec (offset r) 0); [split; [done|lia]|].
  destruct (Z.ltb_spec (capacity r) (region_length r)); [split; [done|lia]|].
  destruct (Z.ltb_spec (U32_MAX - offset r) (capacity r)); split; try done; lia.
Qed.

Section RegionFacts.
Context {Mem : Type} `{WML : WasmerMemoryLaws Mem}.

Lemma get_region_Ok (m : Mem) ptr r :
  get_region m ptr = Ok r <-> region_at m ptr = Some r /\ validate_region r = Ok tt.
Proof.
  unfold get_region. destruct (region_at m ptr) as [r'|]; [|by split; [|intros [? _]]].
  destruct (validate_region r') as [[]| |] eqn:Hv; cbn; split; try done.
  - by intros [= <-].
  - by intros [[= <-] _].
  - by intros [[= <-] E]; rw Hv in E.
  - by intros [[= <-] E]; rw Hv in E.
Qed.

Lemma write_region_Ok (m m' : Mem) ptr d :
  write_region m ptr d = Ok m' ->
  exists r, region_at m ptr = Some r /\ validate_region r = Ok tt /\ Z.of_nat (length d) <= capacity r /\
    is_Some (cells_at m (offset r) (capacity r)) /\
    set_region_at (set_cells m (offset r) d) ptr (mkRegion (offset r) (capacity r) (Z.of_nat (length d))) = Some m'.
Proof.
  unfold write_region. destruct (get_region m ptr) as [r| |] eqn:Hr; [|done..]. cbn [map_err mbind result_bind].
  apply get_region_Ok in Hr as [Hr Hv]. destruct (Z.ltb_spec (capacity r) (Z.of_nat (length d))); [done|].
  destruct (cells_at m (offset r) (capacity r)) eqn:Hc; [|done]. unfold set_region.
  destruct (set_region_at _ _ _) eqn:Hs; [|done]. intros [= <-]. exists r. by rw Hc.
Qed.

(** What write_region stores is what read_region returns, when the region does not hold its own
    descriptor and the reader's limit allows it; a longer region is refused. *)
Theorem region_write_read (m m' : Mem) ptr r d max_length :
  region_at m ptr = Some r -> apart ptr REGION_SIZE (offset r) (capacity r) ->
  write_region m ptr d = Ok m' ->
  read_region m' ptr max_length =
  if decide (Z.of_nat (length d) <= max_length) then Ok d
  else Err (CommunicationErr (RegionLengthTooBig (Z.of_nat (length d)) max_length)).
Proof.
  intros Hr Ha (r' & Hr' & Hv & Hd & Hc & Hs)%write_region_Ok. rw Hr in Hr'. injection Hr' as <-.
  set (r1 := mkRegion (offset r) (capacity r) (Z.of_nat (length d))).
  assert (get_region m' ptr = Ok r1) as E.
  { apply get_region_Ok. split.
    { eapply region_at_set; [|done]. apply region_at_u32 in Hr as (? & ? & ?). unfold r1, region_u32. cbn. lia. }
    apply validate_region_Ok in Hv. apply validate_region_Ok. cbn. lia. }
  unfold read_region. rw E. cbn [map_err mbind result_bind r1 region_length offset].
  destruct (Z.ltb_spec max_length (Z.of_nat (length d))) as [Hl|Hl].
  - by rw decide_False; [|lia].
  - rw decide_True; [|lia]. erewrite cells_at_set_region; [|done|lia|unfold apart in *; lia].
    by erewrite cells_at_set_cells.
Qed.
End RegionFacts.

Section HostFacts.
Context {Mem S Q I R : Type} `{WM : WasmerMemory Mem} `{HS : VmStorage S} `{HQ : VmQuerier Q R}.
#[local] Abbreviation Ctx := (@Ctx Mem S Q I).

(** In a query the storage is read-only: do_write and do_remove are refused before they look at
    memory, and change nothing. *)
Theorem readonly_storage_is_not_written (c : Ctx) key_ptr value_ptr :
  storage_readonly (data c) = true ->
  do_write key_ptr value_ptr c = (c, Err WriteAccessDenied) /\ do_remove key_ptr c = (c, Err WriteAccessDenied).
Proof.
  intros Hro. unfold do_write, do_remove. cbv [mbind M_bind readS]. unfold is_storage_readonly. by rw Hro.
Qed.

(** The metered budget is exact: what is left for wasmer is what the limit leaves after the gas
    used inside and outside. *)
Definition gas_ok (c : Ctx) : Prop :=
  linked c = true /\ 0 <= points_used c /\ 0 <= externally_used_gas (gas_state c) /\
  gas_limit (gas_state c) <= MAX_GAS_LIMIT /\
  get_gas_left c + externally_used_gas (gas_state c) <= gas_limit (gas_state c).

Lemma set_gas_left_spec (c : Ctx) a :
  0 <= a <= MAX_GAS_LIMIT ->
  set_gas_left a c = (set_points (MAX_GAS_LIMIT - a) c, Ok tt) /\ get_gas_left (set_points (MAX_GAS_LIMIT - a) c) = a.
Proof.
  intros Ha. unfold set_gas_left. destruct (Z.ltb_spec MAX_GAS_LIMIT a); [lia|]. split; [done|].
  unfold get_gas_left, saturating_sub. cbn [points_used set_points]. lia.
Qed.

Lemma gas_left_range (c : Ctx) : 0 <= points_used c -> 0 <= get_gas_left c <= MAX_GAS_LIMIT.
Proof. unfold get_gas_left, saturating_sub. assert (0 <= MAX_GAS_LIMIT) by (by vm_compute). lia. Qed.

(** process_gas_info charges exactly the cost and the gas used outside: when both fit in what is
    left it succeeds and leaves the difference, otherwise it fails and nothing is left. *)
Theorem gas_info_is_charged (c c' : Ctx) info r :
  gas_ok c -> 0 <= gas_cost info -> 0 <= externally_used info ->
  externally_used_gas (gas_state c) + externally_used info <= U64_MAX / 2 ->
  process_gas_info info c = (c', r) ->
  if decide (gas_cost info + externally_used info <= get_gas_left c)
  then r = Ok tt /\ gas_ok c' /\ get_gas_left c' = get_gas_left c - gas_cost info - externally_used info /\
       externally_used_gas (gas_state c') = externally_used_gas (gas_state c) + externally_used info
  else r = Err GasDepletion /\ get_gas_left c' = 0.
Proof.
  intros (Hl & Hp & He & Hm & Hb) Hc Hx Hov Hr. pose proof (gas_left_range c Hp) as Hg.
  assert (0 <= MAX_GAS_LIMIT <= U64_MAX / 2) as HM by (by vm_compute).
  assert (U64_MAX / 2 + U64_MAX / 2 <= U64_MAX) as HU by (by vm_compute).
  revert Hr. unfold process_gas_info, decrease_gas_left. cbv [mbind M_bind readS].
  destruct (Z.ltb_spec (get_gas_left c) (gas_cost info)) as [Hlt|Hle].
  { destruct (set_gas_left_spec c 0) as [E El]; [lia|]. rw E. cbv [liftR]. intros [= <- <-].
    by rw decide_False; [|lia]. }
  destruct (set_gas_left_spec c (get_gas_left c - gas_cost info)) as [E El]; [lia|]. rw E.
  set (c1 := set_points (MAX_GAS_LIMIT - (get_gas_left c - gas_cost info)) c) in *.
  unfold account_for_externally_used_gas. cbv [mbind M_bind readS modifyS liftR mret M_ret].
  assert (linked c1 = true) as -> by done. cbn [negb]. unfold increase_externally_used_gas.
  assert (gas_state c1 = gas_state c) as Egs by done. rw Egs El.
  rw arith_in_range; [|lia]. cbn [mbind result_bind].
  set (g := mkGasState _ _). set (w := get_gas_used_in_wasmer _ _).
  assert (w = gas_limit (gas_state c) - externally_used_gas (gas_state c) - (get_gas_left c - gas_cost info)) as Hw.
  { unfold w, get_gas_used_in_wasmer, saturating_sub. lia. }
  assert (state_gas_left g w = Z.max 0 (get_gas_left c - gas_cost info - externally_used info)) as Hleft.
  { unfold state_gas_left, saturating_sub. cbn. lia. }
  rw Hleft. destruct (set_gas_left_spec (set_gas_state g c1) (Z.max 0 (get_gas_left c - gas_cost info - externally_used info))) as [E2 El2]; [lia|].
  rw E2 arith_in_range; [|cbn; lia]. cbn [gas_limit g].
  destruct (Z.ltb_spec (gas_limit (gas_state c)) (externally_used_gas g + w)) as [Hd|Hd]; intros [= <- <-]; cbn in Hd.
  - rw decide_False; [|lia]. rw El2. split; [done|lia].
  - rw decide_True; [|lia]. split_and!; [done| |rw El2; lia|done].
    split_and!; [done|cbn; lia|cbn; lia|cbn; lia|]. rw El2. cbn. lia.
Qed.

(** The entry do_next writes into the contract's memory is what ExternalIterator::next of the
    contract reads from it; an entry with an empty key ends the iteration. *)
Theorem next_entry_is_read (k v out : bytes) :
  next_out_data (k, v) = Ok out ->
  next_kv out = Ok (if decide (k = []) then None else Some (k, v)).
Proof.
  unfold next_out_data, to_u32. cbn [fst snd].
  destruct (Z.leb_spec (Z.of_nat (length k)) U32_MAX) as [Hk|]; [|done]. intros [= <-].
  apply next_kv_roundtrip. unfold U32_MAX in Hk. lia.
Qed.
End HostFacts.
