(* ===== verification/WasmCheck.v ===== *)
(** * Uploading contracts: sgx-vm/src/compatability.rs, features.rs, checksum.rs, cache.rs and
      wasmi-runtime/src/wasm/runtime/import_resolver.rs

    What a contract must look like to be stored, the directory it is stored in, and the table
    of functions the enclave offers to it.  parity-wasm's modules are those of the class
    [WasmLoader], with getters for the sections that only the host looks at; SHA-256 and the
    hex encoding of file names are crates and parameters, and so is what the file system
    answers. *)

From Stdlib Require Import Strings.String Strings.Ascii.
From stdpp Require Import base tactics list numbers strings sorting ssreflect gmap relations.
From S2P Require Import Prelude Utf8 Crypto SecretMsg EnclaveDb QueryChain Runtime Operations Ecalls SgxVm.

Local Open Scope string_scope.
Local Open Scope list_scope.

(** ** features.rs *)

Definition REQUIRES_PREFIX : string := "requires_".

(** [str::split(',')]: one more part than there are commas. *)
Fixpoint split_commas (l : bytes) : list bytes :=
  match l with
  | [] => [[]]
  | b :: l' =>
      if bool_decide (b = Byte.x2c) then [] :: split_commas l'
      else match split_commas l' with
           | part :: parts => (b :: part) :: parts
           | [] => [[b]]
           end
  end.

Definition features_from_csv (csv : string) : gset string :=
  list_to_set (filter (fun f => f <> "")
    ((fun x => string_of_list_byte (Text.trim x)) <$> split_commas (lit csv))).

Record ExportEntry : Type := mkExport { export_field : string; is_function_export : bool }.
Record ImportEntry : Type := mkImport { import_module : string; import_field : string; is_function_import : bool }.

(** The name behind the prefix, if there is one. *)
Definition required_feature (entry : ExportEntry) : option string :=
  let name := export_field entry in
  if is_function_export entry && (String.prefix REQUIRES_PREFIX name
       && (String.length REQUIRES_PREFIX <? String.length name)%nat)
  then Some (String.substring (String.length REQUIRES_PREFIX)
               (String.length name - String.length REQUIRES_PREFIX) name)
  else None.

(** ** compatability.rs *)

(** Strings are ordered by their bytes. *)
Definition str_le (a b : string) : Prop := String.leb a b = true.
#[export] Instance str_le_dec : RelDecision str_le := fun a b => decide (String.leb a b = true).

Definition MEMORY_LIMIT : Z := 512.

Definition REQUIRED_EXPORTS : list string :=
  ["cosmwasm_vm_version_3"; "query"; "init"; "handle"; "allocate"; "deallocate"].

Section Check.
Context {Mem : Type} `{WL : WasmLoader Mem}.
Local Abbreviation Module := (ParityModule (Mem := Mem)).
Variable export_section : Module -> option (list ExportEntry).
Variable import_section : Module -> option (list ImportEntry).
Variable deserialize_error : bytes -> string.
(** [{:?}] of a string: which characters are escaped is in Unicode's tables. *)
Variable debug_str : string -> string.
(** The features that the crate is compiled with. *)
Variable iterator debug_print : bool.

Definition SUPPORTED_IMPORTS : list string :=
  ["env.db_read"; "env.db_write"; "env.db_remove"; "env.canonicalize_address";
   "env.humanize_address"; "env.query_chain"]
  ++ (if iterator then ["env.db_scan"; "env.db_next"] else [])
  ++ (if debug_print then ["env.debug_print"] else []).

Definition debug_list (l : list string) : string := "[" +:+ String.concat ", " (debug_str <$> l) +:+ "]".
Definition debug_set (l : list string) : string := "{" +:+ String.concat ", " (debug_str <$> l) +:+ "}".

Definition required_features_from_module (module : Module) : gset string :=
  match export_section module with
  | None => ∅
  | Some entries => list_to_set (omap required_feature entries)
  end.

Definition check_wasm_memories (module : Module) : VmResult unit :=
  match memory_section module with
  | None => Err (StaticValidationErr "Wasm contract doesn't have a memory section")
  | Some memories =>
      match memories with
      | [memory] =>
          if (MEMORY_LIMIT <? initial_pages memory)%Z
          then Err (StaticValidationErr "Wasm contract memory's minimum must not exceed 512 pages.")
          else
            match maximum_pages memory with
            | Some _ => Err (StaticValidationErr
                               "Wasm contract memory's maximum must be unset. The host will set it for you.")
            | None => Ok tt
            end
      | _ => Err (StaticValidationErr "Wasm contract must contain exactly one memory")
      end
  end.

Definition missing_export (required_export : string) : VmError :=
  StaticValidationErr ("Wasm contract doesn't have required export: " +:+ string_of_list_byte [Byte.x22]
    +:+ required_export +:+ string_of_list_byte [Byte.x22] +:+ ". Exports required by VM: "
    +:+ debug_list REQUIRED_EXPORTS +:+ ". Contract version too old for this VM?").

Fixpoint check_exports (available required : list string) : VmResult unit :=
  match required with
  | [] => Ok tt
  | e :: required' =>
      if negb (bool_decide (e ∈ available)) then Err (missing_export e)
      else check_exports available required'
  end.

Definition check_wasm_exports (module : Module) : VmResult unit :=
  check_exports (export_field <$> default [] (export_section module)) REQUIRED_EXPORTS.

Definition unsupported_import (full_name : string) : VmError :=
  StaticValidationErr ("Wasm contract requires unsupported import: " +:+ string_of_list_byte [Byte.x22]
    +:+ full_name +:+ string_of_list_byte [Byte.x22] +:+ ". Imports supported by VM: "
    +:+ debug_list SUPPORTED_IMPORTS +:+ ". Contract version too new for this VM?").

Definition non_function_import (full_name : string) : VmError :=
  StaticValidationErr ("Wasm contract requires non-function import: " +:+ string_of_list_byte [Byte.x22]
    +:+ full_name +:+ string_of_list_byte [Byte.x22]
    +:+ ". Right now, all supported imports are functions.").

Fixpoint check_imports (required_imports : list ImportEntry) : VmResult unit :=
  match required_imports with
  | [] => Ok tt
  | i :: rest =>
      let full_name := import_module i +:+ "." +:+ import_field i in
      if negb (bool_decide (full_name ∈ SUPPORTED_IMPORTS)) then Err (unsupported_import full_name)
      else if is_function_import i then check_imports rest
      else Err (non_function_import full_name)
  end.

Definition check_wasm_imports (module : Module) : VmResult unit :=
  check_imports (default [] (import_section module)).

(** A [BTreeSet] of the missing features is printed in order. *)
Definition check_wasm_features (module : Module) (supported_features : gset string) : VmResult unit :=
  let required_features := required_features_from_module module in
  if bool_decide (required_features ⊆ supported_features) then Ok tt
  else
    let unsupported := merge_sort str_le (elements (required_features ∖ supported_features)) in
    Err (StaticValidationErr ("Wasm contract requires unsupported features: " +:+ debug_set unsupported)).

Definition check_wasm (wasm_code : bytes) (supported_features : gset string) : VmResult unit :=
  match deserialize_buffer (Mem := Mem) wasm_code with
  | Some module =>
      _ ← check_wasm_memories module;
      _ ← check_wasm_exports module;
      _ ← check_wasm_imports module;
      check_wasm_features module supported_features
  | None =>
      Err (StaticValidationErr
        ("Wasm bytecode could not be deserialized. Deserialization error: " +:+ string_of_list_byte [Byte.x22]
         +:+ deserialize_error wasm_code +:+ string_of_list_byte [Byte.x22]))
  end.

(** *** What passes the check *)

Lemma string_cons_app c p t : String c p +:+ t = String c (p +:+ t).
Proof. reflexivity. Qed.

Lemma string_prefix_app p t : String.prefix p (p +:+ t) = true.
Proof.
  induction p as [|c p IH]; [by destruct t|]. rw string_cons_app. cbn. destruct (Ascii.ascii_dec c c) as [_|Hn]; [apply IH|by destruct Hn].
Qed.

Lemma string_prefix_inv p s : String.prefix p s = true -> exists t, s = p +:+ t.
Proof.
  revert s. induction p as [|c p IH]; intros s; [intros _; by exists s|].
  destruct s as [|d s]; [done|]. cbn. destruct (Ascii.ascii_dec c d) as [<-|]; [|done].
  intros [t ->]%IH. by exists t.
Qed.

Lemma substring_all s : String.substring 0 (String.length s) s = s.
Proof. induction s as [|c s IH]; [done|]. cbn. by rw IH. Qed.

Lemma substring_app p t : String.substring (String.length p) (String.length t) (p +:+ t) = t.
Proof. induction p as [|c p IH]; [apply substring_all|done]. Qed.

Lemma string_app_length p t : String.length (p +:+ t) = String.length p + String.length t.
Proof. induction p as [|c p IH]; [done|]. rw string_cons_app. cbn. by rw IH. Qed.

Lemma required_feature_Some entry f :
  required_feature entry = Some f <->
  is_function_export entry = true /\ export_field entry = REQUIRES_PREFIX +:+ f /\ f <> "".
Proof.
  unfold required_feature. destruct (is_function_export entry); cbn [andb]; [|split; [done|by intros [? _]]].
  destruct (String.prefix REQUIRES_PREFIX (export_field entry)) eqn:Hp; cbn [andb].
  - apply string_prefix_inv in Hp as [t ->]. rw string_app_length.
    replace (String.length REQUIRES_PREFIX + String.length t - String.length REQUIRES_PREFIX)
      with (String.length t) by lia.
    rw substring_app. destruct (Nat.ltb_spec (String.length REQUIRES_PREFIX)
                                  (String.length REQUIRES_PREFIX + String.length t)) as [Hl|Hl].
    + split; [intros [= ->]; split_and!; [done..|intros ->; cbn in Hl; lia]|].
      intros (_ & He & _). by apply (inj (String.append _)) in He as ->.
    + split; [done|]. intros (_ & He & Hne). apply (inj (String.append _)) in He as <-. destruct t; [done|cbn in Hl; lia].
  - split; [done|]. intros (_ & He & _). by rw He string_prefix_app in Hp.
Qed.

Lemma check_exports_Ok available required :
  check_exports available required = Ok tt <-> Forall (fun e => e ∈ available) required.
Proof.
  induction required as [|e l IH]; cbn [check_exports]; [by split|].
  rw Forall_cons -IH. case_bool_decide; cbn [negb]; naive_solver.
Qed.

Lemma check_imports_Ok l :
  check_imports l = Ok tt <->
  Forall (fun i => import_module i +:+ "." +:+ import_field i ∈ SUPPORTED_IMPORTS /\ is_function_import i = true) l.
Proof.
  induction l as [|i l IH]; cbn [check_imports]; [by split|].
  rw Forall_cons -IH. case_bool_decide; cbn [negb]; [|naive_solver]. destruct (is_function_import i); naive_solver.
Qed.

Lemma check_memories_Ok m :
  check_wasm_memories m = Ok tt <->
  exists memory, memory_section m = Some [memory] /\ (initial_pages memory <= MEMORY_LIMIT)%Z /\
    maximum_pages memory = None.
Proof using Mem WL.
  clear export_section import_section.
  unfold check_wasm_memories. destruct (memory_section m) as [[|memory [|? ?]]|]; [naive_solver| |naive_solver..].
  destruct (Z.ltb_spec MEMORY_LIMIT (initial_pages memory)); [|destruct (maximum_pages memory) eqn:?; naive_solver].
  split; [done|]. intros (? & [= <-] & ? & _). lia.
Qed.

Lemma check_features_Ok m supported :
  check_wasm_features m supported = Ok tt <->
  forall entry f, entry ∈ default [] (export_section m) ->
    is_function_export entry = true -> export_field entry = REQUIRES_PREFIX +:+ f -> f <> "" -> f ∈ supported.
Proof.
  unfold check_wasm_features, required_features_from_module. case_bool_decide as Hs.
  - split; [|done]. intros _ entry f Hin Hf Hn Hne. apply Hs. destruct (export_section m) as [l|]; [|set_solver].
    apply elem_of_list_to_set, list_elem_of_omap. exists entry. split; [done|]. by apply required_feature_Some.
  - split; [done|]. intros Hall. destruct Hs. intros f Hf. destruct (export_section m) as [l|]; [|set_solver].
    apply elem_of_list_to_set, list_elem_of_omap in Hf as (entry & Hin & (? & ? & ?)%required_feature_Some).
    by eapply Hall.
Qed.

(** An upload is accepted if and only if it deserializes, has one memory of at most 512 pages
    and no maximum, all required exports, only supported function imports, and every feature
    named by a requires_ function export is supported. *)
Theorem check_wasm_spec wasm_code supported :
  check_wasm wasm_code supported = Ok tt <->
  exists m, deserialize_buffer (Mem := Mem) wasm_code = Some m /\
    (exists memory, memory_section m = Some [memory] /\ (initial_pages memory <= MEMORY_LIMIT)%Z /\
       maximum_pages memory = None) /\
    Forall (fun e => e ∈ export_field <$> default [] (export_section m)) REQUIRED_EXPORTS /\
    Forall (fun i => import_module i +:+ "." +:+ import_field i ∈ SUPPORTED_IMPORTS /\
                     is_function_import i = true) (default [] (import_section m)) /\
    (forall entry f, entry ∈ default [] (export_section m) -> is_function_export entry = true ->
       export_field entry = REQUIRES_PREFIX +:+ f -> f <> "" -> f ∈ supported).
Proof.
  unfold check_wasm. destruct (deserialize_buffer wasm_code) as [m|]; [|naive_solver].
  assert (forall A (r : VmResult unit) (k : VmResult A) v, (_ ← r; k) = Ok v <-> r = Ok tt /\ k = Ok v) as Hb.
  { intros A r k v. destruct r as [[]| |]; naive_solver. }
  rw !Hb check_memories_Ok. unfold check_wasm_exports, check_wasm_imports.
  rw check_exports_Ok check_imports_Ok check_features_Ok. naive_solver.
Qed.

End Check.

(** ** import_resolver.rs *)

Inductive ValueType : Type := I32.
Record Signature : Type := mkSignature { params : list ValueType; return_type : option ValueType }.

Definition DebugPrintIndex : Z := 254.

(** The signature and the index of a host function; the enclave's [debug_print] feature is
    an argument. *)
Definition resolve_func (debug_print : bool) (func_name : string) : result string (Signature * Z) :=
  if (func_name =? "db_read") then Ok (mkSignature [I32] (Some I32), 0%Z)
  else if (func_name =? "db_write") then Ok (mkSignature [I32; I32] None, 1%Z)
  else if (func_name =? "db_remove") then Ok (mkSignature [I32] None, 2%Z)
  else if (func_name =? "canonicalize_address") then Ok (mkSignature [I32; I32] (Some I32), 3%Z)
  else if (func_name =? "humanize_address") then Ok (mkSignature [I32; I32] (Some I32), 4%Z)
  else if (func_name =? "query_chain") then Ok (mkSignature [I32] (Some I32), 6%Z)
  else if debug_print && (func_name =? "debug_print") then Ok (mkSignature [I32] None, DebugPrintIndex)
  else if (func_name =? "gas") then Ok (mkSignature [I32] None, 5%Z)
  else Err ("WASM VM doesn't export function with name " +:+ func_name).

(** [create_builder]: only the module "env" has a resolver. *)
Definition resolve_import (debug_print : bool) (i : ImportEntry) : option (Signature * Z) :=
  if import_module i =? "env" then
    match resolve_func debug_print (import_field i) with Ok r => Some r | _ => None end
  else None.

(** *** Types of the host functions *)

Section Types.
Context {Mem : Type} `{WM : WasmMemory Mem}.
Context `{P : Primitives} `{C : Codecs} `{Ho : Host} `{BE : Bech32Errors}.
Context `{Json QueryRequest} `{Json QueryAnswer} `{Json StdError} `{JE : JsonErrors}.

(** All values a computation ends with satisfy [Φ]. *)
Definition yields {E A} (Φ : A -> Prop) (m : X Mem E A) : Prop :=
  forall vm vm' v, m vm = Some (vm', Ok v) -> Φ v.

Lemma yields_ret {E A} (Φ : A -> Prop) v : Φ v -> yields (E := E) Φ (mret v).
Proof. intros HΦ vm vm' v' [= _ <-]. done. Qed.

Lemma yields_bind {E A B} (Φ : B -> Prop) (m : X Mem E A) (f : A -> X Mem E B) :
  (forall a, yields Φ (f a)) -> yields Φ (m ≫= f).
Proof.
  intros Hf vm vm' v. cbv [mbind X_bind]. destruct (m vm) as [[vm1 [a| |]]|]; [|done..]. by apply Hf.
Qed.

Lemma yields_throw {E A} (Φ : A -> Prop) (e : E) : yields Φ (throwX e).
Proof. by intros vm vm' v. Qed.

Lemma yields_if {E A} (Φ : A -> Prop) (b : bool) (m1 m2 : X Mem E A) :
  yields Φ m1 -> yields Φ m2 -> yields Φ (if b then m1 else m2).
Proof. by destruct b. Qed.

Ltac yields_steps :=
  repeat first [ apply yields_throw | apply yields_if | apply yields_bind; intros ?
               | apply yields_ret; by eexists | apply yields_ret; reflexivity ].

Lemma read_db_yields km ra k : yields is_Some (read_db_index (Mem := Mem) km ra k).
Proof. unfold read_db_index. yields_steps. case_match; yields_steps. Qed.

Lemma remove_db_yields k : yields (fun v => v = None) (remove_db_index (Mem := Mem) k).
Proof. unfold remove_db_index. yields_steps. Qed.

Lemma write_db_yields km k v : yields (fun v => v = None) (write_db_index (Mem := Mem) km k v).
Proof. unfold write_db_index. yields_steps. Qed.

Lemma query_chain_yields km d ra q : yields is_Some (query_chain_index (Mem := Mem) km d ra q).
Proof. unfold query_chain_index. yields_steps. Qed.

Lemma gas_yields g : yields (fun v => v = None) (gas_index (Mem := Mem) g).
Proof. unfold gas_index. yields_steps. Qed.

Lemma canonicalize_yields ra a b : yields is_Some (canonicalize_address_index (Mem := Mem) ra a b).
Proof.
  unfold canonicalize_address_index. yields_steps. repeat case_match; yields_steps.
Qed.

Lemma humanize_yields ra a b : yields is_Some (humanize_address_index (Mem := Mem) ra a b).
Proof. unfold humanize_address_index. yields_steps. case_match; yields_steps. Qed.

(** What a host function may do: return a value of the type, or stop with an error of its own. *)
Definition typed_as (ret : option ValueType) (r : result RunError (option Z)) : Prop :=
  match r with
  | Ok v => is_Some v <-> is_Some ret
  | Err e => exists w, e = HostErr w
  | Panic => True
  end.

Lemma typed_host {ret} (m : X Mem WasmEngineError (option Z)) vm vm' r :
  yields (fun v => is_Some v <-> is_Some ret) m ->
  mapErrX HostErr m vm = Some (vm', r) -> typed_as ret r.
Proof.
  intros Hy. unfold mapErrX. destruct (m vm) as [[vm1 [v|e|]]|] eqn:E; [|..|done]; intros [= <- <-]; cbn; [|by eexists|done].
  by eapply Hy.
Qed.

(** One row of the table: the arguments are there, and the function yields what it should. *)
Ltac typed_case args Hi :=
  destruct args as [|? [|? [|? ?]]]; try discriminate;
  cbv [invoke_index HostFunctions_from Z.eqb Pos.eqb mbind X_bind nth_checked liftX ok_or lookup list_lookup] in Hi;
  (eapply typed_host; [|exact Hi]); intros v0 v1 v Hv; cbn [return_type];
  lazymatch type of Hv with
  | read_db_index _ _ _ _ = _ => apply read_db_yields in Hv
  | write_db_index _ _ _ _ = _ => apply write_db_yields in Hv
  | remove_db_index _ _ = _ => apply remove_db_yields in Hv
  | canonicalize_address_index _ _ _ _ = _ => apply canonicalize_yields in Hv
  | humanize_address_index _ _ _ _ = _ => apply humanize_yields in Hv
  | query_chain_index _ _ _ _ _ = _ => apply query_chain_yields in Hv
  | gas_index _ _ = _ => apply gas_yields in Hv
  end;
  rw ?Hv; split; intros ?; first [done|by eexists].

(** C26: Every host function, called through the index its name resolves to with as many
    arguments as its signature has, never fails for want of an argument, and returns a value
    exactly when the signature has a result type. *)
Theorem host_functions_are_well_typed km depth ra func_name sg index args vm vm' r :
  resolve_func false func_name = Ok (sg, index) -> length args = length (params sg) ->
  invoke_index (Mem := Mem) km depth ra index args vm = Some (vm', r) ->
  typed_as (return_type sg) r.
Proof.
  unfold resolve_func. cbn [andb]. intros Hr Hl Hi.
  repeat (destruct (func_name =? _); [injection Hr as <- <-; typed_case args Hi|]). discriminate.
Qed.

End Types.

(** ** What the enclave makes of an uploaded contract *)

Fixpoint has_dot (s : string) : bool :=
  match s with
  | EmptyString => false
  | String c s' => Ascii.eqb c "."%char || has_dot s'
  end.

Lemma has_dot_middle a b : has_dot (a +:+ "." +:+ b) = true.
Proof. induction a as [|c a IH]; [done|]. rw string_cons_app. cbn [has_dot]. rw IH. apply orb_true_r. Qed.

Lemma has_dot_app a b : has_dot (a +:+ b) = has_dot a || has_dot b.
Proof. induction a as [|c a IH]; [done|]. rw string_cons_app. cbn [has_dot]. by rw IH orb_assoc. Qed.

(** A name with one dot is read in one way. *)
Lemma dot_split a b a' b' :
  has_dot (a' +:+ b') = false -> a +:+ "." +:+ b = a' +:+ "." +:+ b' -> a = a' /\ b = b'.
Proof.
  rw has_dot_app orb_false_iff. intros [Ha Hb]. revert a Ha. induction a' as [|c' a' IH]; intros a Ha He.
  - destruct a as [|c a]; [split; [done|by injection He]|]. exfalso.
    rw string_cons_app in He. injection He as -> He. change (a +:+ "." +:+ b = b') in He.
    subst b'. by rw has_dot_middle in Hb.
  - cbn [has_dot] in Ha. apply orb_false_iff in Ha as [Hc Ha].
    destruct a as [|c a].
    { change (String "."%char b = String c' (a' +:+ "." +:+ b')) in He. injection He as <- _. discriminate Hc. }
    rw !string_cons_app in He. injection He as -> He. destruct (IH a Ha He) as [-> ->]. done.
Qed.

Definition ITERATOR_IMPORTS : list string := ["db_scan"; "db_next"].

(** The fields that the upload accepts, all of the module "env". *)
Definition accepted_fields (iterator debug_print : bool) : list string :=
  ["db_read"; "db_write"; "db_remove"; "canonicalize_address"; "humanize_address"; "query_chain"]
  ++ (if iterator then ITERATOR_IMPORTS else []) ++ (if debug_print then ["debug_print"] else []).

Lemma accepted_import iterator debug_print m f :
  m +:+ "." +:+ f ∈ SUPPORTED_IMPORTS iterator debug_print ->
  m = "env" /\ f ∈ accepted_fields iterator debug_print.
Proof.
  assert (SUPPORTED_IMPORTS iterator debug_print
          = (fun f => "env" +:+ "." +:+ f) <$> accepted_fields iterator debug_print) as ->
    by (by destruct iterator, debug_print).
  intros (f' & He & Hf)%list_elem_of_fmap. apply dot_split in He as [-> ->]; [done|].
  clear He. unfold accepted_fields, ITERATOR_IMPORTS in Hf.
  destruct iterator, debug_print; cbn [app] in Hf; rw !elem_of_cons elem_of_nil in Hf;
    destruct_or! Hf; by subst.
Qed.

Lemma accepted_resolves iterator debug_print f :
  f ∈ accepted_fields iterator debug_print ->
  (is_Some (resolve_import debug_print (mkImport "env" f true)) <-> f ∉ ITERATOR_IMPORTS).
Proof.
  intros Hf. assert (forall b : bool, Forall (fun f => is_Some (resolve_import b (mkImport "env" f true)) <-> f ∉ ITERATOR_IMPORTS)
                              (accepted_fields true b)) as Hall.
  { intros []; repeat constructor; unfold ITERATOR_IMPORTS; try (by eexists); try (by intros [? ?]); set_solver. }
  specialize (Hall debug_print). rw Forall_forall in Hall. apply Hall.
  destruct iterator; [done|]. unfold accepted_fields in *. cbn [app] in Hf. set_solver.
Qed.

Lemma check_wasm_parts {Mem} `{WL : WasmLoader Mem} exps imps derr dbg it dp code supported m :
  check_wasm (Mem := Mem) exps imps derr dbg it dp code supported = Ok tt ->
  deserialize_buffer (Mem := Mem) code = Some m ->
  (exists memory, memory_section m = Some [memory]) /\
  Forall (fun i => import_module i +:+ "." +:+ import_field i ∈ SUPPORTED_IMPORTS it dp /\
                   is_function_import i = true) (default [] (imps m)).
Proof.
  unfold check_wasm. intros Hc Hm. rw Hm in Hc.
  destruct (check_wasm_memories m) as [[]| |] eqn:E1; [|done..].
  destruct (check_wasm_exports _ _ m) as [[]| |] eqn:E2; [|done..].
  destruct (check_wasm_imports _ _ _ _ m) as [[]| |] eqn:E3; [|done..].
  apply check_memories_Ok in E1 as (memory & ? & _). apply check_imports_Ok in E3. split; [by exists memory|done].
Qed.

(** C27: For a contract that the upload accepts, the enclave accepts its memory exactly when it
    starts with at most 192 pages, and resolves exactly the imports other than db_scan and
    db_next (host and enclave compiled with the same debug-print setting). *)
Theorem uploaded_contract_at_the_enclave {Mem} `{WL : WasmLoader Mem} exps imps derr dbg it dp code supported m :
  check_wasm (Mem := Mem) exps imps derr dbg it dp code supported = Ok tt ->
  deserialize_buffer (Mem := Mem) code = Some m ->
  (exists memory, memory_section m = Some [memory] /\
     (is_ok (validate_memory m) = true <-> (initial_pages memory <= maximum_allowed_pages)%Z)) /\
  Forall (fun i => import_module i = "env" /\
            (is_Some (resolve_import dp i) <-> import_field i ∉ ITERATOR_IMPORTS)) (default [] (imps m)).
Proof.
  intros Hc Hm. destruct (check_wasm_parts _ _ _ _ _ _ _ _ _ Hc Hm) as [[memory Hs] Hi]. split.
  - exists memory. split; [done|]. unfold validate_memory. rw Hs. cbn [ok_or mbind result_bind length Nat.eqb negb head].
    destruct (Z.gtb_spec (initial_pages memory) maximum_allowed_pages); cbn; split; try done; lia.
  - eapply Forall_impl; [exact Hi|]. intros [im f b] [[Hm' Hf]%accepted_import _]. cbn [import_module import_field] in *.
    subst im. split; [done|]. by apply (accepted_resolves it dp f).
Qed.

(** ** checksum.rs and cache.rs *)

Section Cache.
Context {Mem : Type} `{WL : WasmLoader Mem}.
Variable export_section : ParityModule (Mem := Mem) -> option (list ExportEntry).
Variable import_section : ParityModule (Mem := Mem) -> option (list ImportEntry).
Variable deserialize_error : bytes -> string.
Variable debug_str : string -> string.
Variable iterator debug_print : bool.
(** The crates sha2 and hex. *)
Variable sha256 : bytes -> bytes.
Variable hex_encode : bytes -> string.

Abbreviation Checksum := bytes.
Definition generate (wasm : bytes) : Checksum := sha256 wasm.
Definition to_hex (c : Checksum) : string := hex_encode c.
Definition checksum_try_from (value : bytes) : VmResult Checksum :=
  if negb (length value =? 32)%nat then Err (CacheErr "Checksum not of length 32") else Ok value.

Record Stats : Type := mkStats { hits_module : Z; misses : Z }.
Record CosmCache : Type := mkCache { supported_features : gset string; stats : Stats }.

(** The files of the directory [wasm_path], which outlives the cache. *)
Abbreviation Disk := (gmap string bytes).

(** What the operating system says when the directory is made or a file is read or written. *)
Definition cache_new (mkdir : option string) (features : gset string) : VmResult CosmCache :=
  match mkdir with
  | Some e => Err (CacheErr ("Error creating Wasm dir for cache: " +:+ e))
  | None => Ok (mkCache features (mkStats 0 0))
  end.

Inductive WriteOutcome : Type :=
| OpenFails (e : string)
| WriteFails (written : nat) (e : string)
| Written.

Inductive ReadOutcome : Type := ReadOpenFails (e : string) | ReadFails (e : string) | Readable.

(** A file opened without truncation keeps what is behind the last written byte. *)
Definition overwrite (old data : bytes) : bytes := data ++ drop (length data) old.

Definition save_wasm_to_disk (o : WriteOutcome) (wasm : bytes) (disk : Disk) : Disk * VmResult Checksum :=
  let checksum := generate wasm in
  let filename := to_hex checksum in
  let write data := <[filename := overwrite (default [] (disk !! filename)) data]> disk in
  match o with
  | OpenFails e => (disk, Err (CacheErr ("Error opening Wasm file for writing: " +:+ e)))
  | WriteFails n e => (write (take n wasm), Err (CacheErr ("Error writing Wasm file: " +:+ e)))
  | Written => (write wasm, Ok checksum)
  end.

(** A file that does not exist cannot be opened. *)
Definition load_wasm_from_disk (o : ReadOutcome) (checksum : Checksum) (disk : Disk) : VmResult bytes :=
  match o, disk !! to_hex checksum with
  | ReadOpenFails e, _ => Err (CacheErr ("Error opening Wasm file for reading: " +:+ e))
  | _, None => Err (CacheErr "Error opening Wasm file for reading: No such file or directory (os error 2)")
  | ReadFails e, Some _ => Err (CacheErr ("Error reading Wasm file: " +:+ e))
  | Readable, Some wasm => Ok wasm
  end.

Definition save_wasm (cache : CosmCache) (o : WriteOutcome) (wasm : bytes) (disk : Disk) : Disk * VmResult Checksum :=
  match check_wasm (Mem := Mem) export_section import_section deserialize_error debug_str iterator debug_print
          wasm (supported_features cache) with
  | Ok _ => save_wasm_to_disk o wasm disk
  | Err e => (disk, Err e)
  | Panic => (disk, Panic)
  end.

Definition load_wasm (o : ReadOutcome) (checksum : Checksum) (disk : Disk) : VmResult bytes :=
  code ← load_wasm_from_disk o checksum disk;
  if negb (bool_decide (generate code = checksum)) then Err IntegrityErr else Ok code.

(** [enclave] is the status of loading the enclave, if that fails. *)
Definition get_instance {S Q I A} (cache : CosmCache) (o : ReadOutcome) (checksum : Checksum) (disk : Disk)
    (storage : S) (api : A) (querier : Q) (gas_limit : Z) (enclave : option Z)
  : CosmCache * VmResult (Instance S Q I A) :=
  match load_wasm o checksum disk with
  | Ok wasm =>
      match arith U32_MAX (misses (stats cache) + 1) with
      | Ok n =>
          (mkCache (supported_features cache) (mkStats (hits_module (stats cache)) n),
           match enclave with
           | Some status => Err (EnclaveErr (SdkErr status))
           | None => Ok (from_code wasm storage api querier gas_limit)
           end)
      | Err e => (cache, Err e)
      | Panic => (cache, Panic)
      end
  | Err e => (cache, Err e)
  | Panic => (cache, Panic)
  end.

(** *** The directory over time *)

(** Any cache stores any code; the operating system may interrupt it. *)
Inductive disk_step : Disk -> Disk -> Prop :=
| disk_saves cache o wasm disk : disk_step disk (save_wasm cache o wasm disk).1.

Definition collision : Prop := exists x y : bytes, x <> y /\ sha256 x = sha256 y.

(** Every file is the beginning of the code it is named after. *)
Definition prefixes (disk : Disk) : Prop :=
  forall name content, disk !! name = Some content ->
    exists wasm n, name = to_hex (generate wasm) /\ content = take n wasm.

Lemma overwrite_take n k (wasm : bytes) :
  exists m, overwrite (take k wasm) (take n wasm) = take m wasm.
Proof.
  unfold overwrite. destruct (decide (k <= n)) as [Hk|Hk].
  - exists n. rw drop_ge; [by rw app_nil_r|]. rw !length_take. lia.
  - exists k. rw length_take. destruct (decide (n <= length wasm)).
    + rw Nat.min_l //. rw -{2}(take_drop n (take k wasm)) take_take. by rw (Nat.min_l n k); [|lia].
    + rw (take_ge wasm k) ?(take_ge wasm n); [|lia..]. by rw Nat.min_r; [|lia]; rw drop_ge // app_nil_r.
Qed.

Lemma overwrite_full k (wasm : bytes) : overwrite (take k wasm) wasm = wasm.
Proof. unfold overwrite. rw drop_ge; [by rw app_nil_r|]. rw length_take. lia. Qed.

Lemma overwrite_part n (wasm : bytes) : overwrite wasm (take n wasm) = wasm.
Proof.
  unfold overwrite. rw length_take. destruct (decide (n <= length wasm)).
  - rw Nat.min_l //. apply take_drop.
  - rw take_ge; [|lia]. rw Nat.min_r; [|lia]. by rw drop_all app_nil_r.
Qed.

Context {hex_injective : Inj (=) (=) hex_encode}.

(** Codes of the same name are the same. *)
Lemma same_name w w' : to_hex (generate w) = to_hex (generate w') -> w = w' \/ collision.
Proof.
  intros E%(inj hex_encode). destruct (decide (w = w')) as [|Hne]; [by left|]. right. by exists w, w'.
Qed.

(** A save leaves other files alone and overwrites its own with a part of the code. *)
Lemma save_wasm_effect cache o wasm disk :
  (save_wasm cache o wasm disk).1 = disk \/
  exists n, (save_wasm cache o wasm disk).1
    = <[to_hex (generate wasm) := overwrite (default [] (disk !! to_hex (generate wasm))) (take n wasm)]> disk.
Proof.
  unfold save_wasm. destruct (check_wasm _ _ _ _ _ _ _ _); [|by left..].
  destruct o as [e|n e|]; [by left|right; by exists n|right; exists (length wasm)]. by rw take_ge.
Qed.

Lemma step_prefixes d d' : prefixes d -> disk_step d d' -> prefixes d' \/ collision.
Proof.
  intros Hp Hs. destruct Hs as [cache o wasm d]. destruct (save_wasm_effect cache o wasm d) as [->|[n ->]]; [by left|].
  set (name := to_hex (generate wasm)).
  assert ((exists m, overwrite (default [] (d !! name)) (take n wasm) = take m wasm) \/ collision) as [[m ->]|?]; [|left|by right].
  - destruct (d !! name) as [c|] eqn:Ed.
    + destruct (Hp _ _ Ed) as (w & k & E & ->). destruct (same_name wasm w E) as [->|?]; [left; apply overwrite_take|by right].
    + left. exists n. unfold overwrite. by rw drop_nil app_nil_r.
  - intros name' c. destruct (decide (name = name')) as [<-|Hne].
    + rw lookup_insert_eq. intros [= <-]. by exists wasm, m.
    + rw lookup_insert_ne //. apply Hp.
Qed.

Lemma reachable_prefixes d : rtc disk_step ∅ d -> prefixes d \/ collision.
Proof.
  intros Hr. refine (rtc_ind_r (fun d => prefixes d \/ collision) ∅ _ _ d Hr).
  - left. intros name c. by rw lookup_empty.
  - intros d1 d2 _ H1 [Hp|?]; [by eapply step_prefixes|by right].
Qed.

Lemma step_keeps wasm d d' :
  d !! to_hex (generate wasm) = Some wasm -> disk_step d d' ->
  d' !! to_hex (generate wasm) = Some wasm \/ collision.
Proof.
  intros Hd Hs. destruct Hs as [cache o w d]. destruct (save_wasm_effect cache o w d) as [->|[n ->]]; [by left|].
  destruct (decide (to_hex (generate w) = to_hex (generate wasm))) as [E|E].
  - destruct (same_name _ _ E) as [->|?]; [|by right]. left. rw lookup_insert_eq Hd. cbn. by rw overwrite_part.
  - left. by rw lookup_insert_ne.
Qed.

Lemma steps_keep wasm d d' :
  d !! to_hex (generate wasm) = Some wasm -> rtc disk_step d d' ->
  d' !! to_hex (generate wasm) = Some wasm \/ collision.
Proof.
  intros Hd Hr. refine (rtc_ind_r (fun d => d !! to_hex (generate wasm) = Some wasm \/ collision) d _ _ d' Hr).
  - by left.
  - intros d1 d2 _ H1 [Hp|?]; [by eapply step_keeps|by right].
Qed.

Lemma load_stored wasm d : d !! to_hex (generate wasm) = Some wasm -> load_wasm Readable (generate wasm) d = Ok wasm.
Proof.
  intros Hd. unfold load_wasm, load_wasm_from_disk. rw Hd. cbn [mbind result_bind]. by rw bool_decide_true.
Qed.

Lemma save_wasm_Ok cache o wasm d d' c :
  save_wasm cache o wasm d = (d', Ok c) ->
  c = generate wasm /\
  d' = <[to_hex (generate wasm) := overwrite (default [] (d !! to_hex (generate wasm))) wasm]> d.
Proof.
  unfold save_wasm. destruct (check_wasm _ _ _ _ _ _ _ _); [|done..]. destruct o; [done..|]. by intros [= <- <-].
Qed.

(** C28: After a successful save, and any further saves by any cache, interrupted or not, the
    code loads unchanged under its checksum and an instance is made of it, unless SHA-256
    has a collision. *)
Theorem saved_code_is_loadable {S Q I A} cache o wasm d d1 d2 c cache' (s : S) (api : A) (q : Q) limit :
  rtc disk_step ∅ d -> save_wasm cache o wasm d = (d1, Ok c) -> rtc disk_step d1 d2 ->
  (0 <= misses (stats cache') < U32_MAX)%Z ->
  load_wasm Readable c d2 = Ok wasm /\
  (get_instance (I := I) cache' Readable c d2 s api q limit None).2 = Ok (from_code wasm s api q limit)
  \/ collision.
Proof.
  intros Hd [-> ->]%save_wasm_Ok Hr Hm. destruct (reachable_prefixes d Hd) as [Hp|?]; [|by right].
  assert (overwrite (default [] (d !! to_hex (generate wasm))) wasm = wasm \/ collision) as [Ho|?]; [|rw Ho in Hr|by right].
  { destruct (d !! to_hex (generate wasm)) as [old|] eqn:Ed.
    - destruct (Hp _ _ Ed) as (w & k & E & ->). destruct (same_name _ _ E) as [->|?]; [|by right].
      left. apply overwrite_full.
    - left. unfold overwrite. by rw drop_nil app_nil_r. }
  destruct (steps_keep wasm _ _ (lookup_insert_eq _ _ _) Hr) as [Hk|?]; [left|by right].
  split; [by apply load_stored|]. unfold get_instance. rw load_stored //.
  by rw arith_in_range; [|lia].
Qed.

(** Saving a code over a longer file of the same name reports success, but loading it fails the
    integrity check, unless SHA-256 has a collision. *)
Theorem longer_file_is_not_repaired cache o wasm old d d' c :
  d !! to_hex (generate wasm) = Some old -> length wasm < length old ->
  save_wasm cache o wasm d = (d', Ok c) ->
  load_wasm Readable c d' = Err IntegrityErr \/ collision.
Proof.
  intros Hd Hl [-> ->]%save_wasm_Ok. unfold load_wasm, load_wasm_from_disk. rw lookup_insert_eq Hd.
  cbn [default mbind result_bind]. case_bool_decide as Hg; [right|by left].
  exists (overwrite old wasm), wasm. split; [|done]. intros E.
  apply (f_equal length) in E. unfold overwrite in E. rw length_app length_drop in E. lia.
Qed.

(** What the host loads has the checksum it was asked for. *)
Theorem load_wasm_checks o c d code : load_wasm o c d = Ok code -> sha256 code = c.
Proof.
  unfold load_wasm. destruct (load_wasm_from_disk o c d) as [w| |]; [|done..]. cbn [mbind result_bind].
  case_bool_decide; [|done]. by intros [= <-].
Qed.

End Cache.

(** ** The theorems at a concrete contract *)

(** Any code that is not empty is a module with a memory of 300 pages. *)
Definition upload_loader : WasmLoader bytes := {|
  ParityModule := list MemoryType;
  WasmiModule := unit;
  deserialize_buffer code := match code with [] => None | _ => Some [mkMemoryType 300 None] end;
  memory_section p := Some p;
  with_memory_section _ s := s;
  inject_gas_counter p _ := Some p;
  from_parity_wasm_module _ := Some tt;
  has_floating_point _ := false;
  new_instance _ := None
|}.
#[local] Existing Instance upload_loader.

(** It needs the feature "staking", reads and scans. *)
Definition upload_exports (_ : list MemoryType) : option (list ExportEntry) :=
  Some ((fun f => mkExport f true) <$> REQUIRED_EXPORTS ++ ["requires_staking"]).
Definition upload_imports (_ : list MemoryType) : option (list ImportEntry) :=
  Some [mkImport "env" "db_read" true; mkImport "env" "db_scan" true].

Definition upload_check : bytes -> gset string -> VmResult unit :=
  check_wasm (Mem := bytes) upload_exports upload_imports (fun _ => "error") (fun s => s) true false.

Example upload_check_features :
  upload_check (lit "wasm") (features_from_csv " staking, ,gov") = Ok tt /\
  upload_check (lit "wasm") (features_from_csv "gov")
    = Err (StaticValidationErr "Wasm contract requires unsupported features: {staking}").
Proof. split; vm_compute; reflexivity. Qed.

Lemma uploaded_contract_at_the_enclave_witness :
  upload_check (lit "wasm") {["staking"]} = Ok tt /\
  is_ok (validate_memory (Mem := bytes) [mkMemoryType 300 None]) = false /\
  resolve_import false (mkImport "env" "db_scan" true) = None.
Proof.
  assert (upload_check (lit "wasm") {["staking"]} = Ok tt) as Hc by (vm_compute; reflexivity).
  split; [exact Hc|].
  destruct (uploaded_contract_at_the_enclave (WL := upload_loader) upload_exports upload_imports (fun _ => "error") (fun s => s)
              true false (lit "wasm")
              _ [mkMemoryType 300 None] Hc eq_refl) as [(memory & Hs & Hm) Hi].
  injection Hs as <-. split.
  - destruct (is_ok _); [|reflexivity]. exfalso. destruct Hm as [Hm _]. specialize (Hm eq_refl). by apply Hm.
  - apply Forall_cons in Hi as [_ Hi]. apply Forall_cons in Hi as [[_ Hi] _].
    destruct (resolve_import false (mkImport "env" "db_scan" true)) as [r|]; [|reflexivity].
    destruct (proj1 Hi (ex_intro _ r eq_refl)). left.
Defined.

#[local] Instance string_of_bytes_inj : Inj (=) (=) string_of_list_byte.
Proof. intros a b E. by rw -(list_byte_of_string_of_list_byte a) E list_byte_of_string_of_list_byte. Qed.

Definition upload_save : CosmCache -> WriteOutcome -> bytes -> gmap string bytes -> gmap string bytes * VmResult bytes :=
  save_wasm (Mem := bytes) upload_exports upload_imports (fun _ => "error") (fun s => s) true false
    (fun x => x) string_of_list_byte.
Definition upload_cache : CosmCache := mkCache {["staking"]} (mkStats 0 0).

(** The first write is interrupted; the second is not, and another code follows. *)
Lemma saved_code_is_loadable_witness :
  let d := (upload_save upload_cache (WriteFails 2 "full") (lit "wasm") ∅).1 in
  let d1 := (upload_save upload_cache Written (lit "wasm") d).1 in
  let d2 := (upload_save upload_cache Written (lit "was") d1).1 in
  d !! "wasm" = Some (lit "wa") /\
  load_wasm (fun x => x) string_of_list_byte Readable (lit "wasm") d2 = Ok (lit "wasm").
Proof.
  intros d d1 d2. split; [vm_compute; reflexivity|].
  destruct (saved_code_is_loadable (WL := upload_loader) (S := unit) (Q := unit) (I := unit) (A := unit)
              upload_exports upload_imports (fun _ => "error") (fun s => s) true false (fun x => x) string_of_list_byte
              upload_cache Written (lit "wasm") d d1 d2 (lit "wasm") upload_cache tt tt tt 100) as [[H _]|(x & y & Hne & E)].
  - apply rtc_once. apply disk_saves.
  - vm_compute. reflexivity.
  - apply rtc_once. apply disk_saves.
  - vm_compute. done.
  - exact H.
  - by destruct Hne.
Defined.

Lemma longer_file_is_not_repaired_witness :
  let d : gmap string bytes := {[ "wasm" := lit "corrupted" ]} in
  let r := upload_save upload_cache Written (lit "wasm") d in
  r.2 = Ok (lit "wasm") /\
  load_wasm (fun x => x) string_of_list_byte Readable (lit "wasm") r.1 = Err IntegrityErr.
Proof.
  intros d r. split; [vm_compute; reflexivity|].
  destruct (longer_file_is_not_repaired (WL := upload_loader) upload_exports upload_imports (fun _ => "error") (fun s => s)
              true false (fun x => x) string_of_list_byte upload_cache Written (lit "wasm") (lit "corrupted") d r.1
              (lit "wasm")) as [H|(x & y & Hne & E)].
  - vm_compute. reflexivity.
  - vm_compute. lia.
  - vm_compute. reflexivity.
  - exact H.
  - by destruct Hne.
Defined.

#[local] Existing Instance list_memory.
#[local] Existing Instance demo_primitives.
#[local] Existing Instance demo_codecs.
#[local] Existing Instance demo_host.
#[local] Existing Instance no_json.
#[local] Existing Instance demo_json_errors.
#[local] Existing Instance demo_bech32_errors.

Lemma host_functions_are_well_typed_witness :
  exists vm' r,
    invoke_index (Mem := bytes) demo_db_km 1 (fun _ _ => None) 0 [16%Z] (demo_vm OpHandle) = Some (vm', r) /\
    typed_as (Some I32) r.
Proof.
  destruct (invoke_index (Mem := bytes) demo_db_km 1 (fun _ _ => None) 0 [16%Z] (demo_vm OpHandle))
    as [[vm' r]|] eqn:E; [|vm_compute in E; discriminate].
  exists vm', r. split; [reflexivity|].
  exact (host_functions_are_well_typed (Mem := bytes) demo_db_km 1 (fun _ _ => None) "db_read"
           (mkSignature [I32] (Some I32)) 0 [16%Z] (demo_vm OpHandle) vm' r eq_refl eq_refl E).
Defined.
