(* ===== verification/WasmerInstance.v ===== *)
(** * Instances of the wasmer engine: cosmwasm/packages/sgx-vm/src

    The rest of the engine of WasmerHost.v: middleware/deterministic.rs, the backends, the cache
    of compiled modules of modules.rs, and the parts of instance.rs and calls.rs that run a
    contract on the host.  Wasmer, its operators and artifacts, is a parameter. *)

From Stdlib Require Import Strings.String.
From stdpp Require Import base tactics list numbers strings gmap ssreflect.
From S2P Require Import Prelude Utf8 Math Storage Std Querying Crypto SgxVm WasmerHost WasmCheck.

Local Open Scope string_scope.
Local Open Scope list_scope.
Local Open Scope Z_scope.

(** ** middleware/deterministic.rs *)

(** An operator of wasmparser: the name of its variant and its debug text. *)
Record Operator : Type := mkOperator { variant : string; operator_debug : string }.

(** Events of the compiler; the others carry no operator. *)
Inductive Event : Type :=
| Wasm (op : Operator)
| WasmOwned (op : Operator)
| OtherEvent (debug : string).

Definition WHITELIST : list string :=
  ["Unreachable"; "Nop"; "Block"; "Loop"; "If"; "Else"; "End"; "Br"; "BrIf"; "BrTable"; "Return"; "Call";
   "CallIndirect"; "Drop"; "Select"; "LocalGet"; "LocalSet"; "LocalTee"; "GlobalGet"; "GlobalSet";
   "I32Load"; "I64Load"; "I32Load8S"; "I32Load8U"; "I32Load16S"; "I32Load16U"; "I64Load8S"; "I64Load8U";
   "I64Load16S"; "I64Load16U"; "I64Load32S"; "I64Load32U"; "I32Store"; "I64Store"; "I32Store8";
   "I32Store16"; "I64Store8"; "I64Store16"; "I64Store32"; "MemorySize"; "MemoryGrow"; "I32Const"; "I64Const";
   "I32Eqz"; "I32Eq"; "I32Ne"; "I32LtS"; "I32LtU"; "I32GtS"; "I32GtU"; "I32LeS"; "I32LeU"; "I32GeS"; "I32GeU";
   "I64Eqz"; "I64Eq"; "I64Ne"; "I64LtS"; "I64LtU"; "I64GtS"; "I64GtU"; "I64LeS"; "I64LeU"; "I64GeS"; "I64GeU";
   "I32Clz"; "I32Ctz"; "I32Popcnt"; "I32Add"; "I32Sub"; "I32Mul"; "I32DivS"; "I32DivU"; "I32RemS"; "I32RemU";
   "I32And"; "I32Or"; "I32Xor"; "I32Shl"; "I32ShrS"; "I32ShrU"; "I32Rotl"; "I32Rotr";
   "I64Clz"; "I64Ctz"; "I64Popcnt"; "I64Add"; "I64Sub"; "I64Mul"; "I64DivS"; "I64DivU"; "I64RemS"; "I64RemU";
   "I64And"; "I64Or"; "I64Xor"; "I64Shl"; "I64ShrS"; "I64ShrU"; "I64Rotl"; "I64Rotr"; "I32WrapI64";
   "I32Extend8S"; "I32Extend16S"; "I64Extend8S"; "I64Extend16S"; "I64ExtendI32S"; "I64ExtendI32U"].

(** [CompileError::ValidationError], by its message. *)
Definition parse_wasm_opcode (opcode : Operator) : result string unit :=
  if bool_decide (variant opcode ∈ WHITELIST) then Ok tt
  else Err ("non-deterministic opcode: " +:+ operator_debug opcode).

(** The middleware has no state; the sink is what the next one gets. *)
Definition feed_event (event : Event) : M (list Event) string unit :=
  _ ← liftR (match event with
             | Wasm op => parse_wasm_opcode op
             | WasmOwned op => parse_wasm_opcode op
             | OtherEvent _ => Ok tt
             end);
  modifyS (fun sink => sink ++ [event]).

(** The compiler feeds a function body event by event and stops at an error. *)
Fixpoint feed_events (events : list Event) : M (list Event) string unit :=
  match events with
  | [] => mret tt
  | e :: es => _ ← feed_event e; feed_events es
  end.

(** ** backends *)

Definition singlepass_backend : string := "singlepass".
Definition cranelift_backend : string := "cranelift".
Definition FAKE_GAS_AVAILABLE : Z := 1_000_000.

(** The compilers of wasmer, singlepass with its chain of middlewares: the whitelist and the
    metering with its limit.  The features say which of them is compiled in. *)
Inductive Middleware : Type := Deterministic | Metering (limit : Z).
Inductive Compiler : Type := CraneliftCompiler | SinglepassCompiler (chain : list Middleware).

Definition singlepass_compiler : Compiler := SinglepassCompiler [Deterministic; Metering MAX_GAS_LIMIT].

Definition compiler_for_backend (cranelift singlepass : bool) (backend : string) : option Compiler :=
  if bool_decide (backend = "cranelift") && cranelift then Some CraneliftCompiler
  else if bool_decide (backend = "singlepass") && singlepass then Some singlepass_compiler
  else None.

(** ** modules.rs *)

Section Modules.
Context {Module : Type}.
(** Wasmer's artifacts: [Module::cache] and [serialize] in one, [Artifact::deserialize], and
    [load_cache_with]; errors by their debug text. *)
Variable artifact : Module -> result string bytes.
Variable Artifact : Type.
Variable deserialize : bytes -> result string Artifact.
Variable load_cache_with : Artifact -> Compiler -> result string Module.
Variable backend_of : Module -> string.
Variable to_hex : bytes -> string.
(** The features and the backend of the build. *)
Variables (cranelift singlepass : bool) (backend : string).

(** What the path is before the cache is made: the outcomes of [exists], [metadata] and
    [create_dir_all]. *)
Inductive PathState : Type :=
| Missing (create_error : option string)
| MetadataFails (e : string)
| IsFile
| IsDir (readonly : bool).

Inductive IoError : Type := PermissionDenied (msg : string) | OtherIo (msg : string).

Definition file_cache_new (path : string) (p : PathState) : result IoError unit :=
  match p with
  | MetadataFails e => Err (OtherIo e)
  | IsDir false => Ok tt
  | IsDir true => Err (PermissionDenied ("the supplied path is readonly: " +:+ path))
  | IsFile => Err (PermissionDenied ("the supplied path already points to a file: " +:+ path))
  | Missing (Some e) => Err (OtherIo e)
  | Missing None => Ok tt
  end.

(** The files below the path, by backend and name. *)
Abbreviation ModuleDisk := (gmap (string * string) bytes).

Inductive ModuleRead : Type := ModuleOpenFails (e : string) | MmapFails (e : string) | Mapped.

Definition load_with_backend (o : ModuleRead) (checksum : bytes) (backend : string) (disk : ModuleDisk) : VmResult Module :=
  mmap ← match o, disk !! (backend, to_hex checksum) with
         | ModuleOpenFails e, _ => Err (CacheErr ("Error opening module file: " +:+ e))
         | _, None => Err (CacheErr "Error opening module file: No such file or directory (os error 2)")
         | MmapFails e, Some _ => Err (CacheErr ("Mmap error: " +:+ e))
         | Mapped, Some data => Ok data
         end;
  serialized_cache ← map_err vm_error_of_cache (deserialize mmap);
  compiler ← ok_or (CacheErr ("Unsupported backend: " +:+ backend)) (compiler_for_backend cranelift singlepass backend);
  map_err vm_error_of_cache (load_cache_with serialized_cache compiler).

Definition load (o : ModuleRead) (checksum : bytes) (disk : ModuleDisk) : VmResult Module :=
  load_with_backend o checksum backend disk.

(** [File::create] truncates. *)
Definition store (mkdir : option string) (o : WriteOutcome) (checksum : bytes) (module : Module) (disk : ModuleDisk)
  : ModuleDisk * VmResult unit :=
  let file := (backend_of module, to_hex checksum) in
  match mkdir with
  | Some e => (disk, Err (CacheErr ("Error creating direcory: " +:+ e)))
  | None =>
      match artifact module, o with
      | Ok _, OpenFails e => (disk, Err (CacheErr ("Error creating module file: " +:+ e)))
      | Ok buffer, WriteFails n e => (<[file := take n buffer]> disk, Err (CacheErr ("Error writing module to disk: " +:+ e)))
      | Ok buffer, Written => (<[file := buffer]> disk, Ok tt)
      | Err e, _ => (disk, Err (vm_error_of_cache e))
      | Panic, _ => (disk, Panic)
      end
  end.

End Modules.

(** ** features.rs *)

Definition required_features_from_wasmer_instance (exports : list ExportEntry) : gset string :=
  list_to_set (omap required_feature exports).

(** ** memory.rs: the size of the memory *)

(** Numbers of pages, as wasmer reports them for [memory(0)]. *)
Record MemoryDescriptor : Type := mkMemoryDescriptor { minimum : Z; maximum : option Z; shared : bool }.
Record MemoryInfo : Type := mkMemoryInfo { descriptor : MemoryDescriptor; size : Z }.

Definition WASM_PAGE_SIZE : Z := 64 * 1024.

Section MemorySize.
Context {Mem S Q I : Type}.
Variable descriptor_of : Mem -> Z * option Z * bool.
Variable pages_of : Mem -> Z.

Definition get_memory_info (ctx : @Ctx Mem S Q I) : MemoryInfo :=
  let '(least, most, is_shared) := descriptor_of (memory ctx) in
  mkMemoryInfo (mkMemoryDescriptor least most is_shared) (pages_of (memory ctx)).

(** [u64] arithmetic. *)
Definition get_memory_size (ctx : @Ctx Mem S Q I) : VmResult Z :=
  arith U64_MAX (size (get_memory_info ctx) * WASM_PAGE_SIZE).

(** A number of pages that fits a [u32] is a number of bytes that fits a [u64]. *)
Lemma memory_size_fits ctx :
  0 <= pages_of (memory ctx) <= U32_MAX -> get_memory_size ctx = Ok (pages_of (memory ctx) * WASM_PAGE_SIZE).
Proof.
  intros Hp. unfold get_memory_size, get_memory_info. destruct (descriptor_of (memory ctx)) as [[? ?] ?]. cbn [size].
  apply arith_in_range. unfold WASM_PAGE_SIZE, U32_MAX, U64_MAX in *. lia.
Qed.
End MemorySize.

(** ** instance.rs and calls.rs *)

Section Instances.
Context {Mem S Q I R A : Type} `{WM : WasmerMemory Mem} `{HS : VmStorage S} `{HQ : VmQuerier Q R}.
#[local] Abbreviation Ctx := (@Ctx Mem S Q I).
#[local] Abbreviation W A := (M Ctx VmError A).
Variable exports : string -> nat -> nat -> result string (list Z -> M Ctx RuntimeError Z).
Variable serialize_error : VmError.
Variables (canonical_address : string -> FfiResult bytes) (human_address : bytes -> FfiResult string).
Variable st_range : S -> option bytes -> option bytes -> Order -> FfiResult I.
Variable it_next : I -> I * FfiResult (option KV).
Variable iterator : bool.

Record WasmerInstance : Type := mkWasmerInstance {
  wasmer_inner : Ctx;
  wasmer_api : A;
  required_features : gset string
}.

(** What an import returns to the contract: a number or nothing. *)
Definition returns_u32 (m : W Z) : option (W (option Z)) := Some (r ← m; mret (Some r)).
Definition returns_nothing (m : W unit) : option (W (option Z)) := Some (_ ← m; mret None).

(** The functions of the module env; [None] where there is none of that name and type. *)
Definition import_obj (name : string) (args : list Z) : option (W (option Z)) :=
  match args with
  | [ptr] =>
      if bool_decide (name = "db_read") then returns_u32 (do_read exports ptr)
      else if bool_decide (name = "db_remove") then returns_nothing (do_remove ptr)
      else if bool_decide (name = "query_chain") then returns_u32 (do_query_chain exports serialize_error ptr)
      else if iterator && bool_decide (name = "db_next") then returns_u32 (do_next exports it_next ptr)
      else None
  | [a; b] =>
      if bool_decide (name = "db_write") then returns_nothing (do_write a b)
      else if bool_decide (name = "canonicalize_address") then returns_u32 (do_canonicalize_address exports canonical_address a b)
      else if bool_decide (name = "humanize_address") then returns_u32 (do_humanize_address exports human_address a b)
      else None
  | [start_ptr; end_ptr; order] =>
      if iterator && bool_decide (name = "db_scan") then returns_u32 (do_scan st_range start_ptr end_ptr order) else None
  | _ => None
  end.

Definition from_wasmer (instance : Ctx) (entries : list ExportEntry) (storage : S) (api : A) (querier : Q) (gas_limit : Z)
  : VmResult WasmerInstance :=
  let (c, r) :=
    (_ ← set_gas_left gas_limit;
     _ ← modifyS (fun c => set_gas_state (set_gas_limit (gas_state c) gas_limit) c);
     _ ← modifyS (set_wasmer_instance true);
     modifyS (fun c => set_data (move_into_context (data c) storage querier) c)) instance in
  _ ← r; Ok (mkWasmerInstance c api (required_features_from_wasmer_instance entries)).

(** [instantiate] is wasmer's, on the context that [setup_context] makes; the memory is the
    module's. *)
Definition from_module (memory : Mem) (instantiate : Ctx -> result string Ctx) (entries : list ExportEntry)
    (storage : S) (api : A) (querier : Q) (gas_limit : Z) : VmResult WasmerInstance :=
  instance ← map_err (fun original => InstantiationErr ("Error instantiating module: " +:+ original))
               (instantiate (setup_context memory gas_limit));
  from_wasmer instance entries storage api querier gas_limit.

Definition create_gas_report (c : Ctx) : GasReport :=
  let gas_left := get_gas_left c in
  mkGasReport (gas_limit (gas_state c)) gas_left (externally_used_gas (gas_state c))
    (get_gas_used_in_wasmer (gas_state c) gas_left).

Definition func (name : string) (args rets : nat) : W (list Z -> M Ctx RuntimeError Z) :=
  liftR (map_err vm_error_of_resolve (exports name args rets)).

Definition allocate (size : Z) : W Z :=
  alloc ← func "allocate" 1 1;
  size ← liftR (to_u32 size);
  ptr ← called (alloc [size]);
  if ptr =? 0 then liftR (Err (CommunicationErr ZeroAddress)) else mret ptr.

Definition deallocate (ptr : Z) : W unit :=
  dealloc ← func "deallocate" 1 0;
  _ ← called (dealloc [ptr]);
  mret tt.

Definition read_memory (region_ptr max_length : Z) : W bytes := read_from region_ptr max_length.
Definition write_memory (region_ptr : Z) (data : bytes) : W unit := write_at region_ptr data.

Fixpoint pass_args (args : list bytes) : W (list Z) :=
  match args with
  | [] => mret []
  | arg :: args' =>
      region_ptr ← allocate (Z.of_nat (length arg));
      _ ← write_memory region_ptr arg;
      ptrs ← pass_args args';
      mret (region_ptr :: ptrs)
  end.

Definition call_raw (name : string) (args : list bytes) (result_max_length : Z) : W bytes :=
  arg_region_ptrs ← pass_args args;
  res_region_ptr ←
    match length args with
    | 1%nat => f ← func name 1 1; called (f arg_region_ptrs)
    | 2%nat => f ← func name 2 1; called (f arg_region_ptrs)
    | _ => liftR Panic
    end;
  data ← read_memory res_region_ptr result_max_length;
  _ ← deallocate res_region_ptr;
  mret data.

End Instances.

(** ** Properties *)

Definition event_allowed (e : Event) : Prop :=
  match e with Wasm op => variant op ∈ WHITELIST | WasmOwned op => variant op ∈ WHITELIST | OtherEvent _ => True end.

Lemma feed_event_allowed e sink :
  event_allowed e -> feed_event e sink = (sink ++ [e], Ok tt).
Proof. unfold feed_event, parse_wasm_opcode. cbv [mbind M_bind liftR modifyS]. destruct e; cbn; intros; by rw ?bool_decide_true. Qed.

Lemma feed_event_refused e sink :
  ~ event_allowed e -> exists op, (e = Wasm op \/ e = WasmOwned op) /\
    feed_event e sink = (sink, Err ("non-deterministic opcode: " +:+ operator_debug op)).
Proof.
  unfold feed_event, parse_wasm_opcode. cbv [mbind M_bind liftR modifyS].
  destruct e as [op|op|]; cbn; intros H; [..|by destruct H]; exists op; rw bool_decide_false; auto.
Qed.

#[export] Instance event_allowed_dec e : Decision (event_allowed e).
Proof. destruct e; cbn; apply _. Defined.

(** The middleware passes a function body on unchanged when all its operators are on the list;
    otherwise it stops at the first that is not, having passed on what comes before it.  No
    operator of the list works on floats, vectors or shared memory. *)
Theorem only_listed_operators_compile events :
  match list_find (fun e => ~ event_allowed e) events with
  | None => feed_events events [] = (events, Ok tt)
  | Some (n, e) => exists op, (e = Wasm op \/ e = WasmOwned op) /\
      feed_events events [] = (take n events, Err ("non-deterministic opcode: " +:+ operator_debug op))
  end /\
  Forall (fun name => Forall (fun family => String.index 0 family name = None) ["F32"; "F64"; "V128"; "Atomic"]) WHITELIST.
Proof.
  split; [|match goal with |- ?P => refine (bool_decide_unpack P _) end; by vm_compute].
  enough (forall sink, match list_find (fun e => ~ event_allowed e) events with
    | None => feed_events events sink = (sink ++ events, Ok tt)
    | Some (n, e) => exists op, (e = Wasm op \/ e = WasmOwned op) /\
        feed_events events sink = (sink ++ take n events, Err ("non-deterministic opcode: " +:+ operator_debug op))
    end) as H by apply (H []).
  induction events as [|e es IH]; intros sink; cbn [list_find]; [by rw app_nil_r|].
  cbn [feed_events]. cbv [mbind M_bind]. destruct (decide (event_allowed e)) as [He|He].
  - rw decide_False; [|tauto]. rw feed_event_allowed; [|done]. specialize (IH (sink ++ [e])).
    destruct (list_find _ es) as [[n e']|]; cbn; rw -app_assoc in IH; exact IH.
  - rw decide_True; [|done]. destruct (feed_event_refused e sink He) as (op & Ho & ->). exists op. cbn. by rw app_nil_r.
Qed.

(** A module that was stored is loaded again by a cache of the same backend, whatever was
    there before, and modules stored under other names stay as they are. *)
Theorem stored_module_is_loaded {Module Artifact} (artifact : Module -> result string bytes)
    (deserialize : bytes -> result string Artifact) (load_cache_with : Artifact -> Compiler -> result string Module) backend_of to_hex cranelift singlepass backend
    compiler a checksum module buffer disk disk' :
  artifact module = Ok buffer -> deserialize buffer = Ok a -> load_cache_with a compiler = Ok module ->
  compiler_for_backend cranelift singlepass backend = Some compiler -> backend_of module = backend ->
  store artifact backend_of to_hex None Written checksum module disk = (disk', Ok tt) ->
  load Artifact deserialize load_cache_with to_hex cranelift singlepass backend Mapped checksum disk' = Ok module /\
  forall file, file <> (backend, to_hex checksum) -> disk' !! file = disk !! file.
Proof.
  intros Ha Hd Hl Hc Hb. unfold store. rw Ha. intros [= <-]. rw Hb. split.
  - unfold load, load_with_backend. rw lookup_insert_eq. cbn. rw Hd. cbn. rw Hc. cbn. by rw Hl.
  - intros file Hf. by rw lookup_insert_ne.
Qed.

(** A truncated file is not repaired by reading it: a store that fails half-way leaves a file
    that load hands to wasmer. *)
Theorem interrupted_store_is_read {Module Artifact} (artifact : Module -> result string bytes)
    (deserialize : bytes -> result string Artifact) (load_cache_with : Artifact -> Compiler -> result string Module) backend_of to_hex cranelift singlepass
    checksum module buffer n e disk :
  artifact module = Ok buffer ->
  let r := store artifact backend_of to_hex None (WriteFails n e) checksum module disk in
  r.2 = Err (CacheErr ("Error writing module to disk: " +:+ e)) /\
  load Artifact deserialize load_cache_with to_hex cranelift singlepass (backend_of module) Mapped checksum r.1 =
  (serialized ← map_err vm_error_of_cache (deserialize (take n buffer));
   compiler ← ok_or (CacheErr ("Unsupported backend: " +:+ backend_of module))
                (compiler_for_backend cranelift singlepass (backend_of module));
   map_err vm_error_of_cache (load_cache_with serialized compiler)).
Proof.
  intros Ha. unfold store. rw Ha. cbn. split; [done|]. unfold load, load_with_backend. by rw lookup_insert_eq.
Qed.

Section InstanceFacts.
Context {Mem S Q I R A : Type} `{WM : WasmerMemory Mem} `{HS : VmStorage S} `{HQ : VmQuerier Q R}.
#[local] Abbreviation Ctx := (@Ctx Mem S Q I).
#[local] Abbreviation W A := (M Ctx VmError A).

(** A new instance has its whole limit before it; a limit above the metering's maximum panics. *)
Theorem fresh_instance_has_its_limit (c : Ctx) entries storage (api : A) querier limit :
  0 <= limit ->
  from_wasmer c entries storage api querier limit =
  (if decide (limit <= MAX_GAS_LIMIT)
   then Ok (mkWasmerInstance
              (mkCtx (memory c) (MAX_GAS_LIMIT - limit) true (mkGasState limit (externally_used_gas (gas_state c)))
                 (move_into_context (data c) storage querier))
              api (required_features_from_wasmer_instance entries))
   else Panic) /\
  forall i, externally_used_gas (gas_state c) = 0 -> from_wasmer c entries storage api querier limit = Ok i ->
    gas_ok (wasmer_inner i) /\ create_gas_report (wasmer_inner i) = mkGasReport limit limit 0 0.
Proof.
  intros H0.
  assert (from_wasmer c entries storage api querier limit =
    (if decide (limit <= MAX_GAS_LIMIT)
     then Ok (mkWasmerInstance
                (mkCtx (memory c) (MAX_GAS_LIMIT - limit) true (mkGasState limit (externally_used_gas (gas_state c)))
                   (move_into_context (data c) storage querier))
                api (required_features_from_wasmer_instance entries))
     else Panic)) as E.
  { unfold from_wasmer, set_gas_left. cbv [mbind M_bind].
    destruct (Z.ltb_spec MAX_GAS_LIMIT limit); [by rw decide_False; [|lia]|]. by rw decide_True; [|lia]. }
  split; [done|]. intros i He Hi. rw E in Hi. destruct (decide _) as [Hm|]; [|done]. injection Hi as <-.
  assert (WasmerHost.get_gas_left (mkCtx (memory c) (MAX_GAS_LIMIT - limit) true (mkGasState limit (externally_used_gas (gas_state c)))
            (move_into_context (data c) storage querier)) = limit) as Hl.
  { unfold WasmerHost.get_gas_left, saturating_sub. cbn [points_used]. lia. }
  split.
  - split_and!; cbn [linked points_used gas_state externally_used_gas gas_limit wasmer_inner]; [done|lia|lia|lia|].
    rw Hl. lia.
  - unfold create_gas_report. cbn [wasmer_inner]. rw Hl. cbn. rw He. unfold get_gas_used_in_wasmer, saturating_sub. cbn.
    f_equal. lia.
Qed.

(** While the budget is sound a gas report accounts for the whole limit. *)
Theorem gas_report_balances (c : Ctx) :
  gas_ok c ->
  let r := create_gas_report c in
  limit r = remaining r + report_externally r + used_internally r /\ 0 <= used_internally r.
Proof.
  intros (_ & Hp & He & Hm & Hb). cbn. pose proof (gas_left_range c Hp).
  unfold get_gas_used_in_wasmer, saturating_sub. lia.
Qed.

(** ** A query writes nothing *)

Variable exports : string -> nat -> nat -> result string (list Z -> M Ctx RuntimeError Z).

(** What a computation leaves alone in a read-only context. *)
Definition keeps_storage {E T} (m : M Ctx E T) : Prop := forall c,
  storage_readonly (data c) = true ->
  storage_readonly (data (m c).1) = true /\ ctx_storage (data (m c).1) = ctx_storage (data c).

Lemma keeps_bind {E T U} (m : M Ctx E T) (f : T -> M Ctx E U) :
  keeps_storage m -> (forall a, keeps_storage (f a)) -> keeps_storage (a ← m; f a).
Proof.
  intros Hm Hf c Hc. specialize (Hm c Hc). cbv [mbind M_bind]. destruct (m c) as [c1 [a| |]]; [|done..].
  cbn in Hm. destruct Hm as [H1 H2]. destruct (Hf a c1 H1) as [H3 H4]. by rw H3 H4.
Qed.
Lemma keeps_lift {E T} (r : result E T) : keeps_storage (liftR r).
Proof. by intros c Hc. Qed.
Lemma keeps_read {E T} (f : Ctx -> result E T) : keeps_storage (readS f).
Proof. by intros c Hc. Qed.
Lemma keeps_ret {E T} (a : T) : keeps_storage (mret a : M Ctx E T).
Proof. by intros c Hc. Qed.
Lemma keeps_modify {E} f : (forall c, data (f c) = data c) -> keeps_storage (modifyS f : M Ctx E unit).
Proof. intros Hf c Hc. cbn. by rw Hf. Qed.
Lemma keeps_called {T} (m : M Ctx RuntimeError T) : keeps_storage m -> keeps_storage (called m).
Proof. intros Hm c Hc. specialize (Hm c Hc). unfold called. by destruct (m c). Qed.

Create HintDb keeps.
#[local] Hint Resolve keeps_lift keeps_read keeps_ret keeps_called : keeps.
#[local] Hint Extern 1 (keeps_storage (modifyS _)) => apply keeps_modify; intros []; reflexivity : keeps.
#[local] Hint Extern 2 (keeps_storage (mbind _ _)) => apply keeps_bind; [|intros] : keeps.
#[local] Hint Extern 3 (keeps_storage (if ?b then _ else _)) => destruct b : keeps.
#[local] Hint Extern 3 (keeps_storage (match ?b with _ => _ end)) => destruct b : keeps.
Ltac keeps := unfold ffi, read_from, with_querier; auto 20 with keeps.

Lemma keeps_set_gas a : keeps_storage (set_gas_left a : W unit).
Proof. unfold set_gas_left. keeps. Qed.
#[local] Hint Resolve keeps_set_gas : keeps.

Lemma keeps_gas info : keeps_storage (process_gas_info info : W unit).
Proof. unfold process_gas_info, decrease_gas_left, account_for_externally_used_gas. keeps. Qed.
#[local] Hint Resolve keeps_gas : keeps.

Lemma keeps_write_at ptr d : keeps_storage (write_at ptr d : W unit).
Proof. unfold write_at. keeps. Qed.
#[local] Hint Resolve keeps_write_at : keeps.

(** The contract's allocate does not touch the host's storage, and get only reads. *)
Hypothesis allocate_keeps : forall f args, exports "allocate" 1%nat 1%nat = Ok f -> keeps_storage (f args).
Hypothesis get_reads : forall (s : S) key, (st_get s key).1 = s.

Lemma keeps_write_to_contract d : keeps_storage (write_to_contract exports d).
Proof.
  unfold write_to_contract, with_func_from_context. apply keeps_bind; [|keeps].
  apply keeps_bind; [keeps|]. intros []; cbn [negb]; [|keeps].
  destruct (exports "allocate" 1%nat 1%nat) as [f|e|] eqn:E; cbn [map_err].
  - intros c Hc. apply (keeps_bind (liftR (to_u32 (Z.of_nat (length d))))); [keeps| |done]. intros n.
    apply keeps_bind; [apply keeps_called; eauto|keeps].
  - by intros c Hc.
  - by intros c Hc.
Qed.
#[local] Hint Resolve keeps_write_to_contract : keeps.

Lemma keeps_answer dst r : keeps_storage (answer_address exports dst r).
Proof. unfold answer_address. apply keeps_bind; [keeps|]. intros _. destruct r as [[|[]|] info]; cbn; keeps. Qed.
#[local] Hint Resolve keeps_answer : keeps.

Lemma keeps_with_storage {T} (func : S -> S * VmResult T) :
  (forall s, (func s).1 = s) -> keeps_storage (with_storage func : W T).
Proof.
  intros Hf c Hc. unfold with_storage, with_storage_from_context.
  destruct (ctx_storage (data c)) as [s|] eqn:Es; [|by cbn; rw Es]. specialize (Hf s). destruct (func s) as [s' r].
  cbn in *. by subst.
Qed.

Lemma keeps_do_read ptr : keeps_storage (do_read exports ptr).
Proof.
  unfold do_read, read_from. apply keeps_bind; [keeps|]. intros key. apply keeps_bind.
  - apply keeps_with_storage. intros s. specialize (get_reads s key). by destruct (st_get s key).
  - keeps.
Qed.

Lemma keeps_refused {T} (m : W T) :
  keeps_storage (readonly ← readS (fun c => Ok (is_storage_readonly c)); if readonly : bool then liftR (Err WriteAccessDenied) else m).
Proof. intros c Hc. cbv [mbind M_bind readS is_storage_readonly]. by rw Hc. Qed.

Variable serialize_error : VmError.
Variables (canonical_address : string -> FfiResult bytes) (human_address : bytes -> FfiResult string).
Variable st_range : S -> option bytes -> option bytes -> Order -> FfiResult I.
Variable it_next : I -> I * FfiResult (option KV).

Lemma keeps_scan a b o : keeps_storage (do_scan st_range a b o).
Proof.
  unfold do_scan. do 3 (apply keeps_bind; [keeps|]; intros ?). apply keeps_bind; [by apply keeps_with_storage|].
  intros p. do 2 (apply keeps_bind; [keeps|]; intros ?).
  intros c Hc. cbv [mbind M_bind readS modifyS mret M_ret].
  unfold add_iterator. destruct (_ <? _); [done|]. destruct (arith _ _); [|done..].
  cbn [mbind result_bind]. by destruct (_ <? _).
Qed.

Lemma keeps_next id : keeps_storage (do_next exports it_next id).
Proof.
  unfold do_next. apply keeps_bind; [|keeps].
  intros c Hc. unfold with_iterator_from_context. destruct (_ !! id) as [i|]; [|done].
  by destruct (it_next i).
Qed.
#[local] Hint Resolve keeps_do_read keeps_scan keeps_next : keeps.

(** Whatever functions of the host a contract calls during a query, the storage behind the
    context is what it was. *)
Theorem query_imports_keep_storage iterator name args m :
  import_obj exports serialize_error canonical_address human_address st_range it_next iterator name args = Some m ->
  keeps_storage m.
Proof.
  unfold import_obj, returns_u32, returns_nothing.
  destruct args as [|a [|b [|d [|]]]]; try done; repeat (case_match; try done); intros [= <-];
    (apply keeps_bind; [|keeps]); keeps.
  all: unfold do_remove, do_write, do_query_chain, do_canonicalize_address, do_humanize_address, ffi, read_from, with_querier.
  all: first [apply keeps_refused|keeps].
Qed.
End InstanceFacts.
