(* ===== verification/HostMocks.v ===== *)
(** * The backend of the host's tests: cosmwasm/packages/sgx-vm/src/testing

    mock.rs, querier.rs, storage.rs and instance.rs: the storage, the API and the querier that
    contracts are tested with on the host, which meter gas as a chain does, and the instances
    made of them.  They wrap the mocks of the standard library (Querying.v). *)

From Stdlib Require Import Strings.String.
From stdpp Require Import base tactics list numbers strings gmap ssreflect.
From S2P Require Import Prelude Utf8 Math Storage Typed Std Querying Crypto SgxVm EnclaveDb Runtime WasmCheck.

Local Open Scope string_scope.
Local Open Scope list_scope.
Local Open Scope Z_scope.

(** ** testing/storage.rs: iterators *)

Definition GAS_COST_LAST_ITERATION : Z := 37.
Definition GAS_COST_RANGE : Z := 11.

(** What the Rust iterator still yields, with the gas of each entry. *)
Record MockIterator : Type := mkIterator { source : list (KV * Z) }.

Definition empty_iterator : MockIterator := mkIterator [].

Definition iterator_next (i : MockIterator) : MockIterator * FfiResult (option KV) :=
  match source i with
  | (kv, gas_used) :: rest => (mkIterator rest, (Ok (Some kv), with_externally_used gas_used))
  | [] => (i, (Ok None, with_externally_used GAS_COST_LAST_ITERATION))
  end.

(** [StorageIterator::elements] of traits.rs: the loop, with the number of its rounds. *)
Fixpoint elements {I} (next : I -> I * FfiResult (option KV)) (fuel : nat) (i : I) (out : list KV)
  : option (result FfiError (list KV)) :=
  match fuel with
  | O => None
  | S fuel' =>
      let (i', r) := next i in
      match r.1 with
      | Ok (Some kv) => elements next fuel' i' (out ++ [kv])
      | Ok None => Some (Ok out)
      | Err err => Some (Err err)
      | Panic => Some Panic
      end
  end.

Definition entry_gas (item : KV) : Z := Z.of_nat (length item.1 + length item.2).

Definition mock_range (s : MemoryStorage) (start end_ : option bytes) (order : Order) : FfiResult MockIterator :=
  let gas_info := with_externally_used GAS_COST_RANGE in
  if start_above_end start end_ then (Ok empty_iterator, gas_info)
  else
    let original_iter := btree_range (Storage.data s) start end_ in
    let with_gas item := (item, entry_gas item) in
    (Ok (mkIterator (with_gas <$> match order with
                                  | Ascending => original_iter
                                  | Descending => reverse original_iter
                                  end)), gas_info).

(** ** testing/mock.rs *)

Definition GAS_COST_HUMANIZE : Z := 44.
Definition GAS_COST_CANONICALIZE : Z := 55.

Record MockApi : Type := mkMockApi { canonical_length : nat; api_backend_error : option string }.

Definition mock_api_new (canonical_length : nat) : MockApi := mkMockApi canonical_length None.
Definition mock_api_new_failing (canonical_length : nat) (backend_error : string) : MockApi :=
  mkMockApi canonical_length (Some backend_error).
Definition mock_api_default : MockApi := mock_api_new 20.

Definition mock_canonical_address (a : MockApi) (human : HumanAddr) : FfiResult CanonicalAddr :=
  (match api_backend_error a with
   | Some backend_error => Err (FfiUnknown (Some backend_error))
   | None =>
       if (String.length human <? 3)%nat then Err (UserErr "Invalid input: human address too short")
       else if (canonical_length a <? String.length human)%nat then Err (UserErr "Invalid input: human address too long")
       else
         let out := lit human in
         let append := (canonical_length a - length out)%nat in
         Ok (if (0 <? append)%nat then out ++ replicate append Byte.x00 else out)
   end, with_cost GAS_COST_CANONICALIZE).

Definition mock_human_address (a : MockApi) (canonical : CanonicalAddr) : FfiResult HumanAddr :=
  (match api_backend_error a with
   | Some backend_error => Err (FfiUnknown (Some backend_error))
   | None =>
       if negb (length canonical =? canonical_length a)%nat
       then Err (UserErr "Invalid input: canonical address length not correct")
       else
         let trimmed := List.filter (fun x => negb (bool_decide (x = Byte.x00))) canonical in
         if Text.from_utf8 trimmed then Ok (string_of_list_byte trimmed) else Err FfiInvalidUtf8
   end, with_cost GAS_COST_HUMANIZE).

Definition vm_mock_env (sender : HumanAddr) (sent : list Coin) : Env :=
  mkEnv (mkBlock 12345 1571797419 "cosmos-testnet-14002") (mkMessage sender sent)
        (mkContract MOCK_CONTRACT_ADDR) (Some "") "".

(** ** testing/querier.rs *)

Definition GAS_COST_QUERY_FLAT : Z := 100_000.
Definition GAS_COST_QUERY_REQUEST_MULTIPLIER : Z := 0.
Definition GAS_COST_QUERY_RESPONSE_MULTIPLIER : Z := 100.

Section MockQuerying.
Context {C : Type} `{HQ : Serde (QueryRequest C)} `{HR : Serde QuerierResult}.
Context `{Serde BalanceResponse} `{Serde AllBalanceResponse} `{Serde BondedDenomResponse}.
Context `{Serde ValidatorsResponse} `{Serde AllDelegationsResponse} `{Serde DelegationResponse}.
Context `{Serde UnbondingDelegationsResponse} `{Serde RewardsResponse}.

(** The wrapper has one field. *)
Record VmMockQuerier : Type := mkVmQuerier { std_querier : MockQuerier.MockQuerier C }.

Definition vm_querier_new (balances : list (HumanAddr * list Coin)) : VmMockQuerier :=
  mkVmQuerier (MockQuerier.new balances).
Definition vm_update_balance (q : VmMockQuerier) (addr : HumanAddr) (balance : list Coin) : VmMockQuerier * option (list Coin) :=
  let (q', old) := MockQuerier.update_balance (std_querier q) addr balance in (mkVmQuerier q', old).
Definition vm_update_staking (q : VmMockQuerier) (denom : string) (validators : list Validator)
    (delegations : list FullDelegation) : VmMockQuerier :=
  mkVmQuerier (MockQuerier.update_staking (std_querier q) denom validators delegations).
Definition vm_with_custom_handler (q : VmMockQuerier) (handler : C -> QuerierResult) : VmMockQuerier :=
  mkVmQuerier (MockQuerier.with_custom_handler (std_querier q) handler).

(** The arithmetic is that of [u64]; a response that cannot be encoded panics, and so does a
    panic of the inner querier. *)
Definition response_gas (bin_request : bytes) (response : QuerierResult) : result FfiError Z :=
  encoded ← unwrap (to_binary response);
  a ← arith U64_MAX (GAS_COST_QUERY_REQUEST_MULTIPLIER * Z.of_nat (length bin_request));
  b ← arith U64_MAX (GAS_COST_QUERY_RESPONSE_MULTIPLIER * Z.of_nat (length encoded));
  ab ← arith U64_MAX (GAS_COST_QUERY_FLAT + a);
  arith U64_MAX (ab + b).

Definition vm_query_raw (q : VmMockQuerier) (bin_request : bytes) (gas_limit : Z) : FfiResult QuerierResult :=
  let response := MockQuerier.raw (std_querier q) bin_request in
  match response with
  | Panic => (Panic, free_gas)
  | _ =>
      match response_gas bin_request response with
      | Ok externally_used =>
          let gas_info := with_externally_used externally_used in
          if gas_limit <? externally_used then (Err FfiOutOfGas, gas_info) else (Ok response, gas_info)
      | _ => (Panic, free_gas)
      end
  end.

Definition vm_query (q : VmMockQuerier) (request : QueryRequest C) (gas_limit : Z) : FfiResult QuerierResult :=
  match to_vec request with
  | Ok request_binary => vm_query_raw q request_binary gas_limit
  | Err err =>
      (Ok (Err (InvalidRequest ("Serializing query request: " +:+ display_std_error err) (lit "N/A"))),
       with_externally_used (Z.of_nat (String.length (display_std_error err))))
  | Panic => (Panic, free_gas)
  end.

End MockQuerying.
Arguments VmMockQuerier : clear implicits.

(** The backend of a test, of mock.rs. *)
Abbreviation MockExtern := (Extern MemoryStorage MockApi (VmMockQuerier Empty)).

Definition vm_mock_dependencies (canonical_length : nat) (contract_balance : list Coin) : MockExtern :=
  mkExtern Memory.new (mock_api_new canonical_length) (vm_querier_new [(MOCK_CONTRACT_ADDR, contract_balance)]).
Definition vm_mock_dependencies_with_balances (canonical_length : nat) (balances : list (HumanAddr * list Coin)) : MockExtern :=
  mkExtern Memory.new (mock_api_new canonical_length) (vm_querier_new balances).

(** ** testing/instance.rs *)

Record MockInstanceOptions : Type := mkOptions {
  canonical_address_length : nat;
  option_balances : list (HumanAddr * list Coin);
  contract_balance : option (list Coin);
  option_backend_error : option string;
  option_features : gset string;
  option_gas_limit : Z
}.

Definition default_options : MockInstanceOptions :=
  mkOptions 20 [] None None (features_from_csv "staking") 500_000.

(** [Vec::remove] at the first position of the address. *)
Fixpoint remove_first (address : HumanAddr) (balances : list (HumanAddr * list Coin)) : list (HumanAddr * list Coin) :=
  match balances with
  | [] => []
  | b :: bs => if bool_decide (b.1 = address) then bs else b :: remove_first address bs
  end.

Definition merge_balances (options : MockInstanceOptions) : list (HumanAddr * list Coin) :=
  match contract_balance options with
  | Some contract_balance =>
      remove_first MOCK_CONTRACT_ADDR (option_balances options) ++ [(MOCK_CONTRACT_ADDR, contract_balance)]
  | None => option_balances options
  end.

Definition mock_api_of (options : MockInstanceOptions) : MockApi :=
  match option_backend_error options with
  | Some backend_error => mock_api_new_failing (canonical_address_length options) backend_error
  | None => mock_api_new (canonical_address_length options)
  end.

Section MockInstances.
(** The check of uploaded code, and the status of the enclave if it cannot be loaded. *)
Variable check : bytes -> gset string -> VmResult unit.
Variable enclave : option Z.

Abbreviation MockInstance := (Instance MemoryStorage (VmMockQuerier Empty) MockIterator MockApi).

(** Both [unwrap]s panic. *)
Definition mock_instance_with_options (wasm : bytes) (options : MockInstanceOptions) : result unit MockInstance :=
  _ ← unwrap (check wasm (option_features options));
  match enclave with
  | Some _ => Panic
  | None => Ok (from_code wasm Memory.new (mock_api_of options) (vm_querier_new (merge_balances options))
                  (option_gas_limit options))
  end.

Definition mock_instance (wasm : bytes) (balance : list Coin) : result unit MockInstance :=
  mock_instance_with_options wasm
    (mkOptions (canonical_address_length default_options) (option_balances default_options) (Some balance)
       (option_backend_error default_options) (option_features default_options) (option_gas_limit default_options)).
Definition mock_instance_with_failing_api (wasm : bytes) (balance : list Coin) (backend_error : string) : result unit MockInstance :=
  mock_instance_with_options wasm
    (mkOptions (canonical_address_length default_options) (option_balances default_options) (Some balance)
       (Some backend_error) (option_features default_options) (option_gas_limit default_options)).
Definition mock_instance_with_balances (wasm : bytes) (balances : list (HumanAddr * list Coin)) : result unit MockInstance :=
  mock_instance_with_options wasm
    (mkOptions (canonical_address_length default_options) balances (contract_balance default_options)
       (option_backend_error default_options) (option_features default_options) (option_gas_limit default_options)).
Definition mock_instance_with_gas_limit (wasm : bytes) (gas_limit : Z) : result unit MockInstance :=
  mock_instance_with_options wasm
    (mkOptions (canonical_address_length default_options) (option_balances default_options) (contract_balance default_options)
       (option_backend_error default_options) (option_features default_options) gas_limit).

End MockInstances.

(** ** Properties *)

(** The entries that [n] calls of next yield, and the gas they report. *)
Fixpoint drain (n : nat) (i : MockIterator) : list KV * Z :=
  match n with
  | O => ([], 0)
  | S n' =>
      let (i', r) := iterator_next i in
      let (l, gas) := drain n' i' in
      (match r.1 with Ok (Some kv) => kv :: l | _ => l end, externally_used r.2 + gas)
  end.

Lemma drain_entries l n :
  drain (length l + n) (mkIterator ((fun item => (item, entry_gas item)) <$> l)) =
  (l, foldr Z.add 0 (entry_gas <$> l) + Z.of_nat n * GAS_COST_LAST_ITERATION).
Proof.
  induction l as [|kv l IH]; cbn [length drain fmap list_fmap Nat.add].
  - induction n as [|n IHn]; [done|]. cbn [drain iterator_next source]. cbn in IHn. rw IHn. cbn. f_equal. lia.
  - cbn [iterator_next source]. rw IH. cbn. f_equal. lia.
Qed.

(** An iterator of the mock yields exactly the range of the in-memory store, in its order; each
    entry is charged its size, and every call after the last the same fixed gas. *)
Theorem mock_iterator_yields_the_range s start end_ order l n :
  Memory.range s start end_ order = Ok l ->
  exists i, mock_range s start end_ order = (Ok i, with_externally_used GAS_COST_RANGE) /\
    drain (length l + n) i = (l, foldr Z.add 0 (entry_gas <$> l) + Z.of_nat n * GAS_COST_LAST_ITERATION).
Proof.
  unfold Memory.range, mock_range. destruct (start_above_end start end_).
  - intros [= <-]. eexists. split; [done|]. apply (drain_entries []).
  - destruct order; intros [= <-]; eexists; (split; [done|]); apply drain_entries.
Qed.

(** The loop of elements ends on it, with the same entries. *)
Theorem elements_of_the_range s start end_ order l fuel :
  Memory.range s start end_ order = Ok l -> (length l < fuel)%nat ->
  exists i, (mock_range s start end_ order).1 = Ok i /\ elements iterator_next fuel i [] = Some (Ok l).
Proof.
  intros Hl Hf. assert (exists i, (mock_range s start end_ order).1 = Ok i /\ (source i).*1 = l) as (i & Hi & Hs).
  { revert Hl. unfold Memory.range, mock_range. destruct (start_above_end start end_); [intros [= <-]; by eexists|].
    destruct order; intros [= <-]; eexists; (split; [done|]); cbn [source]; rw -list_fmap_compose;
      apply list_fmap_id. }
  exists i. split; [done|]. clear Hl Hi.
  enough (forall out, elements iterator_next fuel i out = Some (Ok (out ++ l))) as H by apply H.
  subst l. destruct i as [src]. cbn [source] in *. revert fuel Hf.
  induction src as [|[kv g] src IH]; intros [|fuel] Hf out; cbn [fmap list_fmap length] in Hf; try lia; cbn.
  - by rw app_nil_r.
  - rw (IH fuel); [|lia]. by rw -app_assoc.
Qed.

(** Without a backend error the API is that of the standard library's mock: the same addresses,
    and its generic errors as errors of the user; it is charged in every case. *)
Definition same_answer {T} (vm : result FfiError T) (std : StdResult T) : Prop :=
  match std with
  | Ok a => vm = Ok a
  | Err (GenericErr msg) => vm = Err (UserErr msg)
  | Err _ => vm = Err FfiInvalidUtf8
  | Panic => False
  end.

Theorem mock_api_agrees n human canonical :
  let a := mock_api_new n in
  same_answer (mock_canonical_address a human).1 (MockApi.canonical_address n human) /\
  same_answer (mock_human_address a canonical).1 (MockApi.human_address n canonical) /\
  (mock_canonical_address a human).2 = with_cost 55 /\ (mock_human_address a canonical).2 = with_cost 44.
Proof.
  unfold mock_canonical_address, mock_human_address, MockApi.canonical_address, MockApi.human_address.
  cbn [mock_api_new api_backend_error canonical_length fst snd]. split_and!; [..|done|done].
  - destruct (_ <? 3)%nat; [done|]. destruct (Nat.ltb_spec n (String.length human)); [done|]. cbn [same_answer].
    f_equal. rw lit_length. destruct (Nat.ltb_spec 0 (n - String.length human)) as [|E]; [done|].
    assert ((n - String.length human)%nat = O) as -> by lia. by rw app_nil_r.
  - destruct (negb _); [done|]. cbv zeta. set (l := List.filter _ _). pose proof (from_utf8_error l 0) as [H1 H2].
    destruct (Text.utf8_error 0 l) eqn:E; cbn [same_answer].
    + destruct (Text.from_utf8 l); [by specialize (H1 eq_refl)|done].
    + by rw H2.
Qed.

(** The querier of the mock answers as the standard library's does, unless its gas, a flat price
    and a hundred for each byte of the encoded answer, exceeds the limit; the gas is reported
    either way. *)
Theorem mock_query_is_metered {C} `{HQ : Serde (QueryRequest C)} `{HR : Serde QuerierResult}
    `{Serde BalanceResponse} `{Serde AllBalanceResponse} `{Serde BondedDenomResponse}
    `{Serde ValidatorsResponse} `{Serde AllDelegationsResponse} `{Serde DelegationResponse}
    `{Serde UnbondingDelegationsResponse} `{Serde RewardsResponse}
    (q : VmMockQuerier C) request gas_limit response encoded :
  MockQuerier.raw (std_querier q) request = response -> response <> Panic ->
  to_binary response = Ok encoded -> Z.of_nat (length encoded) <= 2^32 ->
  let gas := 100_000 + 100 * Z.of_nat (length encoded) in
  vm_query_raw q request gas_limit =
  (if decide (gas <= gas_limit) then Ok response else Err FfiOutOfGas, with_externally_used gas).
Proof.
  intros Hr Hp He Hl gas. unfold vm_query_raw. rw Hr.
  assert (response_gas request response = Ok gas) as Hg.
  { unfold response_gas. rw He. cbn [unwrap mbind result_bind].
    unfold GAS_COST_QUERY_REQUEST_MULTIPLIER, GAS_COST_QUERY_RESPONSE_MULTIPLIER, GAS_COST_QUERY_FLAT.
    rw arith_in_range; [|unfold U64_MAX; lia]. cbn [mbind result_bind]. rw arith_in_range; [|unfold U64_MAX; lia].
    cbn [mbind result_bind]. rw arith_in_range; [|unfold U64_MAX; lia]. cbn [mbind result_bind].
    rw arith_in_range; [|unfold U64_MAX; lia]. done. }
  destruct response as [x|e|]; [..|done]; cbv zeta; rw Hg;
    (destruct (Z.ltb_spec gas_limit gas); [by rw decide_False; [|lia]|by rw decide_True; [|lia]]).
Qed.

(** ** The balances of a mock instance *)

Lemma list_find_app {T} (f : T -> bool) (l k : list T) :
  List.find f (l ++ k) = match List.find f l with Some x => Some x | None => List.find f k end.
Proof. induction l as [|x l IH]; [done|]. cbn. by destruct (f x). Qed.

Lemma find_remove_first address a balances :
  a <> address ->
  List.find (fun b => bool_decide (b.1 = a)) (reverse (remove_first address balances)) =
  List.find (fun b : HumanAddr * list Coin => bool_decide (b.1 = a)) (reverse balances).
Proof.
  intros Ha. induction balances as [|[a' v] l IH]; [done|]. cbn [remove_first]. case_bool_decide as E; cbn in E.
  - subst. rw reverse_cons list_find_app. cbn. rw bool_decide_false; [|done]. by case_match.
  - by rw !reverse_cons !list_find_app IH.
Qed.

(** The contract of a mock instance has the balance it was given, whatever the balances say, and
    every other account has what they say. *)
Theorem mock_instance_balances options a :
  Bank.new (merge_balances options) !! a =
  match contract_balance options with
  | Some balance => if decide (a = MOCK_CONTRACT_ADDR) then Some balance else Bank.new (option_balances options) !! a
  | None => Bank.new (option_balances options) !! a
  end.
Proof.
  unfold merge_balances. destruct (contract_balance options) as [v|]; [|done].
  rw !bank_new_spec reverse_app. cbn [reverse rev_append app List.find fst].
  destruct (decide (a = MOCK_CONTRACT_ADDR)) as [->|Ha].
  - by rw bool_decide_true.
  - rw bool_decide_false; [|done]. by rw find_remove_first.
Qed.
