(* ===== verification/Engines.v ===== *)
(** * Two engines on one memory: sgx-vm/src/memory.rs against wasmi-runtime/src/wasm/runtime

    The enclave took over from the wasmer engine of the host the exchange of byte strings with a
    contract.  Over the same linear memory this file compares the two: where the old engine
    accepts a region the enclave reads and writes the same bytes, and it accepts more. *)

From Stdlib Require Import Strings.String.
From stdpp Require Import base tactics list numbers ssreflect.
From S2P Require Import Prelude Crypto EnclaveDb Runtime SgxVm WasmerHost GuestMemory.

Local Open Scope list_scope.
Local Open Scope Z_scope.

Section Engines.
Context {Mem : Type} `{WM : WasmMemory Mem} {ML : WasmMemoryLaws Mem}.
Variable size : Mem -> Z.
(** Bytes that can be read can be written. *)
Hypothesis writable : forall (m : Mem) o n d,
  is_Some (mem_get m o n) -> (length d <= n)%nat -> is_Some (mem_set m o d).
(** A read returns as many bytes as were asked for. *)
Hypothesis exact : forall (m : Mem) o n d, mem_get m o n = Some d -> length d = n.

(** The memory as wasmer's pointers see it: a [Region] is three little-endian words. *)
Definition wasmer_view : WasmerMemory Mem := {|
  WasmerHost.region_at m p :=
    o ← get_u32 m p; c ← get_u32 m (p + 4); l ← get_u32 m (p + 8); Some (WasmerHost.mkRegion o c l);
  set_region_at m p r :=
    m1 ← set_u32 m p (WasmerHost.offset r);
    m2 ← set_u32 m1 (p + 4) (WasmerHost.capacity r);
    set_u32 m2 (p + 8) (WasmerHost.region_length r);
  cells_at m o n := mem_get m o (Z.to_nat n);
  set_cells m o d := default m (mem_set m o d);
  size_bytes := size
|}.
#[local] Existing Instance wasmer_view.

Lemma region_words (m : Mem) p r :
  WasmerHost.region_at m p = Some r ->
  get_u32 m p = Some (WasmerHost.offset r) /\ get_u32 m (p + 4) = Some (WasmerHost.capacity r) /\
  get_u32 m (p + 8) = Some (WasmerHost.region_length r).
Proof.
  cbn. destruct (get_u32 m p); [|done]. cbn. destruct (get_u32 m (p + 4)); [|done]. cbn.
  destruct (get_u32 m (p + 8)); [|done]. by intros [= <-].
Qed.

(** What the old engine reads the enclave reads, as the same bytes. *)
Theorem enclave_reads_what_wasmer_read (m : Mem) ptr max_length d :
  0 <= ptr -> ptr + WasmerHost.REGION_SIZE <= 2^32 ->
  read_region m ptr max_length = Ok d -> extract_vector_inner m ptr = Some d.
Proof.
  intros Hp Hq. unfold read_region. destruct (get_region m ptr) as [r| |] eqn:Hr; [|done..].
  cbn [map_err mbind result_bind]. apply get_region_Ok in Hr as [Hr Hv]. apply validate_region_Ok in Hv as (Ho & _ & _).
  destruct (_ <? _); [done|]. destruct (cells_at m _ _) as [b|] eqn:Hc; [|done]. intros [= <-].
  destruct (region_words _ _ _ Hr) as (E0 & _ & E8). unfold extract_vector_inner. rw E0. cbn [mbind option_bind].
  destruct (Z.eqb_spec (WasmerHost.offset r) 0); [done|]. unfold WasmerHost.REGION_SIZE in Hq.
  assert (as_u32 (ptr + 8) = ptr + 8) as -> by (apply Z.mod_small; lia). by rw E8.
Qed.

(** And the other way round: what the enclave reads the old engine reads too, unless the region
    claims more bytes than it has, leaves the address space or is longer than the caller allows. *)
Theorem wasmer_refused_more (m : Mem) ptr max_length d r :
  0 <= ptr -> ptr + WasmerHost.REGION_SIZE <= 2^32 -> WasmerHost.region_at m ptr = Some r ->
  extract_vector_inner m ptr = Some d ->
  read_region m ptr max_length =
  if decide (WasmerHost.capacity r < WasmerHost.region_length r)
  then Err (CommunicationErr (InvalidRegion (LengthExceedsCapacity (WasmerHost.region_length r) (WasmerHost.capacity r))))
  else if decide (U32_MAX < WasmerHost.offset r + WasmerHost.capacity r)
  then Err (CommunicationErr (InvalidRegion (OutOfRange (WasmerHost.offset r) (WasmerHost.capacity r))))
  else if decide (max_length < WasmerHost.region_length r)
  then Err (CommunicationErr (RegionLengthTooBig (WasmerHost.region_length r) max_length))
  else Ok d.
Proof.
  intros Hp Hq Hr He. destruct (region_words _ _ _ Hr) as (E0 & _ & E8). unfold WasmerHost.REGION_SIZE in Hq.
  revert He. unfold extract_vector_inner. rw E0. cbn [mbind option_bind].
  destruct (Z.eqb_spec (WasmerHost.offset r) 0) as [|Ho]; [done|].
  assert (as_u32 (ptr + 8) = ptr + 8) as -> by (apply Z.mod_small; lia). rw E8. cbn [mbind option_bind]. intros Hd.
  unfold read_region, get_region. rw Hr. unfold validate_region.
  destruct (Z.eqb_spec (WasmerHost.offset r) 0); [done|].
  destruct (Z.ltb_spec (WasmerHost.capacity r) (WasmerHost.region_length r)); [by rw decide_True; [|lia]|].
  rw decide_False; [|lia].
  destruct (Z.ltb_spec (U32_MAX - WasmerHost.offset r) (WasmerHost.capacity r)); [by rw decide_True; [|lia]|].
  rw decide_False; [|lia]. cbn [map_err mbind result_bind].
  destruct (Z.ltb_spec max_length (WasmerHost.region_length r)); [by rw decide_True; [|lia]|].
  rw decide_False; [|lia]. cbn [cells_at wasmer_view]. by rw Hd.
Qed.

Lemma word_range (m : Mem) o v : get_u32 m o = Some v -> 0 <= v <= U32_MAX.
Proof.
  unfold get_u32. destruct (mem_get m o 4) as [b|] eqn:E; [|done]. intros [= <-]. apply exact in E.
  pose proof (from_be_bytes_range (rev b)) as H. rw length_rev E in H. unfold U32_MAX. lia.
Qed.

Lemma word_apart (m m' : Mem) o v o' : set_u32 m o v = Some m' -> o' + 4 <= o \/ o + 4 <= o' -> get_u32 m' o' = get_u32 m o'.
Proof. intros Hs Ho. eapply get_u32_apart; [exact Hs|]. rw length_rev be_bytes_length. lia. Qed.

Lemma word_cells (m m' : Mem) o v o' n :
  set_u32 m o v = Some m' -> o' + Z.of_nat n <= o \/ o + 4 <= o' -> mem_get m' o' n = mem_get m o' n.
Proof. intros Hs Ho. eapply get_after_set_apart; [exact Hs|]. rw length_rev be_bytes_length. lia. Qed.

(** The view has the laws that the facts on the old engine rest on. *)
Lemma wasmer_view_laws : WasmerMemoryLaws Mem.
Proof.
  split.
  - intros m p r (E0 & E4 & E8)%region_words. unfold region_u32. by split_and!; eapply word_range.
  - intros m m' p r (Ho & Hc & Hl). cbn. unfold U32_MAX in *.
    destruct (set_u32 m p _) as [m1|] eqn:E1; [|done]. cbn. destruct (set_u32 m1 _ _) as [m2|] eqn:E2; [|done]. cbn.
    intros E3. rw (word_apart m2 m' _ _ p E3); [|lia]. rw (word_apart m1 m2 _ _ p E2); [|lia].
    rw (get_set_u32 m m1 _ (WasmerHost.offset r)) //; [|lia]. cbn. rw (word_apart m2 m' _ _ (p + 4) E3); [|lia].
    rw (get_set_u32 m1 m2 _ (WasmerHost.capacity r)) //; [|lia]. cbn.
    rw (get_set_u32 m2 m' _ (WasmerHost.region_length r)) //; [|lia]. by destruct r.
  - intros m m' p r o n. cbn. unfold apart, WasmerHost.REGION_SIZE.
    destruct (set_u32 m p _) as [m1|] eqn:E1; [|done]. cbn. destruct (set_u32 m1 _ _) as [m2|] eqn:E2; [|done]. cbn.
    intros E3 Hn Ha. rw (word_cells _ _ _ _ _ _ E3); [|lia]. rw (word_cells _ _ _ _ _ _ E2); [|lia].
    rw (word_cells _ _ _ _ _ _ E1) //. lia.
  - intros m o d n Hs Hd. cbn in *. destruct (writable m o (Z.to_nat n) d) as [m' E]; [done|lia|].
    rw E. cbn. rw Nat2Z.id. by apply get_after_set in E.
Qed.

(** Where the old engine writes an answer into a region that does not hold its own descriptor the
    enclave writes it too, and either engine then reads it back from either memory. *)
Theorem enclave_writes_what_wasmer_wrote (vm : VM Mem) m' ptr r d max_length :
  let m := Runtime.memory (instance vm) in
  0 <= ptr -> ptr + WasmerHost.REGION_SIZE <= 2^32 ->
  WasmerHost.region_at m ptr = Some r -> apart ptr WasmerHost.REGION_SIZE (WasmerHost.offset r) (WasmerHost.capacity r) ->
  write_region m ptr d = Ok m' -> Z.of_nat (length d) <= max_length ->
  exists m'', write_to_allocated_memory d ptr vm = Some (vm_with m'' vm, Ok ptr) /\
    extract_vector_inner m' ptr = Some d /\ extract_vector_inner m'' ptr = Some d /\
    read_region m' ptr max_length = Ok d /\ read_region m'' ptr max_length = Ok d.
Proof.
  intros m Hp Hq Hr Ha Hw Hmax. pose proof wasmer_view_laws as LW.
  pose proof (region_write_read m m' ptr r d max_length Hr Ha Hw) as Hread. rw decide_True in Hread; [|lia].
  pose proof (enclave_reads_what_wasmer_read m' ptr max_length d Hp Hq Hread) as Hext.
  apply write_region_Ok in Hw as (r' & Hr' & Hv & Hd & Hc & _). rw Hr in Hr'. injection Hr' as <-.
  destruct (region_words _ _ _ Hr) as (E0 & E4 & E8). pose proof (word_range _ _ _ E4) as Hcap.
  apply validate_region_Ok in Hv as (Ho & Hlc & Hr32). unfold WasmerHost.REGION_SIZE, apart in *.
  destruct (writable m (WasmerHost.offset r) (Z.to_nat (WasmerHost.capacity r)) d) as [m1 E1]; [done|lia|].
  destruct (writable m1 (ptr + 8) 4 (rev (be_bytes 4 (Z.of_nat (length d))))) as [m2 E2].
  { rw (get_after_set_apart m m1 _ _ _ 4 E1); [|lia]. unfold get_u32 in E8. by destruct (mem_get m (ptr + 8) 4). }
  { by rw length_rev be_bytes_length. }
  assert (as_u32 (Z.of_nat (length d)) = Z.of_nat (length d)) as Hl by (apply Z.mod_small; unfold U32_MAX in *; lia).
  assert (as_u32 (ptr + 4) = ptr + 4 /\ as_u32 (ptr + 8) = ptr + 8) as [H4 H8] by (split; apply Z.mod_small; lia).
  exists m2. assert (WasmerHost.region_at m2 ptr =
    Some (WasmerHost.mkRegion (WasmerHost.offset r) (WasmerHost.capacity r) (Z.of_nat (length d)))) as Hr2.
  { cbn. rw (word_apart m1 m2 _ _ ptr E2); [|lia]. rw (get_u32_apart m m1 _ _ _ E1); [|lia]. rw E0. cbn.
    rw (word_apart m1 m2 _ _ (ptr + 4) E2); [|lia]. rw (get_u32_apart m m1 _ _ _ E1); [|lia]. rw E4. cbn.
    rw (get_set_u32 m1 m2 _ (Z.of_nat (length d))) //. unfold U32_MAX in *. lia. }
  assert (read_region m2 ptr max_length = Ok d) as Hread2.
  { unfold read_region, get_region. rw Hr2. cbn [map_err mbind result_bind].
    rw (proj2 (validate_region_Ok _)); [|cbn; lia]. cbn. destruct (Z.ltb_spec max_length (Z.of_nat (length d))); [lia|].
    rw Nat2Z.id (word_cells m1 m2 _ _ _ _ E2); [|lia]. by rw (get_after_set _ _ _ _ E1). }
  split_and!; [|done|by eapply enclave_reads_what_wasmer_read|done|done].
  unfold write_to_allocated_memory. cbv [mbind X_bind readI liftX]. fold m. rw E0 Hl H4 H8. cbn [ok_or].
  destruct (Z.eqb_spec (WasmerHost.offset r) 0); [done|]. rw E4. cbn [ok_or].
  destruct (Z.ltb_spec (WasmerHost.capacity r) (Z.of_nat (length d))); [lia|]. rw E1. cbn [ok_or modifyI].
  unfold set_u32. rw E2. by destruct vm as [[]].
Qed.

End Engines.

(** ** On a memory of bytes *)

Lemma list_memory_exact (m : bytes) o n d : list_get m o n = Some d -> length d = n.
Proof. unfold list_get. case_bool_decide; [|done]. intros [= <-]. rw length_take length_drop. lia. Qed.

Lemma list_memory_writable (m : bytes) o n d : is_Some (list_get m o n) -> (length d <= n)%nat -> is_Some (list_set m o d).
Proof.
  unfold list_get, list_set. case_bool_decide; [|by intros []]. intros _ Hd. rw bool_decide_true; [done|lia].
Qed.

(** The region at 4 says it holds three bytes and has room for one: the old engine refuses it, the
    enclave reads the three bytes. *)
Theorem enclave_ignores_capacity :
  let m := lit "...." ++ rev (be_bytes 4 20) ++ rev (be_bytes 4 1) ++ rev (be_bytes 4 3) ++ lit "...." ++ lit "abc" in
  extract_vector_inner (WM := list_memory) m 4 = Some (lit "abc") /\
  read_region (WM := wasmer_view (WM := list_memory) (fun m => Z.of_nat (length m))) m 4 100 =
  Err (CommunicationErr (InvalidRegion (LengthExceedsCapacity 3 1))).
Proof. by split; vm_compute. Qed.
