(* ===== verification/GuestImports.v ===== *)
(** * What a contract imports: std/src/imports.rs

    [ExternalStorage], [ExternalApi] and [ExternalQuerier]: the services of the enclave as a
    contract sees them.  Each call builds regions for its arguments, calls the imported
    function, which the enclave's resolver finds by its name, and consumes the region of the
    answer. *)

From Stdlib Require Import Strings.String.
From stdpp Require Import base tactics list numbers strings ssreflect.
From S2P Require Import Prelude Utf8 Crypto SecretMsg EnclaveDb QueryChain Runtime GuestMemory WasmCheck Math Storage Typed Std Querying.

Local Open Scope string_scope.
Local Open Scope list_scope.
Local Open Scope Z_scope.

Definition CANONICAL_ADDRESS_BUFFER_LENGTH : Z := 32.
Definition HUMAN_ADDRESS_BUFFER_LENGTH : Z := 90.

Section Imports.
Context {Mem : Type} `{WM : WasmMemory Mem} `{AL : Allocator Mem}.
#[local] Abbreviation G := (G Mem).

(** A function of the block [extern "C"]: [u32]s travel as [i32]s. *)
Definition extern_fn (name : string) (args : list Z) : G (option Z) :=
  match resolve_func false name with
  | Ok (_, index) => import index (map as_i32 args)
  | _ => fun _ => GTrap OtherTrap
  end.
Definition returned_u32 (v : option Z) : G Z :=
  match v with Some z => mret (as_u32 z) | None => fun _ => GTrap UnexpectedSignature end.

Definition db_read (key : Z) : G Z := v ← extern_fn "db_read" [key]; returned_u32 v.
Definition db_write (key value : Z) : G unit := _ ← extern_fn "db_write" [key; value]; mret tt.
Definition db_remove (key : Z) : G unit := _ ← extern_fn "db_remove" [key]; mret tt.
Definition canonicalize_address (source destination : Z) : G Z :=
  v ← extern_fn "canonicalize_address" [source; destination]; returned_u32 v.
Definition humanize_address (source destination : Z) : G Z :=
  v ← extern_fn "humanize_address" [source; destination]; returned_u32 v.
Definition query_chain (request : Z) : G Z := v ← extern_fn "query_chain" [request]; returned_u32 v.

End Imports.

(** ** ExternalStorage *)

Module ExternalStorage.
Section ExternalStorage.
Context {Mem : Type} `{WM : WasmMemory Mem} `{AL : Allocator Mem}.
#[local] Abbreviation G := (G Mem).

(** The boxes of the arguments are dropped when a function returns, the last one first. *)
Definition get (key : Slice) : G (option Vec) :=
  key_ptr ← build_region key;
  read ← db_read key_ptr;
  if read =? 0 then
    _ ← drop_region key_ptr;
    mret None
  else
    data ← consume_region read;
    _ ← drop_region key_ptr;
    mret (Some data).

Definition set (key value : Slice) : G unit :=
  key_ptr ← build_region key;
  value_ptr ← build_region value;
  _ ← db_write key_ptr value_ptr;
  _ ← drop_region value_ptr;
  drop_region key_ptr.

Definition remove (key : Slice) : G unit :=
  key_ptr ← build_region key;
  _ ← db_remove key_ptr;
  drop_region key_ptr.

(** Iteration: [db_scan] and [db_next] are imports of the feature "iterator", which the
    enclave's resolver does not know. *)
Section Iterator.
Variable db_scan : Z -> Z -> Z -> G Z.
Variable db_next : Z -> G Z.

(** [match start { Some(reg) => &*reg as *const Region as u32, None => 0 }] moves the box into the
    arm, where it is dropped. *)
Definition optional_ptr (o : option Slice) : G Z :=
  match o with
  | Some s =>
      reg ← build_region s;
      _ ← drop_region reg;
      mret reg
  | None => mret 0
  end.

Definition range (start stop : option Slice) (order : Order) : G Z :=
  start_ptr ← optional_ptr start;
  end_ptr ← optional_ptr stop;
  db_scan start_ptr end_ptr (order_into order).

(** The key is split off into a vector of its own; the value keeps the buffer. *)
Definition next (iterator_id : Z) : G (option (Vec * Vec)) :=
  kv_region_ptr ← db_next iterator_id;
  kv ← consume_region kv_region_ptr;
  d ← read_slice (as_slice kv);
  match next_kv d with
  | Ok None =>
      _ ← drop_vec kv;
      mret None
  | Ok (Some (k, v)) =>
      key ← vec_of k;
      mret (Some (key, mkVec (vec_ptr kv) (Z.of_nat (length v)) (vec_cap kv)))
  | _ => panic
  end.
End Iterator.

End ExternalStorage.
End ExternalStorage.

(** ** ExternalApi *)

Section Strings.
Context {Mem : Type} `{WM : WasmMemory Mem} `{AL : Allocator Mem}.
#[local] Abbreviation G := (G Mem).

(** [consume_string_region_written_by_vm]: the bytes are taken for UTF-8 unchecked. *)
Definition consume_string_region_written_by_vm (from : Z) : G Vec := consume_region from.

(** The text of an error the host wrote, which is dropped after it was formatted. *)
Definition error_text (ptr : Z) : G string :=
  error ← consume_string_region_written_by_vm ptr;
  d ← read_slice (as_slice error);
  _ ← drop_vec error;
  mret (string_of_list_byte d).

End Strings.

Module ExternalApi.
Section ExternalApi.
Context {Mem : Type} `{WM : WasmMemory Mem} `{AL : Allocator Mem}.
#[local] Abbreviation G := (G Mem).

Definition canonical_address (human : Slice) : G (StdResult Vec) :=
  send_ptr ← build_region human;
  canon ← alloc CANONICAL_ADDRESS_BUFFER_LENGTH;
  r ← canonicalize_address send_ptr canon;
  if negb (r =? 0) then
    error ← error_text r;
    _ ← drop_region send_ptr;
    mret (Err (generic_err ("canonicalize_address errored: " +:+ error)))
  else
    out ← consume_region canon;
    _ ← drop_region send_ptr;
    mret (Ok out).

Definition human_address (canonical : Slice) : G (StdResult Vec) :=
  send_ptr ← build_region canonical;
  human ← alloc HUMAN_ADDRESS_BUFFER_LENGTH;
  r ← humanize_address send_ptr human;
  if negb (r =? 0) then
    error ← error_text r;
    _ ← drop_region send_ptr;
    mret (Err (generic_err ("humanize_address errored: " +:+ error)))
  else
    address ← consume_string_region_written_by_vm human;
    _ ← drop_region send_ptr;
    mret (Ok address).

End ExternalApi.
End ExternalApi.

(** ** ExternalQuerier *)

Module ExternalQuerier.
Section ExternalQuerier.
Context {Mem : Type} `{WM : WasmMemory Mem} `{AL : Allocator Mem}.
#[local] Abbreviation G := (G Mem).

Definition raw_query `{Serde QuerierResult} (bin_request : Slice) : G QuerierResult :=
  request_ptr ← build_region bin_request;
  response_ptr ← query_chain request_ptr;
  response ← consume_region response_ptr;
  d ← read_slice (as_slice response);
  _ ← drop_vec response;
  _ ← drop_region request_ptr;
  mret (external_raw_query d).

End ExternalQuerier.
End ExternalQuerier.
