(* ===== verification/GuestLink.v ===== *)
(** * A contract linked to the enclave: std/src/imports.rs against wasm/runtime

    The calls of [ExternalStorage], [ExternalApi] and [ExternalQuerier] run on the enclave's host
    functions.  The specification is the enclave's services without any memory in between: a
    refinement shows that regions, allocation and the border of the sandbox do not show. *)

From Stdlib Require Import Strings.String.
From stdpp Require Import base tactics list numbers strings ssreflect.
From S2P Require Import Prelude Utf8 Crypto SecretMsg EnclaveDb QueryChain Runtime GuestMemory GuestArena WasmCheck Math Storage Typed Std Querying GuestImports.

Local Open Scope string_scope.
Local Open Scope list_scope.
Local Open Scope Z_scope.

(** ** The services of the enclave, without memory *)

Section Ideal.
Context {Mem : Type}.
Context `{P : Primitives} `{C : Codecs} `{Ho : Host} `{BE : Bech32Errors}.
Context `{JQ : Json QueryChain.QueryRequest} `{JA : Json QueryAnswer} `{JS : Json QueryChain.StdError} `{JE : JsonErrors}.
Context `{SQ : Serde QuerierResult}.
Variable km : Keychain.
Variable depth : Z.
#[local] Abbreviation X := (X Mem RunError).

(** What the enclave does for a call once it has its arguments. *)
Definition serve_get (key : bytes) : Runtime.X Mem WasmEngineError (option bytes) :=
  ck ← readI instance_key;
  p ← onTrace (read_encrypted_key km key ck);
  _ ← use_gas_externally p.2;
  mret p.1.

(** A change of the store, which a query may not make. *)
Definition serve_change (change : bytes -> M Trace WasmEngineError Z) : Runtime.X Mem WasmEngineError unit :=
  op ← readI operation;
  if is_query op then throwX WUnauthorizedWrite
  else
    ck ← readI instance_key;
    gas ← onTrace (change ck);
    _ ← use_gas_externally gas;
    mret tt.

Definition serve_query (request : bytes) : Runtime.X Mem WasmEngineError bytes :=
  n ← readI instance_nonce;
  pk ← readI instance_user_key;
  left ← readI gas_left;
  p ← onTrace (encrypt_and_query_chain km depth request n pk left);
  _ ← use_gas_externally p.2;
  mret p.1.

Definition ideal_get (key : bytes) : X (option bytes) := mapErrX HostErr (serve_get key).
Definition ideal_set (key value : bytes) : X unit :=
  mapErrX HostErr (serve_change (write_encrypted_key km key value)).
Definition ideal_remove (key : bytes) : X unit := mapErrX HostErr (serve_change (remove_encrypted_key key)).
Definition ideal_query (request : bytes) : X QuerierResult :=
  mapErrX HostErr (d ← serve_query request; mret (external_raw_query d)).

(** What the enclave makes of an address: a text for the contract, or the other form. *)
Definition canonicalize (human : bytes) : result WasmEngineError (bytes + bytes) :=
  if negb (Text.from_utf8 human) then Ok (inl (lit "input is not valid UTF-8"))
  else
    let human_addr_str := Text.trim human in
    match human_addr_str with
    | [] => Ok (inl (lit "input is empty"))
    | _ =>
        let text := string_of_list_byte human_addr_str in
        match bech32_decode text with
        | None => Ok (inl (lit (bech32_decode_error text)))
        | Some (decoded_prefix, data) =>
            if negb (decoded_prefix =? BECH32_PREFIX_ACC_ADDR)%string
            then Ok (inl (lit "wrong address prefix: " ++ Text.debug decoded_prefix))
            else inr <$> ok_or WBase32Error (from_base32 data)
        end
    end.

Definition humanize (canonical : bytes) : result WasmEngineError (bytes + bytes) :=
  match bech32_encode BECH32_PREFIX_ACC_ADDR (to_base32 canonical) with
  | None => Ok (inl (lit (bech32_encode_error BECH32_PREFIX_ACC_ADDR (to_base32 canonical))))
  | Some human => Ok (inr (lit human))
  end.

Definition serve_address (price : WasmCosts -> Z) (convert : bytes -> result WasmEngineError (bytes + bytes))
    (address : bytes) : Runtime.X Mem WasmEngineError (bytes + bytes) :=
  costs ← readI gas_costs;
  _ ← use_gas_externally (price costs);
  liftX (convert address).

(** The address must fit the buffer the contract passes. *)
Definition ideal_address (price : WasmCosts -> Z) (convert : bytes -> result WasmEngineError (bytes + bytes))
    (buffer : Z) (prefix : string) (address : bytes) : X (StdResult bytes) :=
  mapErrX HostErr
    (r ← serve_address price convert address;
     match r with
     | inl text => mret (Err (generic_err (prefix +:+ string_of_list_byte text)))
     | inr converted =>
         if buffer <? Z.of_nat (length converted) then throwX WMemoryWriteError
         else mret (Ok converted)
     end).

Definition ideal_canonical_address : bytes -> X (StdResult bytes) :=
  ideal_address external_canonicalize_address canonicalize CANONICAL_ADDRESS_BUFFER_LENGTH
    "canonicalize_address errored: ".
Definition ideal_human_address : bytes -> X (StdResult bytes) :=
  ideal_address external_humanize_address humanize HUMAN_ADDRESS_BUFFER_LENGTH
    "humanize_address errored: ".

End Ideal.

(** ** Programs over the dependencies *)

(** A contract function is generic in its storage, Api and querier, so it is a tree of calls of
    them. *)
Inductive contract_program (A : Type) : Type :=
| Done (a : A)
| Get (key : bytes) (k : option bytes -> contract_program A)
| Set_ (key value : bytes) (k : contract_program A)
| Remove (key : bytes) (k : contract_program A)
| Canonical (human : bytes) (k : StdResult bytes -> contract_program A)
| Human (canonical : bytes) (k : StdResult bytes -> contract_program A)
| RawQuery (request : bytes) (k : QuerierResult -> contract_program A).
Arguments Done {A} a.
Arguments Get {A} key k.
Arguments Set_ {A} key value k.
Arguments Remove {A} key k.
Arguments Canonical {A} human k.
Arguments Human {A} canonical k.
Arguments RawQuery {A} request k.

Section Linked.
Context {Mem : Type} `{WM : WasmMemory Mem} `{AL : Allocator Mem}.
Context `{SQ : Serde QuerierResult}.
#[local] Abbreviation G := (G Mem).

(** A call with an argument the contract holds in a vector, which is dropped after the call. *)
Definition with_arg {A} (d : bytes) (call : Slice -> G A) : G A :=
  v ← vec_of d;
  r ← call (as_slice v);
  _ ← drop_vec v;
  mret r.

(** The bytes of a vector the contract got, which it drops. *)
Definition take_bytes (v : Vec) : G bytes :=
  d ← read_slice (as_slice v);
  _ ← drop_vec v;
  mret d.

Definition linked_get (key : bytes) : G (option bytes) :=
  with_arg key (fun k =>
    r ← ExternalStorage.get k;
    match r with None => mret None | Some v => d ← take_bytes v; mret (Some d) end).
Definition linked_set (key value : bytes) : G unit :=
  with_arg key (fun k => with_arg value (fun v => ExternalStorage.set k v)).
Definition linked_remove (key : bytes) : G unit := with_arg key ExternalStorage.remove.
Definition linked_address (call : Slice -> G (StdResult Vec)) (address : bytes) : G (StdResult bytes) :=
  with_arg address (fun a =>
    r ← call a;
    match r with
    | Ok v => d ← take_bytes v; mret (Ok d)
    | Err e => mret (Err e)
    | Panic => panic
    end).
Definition linked_query (request : bytes) : G QuerierResult := with_arg request ExternalQuerier.raw_query.

(** The contract with the dependencies of [make_dependencies]. *)
Fixpoint linked {A} (c : contract_program A) : G A :=
  match c with
  | Done a => mret a
  | Get key k => r ← linked_get key; linked (k r)
  | Set_ key value k => _ ← linked_set key value; linked k
  | Remove key k => _ ← linked_remove key; linked k
  | Canonical human k => r ← linked_address ExternalApi.canonical_address human; linked (k r)
  | Human canonical k => r ← linked_address ExternalApi.human_address canonical; linked (k r)
  | RawQuery request k => r ← linked_query request; linked (k r)
  end.

End Linked.

Section IdealPrograms.
Context {Mem : Type}.
Context `{P : Primitives} `{C : Codecs} `{Ho : Host} `{BE : Bech32Errors}.
Context `{JQ : Json QueryChain.QueryRequest} `{JA : Json QueryAnswer} `{JS : Json QueryChain.StdError} `{JE : JsonErrors}.
Context `{SQ : Serde QuerierResult}.
Variable km : Keychain.
Variable depth : Z.

(** The contract with the services of the enclave. *)
Fixpoint ideal {A} (c : contract_program A) : X Mem RunError A :=
  match c with
  | Done a => mret a
  | Get key k => r ← ideal_get km key; ideal (k r)
  | Set_ key value k => _ ← ideal_set km key value; ideal k
  | Remove key k => _ ← ideal_remove key; ideal k
  | Canonical human k => r ← ideal_canonical_address human; ideal (k r)
  | Human canonical k => r ← ideal_human_address canonical; ideal (k r)
  | RawQuery request k => r ← ideal_query km depth request; ideal (k r)
  end.

End IdealPrograms.

(** ** Costs: the bytes of heap an argument or an answer takes *)

Definition cost (n : nat) : Z := Z.of_nat n + SLACK + (REGION_SIZE + SLACK).

Lemma cost_pos n : 0 <= cost n.
Proof. unfold cost, SLACK, REGION_SIZE. lia. Qed.

Lemma as_u32_small z : is_u32 z -> as_u32 z = z.
Proof. apply Z.mod_small. Qed.

Lemma as_u32_i32 z : is_u32 z -> as_u32 (as_i32 z) = z.
Proof.
  unfold is_u32, as_i32, as_u32. intros Hz. rw (Z.mod_small z); [|done]. case_match; [by apply Z.mod_small|].
  rw -(Z.mod_add _ 1) //. replace (z - 2^32 + 1 * 2^32) with z by lia. by apply Z.mod_small.
Qed.

Lemma as_i32_zero z : is_u32 z -> z <> 0 -> as_i32 z <> 0.
Proof. unfold is_u32, as_i32, as_u32. intros Hz Hn. rw Z.mod_small //. case_match; lia. Qed.

(** ** Services: computations that end, keep the exports and do not look at the memory *)

Section Service.
Context {Mem : Type}.

Definition service {E A} (a : X Mem E A) : Prop :=
  forall vm, exists vm' r, module_exports (instance vm') = module_exports (instance vm) /\
    forall m, a (vm_with m vm) = Some (vm_with m vm', r).

Lemma service_pure {E A} (r : result E A) : service (liftX r).
Proof. intros vm. by exists vm, r. Qed.
Lemma service_bind {E A B} (a : X Mem E A) (f : A -> X Mem E B) :
  service a -> (forall x, service (f x)) -> service (a ≫= f).
Proof.
  intros Ha Hf vm. destruct (Ha vm) as (vm1 & r1 & E1 & H1). destruct r1 as [x|e|].
  - destruct (Hf x vm1) as (vm2 & r2 & E2 & H2). exists vm2, r2. split; [congruence|].
    intros m. cbv [mbind X_bind]. by rw H1.
  - exists vm1, (Err e). split; [done|]. intros m. cbv [mbind X_bind]. by rw H1.
  - exists vm1, Panic. split; [done|]. intros m. cbv [mbind X_bind]. by rw H1.
Qed.
Lemma service_map {E F A} (g : E -> F) (a : X Mem E A) : service a -> service (mapErrX g a).
Proof.
  intros Ha vm. destruct (Ha vm) as (vm1 & r1 & E1 & H1). exists vm1, (map_err g r1). split; [done|].
  intros m. unfold mapErrX. by rw H1.
Qed.
Lemma service_trace {E A} (t : M Trace E A) : service (onTrace t).
Proof.
  intros vm. exists (mkVM (instance vm) (t (trace vm)).1), (t (trace vm)).2. split; [done|].
  intros m. unfold onTrace. cbn. by destruct (t (trace vm)).
Qed.
Lemma service_gas g : service (use_gas_externally (Mem := Mem) g).
Proof.
  intros vm. set (i := set_gas (gas_used (instance vm)) (sat_add (gas_used_externally (instance vm)) g) (instance vm)).
  exists (mkVM i (trace vm)), (if is_gas_depleted i then Err WOutOfGas else Ok tt). split; [done|].
  intros m. unfold use_gas_externally, check_gas_usage. cbv [mbind X_bind modifyI readI throwX liftX mret X_ret]. cbn [instance trace].
  change (is_gas_depleted _) with (is_gas_depleted i) at 1. by destruct (is_gas_depleted i).
Qed.
Lemma service_read {E A} (f : ContractInstance Mem -> A) :
  (forall m i, f (set_memory m i) = f i) -> service (readI (E := E) f).
Proof.
  intros Hf vm. exists vm, (Ok (f (instance vm))). split; [done|]. intros m. unfold readI. cbn. by rw Hf.
Qed.

End Service.

Ltac service_steps :=
  repeat match goal with
  | |- service (mapErrX _ _) => apply service_map
  | |- service (mbind _ _) => apply service_bind; [|intros ?]
  | |- service (onTrace _) => apply service_trace
  | |- service (use_gas_externally _) => apply service_gas
  | |- service (readI _) => apply service_read; done
  | |- service (mret ?a) => apply (service_pure (Ok a))
  | |- service (throwX ?e) => apply (service_pure (Err e))
  | |- service (liftX _) => apply service_pure
  | |- service (if ?b then _ else _) => destruct b
  | |- service (match ?o with _ => _ end) => destruct o
  end.

(** Dispatches a call of the host by its index and reads its arguments. *)
Ltac open_call :=
  cbv [invoke_index HostFunctions_from Z.eqb Pos.eqb nth_checked mbind X_bind mapErrX liftX ok_or];
  cbn [map lookup list_lookup].

Section Refinement.
Context {Mem : Type} `{WM : WasmMemory Mem} {ML : WasmMemoryLaws Mem} `{AL : Allocator Mem} {LL : AllocatorLaws Mem}.
Context `{P : Primitives} `{C : Codecs} `{Ho : Host} `{BE : Bech32Errors}.
Context `{JQ : Json QueryChain.QueryRequest} `{JA : Json QueryAnswer} `{JS : Json QueryChain.StdError} `{JE : JsonErrors}.
Context `{SQ : Serde QuerierResult}.
Variable km : Keychain.
Variable depth : Z.
#[local] Abbreviation frame := (frame (Mem := Mem) live).
#[local] Abbreviation executes := (executes (Mem := Mem) km depth).
#[local] Abbreviation computes := (computes (Mem := Mem) km depth).

(** The contract exports the [allocate] of cosmwasm-std. *)
Definition links (vm : VM Mem) : Prop := exp_allocate (module_exports (instance vm)) = Some allocate_export.

(** From memory [m], [p] ends as [r] says: with a value related to [b] in a memory [m'], or with
    the same error. *)
Definition reaches {A B} (p : G Mem A) (vm : VM Mem) (m : Mem) (vm' : VM Mem) (r : result RunError B)
    (Post : Mem -> A -> B -> Prop) : Prop :=
  exists m', match r with
             | Ok b => exists a, executes p (vm_with m vm) (vm_with m' vm') (Ok a) /\ Post m' a b
             | Err e => executes p (vm_with m vm) (vm_with m' vm') (Err e)
             | Panic => executes p (vm_with m vm) (vm_with m' vm') Panic
             end.

Lemma reaches_ret {A B} (a : A) (b : B) vm m (Post : Mem -> A -> B -> Prop) :
  Post m a b -> reaches (mret a) vm m vm (Ok b) Post.
Proof. intros Hp. exists m, a. split; [apply executes_ret|done]. Qed.

Lemma reaches_computes {A A' B} (p : G Mem A) (f : A -> G Mem A') vm m m1 a vm' (r : result RunError B) Post :
  computes p m m1 a -> reaches (f a) vm m1 vm' r Post -> reaches (p ≫= f) vm m vm' r Post.
Proof.
  intros Hc [m' Hr]. exists m'. destruct r as [b|e|].
  - destruct Hr as (a' & Hx & Hp). exists a'. split; [|done]. by eapply executes_bind.
  - by eapply executes_bind.
  - by eapply executes_bind.
Qed.

(** After a call that ends as [r1], the rest ends as [r]. *)
Lemma reaches_bind {A A' B B'} (p : G Mem A) (f : A -> G Mem A') vm m vm1 (r1 : result RunError B) Post1
    vm' (r : result RunError B') Post :
  reaches p vm m vm1 r1 Post1 ->
  match r1 with
  | Ok b => forall m1 a, Post1 m1 a b -> reaches (f a) vm1 m1 vm' r Post
  | Err e => vm' = vm1 /\ r = Err e
  | Panic => vm' = vm1 /\ r = Panic
  end -> reaches (p ≫= f) vm m vm' r Post.
Proof.
  intros [m1 H1]. destruct r1 as [b|e|].
  - destruct H1 as (a & Hx & Hp). intros Hf. destruct (Hf m1 a Hp) as [m' Hr]. exists m'.
    destruct r as [b'|e|].
    + destruct Hr as (a' & Hx' & Hp'). exists a'. split; [|done]. by eapply executes_bind.
    + by eapply executes_bind.
    + by eapply executes_bind.
  - intros [-> ->]. exists m1. by apply executes_bind_err.
  - intros [-> ->]. exists m1. by apply executes_bind_panic.
Qed.

Definition run_allocate (fuel : nat) (len : Z) : X Mem RunError (option Z) := fun vm =>
  match exp_allocate (module_exports (instance vm)) with
  | Some f => run km depth fuel (f len) vm
  | None => Some (vm, Err InterpreterErr)
  end.

(** The enclave writes an answer through the contract's own allocator. *)
Lemma host_writes vm m d :
  links vm -> cost (length d) <= room m ->
  exists n m' p, (forall fuel, write_to_memory (run_allocate (n + fuel)) d (vm_with m vm) = Some (vm_with m' vm, Ok p)) /\
    region_holds m m' p d /\ is_u32 p /\ p <> 0 /\ room m - cost (length d) <= room m'.
Proof.
  intros Hv Hc. pose proof (room_bound m) as Hb. unfold cost in *.
  assert (Z.of_nat (length d) <= ISIZE_MAX) as Hd by (unfold SLACK, REGION_SIZE in *; lia).
  assert (is_u32 (Z.of_nat (length d))) as Hu by (unfold is_u32, ISIZE_MAX in *; lia).
  destruct (alloc_computes km depth m (Z.of_nat (length d))) as (m1 & p & X1 & F1 & R1); [lia|lia|].
  destruct (host_fills_region m m1 p (Z.of_nat (length d)) d vm F1) as (m2 & W2 & H2 & R2); [lia|lia|].
  assert (is_u32 p /\ p <> 0) as [Up Np].
  { destruct F1 as (off & _ & Hl%live_bounds & _). unfold is_u32, REGION_SIZE in *. lia. }
  destruct (X1 vm) as [n T]. exists (n + 1)%nat, m2, p. split_and!; [|done|done|done|lia].
  intros fuel. unfold write_to_memory, allocate, run_allocate. cbv [mbind X_bind mapErrX].
  assert (exp_allocate (module_exports (instance (vm_with m vm))) = Some allocate_export) as -> by exact Hv.
  unfold allocate_export. cbv beta. rw (as_u32_small (Z.of_nat _)) // as_u32_i32 //.
  rw -Nat.add_assoc (T (1 + fuel)%nat _ (vm_with m1 vm, Ok (Some (as_i32 p)))); [|done]. cbn [map_err].
  destruct (Z.eqb_spec (as_i32 p) 0) as [E|_]; [by apply as_i32_zero in E|].
  cbv [mret X_ret]. by rw as_u32_i32.
Qed.

Lemma import_executes index args vm vm' (r : result RunError (option Z)) :
  (exists n, forall fuel, invoke_index km depth (run_allocate (n + fuel)) index args vm = Some (vm', r)) ->
  executes (import index args) vm vm' r.
Proof.
  intros [n Hi]. exists (S n). intros fuel k out Hk. cbn [run Nat.add import].
  cbv [mbind X_bind]. change (run_allocate (n + fuel)) with (fun len vm => run_allocate (n + fuel) len vm) in Hi.
  unfold run_allocate in Hi. rw Hi. destruct r as [v|e|]; [by apply run_fuel|by subst..].
Qed.

(** A call of the host: it serves [a] and answers with what [a] returned. *)
Lemma import_reaches {A B} index args vm m vm' (a : X Mem WasmEngineError A) r0
    (answer : (Z -> X Mem RunError (option Z)) -> A -> X Mem WasmEngineError (option Z))
    (r : result RunError B) (Post : Mem -> option Z -> B -> Prop) :
  service a -> a vm = Some (vm', r0) ->
  (forall ra, invoke_index km depth ra index args (vm_with m vm) = mapErrX HostErr (x ← a; answer ra x) (vm_with m vm)) ->
  match r0 with
  | Ok x => exists n m', match r with
                | Ok b => exists z, (forall fuel, answer (run_allocate (n + fuel)) x (vm_with m vm') = Some (vm_with m' vm', Ok z)) /\ Post m' z b
                | Err e => exists e0, e = HostErr e0 /\
                    forall fuel, answer (run_allocate (n + fuel)) x (vm_with m vm') = Some (vm_with m' vm', Err e0)
                | Panic => False
                end
  | Err e => r = Err (HostErr e)
  | Panic => r = Panic
  end -> reaches (import index args) vm m vm' r Post.
Proof.
  intros Hs Ha Hi Hr. destruct (Hs vm) as (vm1 & r1 & _ & Hm).
  assert (forall m, a (vm_with m vm) = Some (vm_with m vm', r0)) as Hm'.
  { specialize (Hm (memory (instance vm))) as Hm0. rw vm_with_memory Ha in Hm0. injection Hm0 as -> ->.
    intros m2. rw Hm. done. }
  clear Hm. destruct r0 as [x|e|].
  - destruct Hr as (n & m' & Hr). exists m'. destruct r as [b|e|]; [|..|done].
    + destruct Hr as (z & Hz & Hp). exists z. split; [|done]. apply import_executes. exists n. intros fuel.
      rw Hi. cbv [mapErrX mbind X_bind]. by rw Hm' Hz.
    + destruct Hr as (e0 & -> & Hz). apply import_executes. exists n. intros fuel.
      rw Hi. cbv [mapErrX mbind X_bind]. by rw Hm' Hz.
  - subst r. exists m. apply import_executes. exists 0%nat. intros fuel. rw Hi. cbv [mapErrX mbind X_bind]. by rw Hm'.
  - subst r. exists m. apply import_executes. exists 0%nat. intros fuel. rw Hi. cbv [mapErrX mbind X_bind]. by rw Hm'.
Qed.

Lemma service_links {E A} (a : X Mem E A) vm vm' r : service a -> a vm = Some (vm', r) -> links vm -> links vm'.
Proof.
  intros Hs Ha Hl. destruct (Hs vm) as (vm1 & r1 & E1 & Hm). specialize (Hm (memory (instance vm))).
  rw vm_with_memory Ha in Hm. injection Hm as -> ->. unfold links. cbn. by rw E1.
Qed.

Lemma serve_get_service key : service (Mem := Mem) (serve_get km key).
Proof. unfold serve_get. service_steps. Qed.
Lemma serve_change_service f : service (Mem := Mem) (serve_change f).
Proof. unfold serve_change. service_steps. Qed.
Lemma serve_query_service request : service (Mem := Mem) (serve_query km depth request).
Proof. unfold serve_query. service_steps. Qed.
Lemma serve_address_service price convert address : service (Mem := Mem) (serve_address price convert address).
Proof. unfold serve_address. service_steps. Qed.

(** A region the contract built over a slice of the bytes [d]. *)
Definition argument (m : Mem) (p : Z) (d : bytes) : Prop :=
  live m p REGION_SIZE /\
  exists s, region_at m p (mkRegion (slice_ptr s) (slice_len s) (slice_len s)) /\ slice_holds m s d.

Lemma argument_read m p d vm :
  argument m p d -> is_u32 p /\ extract_vector p (vm_with m vm) = Some (vm_with m vm, Ok d).
Proof.
  intros (Hl & s & Hr & Hs). split; [|by eapply host_reads_slice].
  apply live_bounds in Hl. unfold is_u32, REGION_SIZE in *. lia.
Qed.

Lemma argument_frame m m' p d : argument m p d -> frame m m' -> argument m' p d.
Proof.
  intros (Hl & s & Hr & Hs) Hf. destruct (Hf _ _ Hl) as [Hl' Eq].
  split; [done|]. exists s. split; [by eapply region_at_same|by eapply slice_frame].
Qed.

Lemma build_argument m s d :
  slice_holds m s d -> REGION_SIZE + SLACK <= room m ->
  exists m' p, computes (build_region s) m m' p /\ argument m' p d /\ fresh m p REGION_SIZE /\ frame m m' /\
    room m - (REGION_SIZE + SLACK) <= room m'.
Proof.
  intros Hs Hr. destruct (build_region_computes km depth m s d Hs Hr) as (m' & p & Xp & Hp & Hl & Hn & Hf & Hr').
  exists m', p. split_and!; [done| |done..]. split; [done|]. exists s. split; [done|by eapply slice_frame].
Qed.

Lemma db_read_reaches vm m kp key vm' r :
  links vm -> argument m kp key -> serve_get km key vm = Some (vm', r) ->
  (forall d, r = Ok (Some d) -> cost (length d) <= room m) ->
  reaches (db_read kp) vm m vm' (map_err HostErr r) (fun m' p o =>
    match o with
    | None => p = 0 /\ m' = m
    | Some d => region_holds m m' p d /\ p <> 0 /\ room m - cost (length d) <= room m'
    end).
Proof.
  intros Hl Harg Hs Hc. destruct (argument_read m kp key vm Harg) as [Hu Ha]. eapply (reaches_bind _ _ _ _ vm' (map_err HostErr r) (fun m' z o =>
    match o with
    | None => z = Some 0 /\ m' = m
    | Some d => exists p, z = Some (as_i32 p) /\ region_holds m m' p d /\ is_u32 p /\ p <> 0 /\
                  room m - cost (length d) <= room m'
    end)).
  - eapply (import_reaches 0 _ _ _ _ (serve_get km key) r (fun ra v =>
      match v with None => mret (Some 0) | Some value => region ← write_to_memory ra value; mret (Some (as_i32 region)) end));
      [apply serve_get_service|done| |].
    + intros ra. open_call. unfold read_db_index. cbv [mbind X_bind]. rw as_u32_i32 // Ha.
      unfold serve_get. cbv [mbind X_bind readI].
      destruct (onTrace _ _) as [[vm1 [p|e|]]|]; [|done..].
      by destruct (use_gas_externally _ _) as [[vm2 [[]|e|]]|].
    + destruct r as [[d|]|e|]; [| |done..].
      * destruct (host_writes vm' m d) as (n & m' & p & Hw & Hp & Up & Np & Hr);
          [by eapply service_links; [apply serve_get_service|..]|by apply Hc|].
        exists n, m'. cbn. exists (Some (as_i32 p)). split; [|eauto 10].
        intros fuel. cbv [mbind X_bind]. by rw Hw.
      * exists 0%nat, m. cbn. by exists (Some 0).
  - destruct r as [[d|]|e|]; cbn; [| |done..].
    + intros m1 z (p & -> & Hp & Up & Np & Hr). apply reaches_ret. by rw as_u32_i32.
    + intros m1 z (-> & ->). by apply reaches_ret.
Qed.

Lemma get_reaches vm m s key vm' r :
  links vm -> slice_holds m s key -> serve_get km key vm = Some (vm', r) ->
  REGION_SIZE + SLACK + (match r with Ok (Some d) => cost (length d) | _ => 0 end) <= room m ->
  reaches (ExternalStorage.get s) vm m vm' (map_err HostErr r) (fun m' o ob =>
    frame m m' /\
    room m - (REGION_SIZE + SLACK + match ob with Some d => cost (length d) | None => 0 end) <= room m' /\
    match o, ob with
    | None, None => True
    | Some v, Some d => vec_holds m m' v d
    | _, _ => False
    end).
Proof.
  intros Hl Hs Hg Hc. destruct (build_argument m s key Hs) as (m1 & kp & X1 & A1 & F1 & K1 & R1).
  { pose proof (cost_pos 0). destruct r as [[d|]|e|]; [pose proof (cost_pos (length d))|..]; lia. }
  eapply reaches_computes; [done|].
  eapply reaches_bind; [eapply (db_read_reaches vm m1 kp key vm' r Hl A1 Hg)|].
  { intros d ->. lia. }
  destruct r as [[d|]|e|]; cbn [map_err]; [| |done..].
  - intros m2 p (Hp & Np & R2). destruct (Z.eqb_spec p 0); [done|].
    destruct (consume_region_computes km depth m1 m2 p d Hp) as (m3 & v & X3 & V3 & R3).
    eapply reaches_computes; [done|].
    assert (live m3 kp REGION_SIZE) as L3 by (apply V3, A1).
    assert (frame m m3) as K3 by (eapply frame_trans; [done|apply V3]).
    destruct (drop_region_computes km depth m m3 kp K3 F1 L3) as (X4 & K4 & R4).
    eapply reaches_computes; [done|]. apply reaches_ret. split_and!; [done|lia|].
    eapply (vec_after_free _ m1); [done|apply A1|done|done].
  - intros m2 p [-> ->]. cbn [Z.eqb].
    destruct (drop_region_computes km depth m m1 kp K1 F1 (proj1 A1)) as (X4 & K4 & R4).
    eapply reaches_computes; [done|]. apply reaches_ret. split_and!; [done|lia|done].
Qed.

(** Changes of the store answer nothing. *)
Lemma change_reaches name sg index args vm m vm' f r :
  resolve_func false name = Ok (sg, index) -> serve_change f vm = Some (vm', r) ->
  (forall ra, invoke_index km depth ra index (map as_i32 args) (vm_with m vm)
              = mapErrX HostErr (_ ← serve_change f; mret None) (vm_with m vm)) ->
  reaches (_ ← extern_fn name args; mret tt) vm m vm' (map_err HostErr r) (fun m' _ _ => m' = m).
Proof.
  intros Hn Hs Hi. eapply (reaches_bind _ _ _ _ vm' (map_err HostErr r) (fun m' _ _ => m' = m)).
  - unfold extern_fn. rw Hn.
    eapply (import_reaches _ _ _ _ _ (serve_change f) r (fun _ _ => mret None)); [apply serve_change_service|done|done|].
    destruct r as [[]|e|]; [|done..]. exists 0%nat, m. cbn. by exists None.
  - destruct r as [[]|e|]; [|done..]. intros m1 a ->. by apply reaches_ret.
Qed.

Lemma db_write_reaches vm m kp key vp value vm' r :
  argument m kp key -> argument m vp value -> serve_change (write_encrypted_key km key value) vm = Some (vm', r) ->
  reaches (db_write kp vp) vm m vm' (map_err HostErr r) (fun m' _ _ => m' = m).
Proof.
  intros Ak Av Hs. destruct (argument_read m kp key vm Ak) as [Uk Ek]. destruct (argument_read m vp value vm Av) as [Uv Ev].
  eapply change_reaches; [done|done|]. intros ra.
  open_call. unfold write_db_index, serve_change. cbv [mbind X_bind readI].
  destruct (is_query _); [done|]. rw !as_u32_i32 // Ek Ev.
  destruct (onTrace _ _) as [[vm1 [p|e|]]|]; [|done..].
  by destruct (use_gas_externally _ _) as [[vm2 [[]|e|]]|].
Qed.

Lemma db_remove_reaches vm m kp key vm' r :
  argument m kp key -> serve_change (remove_encrypted_key key) vm = Some (vm', r) ->
  reaches (db_remove kp) vm m vm' (map_err HostErr r) (fun m' _ _ => m' = m).
Proof.
  intros Ak Hs. destruct (argument_read m kp key vm Ak) as [Uk Ek].
  eapply change_reaches; [done|done|]. intros ra.
  open_call. unfold remove_db_index, serve_change. cbv [mbind X_bind readI].
  destruct (is_query _); [done|]. rw !as_u32_i32 // Ek.
  destruct (onTrace _ _) as [[vm1 [p|e|]]|]; [|done..].
  by destruct (use_gas_externally _ _) as [[vm2 [[]|e|]]|].
Qed.

Lemma set_reaches vm m k key v value vm' r :
  slice_holds m k key -> slice_holds m v value ->
  serve_change (write_encrypted_key km key value) vm = Some (vm', r) -> 2 * (REGION_SIZE + SLACK) <= room m ->
  reaches (ExternalStorage.set k v) vm m vm' (map_err HostErr r) (fun m' _ _ =>
    frame m m' /\ room m - 2 * (REGION_SIZE + SLACK) <= room m').
Proof.
  intros Hk Hv Hs Hc. destruct (build_argument m k key Hk) as (m1 & kp & X1 & A1 & F1 & K1 & R1);
    [unfold REGION_SIZE, SLACK in *; lia|].
  destruct (build_argument m1 v value) as (m2 & vp & X2 & A2 & F2 & K2 & R2);
    [by eapply slice_frame|lia|].
  do 2 (eapply reaches_computes; [done|]). pose proof (argument_frame _ _ _ _ A1 K2) as A1'.
  eapply reaches_bind; [by eapply (db_write_reaches vm m2 kp key vp value vm' r)|].
  destruct r as [[]|e|]; cbn [map_err]; [|done..]. intros m3 [] ->.
  assert (frame m m2) as K by (by eapply frame_trans).
  destruct (drop_region_computes km depth m1 m2 vp K2 F2 (proj1 A2)) as (X3 & K3 & R3).
  eapply reaches_computes; [done|].
  assert (frame m (free m2 vp REGION_SIZE 4)) as K' by (by apply (frame_trans _ m1)).
  destruct (drop_region_computes km depth m (free m2 vp REGION_SIZE 4) kp K' F1) as (X4 & K4 & R4);
    [apply K3, A1|].
  exists (free (free m2 vp REGION_SIZE 4) kp REGION_SIZE 4), tt. split; [apply X4|]. split; [done|lia].
Qed.

Lemma remove_reaches vm m k key vm' r :
  slice_holds m k key -> serve_change (remove_encrypted_key key) vm = Some (vm', r) -> REGION_SIZE + SLACK <= room m ->
  reaches (ExternalStorage.remove k) vm m vm' (map_err HostErr r) (fun m' _ _ =>
    frame m m' /\ room m - (REGION_SIZE + SLACK) <= room m').
Proof.
  intros Hk Hs Hc. destruct (build_argument m k key Hk Hc) as (m1 & kp & X1 & A1 & F1 & K1 & R1).
  eapply reaches_computes; [done|]. eapply reaches_bind; [by eapply (db_remove_reaches vm m1 kp key vm' r)|].
  destruct r as [[]|e|]; cbn [map_err]; [|done..]. intros m3 [] ->.
  destruct (drop_region_computes km depth m m1 kp K1 F1 (proj1 A1)) as (X4 & K4 & R4).
  exists (free m1 kp REGION_SIZE 4), tt. split; [apply X4|]. split; [done|lia].
Qed.

Lemma query_chain_reaches vm m rp request vm' r :
  links vm -> argument m rp request -> serve_query km depth request vm = Some (vm', r) ->
  (forall d, r = Ok d -> cost (length d) <= room m) ->
  reaches (query_chain rp) vm m vm' (map_err HostErr r) (fun m' p d =>
    region_holds m m' p d /\ room m - cost (length d) <= room m').
Proof.
  intros Hl Harg Hs Hc. destruct (argument_read m rp request vm Harg) as [Hu Ha].
  eapply (reaches_bind _ _ _ _ vm' (map_err HostErr r) (fun m' z d => exists p, z = Some (as_i32 p) /\
    region_holds m m' p d /\ is_u32 p /\ room m - cost (length d) <= room m')).
  - eapply (import_reaches 6 _ _ _ _ (serve_query km depth request) r (fun ra d =>
      region ← write_to_memory ra d; mret (Some (as_i32 region)))); [apply serve_query_service|done| |].
    + intros ra. open_call. unfold query_chain_index. cbv [mbind X_bind]. rw as_u32_i32 // Ha.
      unfold serve_query. cbv [mbind X_bind readI].
      destruct (onTrace _ _) as [[vm1 [p|e|]]|]; [|done..].
      by destruct (use_gas_externally _ _) as [[vm2 [[]|e|]]|].
    + destruct r as [d|e|]; [|done..].
      destruct (host_writes vm' m d) as (n & m' & p & Hw & Hp & Up & Np & Hr);
        [by eapply service_links; [apply serve_query_service|..]|by apply Hc|].
      exists n, m'. cbn. exists (Some (as_i32 p)). split; [|eauto 10].
      intros fuel. cbv [mbind X_bind]. by rw Hw.
  - destruct r as [d|e|]; cbn; [|done..].
    intros m1 z (p & -> & Hp & Up & Hr). apply reaches_ret. by rw as_u32_i32.
Qed.

Lemma raw_query_reaches vm m s request vm' r :
  links vm -> slice_holds m s request -> serve_query km depth request vm = Some (vm', r) ->
  REGION_SIZE + SLACK + (match r with Ok d => cost (length d) | _ => 0 end) <= room m ->
  reaches (ExternalQuerier.raw_query s) vm m vm' (map_err HostErr r) (fun m' q d =>
    frame m m' /\ room m - (REGION_SIZE + SLACK + cost (length d)) <= room m' /\ q = external_raw_query d).
Proof.
  intros Hl Hs Hq Hc. destruct (build_argument m s request Hs) as (m1 & rp & X1 & A1 & F1 & K1 & R1).
  { destruct r as [d|e|]; [pose proof (cost_pos (length d))|..]; lia. }
  eapply reaches_computes; [done|].
  eapply reaches_bind; [eapply (query_chain_reaches vm m1 rp request vm' r Hl A1 Hq)|].
  { intros d ->. lia. }
  destruct r as [d|e|]; cbn [map_err]; [|done..]. intros m2 p (Hp & R2).
  destruct (consume_region_computes km depth m1 m2 p d Hp) as (m3 & v & X3 & V3 & R3).
  eapply reaches_computes; [done|].
  eapply reaches_computes; [by eapply read_slice_computes, vec_slice|].
  destruct (drop_vec_computes km depth m1 m3 v d V3) as (m4 & X4 & K4 & R4).
  eapply reaches_computes; [done|].
  assert (frame m m4) as K by (by eapply frame_trans).
  destruct (drop_region_computes km depth m m4 rp K F1) as (X5 & K5 & R5); [apply K4, A1|].
  eapply reaches_computes; [done|]. apply reaches_ret. split_and!; [done|lia|done].
Qed.

(** How the enclave answers a conversion of addresses. *)
Definition answer_address (ra : Z -> X Mem RunError (option Z)) (dst : Z) (x : bytes + bytes)
  : X Mem WasmEngineError (option Z) :=
  match x with
  | inl text => answer_text ra text
  | inr converted => _ ← write_to_allocated_memory converted dst; mret (Some 0)
  end.

Lemma invoke_canonicalize ra sp dst vm m address :
  argument m sp address -> is_u32 dst ->
  invoke_index km depth ra 3 (map as_i32 [sp; dst]) (vm_with m vm) =
  mapErrX HostErr (x ← serve_address external_canonicalize_address canonicalize address; answer_address ra dst x) (vm_with m vm).
Proof.
  intros Harg Ud. destruct (argument_read m sp address vm Harg) as [Us _].
  open_call. unfold canonicalize_address_index, serve_address. cbv [mbind X_bind readI].
  destruct (service_gas (external_canonicalize_address (gas_costs (instance (vm_with m vm)))) vm) as (vm1 & r & _ & Hg).
  rw Hg. destruct r as [[]|e|]; [|done..]. rw !as_u32_i32 //.
  rw (proj2 (argument_read m sp address vm1 Harg)). unfold liftX, canonicalize, answer_address.
  destruct (negb (Text.from_utf8 address)); [done|]. destruct (Text.trim address); [done|].
  destruct (bech32_decode _) as [[]|]; [|done]. destruct (negb _); [done|]. by destruct (from_base32 _).
Qed.

Lemma invoke_humanize ra sp dst vm m address :
  argument m sp address -> is_u32 dst ->
  invoke_index km depth ra 4 (map as_i32 [sp; dst]) (vm_with m vm) =
  mapErrX HostErr (x ← serve_address external_humanize_address humanize address; answer_address ra dst x) (vm_with m vm).
Proof.
  intros Harg Ud. destruct (argument_read m sp address vm Harg) as [Us _].
  open_call. unfold humanize_address_index, serve_address. cbv [mbind X_bind readI].
  destruct (service_gas (external_humanize_address (gas_costs (instance (vm_with m vm)))) vm) as (vm1 & r & _ & Hg).
  rw Hg. destruct r as [[]|e|]; [|done..]. rw !as_u32_i32 //.
  rw (proj2 (argument_read m sp address vm1 Harg)). unfold liftX, humanize, answer_address.
  by destruct (bech32_encode _ _).
Qed.

(** The common shape of the two functions of [ExternalApi]. *)
Definition address_program (name prefix : string) (buffer : Z) (s : Slice) : G Mem (StdResult Vec) :=
  send_ptr ← build_region s;
  dst ← alloc buffer;
  r ← (v ← extern_fn name [send_ptr; dst]; returned_u32 v);
  if negb (r =? 0) then
    error ← error_text r;
    _ ← drop_region send_ptr;
    mret (Err (generic_err (prefix +:+ error)))
  else
    out ← consume_region dst;
    _ ← drop_region send_ptr;
    mret (Ok out).

Definition converted_cost (x : result WasmEngineError (bytes + bytes)) : Z :=
  match x with Ok (inl d) | Ok (inr d) => cost (length d) | _ => 0 end.
Definition address_cost (convert : bytes -> result WasmEngineError (bytes + bytes)) (buffer : Z) (address : bytes) : Z :=
  REGION_SIZE + SLACK + cost (Z.to_nat buffer) + converted_cost (convert address).

Section Address.
Context (name prefix : string) (sg : Signature) (index buffer : Z).
Context (price : WasmCosts -> Z) (convert : bytes -> result WasmEngineError (bytes + bytes)).
Hypothesis Hname : resolve_func false name = Ok (sg, index).
Hypothesis Hbuffer : 0 <= buffer <= ISIZE_MAX.
Hypothesis Hinvoke : forall ra sp dst vm m address, argument m sp address -> is_u32 dst ->
  invoke_index km depth ra index (map as_i32 [sp; dst]) (vm_with m vm) =
  mapErrX HostErr (x ← serve_address price convert address; answer_address ra dst x) (vm_with m vm).

(** The converted address must fit the buffer. *)
Definition convert_result (r0 : result WasmEngineError (bytes + bytes)) : result RunError (bytes + bytes) :=
  x ← map_err HostErr r0;
  match x with
  | inr c => if buffer <? Z.of_nat (length c) then Err (HostErr WMemoryWriteError) else Ok x
  | _ => Ok x
  end.

(** The imported function: a text in a new region, or the address in the buffer. *)
Lemma convert_reaches base vm m sp dst address vm' r0 :
  links vm -> argument m sp address -> region_free base m dst buffer ->
  serve_address price convert address vm = Some (vm', r0) ->
  converted_cost r0 <= room m ->
  reaches (v ← extern_fn name [sp; dst]; returned_u32 v) vm m vm' (convert_result r0)
    (fun m' p x => room m - converted_cost (Ok x) <= room m' /\
      match x with
      | inl text => region_holds m m' p text /\ p <> 0
      | inr c => region_holds base m' dst c /\ p = 0
      end).
Proof.
  intros Hl Harg Hfree Hs Hc.
  assert (is_u32 dst) as Ud.
  { destruct Hfree as (off & _ & Hd%live_bounds & _). unfold is_u32, REGION_SIZE in *. lia. }
  eapply (reaches_bind _ _ _ _ vm' (convert_result r0) (fun m' z x => room m - converted_cost (Ok x) <= room m' /\
      match x with
      | inl text => exists p, z = Some (as_i32 p) /\ is_u32 p /\ region_holds m m' p text /\ p <> 0
      | inr c => region_holds base m' dst c /\ z = Some 0
      end)).
  - unfold extern_fn. rw Hname.
    eapply (import_reaches index _ _ _ _ (serve_address price convert address) r0 (fun ra => answer_address ra dst));
      [apply serve_address_service|done|intros ra; by apply Hinvoke|].
    destruct r0 as [[text|c]|e|]; [| |done..]; cbn [converted_cost] in Hc.
    + destruct (host_writes vm' m text) as (n & m' & p & Hw & Hp & Up & Np & Hr);
        [by eapply service_links; [apply serve_address_service|..]|done|].
      exists n, m'. cbn. exists (Some (as_i32 p)). split; [|split; [done|by exists p]].
      intros fuel. unfold answer_text. cbv [mbind X_bind]. by rw Hw.
    + pose proof (room_bound m). cbn [convert_result map_err mbind result_bind].
      destruct (Z.ltb_spec buffer (Z.of_nat (length c))) as [Hb|Hb].
      * exists 0%nat, m, WMemoryWriteError. split; [done|]. intros fuel. cbn [answer_address]. cbv [mbind X_bind].
        rw (host_refuses_region base m dst buffer c vm' Hfree) //. unfold cost, SLACK, REGION_SIZE in *. lia.
      * destruct (host_fills_region base m dst buffer c vm' Hfree Hb) as (m' & W & Hh & R); [lia|].
        exists 0%nat, m', (Some 0). split; [|pose proof (cost_pos (length c)); cbn; split; [lia|done]].
        intros fuel. cbn [answer_address]. cbv [mbind X_bind]. by rw W.
  - destruct r0 as [[text|c]|e|]; cbn [convert_result map_err mbind result_bind]; [| |done..].
    + intros m1 z (R & p & -> & Up & Hp & Np). apply reaches_ret. by rw as_u32_i32.
    + destruct (buffer <? _); [done|]. intros m1 z (R & Hp & ->). by apply reaches_ret.
Qed.

Definition address_result (r0 : result WasmEngineError (bytes + bytes)) : result RunError (StdResult bytes) :=
  x ← map_err HostErr r0;
  match x with
  | inl text => Ok (Err (generic_err (prefix +:+ string_of_list_byte text)))
  | inr c => if buffer <? Z.of_nat (length c) then Err (HostErr WMemoryWriteError) else Ok (Ok c)
  end.

Lemma address_reaches vm m s address vm' r0 :
  links vm -> slice_holds m s address -> serve_address price convert address vm = Some (vm', r0) ->
  REGION_SIZE + SLACK + cost (Z.to_nat buffer) + converted_cost r0 <= room m ->
  reaches (address_program name prefix buffer s) vm m vm' (address_result r0) (fun m' a b =>
    frame m m' /\ room m - (REGION_SIZE + SLACK + cost (Z.to_nat buffer) + converted_cost r0) <= room m' /\
    match a, b with
    | Ok v, Ok d => vec_holds m m' v d
    | Err e, Err e' => e = e'
    | _, _ => False
    end).
Proof.
  intros Hl Hs Hq Hc. assert (0 <= converted_cost r0) as Hp0.
  { destruct r0 as [[d|d]|e|]; cbn; try apply cost_pos; lia. }
  pose proof (cost_pos (Z.to_nat buffer)).
  destruct (build_argument m s address Hs) as (m1 & sp & X1 & A1 & F1 & K1 & R1); [lia|].
  assert (cost (Z.to_nat buffer) = buffer + SLACK + (REGION_SIZE + SLACK)) as Ecost by (unfold cost; lia).
  destruct (alloc_computes km depth m1 buffer Hbuffer) as (m2 & dst & X2 & A2 & R2); [lia|].
  assert (frame m1 m2) as K2 by (by destruct A2 as (off & ? & ? & ? & ? & ? & ? & ?)).
  do 2 (eapply reaches_computes; [done|]).
  eapply reaches_bind; [eapply (convert_reaches m1 vm m2 sp dst address vm' r0 Hl (argument_frame _ _ _ _ A1 K2) A2 Hq); lia|].
  destruct r0 as [[text|c]|e|]; cbn [map_err mbind result_bind address_result convert_result]; [| |done..].
  - intros m3 p (R3 & Hp & Np). destruct (Z.eqb_spec p 0); [done|]. cbn [negb].
    destruct (consume_region_computes km depth m2 m3 p text Hp) as (m4 & v & X4 & V4 & R4).
    destruct (drop_vec_computes km depth m2 m4 v text V4) as (m5 & X5 & K5 & R5).
    assert (computes (error_text p) m3 m5 (string_of_list_byte text)) as X3.
    { eapply computes_bind; [done|]. eapply computes_bind; [by eapply read_slice_computes, vec_slice|].
      eapply computes_bind; [done|apply computes_ret]. }
    eapply reaches_computes; [done|].
    assert (frame m1 m5) as K1' by (by apply (frame_trans _ m2)).
    assert (frame m m5) as K by (by apply (frame_trans _ m1)).
    destruct (drop_region_computes km depth m m5 sp K F1) as (X6 & K6 & R6); [apply K1', A1|].
    eapply reaches_computes; [done|]. apply reaches_ret. cbn [converted_cost] in *. split_and!; [done|lia|done].
  - destruct (buffer <? _); [done|]. intros m3 p (R3 & Hp & ->). cbn [Z.eqb negb].
    destruct (consume_region_computes km depth m1 m3 dst c Hp) as (m4 & v & X4 & V4 & R4).
    eapply reaches_computes; [done|].
    assert (frame m m4) as K by (by apply (frame_trans _ m1); [|apply V4]).
    destruct (drop_region_computes km depth m m4 sp K F1) as (X6 & K6 & R6); [apply V4, A1|].
    eapply reaches_computes; [done|]. apply reaches_ret. cbn [converted_cost] in *. split_and!; [done|lia|].
    eapply (vec_after_free _ m1); [done|apply A1|done|done].
Qed.
End Address.

(** ** The refinement *)

(** [p] ends as [spec] does, with the same value or error, having kept every block of the
    program, when [need] bytes of heap are there. *)
Definition same_value {A} (m : Mem) (need : Z) (m' : Mem) (a b : A) : Prop :=
  a = b /\ frame m m' /\ room m - need <= room m'.
Definition refines {A} (p : G Mem A) (spec : X Mem RunError A) (need : VM Mem -> Z) : Prop :=
  forall vm m, links vm -> need vm <= room m ->
    exists vm' r, spec vm = Some (vm', r) /\ links vm' /\ reaches p vm m vm' r (same_value m (need vm)).

Lemma reaches_weaken {A B} (p : G Mem A) vm m vm' (r : result RunError B) (Post Post' : Mem -> A -> B -> Prop) :
  (forall m' a b, Post m' a b -> Post' m' a b) -> reaches p vm m vm' r Post -> reaches p vm m vm' r Post'.
Proof.
  intros HP [m' Hr]. exists m'. destruct r as [b|e|]; [|done..]. destruct Hr as (a & Hx & Hp). eauto.
Qed.

Lemma with_arg_reaches {A} d (call : Slice -> G Mem A) vm m vm' (r : result RunError A) need :
  0 <= need -> Z.of_nat (length d) + SLACK + need <= room m ->
  (forall m1 s, frame m m1 -> slice_holds m1 s d -> room m - (Z.of_nat (length d) + SLACK) <= room m1 ->
     reaches (call s) vm m1 vm' r (same_value m1 need)) ->
  reaches (with_arg d call) vm m vm' r (same_value m (Z.of_nat (length d) + SLACK + need)).
Proof.
  intros Hn Hc Hcall. pose proof (room_bound m).
  destruct (vec_of_computes km depth m d) as (m1 & v & X1 & V1 & R1); [unfold SLACK in *; lia|lia|].
  eapply reaches_computes; [done|].
  eapply reaches_bind; [apply Hcall; [apply V1|by eapply vec_slice|done]|].
  destruct r as [b|e|]; [|done..]. intros m2 a (-> & K2 & R2).
  destruct (drop_vec_computes km depth m m2 v d) as (m3 & X3 & K3 & R3); [by eapply vec_holds_frame|].
  eapply reaches_computes; [done|]. apply reaches_ret. split_and!; [done|done|lia].
Qed.

Lemma take_bytes_computes base m v d :
  vec_holds base m v d -> exists m', computes (take_bytes v) m m' d /\ frame base m' /\ room m <= room m'.
Proof.
  intros Hv. destruct (drop_vec_computes km depth base m v d Hv) as (m' & X1 & K & R). exists m'. split_and!; [|done..].
  eapply computes_bind; [by eapply read_slice_computes, vec_slice|]. eapply computes_bind; [done|apply computes_ret].
Qed.

Definition get_need (key : bytes) (vm : VM Mem) : Z :=
  cost (length key) + match serve_get km key vm with Some (_, Ok (Some d)) => cost (length d) | _ => 0 end.
Definition set_need (key value : bytes) : Z := cost (length key) + cost (length value).
Definition remove_need (key : bytes) : Z := cost (length key).
Definition query_need (request : bytes) (vm : VM Mem) : Z :=
  cost (length request) + match serve_query km depth request vm with Some (_, Ok d) => cost (length d) | _ => 0 end.
Definition address_need (price : WasmCosts -> Z) (convert : bytes -> result WasmEngineError (bytes + bytes)) (buffer : Z)
    (address : bytes) (vm : VM Mem) : Z :=
  cost (length address) + cost (Z.to_nat buffer) +
  match serve_address price convert address vm with Some (_, r0) => converted_cost r0 | None => 0 end.

Lemma serves {E A} (a : X Mem E A) vm : service a -> links vm -> exists vm' r, a vm = Some (vm', r) /\ links vm'.
Proof.
  intros Hs Hl. destruct (Hs vm) as (vm1 & r & E1 & Hm). specialize (Hm (memory (instance vm))).
  rw vm_with_memory in Hm. eexists _, r. split; [done|]. by eapply service_links.
Qed.

Lemma linked_get_refines key : refines (linked_get key) (ideal_get km key) (get_need key).
Proof.
  intros vm m Hl Hn. destruct (serves _ vm (serve_get_service key) Hl) as (vm' & r & Hs & Hl').
  exists vm', (map_err HostErr r). unfold ideal_get, mapErrX. rw Hs. split; [done|]. split; [done|].
  unfold get_need in *. rw Hs in Hn |- *. unfold cost at 1 in Hn.
  set (extra := match r with Ok (Some d) => cost (length d) | _ => 0 end) in *.
  assert (0 <= extra) as He by (unfold extra; destruct r as [[d|]| |]; try apply cost_pos; lia).
  unfold cost at 1. rw -Z.add_assoc.
  apply with_arg_reaches; [unfold REGION_SIZE, SLACK; lia|lia|]. intros m1 s K1 S1 R1.
  eapply reaches_bind; [eapply (get_reaches vm m1 s key vm' r Hl S1 Hs); fold extra; lia|].
  subst extra. destruct r as [[d|]|e|]; cbn [map_err]; [| |done..].
  - intros m2 [v|] (K2 & R2 & V2); [|done]. destruct (take_bytes_computes m1 m2 v d V2) as (m3 & X3 & K3 & R3).
    eapply reaches_computes; [done|]. apply reaches_ret. split_and!; [done|done|lia].
  - intros m2 [v|] (K2 & R2 & V2); [done|]. apply reaches_ret. split_and!; [done|done|lia].
Qed.

Lemma linked_set_refines key value : refines (linked_set key value) (ideal_set km key value) (fun _ => set_need key value).
Proof.
  intros vm m Hl Hn. destruct (serves _ vm (serve_change_service (write_encrypted_key km key value)) Hl) as (vm' & r & Hs & Hl').
  exists vm', (map_err HostErr r). unfold ideal_set, mapErrX. rw Hs. split; [done|]. split; [done|].
  assert (set_need key value = Z.of_nat (length key) + SLACK +
            (Z.of_nat (length value) + SLACK + 2 * (REGION_SIZE + SLACK))) as E by (unfold set_need, cost; lia).
  rw E in Hn |- *. apply with_arg_reaches; [unfold REGION_SIZE, SLACK; lia|done|]. intros m1 s K1 S1 R1.
  apply with_arg_reaches; [unfold REGION_SIZE, SLACK; lia|lia|]. intros m2 s2 K2 S2 R2.
  eapply reaches_weaken; [|eapply (set_reaches vm m2 s key s2 value vm' r); [by eapply slice_frame|done|done|lia]].
  intros m3 [] [] [K3 R3]. by split_and!.
Qed.

Lemma linked_remove_refines key : refines (linked_remove key) (ideal_remove key) (fun _ => remove_need key).
Proof.
  intros vm m Hl Hn. destruct (serves _ vm (serve_change_service (remove_encrypted_key key)) Hl) as (vm' & r & Hs & Hl').
  exists vm', (map_err HostErr r). unfold ideal_remove, mapErrX. rw Hs. split; [done|]. split; [done|].
  unfold remove_need, cost in *. apply with_arg_reaches; [unfold REGION_SIZE, SLACK; lia|done|]. intros m1 s K1 S1 R1.
  eapply reaches_weaken; [|eapply (remove_reaches vm m1 s key vm' r); [done|done|lia]].
  intros m3 [] [] [K3 R3]. by split_and!.
Qed.

Lemma linked_query_refines request : refines (linked_query request) (ideal_query km depth request) (query_need request).
Proof.
  intros vm m Hl Hn. destruct (serves _ vm (serve_query_service request) Hl) as (vm' & r & Hs & Hl').
  exists vm', (map_err HostErr (external_raw_query <$> r)). split_and!; [|done|].
  { unfold ideal_query, mapErrX. cbv [mbind X_bind]. rw Hs. by destruct r. }
  unfold query_need in *. rw Hs in Hn |- *. unfold cost at 1 in Hn.
  set (extra := match r with Ok d => cost (length d) | _ => 0 end) in *.
  assert (0 <= extra) as He by (unfold extra; destruct r; try apply cost_pos; lia).
  unfold cost at 1. rw -Z.add_assoc.
  apply with_arg_reaches; [unfold REGION_SIZE, SLACK; lia|lia|]. intros m1 s K1 S1 R1.
  pose proof (raw_query_reaches vm m1 s request vm' r Hl S1 Hs) as [m2 H2]; [fold extra; lia|].
  exists m2. subst extra. destruct r as [d|e|]; cbn [map_err fmap result_fmap] in *; [|done..].
  destruct H2 as (q & Hx & K2 & R2 & ->). eexists. split; [done|]. split_and!; [done|done|lia].
Qed.

Lemma linked_address_refines name prefix sg index buffer price convert (call : Slice -> G Mem (StdResult Vec)) address :
  resolve_func false name = Ok (sg, index) -> 0 <= buffer <= ISIZE_MAX ->
  (forall ra sp dst vm m a, argument m sp a -> is_u32 dst ->
    invoke_index km depth ra index (map as_i32 [sp; dst]) (vm_with m vm) =
    mapErrX HostErr (x ← serve_address price convert a; answer_address ra dst x) (vm_with m vm)) ->
  (forall s, call s = address_program name prefix buffer s) ->
  refines (linked_address call address) (ideal_address price convert buffer prefix address)
    (address_need price convert buffer address).
Proof.
  intros Hname Hb Hi Hcall vm m Hl Hn.
  destruct (serves _ vm (serve_address_service price convert address) Hl) as (vm' & r0 & Hs & Hl').
  exists vm', (address_result prefix buffer r0). split_and!; [|done|].
  { unfold ideal_address, mapErrX. cbv [mbind X_bind]. rw Hs. destruct r0 as [[t|c]|e|]; [done| |done..].
    cbn [address_result map_err mbind result_bind]. by destruct (buffer <? _). }
  unfold address_need in *. rw Hs in Hn |- *. unfold cost at 1 in Hn. pose proof (cost_pos (Z.to_nat buffer)).
  assert (0 <= converted_cost r0) as Hp0 by (destruct r0 as [[d|d]|e|]; cbn; try apply cost_pos; lia).
  set (extra := REGION_SIZE + SLACK + cost (Z.to_nat buffer) + converted_cost r0).
  replace (cost (length address) + cost (Z.to_nat buffer) + converted_cost r0)
    with (Z.of_nat (length address) + SLACK + extra) by (unfold extra, cost at 2; lia).
  apply with_arg_reaches; [unfold extra, REGION_SIZE, SLACK; lia|unfold extra; lia|]. intros m1 s K1 S1 R1.
  rw Hcall.
  eapply reaches_bind; [eapply (address_reaches name prefix sg index buffer price convert Hname Hb Hi vm m1 s address vm' r0 Hl S1 Hs);
    fold extra; unfold extra in *; lia|].
  fold extra. destruct r0 as [[t|c]|e|]; cbn [address_result map_err mbind result_bind]; [| |done..].
  - intros m2 [v|e|] (K2 & R2 & V2); [done| |done]. subst e. apply reaches_ret. split_and!; [done|done|lia].
  - destruct (buffer <? _); [done|]. intros m2 [v|e|] (K2 & R2 & V2); [|done..].
    destruct (take_bytes_computes m1 m2 v c V2) as (m3 & X3 & K3 & R3).
    eapply reaches_computes; [done|]. apply reaches_ret. split_and!; [done|done|lia].
Qed.

Lemma refines_bind {A B} (p : G Mem A) (f : A -> G Mem B) spec (g : A -> X Mem RunError B) need (need' : A -> VM Mem -> Z) :
  (forall vm, 0 <= need vm) -> (forall a vm, 0 <= need' a vm) ->
  refines p spec need -> (forall a, refines (f a) (g a) (need' a)) ->
  refines (p ≫= f) (spec ≫= g)
    (fun vm => need vm + match spec vm with Some (vm', Ok a) => need' a vm' | _ => 0 end).
Proof.
  intros Hn0 Hn1 Hp Hf vm m Hl Hn. pose proof (Hn0 vm).
  assert (need vm <= room m) as Hn'.
  { destruct (spec vm) as [[vm1 [a| |]]|]; [pose proof (Hn1 a vm1)|..]; lia. }
  destruct (Hp vm m Hl Hn') as (vm1 & r1 & E1 & L1 & H1). rw E1 in Hn |- *. cbv [mbind X_bind]. rw E1.
  destruct r1 as [a|e|].
  - destruct H1 as (m1 & a' & X1 & -> & K1 & R1). destruct (Hf a vm1 m1 L1) as (vm2 & r2 & E2 & L2 & H2); [lia|].
    exists vm2, r2. split_and!; [done|done|].
    eapply (reaches_bind _ _ _ _ vm1 (Ok a) (fun m' x _ => m' = m1 /\ x = a)); [by exists m1, a|].
    intros m2 a2 [-> ->]. eapply reaches_weaken; [|exact H2]. intros m3 b b' (-> & K3 & R3).
    split_and!; [done|by apply (frame_trans _ m1)|lia].
  - exists vm1, (Err e). split_and!; [done|done|]. by eapply reaches_bind; [exact H1|].
  - exists vm1, Panic. split_and!; [done|done|]. by eapply reaches_bind; [exact H1|].
Qed.

(** The heap a program needs: that of its calls. *)
Definition after {B} (vm : VM Mem) (spec : X Mem RunError B) (k : B -> VM Mem -> Z) : Z :=
  match spec vm with Some (vm', Ok b) => k b vm' | _ => 0 end.
Fixpoint program_need {A} (c : contract_program A) (vm : VM Mem) : Z :=
  match c with
  | Done _ => 0
  | Get key k => get_need key vm + after vm (ideal_get km key) (fun r => program_need (k r))
  | Set_ key value k => set_need key value + after vm (ideal_set km key value) (fun _ => program_need k)
  | Remove key k => remove_need key + after vm (ideal_remove key) (fun _ => program_need k)
  | Canonical human k =>
      address_need external_canonicalize_address canonicalize CANONICAL_ADDRESS_BUFFER_LENGTH human vm +
      after vm (ideal_canonical_address human) (fun r => program_need (k r))
  | Human canonical k =>
      address_need external_humanize_address humanize HUMAN_ADDRESS_BUFFER_LENGTH canonical vm +
      after vm (ideal_human_address canonical) (fun r => program_need (k r))
  | RawQuery request k =>
      query_need request vm + after vm (ideal_query km depth request) (fun r => program_need (k r))
  end.

Lemma get_need_pos key vm : 0 <= get_need key vm.
Proof.
  unfold get_need. pose proof (cost_pos (length key)).
  destruct (serve_get km key vm) as [[? [[d|]| |]]|]; [pose proof (cost_pos (length d))|..]; lia.
Qed.
Lemma query_need_pos request vm : 0 <= query_need request vm.
Proof.
  unfold query_need. pose proof (cost_pos (length request)).
  destruct (serve_query km depth request vm) as [[? [d| |]]|]; [pose proof (cost_pos (length d))|..]; lia.
Qed.
Lemma address_need_pos price convert buffer address vm : 0 <= address_need price convert buffer address vm.
Proof.
  unfold address_need. pose proof (cost_pos (length address)). pose proof (cost_pos (Z.to_nat buffer)).
  destruct (serve_address price convert address vm) as [[? [[d|d]| |]]|]; cbn [converted_cost];
    [pose proof (cost_pos (length d))|pose proof (cost_pos (length d))|..]; lia.
Qed.
Lemma set_need_pos key value : 0 <= set_need key value.
Proof. unfold set_need. pose proof (cost_pos (length key)). pose proof (cost_pos (length value)). lia. Qed.

Lemma after_pos {B} n vm (spec : X Mem RunError B) k :
  0 <= n -> (forall b vm', 0 <= k b vm') -> 0 <= n + after vm spec k.
Proof. intros Hn Hk. unfold after. destruct (spec vm) as [[vm1 [b| |]]|]; [pose proof (Hk b vm1)|..]; lia. Qed.

Lemma program_need_pos {A} (c : contract_program A) vm : 0 <= program_need c vm.
Proof.
  revert vm. induction c; intros vm; cbn [program_need]; [done|apply after_pos; [|auto]..].
  - apply get_need_pos.
  - apply set_need_pos.
  - apply cost_pos.
  - apply address_need_pos.
  - apply address_need_pos.
  - apply query_need_pos.
Qed.

(** The induction over the services a program uses. *)
Lemma linked_refines {A} (c : contract_program A) :
  refines (linked c) (ideal km depth c) (program_need c).
Proof.
  induction c as [a|key k IH|key value k IH|key k IH|a k IH|a k IH|q k IH]; cbn [linked ideal].
  - intros vm m Hl Hn. exists vm, (Ok a). split_and!; [done|done|]. apply reaches_ret.
    split_and!; [done|apply frame_refl|cbn; lia].
  - eapply (refines_bind _ _ _ _ (get_need key)); [apply get_need_pos|intros; apply program_need_pos|
      apply linked_get_refines|done].
  - eapply (refines_bind _ _ _ _ (fun _ => set_need key value)); [intros; apply set_need_pos|intros; apply program_need_pos|
      apply linked_set_refines|intros; apply IH].
  - eapply (refines_bind _ _ _ _ (fun _ => remove_need key)); [intros; apply cost_pos|intros; apply program_need_pos|
      apply linked_remove_refines|intros; apply IH].
  - eapply (refines_bind _ _ _ _ (address_need external_canonicalize_address canonicalize CANONICAL_ADDRESS_BUFFER_LENGTH a));
      [intros; apply address_need_pos|intros; apply program_need_pos| |done].
    eapply (linked_address_refines "canonicalize_address"); [done|by split|intros; by apply invoke_canonicalize|done].
  - eapply (refines_bind _ _ _ _ (address_need external_humanize_address humanize HUMAN_ADDRESS_BUFFER_LENGTH a));
      [intros; apply address_need_pos|intros; apply program_need_pos| |done].
    eapply (linked_address_refines "humanize_address"); [done|by split|intros; by apply invoke_humanize|done].
  - eapply (refines_bind _ _ _ _ (query_need q)); [apply query_need_pos|intros; apply program_need_pos|
      apply linked_query_refines|done].
Qed.

(** C14: A contract function linked to the enclave through cosmwasm-std (regions, allocation in
    its own memory, calls of imported functions) ends exactly as the same function run on
    the services of the enclave with no memory in between: the same ocalls and gas, the same
    value or error, and every other block of its heap unchanged, whenever the heap that the
    calls need is there. *)
Theorem linked_contract_refines {A} (c : contract_program A) :
  refines (linked c) (ideal km depth c) (program_need c).
Proof. apply linked_refines. Qed.
End Refinement.

(** ** Iteration *)

Section Range.
Context {Mem : Type} `{WM : WasmMemory Mem} {ML : WasmMemoryLaws Mem} `{AL : Allocator Mem} {LL : AllocatorLaws Mem}.
Context `{P : Primitives} `{C : Codecs} `{Ho : Host} `{BE : Bech32Errors}.
Context `{JQ : Json QueryChain.QueryRequest} `{JA : Json QueryAnswer} `{JS : Json QueryChain.StdError} `{JE : JsonErrors}.
Variable km : Keychain.
Variable depth : Z.
Variable db_scan : Z -> Z -> Z -> G Mem Z.

(** ExternalStorage::range calls db_scan with pointers to region descriptors that it has already
    freed. *)
Theorem range_scans_freed_regions vm m s1 d1 s2 d2 order vm' r :
  slice_holds m s1 d1 -> slice_holds m s2 d2 -> 2 * (REGION_SIZE + SLACK) <= room m ->
  exists m1 m2 p1 p2,
    argument m1 p1 d1 /\ argument m2 p2 d2 /\ frame live (free m1 p1 REGION_SIZE 4) m2 /\
    (executes km depth (db_scan p1 p2 (order_into order)) (vm_with (free m2 p2 REGION_SIZE 4) vm) vm' r ->
     executes km depth (ExternalStorage.range db_scan (Some s1) (Some s2) order) (vm_with m vm) vm' r).
Proof.
  intros H1 H2 Hr.
  destruct (build_argument km depth m s1 d1 H1) as (m1 & p1 & X1 & A1 & F1 & K1 & R1); [unfold REGION_SIZE, SLACK in *; lia|].
  destruct (drop_region_computes km depth m m1 p1 K1 F1 (proj1 A1)) as (X2 & K2 & R2).
  destruct (build_argument km depth (free m1 p1 REGION_SIZE 4) s2 d2) as (m2 & p2 & X3 & A3 & F3 & K3 & R3);
    [by eapply slice_frame|lia|].
  destruct (drop_region_computes km depth _ m2 p2 K3 F3 (proj1 A3)) as (X4 & K4 & R4).
  exists m1, m2, p1, p2. split_and!; [done|done|done|]. intros Hx.
  eapply executes_bind; [eapply executes_bind; [apply X1|eapply executes_bind; [apply X2|apply executes_ret]]|].
  eapply executes_bind; [eapply executes_bind; [apply X3|eapply executes_bind; [apply X4|apply executes_ret]]|]. done.
Qed.
End Range.

(** ** A contract on a concrete memory *)

#[local] Existing Instance arena_memory.
#[local] Existing Instance arena_laws.
#[local] Existing Instance arena_allocator.
#[local] Existing Instance arena_allocator_laws.
#[local] Existing Instance demo_primitives.
#[local] Existing Instance demo_codecs.
#[local] Existing Instance demo_host.
#[local] Existing Instance demo_bech32_errors.
#[local] Existing Instance demo_json_errors.
#[local] Existing Instance no_json.

Definition demo_serde_result : Serde QuerierResult := {|
  to_vec _ := Err (generic_err "unused");
  from_slice _ := Err (generic_err "unused");
  type_name := "QuerierResult"
|}.
#[local] Existing Instance demo_serde_result.

Definition demo_arena : arena := mkArena (replicate 2047 Byte.x00) 8 [] None.

Definition demo_guest_vm (e : Exports arena) (op : ContractOperation) : VM arena :=
  mkVM (mkInstance demo_arena 100000 0 0 default_wasm_costs (replicate 64 Byte.x07) e op demo_nonce demo_user) [].

Definition memory_exports : Exports arena := mkExports (Some allocate_export) None None None.

(** Stores a value, converts an address and reads the value back. *)
Definition demo_program : contract_program (option bytes * StdResult bytes) :=
  Set_ (lit "k") (lit "v") (Canonical (lit "nobody") (fun a => Get (lit "k") (fun v => Done (v, a)))).

Lemma linked_contract_refines_witness :
  exists vm' m', executes demo_db_km 1 (linked demo_program)
      (vm_with demo_arena (demo_guest_vm memory_exports OpHandle)) (vm_with m' vm')
      (Ok (Some (lit "v"), Ok (lit "nobody"))) /\
    frame live demo_arena m'.
Proof.
  assert (program_need (Mem := arena) demo_db_km 1 demo_program (demo_guest_vm memory_exports OpHandle) <= room demo_arena)
    as Hn by (vm_compute; discriminate).
  assert ((fun o => snd <$> o) (ideal demo_db_km 1 demo_program (demo_guest_vm memory_exports OpHandle))
          = Some (Ok (Some (lit "v"), Ok (lit "nobody")))) as Hv by (vm_compute; reflexivity).
  pose proof (linked_contract_refines demo_db_km 1 demo_program (demo_guest_vm memory_exports OpHandle) demo_arena
                eq_refl Hn) as (vm' & r & E & _ & Hr).
  rw E in Hv. cbn [fmap option_fmap option_map snd] in Hv. injection Hv as ->.
  destruct Hr as (m' & a & Hx & Ha & Hf & _). subst a.
  exists vm', m'. split; [exact Hx|exact Hf].
Defined.

(** With an allocator that reuses the block freed last, both bounds of a range are the same pointer:
    a host that reads them sees the upper bound twice. *)
Theorem range_bounds_collapse :
  let bounds (start stop : Z) (order : Z) : G arena Z :=
    on_memory (fun m => Some (m, if bool_decide (extract_vector_inner m start = Some (lit "b") /\
                                                 extract_vector_inner m stop = Some (lit "b")) then 1 else 0)) in
  (fun o => snd <$> o)
    (run demo_db_km 1 100 ((a ← vec_of (lit "a"); b ← vec_of (lit "b");
        ExternalStorage.range bounds (Some (as_slice a)) (Some (as_slice b)) Ascending) (fun r => GReturn (Some r)))
       (demo_guest_vm memory_exports OpHandle))
  = Some (Ok (Some 1)).
Proof. vm_compute. reflexivity. Qed.
