(* ===== verification/DebugPrint.v ===== *)
(** * Debug output: std/src/debug_print.rs, the import of the enclave and contracts/debug-print

    With the feature debug-print a contract can print: it builds a region over the text and
    calls an imported function, and the enclave logs what the region describes.  Other builds
    compile the call to nothing. *)

From Stdlib Require Import Strings.String.
From stdpp Require Import base tactics list numbers strings ssreflect.
From S2P Require Import Prelude Utf8 Crypto SecretMsg EnclaveDb QueryChain Runtime GuestMemory WasmCheck Math Storage Typed Std Querying GuestImports GuestLink.

Local Open Scope string_scope.
Local Open Scope list_scope.
Local Open Scope Z_scope.

(** ** std/src/debug_print.rs *)

Section Guest.
Context {Mem : Type} `{WM : WasmMemory Mem} `{AL : Allocator Mem}.
#[local] Abbreviation G := (G Mem).

Definition debug_print_import (text : Z) : G unit :=
  match resolve_func true "debug_print" with
  | Ok (_, index) => _ ← import index [as_i32 text]; mret tt
  | _ => fun _ => GTrap OtherTrap
  end.

(** The box of the region is dropped at the end, the text is the caller's. *)
Definition _debug_print (message : Slice) : G unit :=
  message_ptr ← build_region message;
  _ ← debug_print_import message_ptr;
  drop_region message_ptr.

(** [debug_print] of the build: [enabled] is the feature on wasm32. *)
Definition debug_print (enabled : bool) (message : Slice) : G unit :=
  if enabled then _debug_print message else mret tt.

End Guest.

(** ** wasmi-runtime/src/wasm/runtime/contract.rs *)

Section Enclave.
Context {Mem : Type} `{WM : WasmMemory Mem} `{C : Codecs}.

(** What is logged, and the value for the contract. *)
Definition debug_print_index (message_ptr_ptr : Z) : X Mem WasmEngineError (string * option Z) :=
  message_buffer ← extract_vector (as_u32 message_ptr_ptr);
  let message := if Text.from_utf8 message_buffer then string_of_list_byte message_buffer
                 else hex_encode message_buffer in
  mret (message, None).

End Enclave.

(** ** contracts/debug-print/src/contract.rs *)

Module DebugContract.
Section DebugContract.
Context {S : Type}.

Definition init (env : Env) : M S Math.StdError (InitResponse Empty) := mret default_init_response.

(** The texts that are printed, in order, and the response. *)
Definition handle (env : Env) : M S Math.StdError (list string * HandleResponse Empty) :=
  mret (["message1"; "message2"; "message" +:+ "3"], default_handle_response).

Definition query (s : S) : StdResult Binary := Err (generic_err "").

End DebugContract.
End DebugContract.

(** ** Properties *)

Section Printing.
Context {Mem : Type} `{WM : WasmMemory Mem} {ML : WasmMemoryLaws Mem} `{AL : Allocator Mem} {LL : AllocatorLaws Mem}.
Context `{P : Primitives} `{C : Codecs} `{Ho : Host} `{BE : Bech32Errors}.
Context `{JQ : Json QueryChain.QueryRequest} `{JA : Json QueryAnswer} `{JS : Json QueryChain.StdError} `{JE : JsonErrors}.
Variable km : Keychain.
Variable depth : Z.

(** What a contract prints is what the enclave logs: the region that _debug_print builds makes
    debug_print_index read exactly the text, and nothing of the contract's memory changes. *)
Theorem printed_text_is_logged m s text :
  slice_holds m s (lit text) -> Text.from_utf8 (lit text) = true -> REGION_SIZE + SLACK <= room m ->
  exists m' p, computes km depth (build_region s) m m' p /\ frame live m m' /\
    forall vm, debug_print_index (as_i32 p) (vm_with m' vm) = Some (vm_with m' vm, Ok (text, None)).
Proof.
  intros Hs Hu Hr. destruct (build_region_computes km depth m s (lit text) Hs Hr) as (m' & p & Hc & Hreg & Hl & _ & Hf & _).
  exists m', p. split_and!; [done|done|]. intros vm. unfold debug_print_index. cbv [mbind X_bind].
  assert (as_u32 (as_i32 p) = p) as ->.
  { apply live_bounds in Hl. unfold REGION_SIZE in Hl. apply as_u32_i32. unfold is_u32. lia. }
  erewrite host_reads_slice; [|done|done|by eapply slice_frame]. cbv [mret X_ret]. rw Hu. by rw string_of_lit.
Qed.
End Printing.
