(* ===== verification/GuestExports.v ===== *)
(** * What a contract exports: std/src/exports.rs and entry_points.rs

    [do_init], [do_handle], [do_query] and [do_migrate] take the regions the enclave filled, parse
    them, call the contract and release the region of the serialized result;
    [create_entry_points] makes exports of them.  The enclave's calls of such a contract return
    what the contract computes from the parsed arguments.  This is the contract as it was compiled;
    what the gas counter adds to it when it is loaded is in Metering and MeteredContract. *)

From Stdlib Require Import Strings.String.
From stdpp Require Import base tactics list numbers strings ssreflect.
From S2P Require Import Prelude Utf8 Crypto SecretMsg Validation EnclaveDb QueryChain Runtime Operations GuestMemory GuestArena WasmCheck Math Storage Typed Std Querying GuestImports GuestLink.

Local Open Scope list_scope.
Local Open Scope Z_scope.

Section Exports.
Context {Mem : Type} `{WM : WasmMemory Mem} `{AL : Allocator Mem}.
Context `{SE : Serde Std.Env}.
#[local] Abbreviation G := (G Mem).

(** A panic inside the contract ends the call. *)
Definition unwind {A} (r : StdResult A) : G (StdResult A) :=
  match r with Panic => panic | _ => mret r end.

(** [from_slice] on the bytes of a vector. *)
Definition parse_vec {T} `{Serde T} (v : Vec) : G (StdResult T) :=
  d ← read_slice (as_slice v);
  unwind (from_slice d).

(** [to_vec(&res).unwrap()] and [release_buffer]: the capacity of the buffer is forgotten there. *)
Definition release_result {R} `{Serde (StdResult R)} (res : StdResult R) : G Z :=
  match to_vec res with
  | Ok d => v ← vec_of d; release_buffer v
  | _ => panic
  end.

Section WithEnv.
Context {T R : Type} `{ST : Serde T}.

(** The arguments are parsed one after the other; an error of either is the result. *)
Definition parse_and_call (contract_fn : Std.Env -> T -> G (StdResult R)) (env msg : Vec) : G (StdResult R) :=
  e ← parse_vec env;
  match e with
  | Ok parsed_env =>
      m ← parse_vec msg;
      match m with
      | Ok parsed_msg => r ← contract_fn parsed_env parsed_msg; unwind r
      | Err err => mret (Err err)
      | Panic => panic
      end
  | Err err => mret (Err err)
  | Panic => panic
  end.

(** The body of [_do_init], [_do_handle] and [_do_migrate]: both vectors live until the function
    returns. *)
Definition call_with_env (contract_fn : Std.Env -> T -> G (StdResult R)) (env_ptr msg_ptr : Z) : G (StdResult R) :=
  env ← consume_region env_ptr;
  msg ← consume_region msg_ptr;
  res ← parse_and_call contract_fn env msg;
  _ ← drop_vec msg;
  _ ← drop_vec env;
  mret res.

Definition call_without_env (contract_fn : T -> G (StdResult R)) (msg_ptr : Z) : G (StdResult R) :=
  msg ← consume_region msg_ptr;
  m ← parse_vec msg;
  res ← match m with
        | Ok parsed_msg => r ← contract_fn parsed_msg; unwind r
        | Err err => mret (Err err)
        | Panic => panic
        end;
  _ ← drop_vec msg;
  mret res.
End WithEnv.

Section Entry.
Context {T U : Type} `{ST : Serde T}.

(** The three bodies differ in the type of the response only. *)
Definition _do_init (init_fn : Std.Env -> T -> G (StdResult (InitResponse U))) (env_ptr msg_ptr : Z)
  : G (StdResult (InitResponse U)) := call_with_env init_fn env_ptr msg_ptr.
Definition _do_handle (handle_fn : Std.Env -> T -> G (StdResult (HandleResponse U))) (env_ptr msg_ptr : Z)
  : G (StdResult (HandleResponse U)) := call_with_env handle_fn env_ptr msg_ptr.
Definition _do_migrate (migrate_fn : Std.Env -> T -> G (StdResult (MigrateResponse U))) (env_ptr msg_ptr : Z)
  : G (StdResult (MigrateResponse U)) := call_with_env migrate_fn env_ptr msg_ptr.
Definition _do_query (query_fn : T -> G (StdResult Binary)) (msg_ptr : Z) : G (StdResult Binary) :=
  call_without_env query_fn msg_ptr.

Definition do_init `{Serde (StdResult (InitResponse U))} (init_fn : Std.Env -> T -> G (StdResult (InitResponse U)))
    (env_ptr msg_ptr : Z) : G Z :=
  res ← _do_init init_fn env_ptr msg_ptr;
  release_result res.

Definition do_handle `{Serde (StdResult (HandleResponse U))} (handle_fn : Std.Env -> T -> G (StdResult (HandleResponse U)))
    (env_ptr msg_ptr : Z) : G Z :=
  res ← _do_handle handle_fn env_ptr msg_ptr;
  release_result res.

Definition do_query `{Serde (StdResult Binary)} (query_fn : T -> G (StdResult Binary)) (msg_ptr : Z) : G Z :=
  res ← _do_query query_fn msg_ptr;
  release_result res.

Definition do_migrate `{Serde (StdResult (MigrateResponse U))} (migrate_fn : Std.Env -> T -> G (StdResult (MigrateResponse U)))
    (env_ptr msg_ptr : Z) : G Z :=
  res ← _do_migrate migrate_fn env_ptr msg_ptr;
  release_result res.
End Entry.

End Exports.

(** ** entry_points.rs *)

(** What the module given to [create_entry_points] exports. *)
Record contract_module (I H Q U : Type) : Type := mkModule {
  init_fn : Std.Env -> I -> contract_program (StdResult (InitResponse U));
  handle_fn : Std.Env -> H -> contract_program (StdResult (HandleResponse U));
  query_fn : Q -> contract_program (StdResult Binary)
}.
Arguments mkModule {I H Q U} init_fn handle_fn query_fn.
Arguments init_fn {I H Q U} c.
Arguments handle_fn {I H Q U} c.
Arguments query_fn {I H Q U} c.

Section EntryPoints.
Context {Mem : Type} `{WM : WasmMemory Mem} `{AL : Allocator Mem}.
Context `{SE : Serde Std.Env} `{SQ : Serde QuerierResult}.
Context {I H Q U : Type} `{SI : Serde I} `{SH : Serde H} `{SM : Serde Q}.
Context `{RI : Serde (StdResult (InitResponse U))} `{RH : Serde (StdResult (HandleResponse U))} `{RQ : Serde (StdResult Binary)}.

(** An [extern "C"] function that returns a pointer. *)
Definition extern_c (p : G Mem Z) : guest Mem := p (fun ptr => GReturn (Some (as_i32 ptr))).

(** The exports of the module as it was compiled, before the gas counter is injected. *)
Definition create_entry_points (c : contract_module I H Q U) : Exports Mem :=
  mkExports (Some allocate_export)
    (Some (fun env_ptr msg_ptr =>
       extern_c (do_init (fun env msg => linked (init_fn c env msg)) (as_u32 env_ptr) (as_u32 msg_ptr))))
    (Some (fun env_ptr msg_ptr =>
       extern_c (do_handle (fun env msg => linked (handle_fn c env msg)) (as_u32 env_ptr) (as_u32 msg_ptr))))
    (Some (fun msg_ptr => extern_c (do_query (fun msg => linked (query_fn c msg)) (as_u32 msg_ptr)))).

(** [create_entry_points_with_migration] adds this export. *)
Definition migrate_entry {T} `{Serde T} `{Serde (StdResult (MigrateResponse U))}
    (migrate_fn : Std.Env -> T -> contract_program (StdResult (MigrateResponse U))) (env_ptr msg_ptr : Z) : guest Mem :=
  extern_c (do_migrate (fun env msg => linked (migrate_fn env msg)) (as_u32 env_ptr) (as_u32 msg_ptr)).

End EntryPoints.

(** ** What the enclave gets from such a contract *)

Section Calls.
Context {Mem : Type} `{WM : WasmMemory Mem} {ML : WasmMemoryLaws Mem} `{AL : Allocator Mem} {LL : AllocatorLaws Mem}.
Context `{P : Primitives} `{C : Codecs} `{Ho : Host} `{BE : Bech32Errors}.
Context `{JQ : Json QueryChain.QueryRequest} `{JA : Json QueryAnswer} `{JS : Json QueryChain.StdError} `{JE : JsonErrors}.
Context `{SE : Serde Std.Env} `{SQ : Serde QuerierResult}.
Variable km : Keychain.
Variable depth : Z.
#[local] Abbreviation frame := (frame (Mem := Mem) live).
#[local] Abbreviation computes := (computes (Mem := Mem) km depth).
#[local] Abbreviation reaches := (reaches (Mem := Mem) km depth).

Definition trap {A} : X Mem RunError A := throwX (TrapErr Unreachable).

(** The result as the enclave reads it; a panic has become a trap. *)
Definition encode {R} `{Serde (StdResult R)} (r : StdResult R) : X Mem RunError bytes :=
  match r with
  | Panic => trap
  | _ => match to_vec r with Ok d => mret d | _ => trap end
  end.

(** A contract called on what was parsed of its arguments. *)
Definition ideal_parsed {A R} (parsed : StdResult A) (f : A -> contract_program (StdResult R)) : X Mem RunError (StdResult R) :=
  match parsed with
  | Ok a => r ← ideal km depth (f a); match r with Panic => trap | _ => mret r end
  | Err err => mret (Err err)
  | Panic => trap
  end.

(** The environment is parsed first. *)
Definition parse_args {T} `{Serde T} (env msg : bytes) : StdResult (Std.Env * T) :=
  e ← from_slice env;
  m ← from_slice msg;
  Ok (e, m).

Lemma panic_reaches {A B} vm m (Post : Mem -> A -> B -> Prop) :
  reaches (panic (A := A)) vm m vm (Err (TrapErr Unreachable) : result RunError B) Post.
Proof. exists m. exists 1%nat. apply takes_panic. Qed.

Lemma ideal_ends {A} (c : contract_program A) vm m :
  links vm -> program_need km depth c vm <= room m ->
  exists vm' r, ideal km depth c vm = Some (vm', r) /\ links vm' /\
    reaches (linked c) vm m vm' r (same_value m (program_need km depth c vm)).
Proof. intros Hl Hn. by apply (linked_refines km depth c vm m Hl Hn). Qed.

(** A contract function called on what [parse_vec] made of the arguments. *)
Definition parsed_need {A R} (parsed : StdResult A) (f : A -> contract_program (StdResult R)) (vm : VM Mem) : Z :=
  match parsed with Ok a => program_need km depth (f a) vm | _ => 0 end.

Lemma parsed_reaches {A R} (parsed : StdResult A) (f : A -> contract_program (StdResult R)) vm m :
  links vm -> parsed_need parsed f vm <= room m ->
  exists vm' r, ideal_parsed parsed f vm = Some (vm', r) /\ links vm' /\
    reaches (match parsed with
             | Ok a => r ← linked (f a); unwind r
             | Err err => mret (Err err)
             | Panic => panic
             end) vm m vm' r (fun m' a b => same_value m (parsed_need parsed f vm) m' a b /\ b <> Panic).
Proof.
  intros Hl Hn. destruct parsed as [a|err|]; cbn [parsed_need ideal_parsed] in *.
  - destruct (ideal_ends (f a) vm m Hl Hn) as (vm' & r & E & L & H). cbv [mbind X_bind]. rw E.
    destruct r as [x|e|].
    + destruct x as [y|y|]; eexists _, _; (split; [reflexivity|]); (split; [done|]);
        (eapply reaches_bind; [exact H|]); intros m1 b (-> & K & R1).
      * by apply reaches_ret.
      * by apply reaches_ret.
      * apply panic_reaches.
    + exists vm', (Err e). split_and!; [done|done|]. by eapply reaches_bind; [exact H|].
    + exists vm', Panic. split_and!; [done|done|]. by eapply reaches_bind; [exact H|].
  - exists vm, (Ok (Err err)). split_and!; [done|done|]. apply reaches_ret.
    split; [|done]. split_and!; [done|apply frame_refl|lia].
  - exists vm, (Err (TrapErr Unreachable)). split_and!; [done|done|apply panic_reaches].
Qed.

Lemma parse_vec_computes {T} `{Serde T} base m v d :
  vec_holds base m v d -> from_slice (T := T) d <> Panic -> computes (parse_vec v) m m (from_slice (T := T) d).
Proof.
  intros Hv Hp. eapply computes_bind; [by eapply read_slice_computes, vec_slice|].
  unfold unwind. destruct (from_slice d); [apply computes_ret..|done].
Qed.

Lemma parse_vec_panics {T A B} `{Serde T} base vm m v d (k : StdResult T -> G Mem A) (Post : Mem -> A -> B -> Prop) :
  vec_holds base m v d -> from_slice (T := T) d = Panic ->
  reaches (x ← parse_vec v; k x) vm m vm (Err (TrapErr Unreachable) : result RunError B) Post.
Proof.
  intros Hv Hp. unfold parse_vec.
  eapply reaches_bind; [eapply reaches_computes; [by eapply read_slice_computes, vec_slice|]|].
  { rw Hp. apply (panic_reaches (B := unit) _ _ (fun _ _ _ => True)). }
  done.
Qed.

Lemma with_env_body {T R} `{Serde T} base vm m env eb msg mb (f : Std.Env -> T -> contract_program (StdResult R)) :
  links vm -> vec_holds base m env eb -> vec_holds base m msg mb ->
  parsed_need (parse_args eb mb) (fun p => f p.1 p.2) vm <= room m ->
  exists vm' r, ideal_parsed (parse_args eb mb) (fun p => f p.1 p.2) vm = Some (vm', r) /\ links vm' /\
    reaches (parse_and_call (fun e x => linked (f e x)) env msg) vm m vm' r
      (fun m' a b => same_value m (parsed_need (parse_args eb mb) (fun p => f p.1 p.2) vm) m' a b /\ b <> Panic).
Proof.
  intros Hl He Hm Hn. destruct (parsed_reaches _ (fun p => f p.1 p.2) vm m Hl Hn) as (vm' & r & E & L & H1).
  exists vm', r. split_and!; [done|done|]. revert E H1. unfold parse_args.
  destruct (from_slice eb) as [e|err|] eqn:Ee; cbn [mbind result_bind].
  - intros E H1. eapply reaches_computes; [eapply parse_vec_computes; [done|by rw Ee]|]. rw Ee.
    destruct (from_slice mb) as [x|err|] eqn:Em; cbn [mbind result_bind] in *.
    + by eapply reaches_computes; [eapply parse_vec_computes; [done|by rw Em]|rw Em].
    + by eapply reaches_computes; [eapply parse_vec_computes; [done|by rw Em]|rw Em].
    + cbn in E. injection E as <- <-. by eapply parse_vec_panics.
  - intros E H1. by eapply reaches_computes; [eapply parse_vec_computes; [done|by rw Ee]|rw Ee].
  - intros E H1. cbn in E. injection E as <- <-. by eapply parse_vec_panics.
Qed.

Lemma call_with_env_reaches {T R} `{Serde T} vm m m1 m2 ep eb mp mb (f : Std.Env -> T -> contract_program (StdResult R)) :
  links vm -> region_holds m m1 ep eb -> region_holds m1 m2 mp mb ->
  parsed_need (parse_args eb mb) (fun p => f p.1 p.2) vm <= room m2 ->
  exists vm' r, ideal_parsed (parse_args eb mb) (fun p => f p.1 p.2) vm = Some (vm', r) /\ links vm' /\
    reaches (call_with_env (fun e x => linked (f e x)) ep mp) vm m2 vm' r (fun m' a b =>
      a = b /\ b <> Panic /\ frame m m' /\ room m2 - parsed_need (parse_args eb mb) (fun p => f p.1 p.2) vm <= room m').
Proof.
  intros Hl H1 H2 Hn.
  destruct (consume_two km depth m m1 m2 ep eb mp mb H1 H2) as (m3 & env & msg & X3 & V1 & V2 & D & R3).
  destruct (with_env_body m vm m3 env eb msg mb f Hl V1 V2) as (vm' & r & E & L & H3); [lia|].
  exists vm', r. split_and!; [done|done|].
  change (call_with_env (fun e x => linked (f e x)) ep mp) with
    ((env ← (consume_region ep : G Mem Vec); msg ← (consume_region mp : G Mem Vec); mret (env, msg)) ≫= fun p =>
       res ← (parse_and_call (fun e x => linked (f e x)) p.1 p.2 : G Mem (StdResult R));
       _ ← (drop_vec p.2 : G Mem unit); _ ← (drop_vec p.1 : G Mem unit); (mret res : G Mem _)).
  eapply reaches_computes; [exact X3|].
  eapply reaches_bind; [exact H3|]. destruct r as [b|e|]; [|done..].
  intros m4 a ((-> & K4 & R4) & Hb).
  destruct (drop_vec_other km depth m m4 msg mb env eb) as (m5 & X5 & V5 & R5);
    [by eapply vec_holds_frame|by eapply vec_holds_frame|done|].
  destruct (drop_vec_computes km depth m m5 env eb V5) as (m6 & X6 & K6 & R6).
  do 2 (eapply reaches_computes; [done|]). apply reaches_ret. split_and!; [done|done|done|lia].
Qed.

Lemma call_without_env_reaches {T R} `{Serde T} vm m m1 mp mb (f : T -> contract_program (StdResult R)) :
  links vm -> region_holds m m1 mp mb -> parsed_need (from_slice mb) f vm <= room m1 ->
  exists vm' r, ideal_parsed (from_slice mb) f vm = Some (vm', r) /\ links vm' /\
    reaches (call_without_env (fun x => linked (f x)) mp) vm m1 vm' r (fun m' a b =>
      a = b /\ b <> Panic /\ frame m m' /\ room m1 - parsed_need (from_slice mb) f vm <= room m').
Proof.
  intros Hl H1 Hn. destruct (consume_region_computes km depth m m1 mp mb H1) as (m2 & msg & X2 & V2 & R2).
  destruct (parsed_reaches (from_slice mb) f vm m2 Hl) as (vm' & r & E & L & H3); [lia|].
  exists vm', r. split_and!; [done|done|]. eapply reaches_computes; [done|]. cbv beta.
  destruct (from_slice mb) as [x|err|] eqn:Em.
  3: { cbn in E. injection E as <- <-. by eapply parse_vec_panics. }
  all: eapply reaches_computes; [eapply parse_vec_computes; [done|by rw Em]|]; rw Em;
    (eapply reaches_bind; [exact H3|]); destruct r as [b|e|]; [|done..];
    intros m4 a ((-> & K4 & R4) & Hb);
    destruct (drop_vec_computes km depth m m4 msg mb) as (m5 & X5 & K5 & R5); [by eapply vec_holds_frame|];
    (eapply reaches_computes; [done|]); apply reaches_ret; split_and!; [done|done|done|lia].
Qed.

(** A pointer from which the enclave reads the bytes [d]. *)
Definition output_at (m' : Mem) (p : Z) (d : bytes) : Prop :=
  is_u32 p /\ forall vm, extract_vector p (vm_with m' vm) = Some (vm_with m' vm, Ok d).

Definition encoded_cost {R} `{Serde (StdResult R)} (r : StdResult R) : Z :=
  match to_vec r with Ok d => cost (length d) | _ => 0 end.

Lemma release_reaches {R} `{Serde (StdResult R)} vm m (res : StdResult R) :
  res <> Panic -> encoded_cost res <= room m ->
  exists r, encode res vm = Some (vm, r) /\ reaches (release_result res) vm m vm r output_at.
Proof.
  intros Hres Hc. unfold release_result, encoded_cost in *.
  assert (encode res vm = (match to_vec res with Ok d => mret d | _ => trap end) vm) as -> by (by destruct res).
  destruct (to_vec res) as [d|e|].
  2, 3: exists (Err (TrapErr Unreachable)); split; [done|apply panic_reaches].
  exists (Ok d). split; [done|]. pose proof (room_bound m). unfold cost in Hc.
  destruct (vec_of_computes km depth m d) as (m1 & v & X1 & V1 & R1);
    [unfold SLACK, REGION_SIZE in *; lia|unfold REGION_SIZE, SLACK in *; lia|].
  destruct (release_buffer_computes km depth m m1 v d V1) as (m2 & p & X2 & A2 & U2 & N2 & G2 & P2 & K2 & R2); [lia|].
  eapply reaches_computes; [done|]. exists m2, p. split; [apply X2|]. split; [unfold is_u32, REGION_SIZE in *; lia|]. intros vm2.
  assert (vec_len v = Z.of_nat (length d)) as Hlen by apply V1.
  destruct A2 as (E0 & E4 & E8). cbn in E0, E8.
  cbv [extract_vector mbind X_bind readI liftX]. cbn [instance vm_with memory set_memory].
  unfold extract_vector_inner. rw E0. cbn [mbind option_bind]. destruct (Z.eqb_spec (vec_ptr v) 0); [done|].
  rw as_u32_small; [by rw E8; cbn [mbind option_bind]; rw Hlen Nat2Z.id G2|].
  unfold is_u32, REGION_SIZE in *. lia.
Qed.

(** An exported function as the enclave calls it: the pointer it returns is read. *)
Lemma extern_c_read p vm m vm' (r : result RunError bytes) :
  reaches p vm m vm' r output_at ->
  exists n m', forall fuel,
    (ptr ← invoke_export km depth (n + fuel) (Some (extern_c p)); mapErrX engine_to_enclave_error (extract_vector ptr))
      (vm_with m vm) = Some (vm_with m' vm', map_err run_to_enclave_error r).
Proof.
  intros [m' Hr].
  assert (exists n v, (forall fuel, run km depth (n + fuel) (extern_c p) (vm_with m vm) = Some (vm_with m' vm', v)) /\
            match r with
            | Ok d => exists ptr, v = Ok (Some (as_i32 ptr)) /\ output_at m' ptr d
            | Err e => v = Err e
            | Panic => v = Panic
            end) as (n & v & Hrun & Hv).
  { destruct r as [d|e|].
    - destruct Hr as (ptr & [n T] & Ho'). exists (n + 1)%nat, (Ok (Some (as_i32 ptr))). split; [|by exists ptr].
      intros fuel. rw -Nat.add_assoc. by apply T.
    - destruct Hr as [n T]. exists n, (Err e). split; [|done]. intros fuel. by apply T.
    - destruct Hr as [n T]. exists n, Panic. split; [|done]. intros fuel. by apply T. }
  exists n, m'. intros fuel. unfold invoke_export. cbv [mbind X_bind mapErrX]. rw Hrun.
  destruct r as [d|e|]; [|by rw Hv..]. destruct Hv as (ptr & -> & Uptr & Hx). cbn [map_err].
  cbv [mret X_ret]. by rw as_u32_i32 // Hx.
Qed.

(** What a call returns to the enclave. *)
Definition ideal_output {A R} `{Serde (StdResult R)} (parsed : StdResult A) (f : A -> contract_program (StdResult R))
  : X Mem RunError bytes :=
  r ← ideal_parsed parsed f;
  encode r.

Definition output_need {A R} `{Serde (StdResult R)} (parsed : StdResult A) (f : A -> contract_program (StdResult R))
    (vm : VM Mem) : Z :=
  parsed_need parsed f vm +
  match ideal_parsed parsed f vm with Some (_, Ok r) => encoded_cost r | _ => 0 end.

Lemma output_reaches {A R} `{Serde (StdResult R)} (parsed : StdResult A) f (call : G Mem (StdResult R)) vm m vm1 r1 m0 :
  ideal_parsed parsed f vm = Some (vm1, r1) ->
  reaches call vm m vm1 r1 (fun m' a b => a = b /\ b <> Panic /\ frame m0 m' /\ room m - parsed_need parsed f vm <= room m') ->
  output_need parsed f vm <= room m ->
  exists vm' r, ideal_output parsed f vm = Some (vm', r) /\
    reaches (res ← call; release_result res) vm m vm' r output_at.
Proof.
  intros E Hr Hn. unfold ideal_output, output_need in *. cbv [mbind X_bind]. rw E. rw E in Hn.
  destruct r1 as [b|e|].
  - destruct Hr as (m1 & a & Hx & -> & Hb & K & R1).
    destruct (release_reaches vm1 m1 b Hb) as (r & Er & Hrel); [lia|]. exists vm1, r. split; [done|].
    eapply (reaches_bind km depth _ _ _ _ vm1 (Ok b) (fun m' x _ => m' = m1 /\ x = b)); [by exists m1, b|].
    by intros m2 a2 [-> ->].
  - exists vm1, (Err e). split; [done|]. by eapply reaches_bind; [exact Hr|].
  - exists vm1, Panic. split; [done|]. by eapply reaches_bind; [exact Hr|].
Qed.

Lemma engine_writes vm m d :
  links vm -> cost (length d) <= room m ->
  exists n m' p, (forall fuel, engine_write_to_memory km depth (n + fuel) d (vm_with m vm) = Some (vm_with m' vm, Ok p)) /\
    region_holds m m' p d /\ is_u32 p /\ room m - cost (length d) <= room m'.
Proof.
  intros Hl Hc. destruct (host_writes km depth vm m d Hl Hc) as (n & m' & p & Hw & Hp & Up & _ & R).
  exists n, m', p. split_and!; [|done..]. intros fuel. unfold engine_write_to_memory. cbv [mapErrX].
  change (fun len vm => _) with (run_allocate (Mem := Mem) km depth (n + fuel)). by rw Hw.
Qed.

Lemma need_order {A R} `{Serde (StdResult R)} (parsed : StdResult A) (f : A -> contract_program (StdResult R)) vm :
  0 <= parsed_need parsed f vm <= output_need parsed f vm.
Proof.
  assert (0 <= parsed_need parsed f vm) by (unfold parsed_need; destruct parsed; [apply program_need_pos|lia|lia]).
  unfold output_need, encoded_cost. destruct (ideal_parsed _ _ vm) as [[? [r| |]]|]; try lia.
  destruct (to_vec r) as [d| |]; try lia. pose proof (cost_pos (length d)). lia.
Qed.

(** The export of a contract function called by the enclave, from the writes of the arguments to the
    bytes of the output. *)
Definition read_output (call : X Mem EnclaveError Z) : X Mem EnclaveError bytes :=
  vec_ptr ← call;
  mapErrX engine_to_enclave_error (extract_vector vec_ptr).

Lemma with_args_steps {T R} `{Serde T} `{Serde (StdResult R)} (f : Std.Env -> T -> contract_program (StdResult R))
    (entry : Z -> Z -> guest Mem) vm m env msg :
  links vm ->
  entry = (fun env_ptr msg_ptr =>
    extern_c (res ← call_with_env (fun e x => linked (f e x)) (as_u32 env_ptr) (as_u32 msg_ptr); release_result res)) ->
  cost (length env) + cost (length msg) + output_need (parse_args env msg) (fun p => f p.1 p.2) vm <= room m ->
  exists n m1 m2 m' ep mp vm' r, ideal_output (parse_args env msg) (fun p => f p.1 p.2) vm = Some (vm', r) /\
    forall fuel,
      engine_write_to_memory km depth (n + fuel) env (vm_with m vm) = Some (vm_with m1 vm, Ok ep) /\
      engine_write_to_memory km depth (n + fuel) msg (vm_with m1 vm) = Some (vm_with m2 vm, Ok mp) /\
      read_output (invoke_export km depth (n + fuel) (Some (entry (as_i32 ep) (as_i32 mp)))) (vm_with m2 vm)
      = Some (vm_with m' vm', map_err run_to_enclave_error r).
Proof.
  intros Hl -> Hc. pose proof (cost_pos (length env)). pose proof (cost_pos (length msg)).
  pose proof (need_order (parse_args env msg) (fun p => f p.1 p.2) vm).
  destruct (engine_writes vm m env Hl) as (n1 & m1 & ep & W1 & Q1 & U1 & R1); [lia|].
  destruct (engine_writes vm m1 msg Hl) as (n2 & m2 & mp & W2 & Q2 & U2 & R2); [lia|].
  destruct (call_with_env_reaches vm m m1 m2 ep env mp msg f Hl Q1 Q2) as (vm1 & r1 & E1 & L1 & X1); [lia|].
  destruct (output_reaches _ _ _ vm m2 vm1 r1 m E1 X1) as (vm' & r & E2 & X2); [lia|].
  destruct (extern_c_read _ vm m2 vm' r X2) as (n3 & m' & X3).
  exists (n1 + n2 + n3)%nat, m1, m2, m', ep, mp, vm', r. split; [done|]. intros fuel. split_and!.
  - replace (n1 + n2 + n3 + fuel)%nat with (n1 + (n2 + n3 + fuel))%nat by lia. apply W1.
  - replace (n1 + n2 + n3 + fuel)%nat with (n2 + (n1 + n3 + fuel))%nat by lia. apply W2.
  - replace (n1 + n2 + n3 + fuel)%nat with (n3 + (n1 + n2 + fuel))%nat by lia. by rw !as_u32_i32.
Qed.

Lemma with_msg_steps {T R} `{Serde T} `{Serde (StdResult R)} (f : T -> contract_program (StdResult R))
    (entry : Z -> guest Mem) vm m msg :
  links vm ->
  entry = (fun msg_ptr => extern_c (res ← call_without_env (fun x => linked (f x)) (as_u32 msg_ptr); release_result res)) ->
  cost (length msg) + output_need (from_slice msg) f vm <= room m ->
  exists n m1 m' mp vm' r, ideal_output (from_slice msg) f vm = Some (vm', r) /\
    forall fuel,
      engine_write_to_memory km depth (n + fuel) msg (vm_with m vm) = Some (vm_with m1 vm, Ok mp) /\
      read_output (invoke_export km depth (n + fuel) (Some (entry (as_i32 mp)))) (vm_with m1 vm)
      = Some (vm_with m' vm', map_err run_to_enclave_error r).
Proof.
  intros Hl -> Hc. pose proof (cost_pos (length msg)). pose proof (need_order (from_slice msg) f vm).
  destruct (engine_writes vm m msg Hl) as (n1 & m1 & mp & W1 & Q1 & U1 & R1); [lia|].
  destruct (call_without_env_reaches vm m m1 mp msg f Hl Q1) as (vm1 & r1 & E1 & L1 & X1); [lia|].
  destruct (output_reaches _ _ _ vm m1 vm1 r1 m E1 X1) as (vm' & r & E2 & X2); [lia|].
  destruct (extern_c_read _ vm m1 vm' r X2) as (n3 & m' & X3).
  exists (n1 + n3)%nat, m1, m', mp, vm', r. split; [done|]. intros fuel. split.
  - replace (n1 + n3 + fuel)%nat with (n1 + (n3 + fuel))%nat by lia. apply W1.
  - replace (n1 + n3 + fuel)%nat with (n3 + (n1 + fuel))%nat by lia. by rw as_u32_i32.
Qed.
End Calls.

(** ** The entry points of the enclave on such a contract *)

Section StdContract.
Context {Mem : Type} `{WM : WasmMemory Mem} {ML : WasmMemoryLaws Mem} `{AL : Allocator Mem} {LL : AllocatorLaws Mem}.
Context `{P : Primitives} `{C : Codecs} `{Ho : Host} `{BE : Bech32Errors}.
Context `{JQ : Json QueryChain.QueryRequest} `{JA : Json QueryAnswer} `{JS : Json QueryChain.StdError} `{JE : JsonErrors}.
Context `{JV : Json Value} `{JT : Json string} `{JW : Json WasmOutput} `{JC : Json (list SecretMsg.Coin)} `{JN : Json SecretMsg.Env}.
Context `{SE : Serde Std.Env} `{SQ : Serde QuerierResult}.
Context {I H Q U : Type} `{SI : Serde I} `{SH : Serde H} `{SM : Serde Q}.
Context `{RI : Serde (StdResult (InitResponse U))} `{RH : Serde (StdResult (HandleResponse U))} `{RQ : Serde (StdResult Binary)}.
Variable km : Keychain.
Variable depth : Z.
Variable c : contract_module I H Q U.

(** The outcome of a call whose contract ended in [vm] with [r]: its output is encrypted, and the gas
    is reported unless the enclave panicked. *)
Definition sealed {B} (n : IoNonce) (pk addr : bytes) (success : bytes -> B) (vm : VM Mem) (r : result RunError bytes)
  : Outcome B :=
  match (output ← map_err run_to_enclave_error r; encrypt_output km output n pk addr) with
  | Panic => mkOutcome (trace vm) None Panic
  | r' => mkOutcome (trace vm) (Some (gas_used (instance vm))) (success <$> r')
  end.

Lemma drive_sealed {A B} h i (args : X Mem EnclaveError A) (call : A -> X Mem EnclaveError Z) n pk addr (success : bytes -> B)
    vm1 a m' vm' r :
  args (mkVM i h) = Some (vm1, Ok a) ->
  read_output (call a) vm1 = Some (vm_with m' vm', map_err run_to_enclave_error r) ->
  drive km h (Ok i) args call n pk addr success = Some (sealed n pk addr success vm' r).
Proof.
  intros Ha Hc. unfold drive, run_and_encrypt, sealed. rw Ha. unfold read_output in Hc. revert Hc. cbv [mbind X_bind].
  destruct (call a vm1) as [[vm2 rp]|]; [|done]. destruct rp as [p|e|].
  - destruct (mapErrX engine_to_enclave_error (extract_vector p) vm2) as [[vm3 rd]|]; [|done]. destruct rd as [d|e|].
    + intros [= -> <-]. cbv [liftX result_bind]. by destruct (encrypt_output km d n pk addr).
    + by intros [= -> <-].
    + by intros [= -> <-].
  - by intros [= -> <-].
  - by intros [= -> <-].
Qed.

(** The heap a call needs: for its arguments, the contract and the result. *)
Definition call_need {T R} `{Serde T} `{Serde (StdResult R)} (f : Std.Env -> T -> contract_program (StdResult R))
    (env msg : bytes) (vm : VM Mem) : Z :=
  cost (length env) + cost (length msg) + output_need km depth (parse_args env msg) (fun p => f p.1 p.2) vm.

Lemma drive_std {T R B} `{Serde T} `{Serde (StdResult R)} (f : Std.Env -> T -> contract_program (StdResult R))
    (entry : Z -> Z -> guest Mem) (engine : nat -> Z -> Z -> X Mem EnclaveError Z) h i env code msg eb n pk addr (success : bytes -> B) :
  links (mkVM i h) ->
  entry = (fun env_ptr msg_ptr =>
    extern_c (res ← call_with_env (fun e x => linked (f e x)) (as_u32 env_ptr) (as_u32 msg_ptr); release_result res)) ->
  (forall fuel ep mp vm, module_exports (instance vm) = module_exports i ->
     engine fuel ep mp vm = invoke_export km depth fuel (Some (entry (as_i32 ep) (as_i32 mp))) vm) ->
  json_to_vec (with_code_hash env code) = Some eb ->
  call_need f eb msg (mkVM i h) <= room (memory i) ->
  exists fuel0 vm' r, ideal_output km depth (parse_args eb msg) (fun p => f p.1 p.2) (mkVM i h) = Some (vm', r) /\
    forall fuel, drive km h (Ok i) (write_args km depth (fuel0 + fuel) env code msg)
        (fun p => engine (fuel0 + fuel)%nat p.1 p.2) n pk addr success = Some (sealed n pk addr success vm' r).
Proof.
  intros Hl Hentry Hengine Hjson Hc.
  destruct (with_args_steps km depth f entry (mkVM i h) (memory i) eb msg Hl Hentry Hc)
    as (fuel0 & m1 & m2 & m' & ep & mp & vm' & r & E & Hsteps).
  exists fuel0, vm', r. split; [done|]. intros fuel. destruct (Hsteps fuel) as (W1 & W2 & Hcall).
  rw vm_with_instance in W1.
  eapply (drive_sealed _ _ _ _ _ _ _ _ (vm_with m2 (mkVM i h)) (ep, mp) m').
  - unfold write_args. cbv [mbind X_bind liftX]. rw Hjson. cbn [ok_or]. by rw W1 W2.
  - rw -Hcall. unfold read_output. cbv [mbind X_bind]. by rw Hengine.
Qed.

(** For a contract built with create_entry_points, enough fuel makes the call of the handle
    entry point end with the encryption of the JSON of what the contract returns for the
    parsed environment and message (a message that does not parse gives the JSON of the
    parse error), and a contract that fails ends with that error. *)
Theorem std_handle_is_sealed {B} h i env code msg eb n pk addr (success : bytes -> B) :
  module_exports i = create_entry_points c ->
  json_to_vec (with_code_hash env code) = Some eb ->
  call_need (handle_fn c) eb msg (mkVM i h) <= room (memory i) ->
  exists fuel0 vm' r, ideal_output km depth (parse_args eb msg) (fun p => handle_fn c p.1 p.2) (mkVM i h) = Some (vm', r) /\
    forall fuel, drive km h (Ok i) (write_args km depth (fuel0 + fuel) env code msg)
        (fun p => engine_handle km depth (fuel0 + fuel) p.1 p.2) n pk addr success = Some (sealed n pk addr success vm' r).
Proof.
  intros Hm Hjson Hc. eapply (drive_std (handle_fn c) _ (engine_handle km depth)); [|reflexivity| |done|done].
  - unfold links. cbn. by rw Hm.
  - intros fuel ep mp vm Hvm. unfold engine_handle. cbv [mbind X_bind readI]. by rw Hvm Hm.
Qed.

(** The init entry point on such a contract likewise returns the encrypted result of its init. *)
Lemma std_init_is_sealed {B} h i env code msg eb n pk addr (success : bytes -> B) :
  module_exports i = create_entry_points c ->
  json_to_vec (with_code_hash env code) = Some eb ->
  call_need (init_fn c) eb msg (mkVM i h) <= room (memory i) ->
  exists fuel0 vm' r, ideal_output km depth (parse_args eb msg) (fun p => init_fn c p.1 p.2) (mkVM i h) = Some (vm', r) /\
    forall fuel, drive km h (Ok i) (write_args km depth (fuel0 + fuel) env code msg)
        (fun p => engine_init km depth (fuel0 + fuel) p.1 p.2) n pk addr success = Some (sealed n pk addr success vm' r).
Proof.
  intros Hm Hjson Hc. eapply (drive_std (init_fn c) _ (engine_init km depth)); [|reflexivity| |done|done].
  - unfold links. cbn. by rw Hm.
  - intros fuel ep mp vm Hvm. unfold engine_init. cbv [mbind X_bind readI]. by rw Hvm Hm.
Qed.

(** For a contract built with create_entry_points, enough fuel makes the call of the query entry
    point end with the encryption of the JSON of what the contract answers to the parsed
    message. *)
Theorem std_query_is_sealed {B} h i msg n pk addr (success : bytes -> B) :
  module_exports i = create_entry_points c ->
  cost (length msg) + output_need km depth (from_slice msg) (query_fn c) (mkVM i h) <= room (memory i) ->
  exists fuel0 vm' r, ideal_output km depth (from_slice msg) (query_fn c) (mkVM i h) = Some (vm', r) /\
    forall fuel, drive km h (Ok i) (engine_write_to_memory km depth (fuel0 + fuel) msg)
        (fun p => engine_query km depth (fuel0 + fuel) p) n pk addr success = Some (sealed n pk addr success vm' r).
Proof.
  intros Hm Hc.
  destruct (with_msg_steps km depth (query_fn c) _ (mkVM i h) (memory i) msg (f_equal exp_allocate Hm) eq_refl Hc)
    as (fuel0 & m1 & m' & mp & vm' & r & E & Hsteps).
  exists fuel0, vm', r. split; [done|]. intros fuel. destruct (Hsteps fuel) as (W1 & Hcall). rw vm_with_instance in W1.
  eapply (drive_sealed _ _ _ _ _ _ _ _ (vm_with m1 (mkVM i h)) mp m'); [done|].
  rw -Hcall. unfold read_output, engine_query. cbv [mbind X_bind readI]. cbn [instance vm_with set_memory module_exports]. by rw Hm.
Qed.
End StdContract.

(** An argument of more bytes than a vector can hold is refused: the allocator of the contract
    panics, and the enclave reports a failed allocation and changes nothing. *)
Theorem oversized_argument_is_refused {Mem} `{WM : WasmMemory Mem} `{AL : Allocator Mem} `{P : Primitives} `{C : Codecs}
    `{Ho : Host} `{BE : Bech32Errors} `{JQ : Json QueryChain.QueryRequest} `{JA : Json QueryAnswer}
    `{JS : Json QueryChain.StdError} `{JE : JsonErrors} km depth fuel (vm : VM Mem) buf :
  links vm -> ISIZE_MAX < Z.of_nat (length buf) < 2^32 ->
  engine_write_to_memory km depth (S fuel) buf vm = Some (vm, Err MemoryAllocationError).
Proof.
  intros Hl Hb. assert (is_u32 (Z.of_nat (length buf))) as Hu by (unfold is_u32, ISIZE_MAX in *; lia).
  unfold engine_write_to_memory, write_to_memory, allocate. cbv [mapErrX mbind X_bind]. unfold links in Hl. rw Hl.
  unfold allocate_export, alloc, with_capacity. rw (as_u32_small (Z.of_nat _)) // as_u32_i32 //.
  destruct (Z.gtb_spec (Z.of_nat (length buf)) ISIZE_MAX); [done|lia].
Qed.

(** ** A concrete contract *)

#[local] Existing Instance arena_memory.
#[local] Existing Instance arena_laws.
#[local] Existing Instance arena_allocator.
#[local] Existing Instance arena_allocator_laws.
#[local] Existing Instance demo_primitives.
#[local] Existing Instance demo_codecs.
#[local] Existing Instance demo_host.
#[local] Existing Instance demo_bech32_errors.
#[local] Existing Instance demo_json_errors.
#[local] Existing Instance no_json.
#[local] Existing Instance demo_json_coins.
#[local] Existing Instance demo_json_string.
#[local] Existing Instance demo_json_value.
#[local] Existing Instance demo_json_env.
#[local] Existing Instance demo_json_output.
#[local] Existing Instance demo_serde_result.
#[local] Existing Instance demo_serde_u64.

Definition demo_serde_env : Serde Std.Env := {|
  to_vec _ := Err (generic_err "unused");
  from_slice _ := Ok (Std.demo_env "alice");
  type_name := "Env"
|}.
Definition demo_serde_handle : Serde (StdResult (HandleResponse Empty)) := {|
  to_vec r := match r with Ok h => Ok (default [] (response_data h)) | _ => Ok (lit "error") end;
  from_slice _ := Err (generic_err "unused");
  type_name := "HandleResult"
|}.
Definition demo_serde_init : Serde (StdResult (InitResponse Empty)) := {|
  to_vec r := match r with Ok _ => Ok (lit "ok") | _ => Ok (lit "error") end;
  from_slice _ := Err (generic_err "unused");
  type_name := "InitResult"
|}.
Definition demo_serde_query : Serde (StdResult Binary) := {|
  to_vec r := match r with Ok d => Ok d | _ => Ok (lit "error") end;
  from_slice _ := Err (generic_err "unused");
  type_name := "QueryResult"
|}.
#[local] Existing Instance demo_serde_env.
#[local] Existing Instance demo_serde_handle.
#[local] Existing Instance demo_serde_init.
#[local] Existing Instance demo_serde_query.

(** A counter that is set by a message. *)
Definition demo_contract : contract_module Z Z Z Empty :=
  mkModule
    (fun _ n => Set_ (lit "n") (be_bytes 8 n) (Done (Ok default_init_response)))
    (fun _ n => Set_ (lit "n") (be_bytes 8 n) (Get (lit "n") (fun v => Done (Ok (mkHandleResponse [] [] v)))))
    (fun _ => Get (lit "n") (fun v => Done (Ok (default [] v)))).

Definition demo_std_instance (op : ContractOperation) : ContractInstance arena :=
  instance (demo_guest_vm (create_entry_points demo_contract) op).

Definition demo_enclave_env : SecretMsg.Env :=
  SecretMsg.mkEnv (SecretMsg.mkBlock 1 2 "secret-1") (SecretMsg.mkMessage "alice" []) (SecretMsg.mkContract "to") None "".

Lemma std_handle_is_sealed_witness :
  exists fuel0 vm', forall fuel,
    drive demo_km [] (Ok (demo_std_instance OpHandle)) (write_args demo_km 1 (fuel0 + fuel) demo_enclave_env [] (be_bytes 8 7))
      (fun p => engine_handle demo_km 1 (fuel0 + fuel) p.1 p.2) demo_nonce demo_user [] (fun b => b)
    = Some (sealed (Mem := arena) demo_km demo_nonce demo_user [] (fun b => b) vm' (Ok (be_bytes 8 7))).
Proof.
  assert (call_need (Mem := arena) demo_km 1 (handle_fn demo_contract) (lit "env") (be_bytes 8 7)
            (mkVM (demo_std_instance OpHandle) []) <= room (memory (demo_std_instance OpHandle)))
    as Hn by (vm_compute; discriminate).
  assert ((fun o => snd <$> o) (ideal_output (Mem := arena) demo_km 1 (parse_args (T := Z) (lit "env") (be_bytes 8 7))
            (fun p => handle_fn demo_contract p.1 p.2) (mkVM (demo_std_instance OpHandle) []))
          = Some (Ok (be_bytes 8 7))) as Hv by (vm_compute; reflexivity).
  destruct (std_handle_is_sealed (JN := demo_json_env) demo_km 1 demo_contract [] (demo_std_instance OpHandle) demo_enclave_env [] (be_bytes 8 7)
              (lit "env") demo_nonce demo_user [] (fun b => b) eq_refl eq_refl Hn) as (fuel0 & vm' & r & E & Hd).
  rw E in Hv. cbn [fmap option_fmap option_map snd] in Hv. injection Hv as ->. exists fuel0, vm'. exact Hd.
Defined.

Lemma std_query_is_sealed_witness :
  exists fuel0 vm', forall fuel,
    drive demo_km [] (Ok (demo_std_instance OpQuery)) (engine_write_to_memory demo_km 1 (fuel0 + fuel) (be_bytes 8 7))
      (fun p => engine_query demo_km 1 (fuel0 + fuel) p) demo_nonce demo_user [] (fun b => b)
    = Some (sealed (Mem := arena) demo_km demo_nonce demo_user [] (fun b => b) vm' (Ok [])).
Proof.
  assert (cost 8 + output_need (Mem := arena) demo_km 1 (from_slice (be_bytes 8 7)) (query_fn demo_contract)
            (mkVM (demo_std_instance OpQuery) []) <= room (memory (demo_std_instance OpQuery)))
    as Hn by (vm_compute; discriminate).
  assert ((fun o => snd <$> o) (ideal_output (Mem := arena) demo_km 1 (from_slice (be_bytes 8 7))
            (query_fn demo_contract) (mkVM (demo_std_instance OpQuery) []))
          = Some (Ok [])) as Hv by (vm_compute; reflexivity).
  destruct (std_query_is_sealed demo_km 1 demo_contract [] (demo_std_instance OpQuery) (be_bytes 8 7)
              demo_nonce demo_user [] (fun b => b) eq_refl Hn) as (fuel0 & vm' & r & E & Hd).
  rw E in Hv. cbn [fmap option_fmap option_map snd] in Hv. injection Hv as ->. exists fuel0, vm'. exact Hd.
Defined.

Lemma oversized_argument_is_refused_witness :
  engine_write_to_memory demo_km 1 1 (replicate (Z.to_nat (2^31)) Byte.x00) (demo_guest_vm memory_exports OpHandle)
  = Some (demo_guest_vm memory_exports OpHandle, Err MemoryAllocationError).
Proof.
  apply (oversized_argument_is_refused demo_km 1 0 (demo_guest_vm memory_exports OpHandle)); [reflexivity|].
  rw length_replicate Z2Nat.id; [|lia]. unfold ISIZE_MAX. lia.
Defined.
