(* ===== verification/MeteredContract.v ===== *)
(** * A metered contract in the enclave

    GuestExports shows what the enclave gets from the entry points of a contract built with
    cosmwasm-std.  The module that contract_operations.rs instantiates is not that contract but
    the one inject_gas_counter made of it: here the results are carried over to any module whose
    exports are the entry points of the contract with calls of [gas] in them ([metered_exports]).

    If what these calls charge is bounded, and the contract's services stay within the limit less
    that bound, the metered contract does the same.  If there is no bound, it does the same or it
    runs out of gas. *)

From Stdlib Require Import Strings.String.
From stdpp Require Import base tactics list numbers strings ssreflect.
From S2P Require Import Prelude Utf8 Crypto SecretMsg Validation EnclaveDb QueryChain Runtime Operations GuestMemory Metering GuestArena WasmCheck Math Storage Typed Std Querying GuestImports GuestLink GuestExports.

Local Open Scope list_scope.
Local Open Scope Z_scope.

(** ** The host calls of a contract *)

Section Services.
Context {Mem : Type} `{WM : WasmMemory Mem} `{AL : Allocator Mem}.
Context `{SE : Serde Std.Env} `{SQ : Serde QuerierResult}.

(** A contract function that uses its dependencies at most [n] times. *)
Inductive services {A} : nat -> contract_program A -> Prop :=
| services_done n a : services n (Done a)
| services_get n key k : (forall r, services n (k r)) -> services (S n) (Get key k)
| services_set n key value k : services n k -> services (S n) (Set_ key value k)
| services_remove n key k : services n k -> services (S n) (Remove key k)
| services_canonical n x k : (forall r, services n (k r)) -> services (S n) (Canonical x k)
| services_human n x k : (forall r, services n (k r)) -> services (S n) (Human x k)
| services_query n q k : (forall r, services n (k r)) -> services (S n) (RawQuery q k).

Lemma callsG_block size al : callsG 0 (allocate_block (Mem := Mem) size al).
Proof. intros m k Hk. constructor. intros x. destruct (malloc x size al) as [[m' p]|]; [apply Hk|constructor]. Qed.

(** A program without host calls; and one with a single call somewhere. *)
Ltac quiet :=
  repeat first
  [ apply callsG_block | apply callsG_memory | apply callsG_trap | apply callsG_ret
  | match goal with
    | |- callsG 0 (mbind _ _) => apply callsG_free; [|intros ?]
    | |- callsG 0 (if ?b then _ else _) => destruct b
    | |- callsG 0 (match ?x with _ => _ end) => destruct x
    end ].

Lemma callsG_with_capacity n : callsG 0 (with_capacity (Mem := Mem) n).
Proof. unfold with_capacity, panic. quiet. Qed.
Lemma callsG_vec_of d : callsG 0 (vec_of (Mem := Mem) d).
Proof. unfold vec_of. quiet. apply callsG_with_capacity. Qed.
Lemma callsG_drop_vec v : callsG 0 (drop_vec (Mem := Mem) v).
Proof. unfold drop_vec, free_block. quiet. Qed.
Lemma callsG_drop_region p : callsG 0 (drop_region (Mem := Mem) p).
Proof. apply callsG_memory. Qed.
Lemma callsG_read_slice s : callsG 0 (read_slice (Mem := Mem) s).
Proof. apply callsG_memory. Qed.
Lemma callsG_build_region s : callsG 0 (build_region (Mem := Mem) s).
Proof. unfold build_region, build_region_from_components, box_region, try_u32, store_u32, panic. quiet. Qed.
Lemma callsG_alloc n : callsG 0 (alloc (Mem := Mem) n).
Proof.
  unfold alloc, build_region_from_components, box_region, try_u32, store_u32, panic. quiet. apply callsG_with_capacity.
Qed.
Lemma callsG_consume p : callsG 0 (consume_region (Mem := Mem) p).
Proof. unfold consume_region, assert, load_u32, drop_region, free_block, panic. quiet. Qed.
Lemma callsG_error_text p : callsG 0 (error_text (Mem := Mem) p).
Proof.
  unfold error_text, consume_string_region_written_by_vm. quiet;
    (apply callsG_consume || apply callsG_read_slice || apply callsG_drop_vec).
Qed.
Lemma callsG_take v : callsG 0 (take_bytes (Mem := Mem) v).
Proof. unfold take_bytes. quiet; (apply callsG_read_slice || apply callsG_drop_vec). Qed.

Lemma callsG_extern name args : callsG 1 (extern_fn (Mem := Mem) name args).
Proof.
  unfold extern_fn. destruct (resolve_func _ _) as [[? index]| |]; [apply callsG_import|apply callsG_trap..].
Qed.
Lemma callsG_returned v : callsG 0 (returned_u32 (Mem := Mem) v).
Proof. unfold returned_u32. quiet. Qed.

(** The helpers above, and the one host call. *)
Ltac one_call :=
  repeat first
  [ apply callsG_extern | apply callsG_returned | apply callsG_vec_of | apply callsG_drop_vec | apply callsG_drop_region
  | apply callsG_read_slice | apply callsG_build_region | apply callsG_alloc | apply callsG_consume | apply callsG_error_text
  | apply callsG_take | apply callsG_ret | apply callsG_trap
  | match goal with
    | |- callsG 0 (mbind _ _) => apply callsG_free; [|intros ?]
    | |- callsG 1 (mbind _ (extern_fn _ _)) => apply callsG_then; [|intros ?]
    | |- callsG 1 (mbind _ (db_read _)) => apply callsG_then; [|intros ?]
    | |- callsG 1 (mbind _ (db_write _ _)) => apply callsG_then; [|intros ?]
    | |- callsG 1 (mbind _ (db_remove _)) => apply callsG_then; [|intros ?]
    | |- callsG 1 (mbind _ (canonicalize_address _ _)) => apply callsG_then; [|intros ?]
    | |- callsG 1 (mbind _ (humanize_address _ _)) => apply callsG_then; [|intros ?]
    | |- callsG 1 (mbind _ (query_chain _)) => apply callsG_then; [|intros ?]
    | |- callsG 1 (mbind _ _) => apply callsG_free; [|intros ?]
    | |- callsG _ (if ?b then _ else _) => destruct b
    | |- callsG _ (match ?x with _ => _ end) => destruct x
    | |- callsG 1 (db_read _) => unfold db_read
    | |- callsG 1 (db_write _ _) => unfold db_write
    | |- callsG 1 (db_remove _) => unfold db_remove
    | |- callsG 1 (canonicalize_address _ _) => unfold canonicalize_address
    | |- callsG 1 (humanize_address _ _) => unfold humanize_address
    | |- callsG 1 (query_chain _) => unfold query_chain
    end ].

Lemma callsG_with_arg {A} d n (call : Slice -> G Mem A) : (forall s, callsG n (call s)) -> callsG n (with_arg d call).
Proof.
  intros Hc. unfold with_arg. apply callsG_free; [apply callsG_vec_of|intros v]. apply callsG_then; [apply Hc|intros r]. one_call.
Qed.

Lemma callsG_linked_get key : callsG 1 (linked_get (Mem := Mem) key).
Proof.
  apply callsG_with_arg. intros s. apply callsG_then; [unfold ExternalStorage.get; one_call|]. intros [v|]; one_call.
Qed.
Lemma callsG_linked_set key value : callsG 1 (linked_set (Mem := Mem) key value).
Proof. do 2 (apply callsG_with_arg; intros ?). unfold ExternalStorage.set. one_call. Qed.
Lemma callsG_linked_remove key : callsG 1 (linked_remove (Mem := Mem) key).
Proof. apply callsG_with_arg. intros s. unfold ExternalStorage.remove. one_call. Qed.
Lemma callsG_linked_address call a : (forall s, callsG 1 (call s)) -> callsG 1 (linked_address (Mem := Mem) call a).
Proof.
  intros Hc. apply callsG_with_arg. intros s. apply callsG_then; [apply Hc|]. intros [v|e|]; one_call.
Qed.
Lemma callsG_linked_query q : callsG 1 (linked_query (Mem := Mem) q).
Proof. apply callsG_with_arg. intros s. unfold ExternalQuerier.raw_query. one_call. Qed.

(** Each use of a dependency is one host call. *)
Lemma linked_calls {A} n (c : contract_program A) : services n c -> callsG n (linked (Mem := Mem) c).
Proof.
  induction 1 as [n a|n key k _ IH|n key value k _ IH|n key k _ IH|n x k _ IH|n x k _ IH|n q k _ IH]; cbn [linked].
  - eapply callsG_more; [apply callsG_ret|lia].
  - apply (callsG_bind 1); [apply callsG_linked_get|done].
  - apply (callsG_bind 1); [apply callsG_linked_set|done].
  - apply (callsG_bind 1); [apply callsG_linked_remove|done].
  - apply (callsG_bind 1); [apply callsG_linked_address; intros s; unfold ExternalApi.canonical_address; one_call|done].
  - apply (callsG_bind 1); [apply callsG_linked_address; intros s; unfold ExternalApi.human_address, consume_string_region_written_by_vm; one_call|done].
  - apply (callsG_bind 1); [apply callsG_linked_query|done].
Qed.

Lemma callsG_unwind {A} (r : StdResult A) : callsG 0 (unwind (Mem := Mem) r).
Proof. unfold unwind. one_call. Qed.
Lemma callsG_parse {T} `{Serde T} v : callsG 0 (parse_vec (Mem := Mem) (T := T) v).
Proof. unfold parse_vec. one_call. apply callsG_unwind. Qed.
Lemma callsG_release {R} `{Serde (StdResult R)} (res : StdResult R) : callsG 0 (release_result (Mem := Mem) res).
Proof. unfold release_result, release_buffer, panic. one_call. Qed.

Lemma extern_c_calls n (p : G Mem Z) : callsG n p -> calls n (extern_c p).
Proof. intros Hp. rw -(Nat.add_0_r n). apply Hp. intros a. constructor. Qed.

Lemma callsG_with_env {T R} `{Serde T} n (f : Std.Env -> T -> G Mem (StdResult R)) a b :
  (forall e x, callsG n (f e x)) -> callsG n (call_with_env f a b).
Proof.
  intros Hf. unfold call_with_env, parse_and_call. do 2 (apply callsG_free; [apply callsG_consume|intros ?]).
  apply callsG_then; [|intros; one_call]. apply callsG_free; [apply callsG_parse|]. intros [e|e|].
  - apply callsG_free; [apply callsG_parse|]. intros [x|x|].
    + apply callsG_then; [apply Hf|apply callsG_unwind].
    + eapply callsG_more; [apply callsG_ret|lia].
    + apply callsG_trap.
  - eapply callsG_more; [apply callsG_ret|lia].
  - apply callsG_trap.
Qed.

Lemma callsG_without_env {T R} `{Serde T} n (f : T -> G Mem (StdResult R)) a :
  (forall x, callsG n (f x)) -> callsG n (call_without_env f a).
Proof.
  intros Hf. unfold call_without_env. apply callsG_free; [apply callsG_consume|intros ?].
  apply callsG_free; [apply callsG_parse|]. intros m. apply callsG_then; [|intros; one_call]. destruct m as [x|x|].
  - apply callsG_then; [apply Hf|apply callsG_unwind].
  - eapply callsG_more; [apply callsG_ret|lia].
  - apply callsG_trap.
Qed.

Lemma allocate_calls len : calls 0 (allocate_export (Mem := Mem) len).
Proof. unfold allocate_export. apply (callsG_alloc (as_u32 len) 0%nat). intros a. constructor. Qed.

End Services.

(** ** The calls of the enclave *)

Section MeteredCalls.
Context {Mem : Type} `{WM : WasmMemory Mem} {ML : WasmMemoryLaws Mem} `{AL : Allocator Mem} {LL : AllocatorLaws Mem}.
Context `{P : Primitives} `{C : Codecs} `{BE : Bech32Errors}.
Context `{JQ : Json QueryChain.QueryRequest} `{JA : Json QueryAnswer} `{JS : Json QueryChain.StdError} `{JE : JsonErrors}.
Context `{JV : Json Value} `{JT : Json string} `{JW : Json WasmOutput} `{JC : Json (list SecretMsg.Coin)} `{JN : Json SecretMsg.Env}.
Context `{SE : Serde Std.Env} `{SQ : Serde QuerierResult}.
Context {I H Q U : Type} `{SI : Serde I} `{SH : Serde H} `{SM : Serde Q}.
Context `{RI : Serde (StdResult (InitResponse U))} `{RH : Serde (StdResult (HandleResponse U))} `{RQ : Serde (StdResult Binary)}.
Variable km : Keychain.
Variable depth : Z.
Variable con : contract_module I H Q U.

(** A contract whose functions use their dependencies at most [n] times, metered with the same
    amount for every block. *)
Lemma entry_points_metered bounded amount n :
  0 <= amount < 2^31 -> (forall e m, services n (init_fn con e m)) -> (forall e m, services n (handle_fn con e m)) ->
  (forall m, services n (query_fn con m)) ->
  metered_exports bounded amount (Z.of_nat (S n) * amount + Z.of_nat n * amount)
    (create_entry_points (Mem := Mem) con) (meter_exports amount (create_entry_points con)).
Proof.
  intros Ha Hi Hh Hq.
  assert (forall g : guest Mem, calls n g -> metered bounded amount (Z.of_nat (S n) * amount + Z.of_nat n * amount) g (meter amount g)) as Hm.
  { intros g. apply meter_metered; lia. }
  split; cbn.
  - intros x. pose proof (meter_metered (Mem := Mem) bounded amount amount Ha (proj1 Ha) 0%nat _ (allocate_calls x)) as H0.
    by replace (Z.of_nat 1 * amount + Z.of_nat 0 * amount) with amount in H0 by lia.
  - intros [x y]. apply Hm, extern_c_calls. apply callsG_then; [apply callsG_with_env; intros; by apply linked_calls|intros; apply callsG_release].
  - intros [x y]. apply Hm, extern_c_calls. apply callsG_then; [apply callsG_with_env; intros; by apply linked_calls|intros; apply callsG_release].
  - intros x. apply Hm, extern_c_calls. apply callsG_then; [apply callsG_without_env; intros; by apply linked_calls|intros; apply callsG_release].
Qed.

(** The whole of a call, from the writes of its arguments. *)
Definition handle_body (Ho : Host) (env : SecretMsg.Env) (code msg : bytes) (n : IoNonce) (pk addr : bytes) (fuel : nat)
  : X Mem EnclaveError bytes :=
  p ← write_args (Ho := Ho) km depth fuel env code msg;
  run_and_encrypt km (engine_handle (Ho := Ho) km depth fuel p.1 p.2) n pk addr.
Definition query_body (Ho : Host) (msg : bytes) (n : IoNonce) (pk addr : bytes) (fuel : nat) : X Mem EnclaveError bytes :=
  p ← engine_write_to_memory (Ho := Ho) km depth fuel msg;
  run_and_encrypt km (engine_query (Ho := Ho) km depth fuel p) n pk addr.

(** The contract's output, encrypted. *)
Definition sealed_output (n : IoNonce) (pk addr : bytes) (r : result RunError bytes) : result EnclaveError bytes :=
  output ← map_err run_to_enclave_error r;
  encrypt_output km output n pk addr.

Lemma read_output_sealed (call : X Mem EnclaveError Z) n pk addr vm vm' r :
  read_output call vm = Some (vm', map_err run_to_enclave_error r) ->
  run_and_encrypt km call n pk addr vm = Some (vm', sealed_output n pk addr r).
Proof.
  unfold read_output, run_and_encrypt, sealed_output. cbv [mbind X_bind].
  destruct (call vm) as [[vm1 [p|e|]]|]; [|by intros [= <- <-]..|done].
  destruct (mapErrX engine_to_enclave_error (extract_vector p) vm1) as [[vm2 [d|e|]]|]; [|by intros [= <- <-]..|done].
  by intros [= <- <-].
Qed.

(** Without metering, by the refinement of GuestExports. *)
Lemma handle_body_std (Ho : Host) i h env code msg eb n pk addr :
  module_exports i = create_entry_points con -> json_to_vec (with_code_hash env code) = Some eb ->
  call_need (Ho := Ho) km depth (handle_fn con) eb msg (mkVM i h) <= room (memory i) ->
  exists n0 m' vm' r, ideal_output (Ho := Ho) km depth (parse_args eb msg) (fun p => handle_fn con p.1 p.2) (mkVM i h) = Some (vm', r) /\
    forall fuel, handle_body Ho env code msg n pk addr (n0 + fuel) (mkVM i h) = Some (vm_with m' vm', sealed_output n pk addr r).
Proof.
  intros Hm Hj Hc.
  destruct (with_args_steps (Ho := Ho) km depth (handle_fn con) _ (mkVM i h) (memory i) eb msg (f_equal exp_allocate Hm) eq_refl Hc)
    as (n0 & m1 & m2 & m' & ep & mp & vm' & r & E & Hsteps).
  exists n0, m', vm', r. split; [done|]. intros fuel. destruct (Hsteps fuel) as (W1 & W2 & Hcall). rw vm_with_instance in W1.
  unfold handle_body, write_args. cbv [mbind X_bind liftX]. rw Hj. cbn [ok_or]. rw W1 W2. cbv [mret X_ret]. cbn [fst snd].
  apply read_output_sealed. rw -Hcall. unfold read_output, engine_handle. cbv [mbind X_bind readI].
  cbn [instance vm_with set_memory module_exports]. by rw Hm.
Qed.

Lemma query_body_std (Ho : Host) i h msg n pk addr :
  module_exports i = create_entry_points con ->
  cost (length msg) + output_need (Ho := Ho) km depth (from_slice msg) (query_fn con) (mkVM i h) <= room (memory i) ->
  exists n0 m' vm' r, ideal_output (Ho := Ho) km depth (from_slice msg) (query_fn con) (mkVM i h) = Some (vm', r) /\
    forall fuel, query_body Ho msg n pk addr (n0 + fuel) (mkVM i h) = Some (vm_with m' vm', sealed_output n pk addr r).
Proof.
  intros Hm Hc.
  destruct (with_msg_steps (Ho := Ho) km depth (query_fn con) _ (mkVM i h) (memory i) msg (f_equal exp_allocate Hm) eq_refl Hc)
    as (n0 & m1 & m' & mp & vm' & r & E & Hsteps).
  exists n0, m', vm', r. split; [done|]. intros fuel. destruct (Hsteps fuel) as (W1 & Hcall). rw vm_with_instance in W1.
  unfold query_body. cbv [mbind X_bind]. rw W1. apply read_output_sealed.
  rw -Hcall. unfold read_output, engine_query. cbv [mbind X_bind readI]. cbn [instance vm_with set_memory module_exports]. by rw Hm.
Qed.

(** Both bodies end, on any machine whose allocate calls nothing but [gas]. *)
Lemma handle_body_ends (Ho : Host) e env code msg n pk addr :
  (forall f len, exp_allocate e = Some f -> gas_only (f len)) -> ends e (handle_body Ho env code msg n pk addr).
Proof.
  intros Hg. unfold handle_body, write_args. apply (ends_bind e (fun fuel => _) (fun fuel p => run_and_encrypt km (engine_handle km depth fuel p.1 p.2) n pk addr)).
  - apply (ends_bind e (fun _ => _) (fun fuel b => _)); [apply ends_lift|intros b].
    apply (ends_bind e (fun fuel => _) (fun fuel x => _)); [by apply engine_write_ends|intros x].
    apply (ends_bind e (fun fuel => _) (fun fuel y => _)); [by apply engine_write_ends|intros y]. apply (ends_lift e (Ok _)).
  - intros p. by apply run_and_encrypt_ends, engine_handle_ends.
Qed.

Lemma query_body_ends (Ho : Host) e msg n pk addr :
  (forall f len, exp_allocate e = Some f -> gas_only (f len)) -> ends e (query_body Ho msg n pk addr).
Proof.
  intros Hg. apply (ends_bind e (fun fuel => _) (fun fuel p => run_and_encrypt km (engine_query km depth fuel p) n pk addr)).
  - by apply engine_write_ends.
  - intros p. by apply run_and_encrypt_ends, engine_query_ends.
Qed.

(** The machine of the contract without metering, with a limit of its own. *)
Definition original (lp : Z) (i : ContractInstance Mem) (h : Trace) : VM Mem :=
  mkVM (unmetered lp 0 (create_entry_points con) i) h.

(** An instance as start_engine leaves it. *)
Definition fresh (i : ContractInstance Mem) : Prop := gas_used i = 0 /\ gas_used_externally i = 0.

Section Against.
Context {Ho : Host}.
Variable bounded : Prop.
Variables alloc entry lp : Z.
Variable i : ContractInstance Mem.
Variable h : Trace.
Hypothesis alloc_pos : bounded -> 0 <= alloc.
Hypothesis entry_pos : bounded -> 0 <= entry.
Hypothesis limit_pos : 0 <= lp.
Hypothesis is_fresh : fresh i.
Hypothesis exports_metered : metered_exports bounded alloc entry (create_entry_points con) (module_exports i).
#[local] Abbreviation sim := (sim bounded lp (gas_limit i) (create_entry_points con) (module_exports i)).

Lemma metered_allocate_only f len : exp_allocate (module_exports i) = Some f -> gas_only (f len).
Proof.
  pose proof (metered_allocate _ _ _ _ _ exports_metered) as Ha. unfold metered_export in Ha. cbn in Ha. intros E. rw E in Ha.
  eapply metered_gas_only; [apply Ha|apply allocate_calls].
Qed.

Lemma original_allocate_only f len : exp_allocate (create_entry_points (Mem := Mem) con) = Some f -> gas_only (f len).
Proof.
  intros [= <-]. apply (metered_gas_only (Mem := Mem) False 0 0 (allocate_export len)); [|apply allocate_calls].
  generalize (allocate_calls (Mem := Mem) len). generalize (allocate_export (Mem := Mem) len). intros g Hc.
  remember 0%nat as z. induction Hc; [by constructor..| |done]. constructor; [done|done|]. auto.
Qed.

Lemma handle_body_sim env code msg n pk addr fuel :
  sim (alloc + (alloc + entry)) enclave_out_of_gas (handle_body Ho env code msg n pk addr fuel)
    (fun d => handle_body (metered_host Ho d) env code msg n pk addr fuel).
Proof.
  pose proof (metered_allocate _ _ _ _ _ exports_metered) as Ha.
  assert (forall b, sim alloc enclave_out_of_gas (engine_write_to_memory (Ho := Ho) km depth fuel b)
            (fun d => engine_write_to_memory (Ho := metered_host Ho d) km depth fuel b)) as Hw by (intros b; by apply sim_engine_write).
  unfold handle_body, write_args. rw Z.add_assoc. apply sim_bind; [done| |].
  - apply sim_first; [intros Bd; specialize (alloc_pos Bd); lia|apply sim_lift|intros b]. apply sim_bind; [done|apply Hw|intros x].
    apply sim_then; [apply Hw|intros y]. apply (sim_lift _ _ _ _ _ _ (Ok _)).
  - intros p. apply (sim_sealed km bounded lp _ _ _ _ _ (fun d => _)). by apply (sim_engine_handle km depth bounded alloc).
Qed.

Lemma query_body_sim msg n pk addr fuel :
  sim (alloc + entry) enclave_out_of_gas (query_body Ho msg n pk addr fuel)
    (fun d => query_body (metered_host Ho d) msg n pk addr fuel).
Proof.
  pose proof (metered_allocate _ _ _ _ _ exports_metered) as Ha.
  unfold query_body. apply sim_bind; [done|by apply sim_engine_write|].
  intros p. apply (sim_sealed km bounded lp _ _ _ _ _ (fun d => _)). by apply (sim_engine_query km depth bounded alloc).
Qed.

Lemma original_related spend d0 :
  as_metered d0 h = h -> (bounded -> 0 <= spend /\ lp + spend <= gas_limit i) ->
  related bounded lp (gas_limit i) (create_entry_points con) (module_exports i) (spend + 0) d0 (original lp i h) (mkVM i h).
Proof.
  intros Hd Hs. destruct is_fresh as [Hu He]. unfold related, original. cbn.
  split_and!; [done|done|done|done|lia|unfold U64_MAX; lia| |].
  - unfold is_gas_depleted. cbn. rw He. destruct (Z.ltb_spec lp (sat_add 0 0)); [|done]. unfold sat_add, U64_MAX in *. lia.
  - intros Bd. specialize (Hs Bd). lia.
Qed.

(** The call of a metered contract ends, as that of the contract without metering does with the
    limit [lp], unless gas is depleted. *)
Lemma metered_call spend (body : Host -> nat -> X Mem EnclaveError bytes) (answer : Host -> X Mem RunError bytes) n pk addr :
  (bounded -> 0 <= spend /\ lp + spend <= gas_limit i) ->
  (forall Ho' e, (forall f len, exp_allocate e = Some f -> gas_only (f len)) -> ends e (body Ho')) ->
  (forall fuel, sim spend enclave_out_of_gas (body Ho fuel) (fun d => body (metered_host Ho d) fuel)) ->
  (forall d, as_metered d h = h -> exists n0 m' vm' r, answer (metered_host Ho d) (original lp i h) = Some (vm', r) /\
     forall fuel, body (metered_host Ho d) (n0 + fuel)%nat (original lp i h) = Some (vm_with m' vm', sealed_output n pk addr r)) ->
  exists n0 d vm' r vmq rq, as_metered d h = h /\ answer (metered_host Ho d) (original lp i h) = Some (vm', r) /\
    (forall fuel, body Ho (n0 + fuel)%nat (mkVM i h) = Some (vmq, rq)) /\
    ((rq = sealed_output n pk addr r /\ trace vmq = as_metered d (trace vm')) \/
     (is_gas_depleted (instance vm') = true /\ gas_limit (instance vm') = lp) \/
     (~ bounded /\ exists e, rq = Err e /\ enclave_out_of_gas e)).
Proof.
  intros Hs Hends Hsim Hstd. destruct (metered_self h) as [d0 Hd0].
  destruct (metered_outcome bounded lp (gas_limit i) (create_entry_points con) (module_exports i) spend 0 d0 enclave_out_of_gas
              (body Ho) (fun d => body (metered_host Ho d)) (original lp i h) (mkVM i h)
              (fun d vm1 r1 => exists m' vm' r, answer (metered_host Ho d) (original lp i h) = Some (vm', r) /\
                 vm1 = vm_with m' vm' /\ r1 = sealed_output n pk addr r))
    as (n0 & d & vmq & rq & Had & Hrun & Hcase).
  - apply Hends, metered_allocate_only.
  - intros d fuel. apply (Hends _ (create_entry_points con)), original_allocate_only.
  - done.
  - done.
  - by apply original_related.
  - intros d Hd. destruct (Hstd d) as (n1 & m' & vm' & r & E & Hf); [by rw (as_metered_agree d0 d)|].
    exists n1, (vm_with m' vm'), (sealed_output n pk addr r). split; [|done]. by exists m', vm', r.
  - assert (as_metered d h = h) as Hd by (by rw (as_metered_agree d0 d)).
    destruct (Hstd d Hd) as (_ & _ & vm' & r & E & _). exists n0, d, vm', r, vmq, rq. split_and!; [done..|].
    destruct Hcase as [(vm1 & (m1 & vm2 & r2 & E2 & -> & ->) & Ht)|[(vm1 & r1 & (m1 & vm2 & r2 & E2 & -> & ->) & Hg & Hl)|(Hb & _ & Hrest)]].
    + rw E in E2. injection E2 as <- <-. by left.
    + rw E in E2. injection E2 as <- <-. by right; left.
    + right. right. done.
Qed.

End Against.

Lemma metered_exports_pos (bounded : Prop) alloc entry (e : Exports Mem) :
  metered_exports bounded alloc entry (create_entry_points con) e -> bounded -> 0 <= alloc /\ 0 <= entry.
Proof.
  intros [Ha _ _ Hq] Bd. unfold metered_export in Ha, Hq. cbn in Ha, Hq.
  destruct (exp_allocate e) as [f|]; [|done]. destruct (exp_query e) as [g|]; [|done].
  split; [eapply metered_pos; [apply (Ha 0)|done]|eapply metered_pos; [apply (Hq 0)|done]].
Qed.

(** What metering may charge in a call of handle and of query, with the calls of allocate that
    write the arguments. *)
Definition handle_charges (alloc entry : Z) : Z := alloc + (alloc + entry).
Definition query_charges (alloc entry : Z) : Z := alloc + entry.

(** A metered call ended as the contract without metering did, which reached [vm] with the result
    [r]; or, if what metering charges has no bound, it ran out of gas. *)
Definition as_original {B} (bounded : Prop) (o : Outcome B) (d : nat -> Z) (vm : VM Mem) (r : result EnclaveError B) : Prop :=
  (out_trace o = as_metered d (trace vm) /\ out_result o = r) \/
  (~ bounded /\ exists e, out_result o = Err e /\ enclave_out_of_gas e).

Section Sealed.
Context {Ho : Host}.
Variable bounded : Prop.
Variables alloc entry lp : Z.
Variable i : ContractInstance Mem.
Variable h : Trace.
Hypothesis exports_metered : metered_exports bounded alloc entry (create_entry_points con) (module_exports i).
Hypothesis is_fresh : fresh i.
Hypothesis limit_pos : 0 <= lp.

(** A metered handle. *)
Lemma metered_handle_sealed {B} env code msg eb n pk addr (success : bytes -> B) :
  let start := original lp i h in
  (bounded -> lp + handle_charges alloc entry <= gas_limit i) -> json_to_vec (with_code_hash env code) = Some eb ->
  (forall d, as_metered d h = h -> call_need (Ho := metered_host Ho d) km depth (handle_fn con) eb msg start <= room (memory i)) ->
  (forall d vm' r, as_metered d h = h ->
     ideal_output (Ho := metered_host Ho d) km depth (parse_args eb msg) (fun p => handle_fn con p.1 p.2) start = Some (vm', r) ->
     is_gas_depleted (instance vm') = false) ->
  exists n0 d vm' r, as_metered d h = h /\
    ideal_output (Ho := metered_host Ho d) km depth (parse_args eb msg) (fun p => handle_fn con p.1 p.2) start = Some (vm', r) /\
    forall fuel, exists o, drive km h (Ok i) (write_args km depth (n0 + fuel) env code msg)
        (fun p => engine_handle km depth (n0 + fuel) p.1 p.2) n pk addr success = Some o /\
      as_original bounded o d vm' (success <$> sealed_output n pk addr r).
Proof.
  intros start Hg Hj Hneed Hgas. pose proof (metered_exports_pos _ _ _ _ exports_metered) as Hpos. unfold handle_charges in *.
  destruct (metered_call (Ho := Ho) bounded alloc entry lp i h) with
    (spend := alloc + (alloc + entry)) (body := fun Ho' => handle_body Ho' env code msg n pk addr)
    (answer := fun Ho' => ideal_output (Mem := Mem) (Ho := Ho') km depth (parse_args eb msg) (fun p => handle_fn con p.1 p.2))
    (n := n) (pk := pk) (addr := addr) as (n0 & d & vm' & r & vmq & rq & Hd & Hid & Hrun & Hcase);
    [done|done|done|intros Bd; specialize (Hg Bd); destruct (Hpos Bd); lia|intros; by apply handle_body_ends|
     intros; by apply (handle_body_sim bounded alloc entry); [intros Bd; apply (Hpos Bd)..|]|intros d Hd; by apply handle_body_std; [|done|apply Hneed]|].
  exists n0, d, vm', r. split_and!; [done|done|]. intros fuel.
  destruct (drive_runs km h i _ _ n pk addr success vmq rq (Hrun fuel)) as [gas Hdr]. eexists. split; [exact Hdr|].
  unfold as_original. cbn [out_trace out_result].
  destruct Hcase as [[-> Ht]|[[Hx _]|(Hb & e & -> & He)]]; [by left|by rw (Hgas d vm' r Hd Hid) in Hx|right].
  split; [done|]. by exists e.
Qed.

(** A metered query. *)
Lemma metered_query_sealed {B} msg n pk addr (success : bytes -> B) :
  let start := original lp i h in
  (bounded -> lp + query_charges alloc entry <= gas_limit i) -> 
  (forall d, as_metered d h = h -> cost (length msg) + output_need (Ho := metered_host Ho d) km depth (from_slice msg) (query_fn con) start <= room (memory i)) ->
  (forall d vm' r, as_metered d h = h ->
     ideal_output (Ho := metered_host Ho d) km depth (from_slice msg) (query_fn con) start = Some (vm', r) ->
     is_gas_depleted (instance vm') = false) ->
  exists n0 d vm' r, as_metered d h = h /\
    ideal_output (Ho := metered_host Ho d) km depth (from_slice msg) (query_fn con) start = Some (vm', r) /\
    forall fuel, exists o, drive km h (Ok i) (engine_write_to_memory km depth (n0 + fuel) msg)
        (fun p => engine_query km depth (n0 + fuel) p) n pk addr success = Some o /\
      as_original bounded o d vm' (success <$> sealed_output n pk addr r).
Proof.
  intros start Hg Hneed Hgas. pose proof (metered_exports_pos _ _ _ _ exports_metered) as Hpos. unfold query_charges in *.
  destruct (metered_call (Ho := Ho) bounded alloc entry lp i h) with
    (spend := alloc + entry) (body := fun Ho' => query_body Ho' msg n pk addr)
    (answer := fun Ho' => ideal_output (Mem := Mem) (Ho := Ho') km depth (from_slice msg) (query_fn con))
    (n := n) (pk := pk) (addr := addr) as (n0 & d & vm' & r & vmq & rq & Hd & Hid & Hrun & Hcase);
    [done|done|done|intros Bd; specialize (Hg Bd); destruct (Hpos Bd); lia|intros; by apply query_body_ends|
     intros; by apply (query_body_sim bounded alloc entry); [intros Bd; apply (Hpos Bd)..|]|intros d Hd; by apply query_body_std; [|apply Hneed]|].
  exists n0, d, vm', r. split_and!; [done|done|]. intros fuel.
  destruct (drive_runs km h i _ _ n pk addr success vmq rq (Hrun fuel)) as [gas Hdr]. eexists. split; [exact Hdr|].
  unfold as_original. cbn [out_trace out_result].
  destruct Hcase as [[-> Ht]|[[Hx _]|(Hb & e & -> & He)]]; [by left|by rw (Hgas d vm' r Hd Hid) in Hx|right].
  split; [done|]. by exists e.
Qed.
End Sealed.

(** Without a bound on the charges: a metered handle that succeeds did what the contract does when
    nothing limits it. *)
Lemma metered_handle_success {Ho : Host} {B} alloc entry i h env code msg eb n pk addr (success : bytes -> B) fuel o out :
  metered_exports False alloc entry (create_entry_points con) (module_exports i) -> fresh i ->
  json_to_vec (with_code_hash env code) = Some eb ->
  (forall d, as_metered d h = h ->
     call_need (Ho := metered_host Ho d) km depth (handle_fn con) eb msg (original U64_MAX i h) <= room (memory i)) ->
  drive km h (Ok i) (write_args km depth fuel env code msg) (fun p => engine_handle km depth fuel p.1 p.2) n pk addr success = Some o ->
  out_result o = Ok out ->
  exists d vm' output, as_metered d h = h /\
    ideal_output (Ho := metered_host Ho d) km depth (parse_args eb msg) (fun p => handle_fn con p.1 p.2) (original U64_MAX i h)
      = Some (vm', Ok output) /\
    success <$> encrypt_output km output n pk addr = Ok out /\ out_trace o = as_metered d (trace vm').
Proof.
  intros Hm Hf Hj Hneed Hdr Hout.
  destruct (metered_call (Ho := Ho) False alloc entry U64_MAX i h) with
    (spend := alloc + (alloc + entry)) (body := fun Ho' => handle_body Ho' env code msg n pk addr)
    (answer := fun Ho' => ideal_output (Mem := Mem) (Ho := Ho') km depth (parse_args eb msg) (fun p => handle_fn con p.1 p.2))
    (n := n) (pk := pk) (addr := addr) as (n0 & d & vm' & r & vmq & rq & Hd & Hid & Hrun & Hcase);
    [by unfold U64_MAX|done|done|done|intros; by apply handle_body_ends|intros; by apply handle_body_sim|
     intros d Hd; by apply handle_body_std; [|done|apply Hneed]|].
  destruct (drive_ran km h i _ _ n pk addr success o Hdr) as (vm1 & r1 & E1 & Ht & Hr).
  assert (vm1 = vmq /\ r1 = rq) as [-> ->].
  { pose proof (proj1 (handle_body_ends Ho (module_exports i) env code msg n pk addr (metered_allocate_only False alloc entry i Hm))) as Hx.
    apply (extends_more _ fuel n0 Hx) in E1. rw Nat.add_comm Hrun in E1. by injection E1. }
  rw Hr in Hout. destruct Hcase as [[-> Htr]|[[Hx Hl]|[_ (e & -> & _)]]]; [| |done].
  - destruct r as [output|e|]; [|done..]. exists d, vm', output. rw Ht. by split_and!.
  - exfalso. revert Hx. unfold is_gas_depleted. rw Hl. destruct (Z.ltb_spec U64_MAX (sat_add (gas_used (instance vm')) (gas_used_externally (instance vm')))); [|done].
    unfold sat_add in *. lia.
Qed.

End MeteredCalls.

(** The instance that start_engine makes. *)
Lemma start_engine_instance {Mem} `{WL : WasmLoader Mem} limit code key op n pk i :
  start_engine (Mem := Mem) limit code key op n pk = Ok i -> gas_limit i = limit /\ fresh i /\ instance_key i = key.
Proof.
  unfold start_engine. destruct (deserialize_buffer code) as [p|]; [|done]. cbn [ok_or mbind result_bind].
  destruct (validate_memory p) as [p'| |]; [|done..]. cbn [mbind result_bind].
  destruct (inject_gas_counter _ _) as [c|]; [|done]. cbn [ok_or mbind result_bind].
  destruct (from_parity_wasm_module c) as [md|]; [|done]. cbn [ok_or mbind result_bind]. destruct (has_floating_point md); [done|].
  destruct (new_instance md) as [[[x [mm|]] []]|]; try done. cbn [ok_or mbind result_bind expect]. by intros [= <-].
Qed.

(** ** A loader that meters *)

(** The module is a contract with its memory, metered or not; [inject_gas_counter] has 10 charged
    for every block. *)
Definition metering_loader (e : Exports arena) : WasmLoader arena := {|
  ParityModule := list MemoryType * bool;
  WasmiModule := bool;
  deserialize_buffer _ := Some ([mkMemoryType 17 None], false);
  memory_section p := Some p.1;
  with_memory_section p s := (s, p.2);
  inject_gas_counter p _ := Some (p.1, true);
  from_parity_wasm_module p := Some p.2;
  has_floating_point _ := false;
  new_instance metered := Some (if metered then meter_exports 10 e else e, Some demo_arena, false)
|}.
