(* ===== verification/CallPath.v ===== *)
(** * One contract calls another, from message to function

    The path of cosmwasm/packages/wasmi-runtime/src/wasm/contract_operations.rs between two
    contracts: the enclave of the sender encrypts a call or a query (cosmwasm/types.rs of the
    output, query_chain.rs), the chain hands it back, and the entry point of the receiver checks,
    decrypts and runs it (contract_operations.rs, engine.rs, and std/src/exports.rs inside of the
    contract).  The theorems join the components: what was sent is what the function of the
    receiver is called with, and what a queried function answers is what the sender decrypts. *)

From Stdlib Require Import Strings.String.
From stdpp Require Import base tactics list numbers strings ssreflect.
From S2P Require Import Prelude Utf8 Crypto SecretMsg Signatures Validation EnclaveDb QueryChain Runtime Operations GuestMemory Metering GuestArena WasmCheck Math Storage Typed Std Querying GuestImports GuestLink GuestExports MeteredContract.

Local Open Scope list_scope.
Local Open Scope Z_scope.

Section CallPath.
Context {Mem : Type} `{WM : WasmMemory Mem} {ML : WasmMemoryLaws Mem} `{AL : GuestMemory.Allocator Mem} {LL : AllocatorLaws Mem}.
Context `{WL : WasmLoader Mem} `{P : Primitives} {HP : PrimitiveLaws} `{C : Codecs} {HC : CodecLaws} `{Pr : Prost}.
Context `{Ho : Host} `{BE : Bech32Errors}.
Context `{JQ : Json QueryChain.QueryRequest} `{JA : Json QueryAnswer} `{JS : Json QueryChain.StdError} `{JE : JsonErrors}.
Context `{JV : Json Value} `{JT : Json string} `{JW : Json WasmOutput} `{JC : Json (list SecretMsg.Coin)} `{JN : Json SecretMsg.Env}.
Context `{JG : Json SigInfo} `{JD : Json SignDoc}.
Context `{SE : Serde Std.Env} `{SQ : Serde QuerierResult}.
Context {I H Q U : Type} `{SI : Serde I} `{SH : Serde H} `{SM : Serde Q}.
Context `{RI : Serde (StdResult (InitResponse U))} `{RH : Serde (StdResult (HandleResponse U))} `{RQ : Serde (StdResult Binary)}.
Variable km : Keychain.
Variable depth : Z.

(** The contract that receives the call: its code, and its functions. *)
Variable code : bytes.
Variable receiver : contract_module I H Q U.

#[local] Abbreviation code_hash := (hex_encode (calc_contract_hash code)).

(** ** Calls *)

Lemma result_fmap_id {E A} (r : result E A) : (fun a => a) <$> r = r.
Proof. by destruct r. Qed.

(** A message that passes every check of [handle] is run by the engine. *)
Lemma handle_drives fuel limit env msg_bytes sig_info h e info m key addr inner :
  json_from_slice env = Some e -> json_from_slice sig_info = Some info ->
  secret_from_slice msg_bytes = Ok m -> verify_params km info e m = Ok tt ->
  (plain ← decrypt km m; validate_msg plain code) = Ok inner ->
  extract_contract_key e = Ok key -> CanonicalAddr_from_human (SecretMsg.address (SecretMsg.contract e)) = Some addr ->
  validate_contract_key km key addr code = Ok true ->
  Operations.handle (Mem := Mem) km depth fuel limit code env msg_bytes sig_info h =
    drive (Mem := Mem) km h (start_engine limit code key OpHandle (nonce m) (user_public_key m)) (write_args km depth fuel e code inner)
      (fun p => engine_handle km depth fuel p.1 p.2) (nonce m) (user_public_key m) addr (fun output => output).
Proof.
  intros He Hi Hm Hv Hd Hk Ha Hkey. unfold Operations.handle. rw He Hi Hm. cbn [ok_or check]. rw Hv Hk. cbn [check].
  destruct (decrypt km m) as [plain| |]; [|done..]. cbn [mbind result_bind] in Hd. cbn [check]. rw Hd. cbn [check].
  rw Ha. cbn [ok_or check]. by rw Hkey.
Qed.

(** C12: A message one contract sends to another runs the other's handle function on the
    environment of the call and on exactly the message that was sent. The receiver is loaded
    metered: its exports are the entry points of the contract with calls of gas inserted
    anywhere. Conditions: the heap of the instance is enough for the call and, with some
    limit lp, the services the function uses end without depleting gas, both whatever gas
    its own queries are given; where what metering charges has a bound, lp and the bound are
    within the limit. Then the encrypted message passes every check, and with enough fuel
    the ecall ends with the ocalls of the function without metering (up to the gas given to
    queries) and the encryption of its result; only where metering has no bound it may
    instead end with an error because gas ran out. *)
Theorem sent_message_runs_the_receiver caller to inner send n pk out sig c0 limit env sig_info h e info key addr i eb bounded alloc entry lp :
  length n = 32%nat -> length pk = 32%nat ->
  encrypt_wasm_msg km (SecretMsg.Execute to code_hash inner send c0) n pk caller = Ok (SecretMsg.Execute to code_hash out send (Some sig)) ->
  json_from_slice env = Some e -> json_from_slice sig_info = Some info ->
  CanonicalAddr_from_human (SecretMsg.sender (SecretMsg.message e)) = Some caller -> SecretMsg.sent_funds (SecretMsg.message e) = send ->
  callback_sig info = Some sig ->
  extract_contract_key e = Ok key -> CanonicalAddr_from_human (SecretMsg.address (SecretMsg.contract e)) = Some addr ->
  validate_contract_key km key addr code = Ok true ->
  start_engine (Mem := Mem) limit code key OpHandle n pk = Ok i ->
  metered_exports bounded alloc entry (create_entry_points receiver) (module_exports i) ->
  0 <= lp -> (bounded -> lp + handle_charges alloc entry <= limit) ->
  json_to_vec (with_code_hash e code) = Some eb ->
  let start := original receiver lp i h in
  (forall d, as_metered d h = h ->
     call_need (Ho := metered_host Ho d) km depth (handle_fn receiver) eb inner start <= room (memory i)) ->
  (forall d vm' r, as_metered d h = h ->
     ideal_output (Ho := metered_host Ho d) km depth (parse_args eb inner) (fun p => handle_fn receiver p.1 p.2) start = Some (vm', r) ->
     is_gas_depleted (instance vm') = false) ->
  exists fuel0 d vm' r, as_metered d h = h /\
    ideal_output (Ho := metered_host Ho d) km depth (parse_args eb inner) (fun p => handle_fn receiver p.1 p.2) start = Some (vm', r) /\
    forall fuel, exists o, Operations.handle (Mem := Mem) km depth (fuel0 + fuel) limit code env out sig_info h = Some o /\
      as_original bounded o d vm' (sealed_output km n pk addr r).
Proof.
  intros Hn Hpk Hs He Hi Hcaller Hsend Hsig Hk Ha Hkey Hstart Hexp Hlp Hcharge Hjson start Hneed Hgas.
  destruct (contract_call_is_delivered km _ _ _ _ _ _ _ e info _ _ _ Hn Hpk Hs Hcaller Hsend Hsig) as (m & Hm & Hv & Hd & <- & <-).
  destruct (start_engine_instance _ _ _ _ _ _ _ Hstart) as (<- & Hfresh & _).
  destruct (metered_handle_sealed km depth receiver bounded alloc entry lp i h Hexp Hfresh Hlp e code inner eb (nonce m) (user_public_key m) addr
              (fun output => output) Hcharge Hjson Hneed Hgas) as (fuel0 & d & vm' & r & Had & Hideal & Hdrive).
  exists fuel0, d, vm', r. split_and!; [done|done|]. intros fuel. destruct (Hdrive fuel) as (o & Ho' & Hr).
  exists o. rw (handle_drives _ _ _ _ _ _ e info m key addr inner) // Hstart. split; [done|].
  by rw result_fmap_id in Hr.
Qed.

(** ** Queries *)

(** A query that passes every check is run by the engine. *)
Lemma query_drives fuel limit key body h m inner :
  length key = CONTRACT_KEY_LENGTH -> secret_from_slice body = Ok m ->
  (plain ← decrypt km m; validate_msg plain code) = Ok inner ->
  Operations.query (Mem := Mem) km depth fuel limit code (key ++ body) h =
    drive (Mem := Mem) km h (start_engine limit code key OpQuery (nonce m) (user_public_key m))
      (engine_write_to_memory km depth fuel inner) (fun p => engine_query km depth fuel p)
      (nonce m) (user_public_key m) [] (fun output => output).
Proof.
  intros Hl Hm Hd. unfold Operations.query. rw length_app Hl. destruct (Nat.ltb_spec (CONTRACT_KEY_LENGTH + length body) CONTRACT_KEY_LENGTH); [lia|].
  rw -Hl take_app_length drop_app_length Hm. cbn [check].
  destruct (decrypt km m) as [plain| |]; [|done..]. cbn [mbind result_bind] in Hd. cbn [check]. by rw Hd.
Qed.

(** The steps of a query, from its encryption to the sealed output. *)
Lemma query_steps addr inner n pk body limit key h i bounded alloc entry lp :
  length n = 32%nat -> length pk = 32%nat ->
  encrypt_query_request km (QueryChain.QWasm (QueryChain.Smart addr code_hash inner)) n pk = Ok (QueryChain.QWasm (QueryChain.Smart addr code_hash body), true) ->
  length key = CONTRACT_KEY_LENGTH ->
  start_engine (Mem := Mem) limit code key OpQuery n pk = Ok i ->
  metered_exports bounded alloc entry (create_entry_points receiver) (module_exports i) ->
  0 <= lp -> (bounded -> lp + query_charges alloc entry <= limit) ->
  let start := original receiver lp i h in
  (forall d, as_metered d h = h ->
     cost (length inner) + output_need (Ho := metered_host Ho d) km depth (from_slice inner) (query_fn receiver) start <= room (memory i)) ->
  (forall d vm' r, as_metered d h = h ->
     ideal_output (Ho := metered_host Ho d) km depth (from_slice inner) (query_fn receiver) start = Some (vm', r) ->
     is_gas_depleted (instance vm') = false) ->
  exists fuel0 d vm' r, as_metered d h = h /\
    ideal_output (Ho := metered_host Ho d) km depth (from_slice inner) (query_fn receiver) start = Some (vm', r) /\
    forall fuel, exists o, Operations.query (Mem := Mem) km depth (fuel0 + fuel) limit code (key ++ body) h = Some o /\
      as_original bounded o d vm' (sealed_output km n pk [] r).
Proof.
  intros Hn Hpk Hq Hkey Hstart Hexp Hlp Hcharge start Hneed Hgas.
  destruct (nested_query_is_delivered km _ _ _ _ _ _ _ Hn Hpk Hq) as (_ & body' & m & [= <-] & Hm & <- & <- & Hd).
  destruct (start_engine_instance _ _ _ _ _ _ _ Hstart) as (<- & Hfresh & _).
  destruct (metered_query_sealed km depth receiver bounded alloc entry lp i h Hexp Hfresh Hlp inner (nonce m) (user_public_key m) [] (fun output => output)
              Hcharge Hneed Hgas) as (fuel0 & d & vm' & r & Had & Hideal & Hdrive).
  exists fuel0, d, vm', r. split_and!; [done|done|]. intros fuel. destruct (Hdrive fuel) as (o & Ho' & Hr).
  exists o. rw (query_drives _ _ _ _ _ m inner) // Hstart. split; [done|]. by rw result_fmap_id in Hr.
Qed.

(** *** The answer *)

Context {HB : Base64Json}.
Hypothesis output_roundtrip : forall text d,
  json_to_vec (OkString text) = Some d -> json_from_slice d = Some (OkString text).

(** The answer of a query function, sealed, opens for the contract that asked. *)
Lemma sealed_answer_opens n pk output value out :
  json_from_slice output = Some (OkString (base64_encode value)) ->
  sealed_output km n pk [] (Ok output) = Ok out ->
  exists text c, json_from_slice out = Some (OkString text) /\ base64_decode (lit text) = Some c /\
    decrypt_query_response km c n pk = Ok value.
Proof.
  intros Hj. unfold sealed_output, encrypt_output. cbn [map_err mbind result_bind].
  destruct (calc_encryption_key km n pk) as [key| |] eqn:Hk; [|done..]. cbn [mbind result_bind]. rw Hj. cbn [ok_or mbind result_bind].
  destruct (encrypt_wasm_output km key n pk [] _) as [w| |] eqn:Hw; [|done..]. cbn [mbind result_bind].
  destruct (query_answer_roundtrip km key n pk [] value w Hk Hw) as (text & c & -> & Hc & Hd).
  destruct (json_to_vec (OkString text)) as [d|] eqn:Ej; [|done]. cbn [ok_or]. intros [= <-].
  exists text, c. split_and!; [by apply output_roundtrip|done|done].
Qed.

(** The chain relays the result of a query: the host's answer holds the ciphertext that the text
    of the output encodes. *)
Definition relayed (r : result EnclaveError bytes) (a : Answer) : Prop :=
  exists out text c answer, r = Ok out /\ json_from_slice out = Some (OkString text) /\
    base64_decode (lit text) = Some c /\
    ocall_status a = Ok tt /\ buffer a = Some (Some answer) /\ json_from_slice answer = Some (ContractOk c).

(** C18: A query from one contract to another is answered with what the other's query function
    returns. The receiver is loaded metered: its exports are the entry points of the
    contract with calls of gas inserted anywhere. Conditions: the heap of the instance is
    enough, and with some limit lp the function returns the value without depleting gas,
    both whatever gas its own queries are given; where what metering charges has a bound, lp
    and the bound are within the limit. Then with enough fuel the receiver's enclave ends
    with the encrypted value (or, only where metering has no bound, with an error because
    gas ran out), and that output, relayed by the chain, is what the sender's enclave hands
    to its contract as exactly the value, with one ocall whose gas is charged. *)
Theorem nested_query_returns_the_answer depth' gas question asked addr inner n pk body limit key h h' i output value answer bounded alloc entry lp :
  length n = 32%nat -> length pk = 32%nat -> Recursion.limit_reached depth' = false ->
  json_from_slice question = Some (QueryChain.QWasm (QueryChain.Smart addr code_hash inner)) ->
  encrypt_query_request km (QueryChain.QWasm (QueryChain.Smart addr code_hash inner)) n pk =
    Ok (QueryChain.QWasm (QueryChain.Smart addr code_hash body), true) ->
  json_to_vec (QueryChain.QWasm (QueryChain.Smart addr code_hash body)) = Some asked ->
  length key = CONTRACT_KEY_LENGTH ->
  start_engine (Mem := Mem) limit code key OpQuery n pk = Ok i ->
  metered_exports bounded alloc entry (create_entry_points receiver) (module_exports i) ->
  0 <= lp -> (bounded -> lp + query_charges alloc entry <= limit) ->
  let start := original receiver lp i h in
  (forall d, as_metered d h = h ->
     cost (length inner) + output_need (Ho := metered_host Ho d) km depth (from_slice inner) (query_fn receiver) start <= room (memory i)) ->
  (forall d, as_metered d h = h -> exists vm',
     ideal_output (Ho := metered_host Ho d) km depth (from_slice inner) (query_fn receiver) start = Some (vm', Ok output) /\
     is_gas_depleted (instance vm') = false) ->
  json_from_slice output = Some (OkString (base64_encode value)) -> json_to_vec (ContractOk value) = Some answer ->
  (exists fuel0, forall fuel, exists o,
     Operations.query (Mem := Mem) km depth (fuel0 + fuel) limit code (key ++ body) h = Some o /\
     (out_result o = sealed_output km n pk [] (Ok output) \/
      ~ bounded /\ exists e, out_result o = Err e /\ enclave_out_of_gas e)) /\
  (relayed (sealed_output km n pk [] (Ok output)) (host_answer h' (OQueryChain asked gas)) ->
   encrypt_and_query_chain km depth' question n pk gas h' =
     (OQueryChain asked gas :: h', Ok (answer, answer_gas (host_answer h' (OQueryChain asked gas))))).
Proof.
  intros Hn Hpk Hlim Hq He Hasked Hkey Hstart Hexp Hlp Hcharge start Hneed Hideal Hout Hans. split.
  - destruct (query_steps addr inner n pk body limit key h i bounded alloc entry lp Hn Hpk He Hkey Hstart Hexp Hlp Hcharge Hneed)
      as (fuel0 & d & vm' & r & Hd & Hid & Hrun).
    { intros d vm' r Hd Hid. destruct (Hideal d Hd) as (vm1 & E1 & E2). rw Hid in E1. by injection E1 as -> _. }
    destruct (Hideal d Hd) as (vm1 & E1 & _). rw Hid in E1. injection E1 as -> ->. exists fuel0. intros fuel.
    destruct (Hrun fuel) as (o & ? & [[_ ?]|?]); exists o; auto.
  - intros (out & text & c & ab & Ho' & Ht & Hc & Hst & Hbuf & Hab).
    destruct (sealed_answer_opens _ _ _ _ _ Hout Ho') as (text' & c' & Ht' & Hc' & Hd). simplify_eq.
    unfold encrypt_and_query_chain, check_recursion_limit. rw Hlim Hq. cbv [mbind M_bind liftR mret M_ret]. rw He. cbn [fst snd negb].
    rw Hasked. cbn [ok_or]. cbv [QueryChain.query_chain ocall mbind M_bind liftR mret M_ret]. rw Hst Hbuf. cbn [ok_or default fst snd].
    rw Hab. cbn [decrypt_answer]. rw Hd. cbn [mbind result_bind]. by rw Hans.
Qed.
End CallPath.

(** ** Two contracts *)

Section Demo.
#[local] Existing Instance arena_memory.
#[local] Existing Instance arena_laws.
#[local] Existing Instance arena_allocator.
#[local] Existing Instance arena_allocator_laws.
#[local] Existing Instance demo_primitives.
#[local] Existing Instance demo_primitive_laws.
#[local] Existing Instance demo_prost.
#[local] Existing Instance demo_bech32_errors.
#[local] Existing Instance demo_json_errors.
#[local] Existing Instance no_json.
#[local] Existing Instance demo_json_coins.
#[local] Existing Instance demo_json_string.
#[local] Existing Instance demo_json_value.
#[local] Existing Instance demo_json_signdoc.
#[local] Existing Instance demo_serde_result.
#[local] Existing Instance demo_serde_u64.
#[local] Existing Instance demo_serde_env.
#[local] Existing Instance demo_serde_handle.
#[local] Existing Instance demo_serde_init.

(** The code of the receiver is a contract that keeps a number, metered when it is loaded. *)
Definition counter_exports : Exports arena := create_entry_points (RQ := demo_serde_query) demo_contract.
Definition counter_loader : WasmLoader arena := metering_loader counter_exports.

(** Its functions use the store at most twice: so metering charges at most 50 in a function, and 10
    in allocate. *)
Lemma demo_contract_metered bounded :
  metered_exports bounded 10 50 counter_exports (meter_exports 10 counter_exports).
Proof.
  apply (entry_points_metered (RQ := demo_serde_query) demo_contract bounded 10 2); [done|..]; intros; cbn; repeat constructor.
Qed.

Section Call.
#[local] Existing Instance demo_codecs.
#[local] Existing Instance demo_codec_laws.
#[local] Existing Instance demo_host.
#[local] Existing Instance demo_json_env.
#[local] Existing Instance demo_json_output.
#[local] Existing Instance demo_serde_query.
#[local] Existing Instance counter_loader.

(** Alice's contract sends the number 7 to the counter. *)
Definition sent : SecretMsg.WasmMsg :=
  SecretMsg.Execute "to" (hex_encode (calc_contract_hash demo_code)) (be_bytes 8 7) [SecretMsg.mkCoin "uscrt" "5"] None.
Definition sent_encrypted : bytes * bytes :=
  match encrypt_wasm_msg demo_km sent demo_nonce demo_user (lit "alice") with
  | Ok (SecretMsg.Execute _ _ out _ (Some sig)) => (out, sig)
  | _ => ([], [])
  end.
Definition sent_info : SigInfo := mkSigInfo [] (mkCosmosSignature (Secp256k1 []) []) (Some sent_encrypted.2).
Definition sent_json_info : Json SigInfo := {| json_to_vec _ := None; json_from_slice _ := Some sent_info |}.
#[local] Existing Instance sent_json_info.

Definition counter (op : ContractOperation) : ContractInstance arena :=
  mkInstance demo_arena 100000 0 0 default_wasm_costs demo_contract_key (meter_exports 10 counter_exports) op demo_nonce demo_user.
Definition sent_env : SecretMsg.Env := default demo_enclave_env (json_from_slice []).

(** The function of the counter on 7, whatever gas metering leaves. *)
Lemma counter_sent d :
  (fun o => (fun p => (is_gas_depleted (instance p.1), p.2)) <$> o)
    (ideal_output (Mem := arena) (Ho := metered_host demo_host d) demo_km 1 (parse_args (T := Z) (lit "env") (be_bytes 8 7))
      (fun p => handle_fn demo_contract p.1 p.2) (original demo_contract (100000 - handle_charges 10 50) (counter OpHandle) []))
  = Some (false, Ok (be_bytes 8 7)).
Proof. vm_compute. reflexivity. Qed.

Lemma sent_message_runs_the_receiver_witness :
  exists fuel0, forall fuel, exists o,
    Operations.handle (Mem := arena) demo_km 1 (fuel0 + fuel) 100000 demo_code [] sent_encrypted.1 [] [] = Some o /\
    out_result o = sealed_output demo_km demo_nonce demo_user (lit "to") (Ok (be_bytes 8 7)).
Proof.
  destruct (sent_message_runs_the_receiver demo_km 1 demo_code demo_contract (lit "alice") "to" (be_bytes 8 7)
              [SecretMsg.mkCoin "uscrt" "5"] demo_nonce demo_user sent_encrypted.1 sent_encrypted.2 None 100000 [] [] []
              sent_env sent_info demo_contract_key (lit "to") (counter OpHandle) (lit "env") True 10 50
              (100000 - handle_charges 10 50)) as (fuel0 & d & vm' & r & _ & E & Hd).
  19: { pose proof (counter_sent d) as Hv. rw E in Hv. cbn in Hv. injection Hv as _ ->. exists fuel0. intros fuel.
        destruct (Hd fuel) as (o & H1 & [[_ H2]|[H2 _]]); [|destruct (H2 Logic.I)]. exists o. split; [exact H1|exact H2]. }
  18: { intros d vm' r _ E. pose proof (counter_sent d) as Hv. rw E in Hv. cbn in Hv. by injection Hv as -> _. }
  17: { intros d _. vm_compute. discriminate. }
  12: reflexivity.
  12: apply demo_contract_metered.
  12: vm_compute; discriminate.
  12: vm_compute; discriminate.
  all: vm_compute; reflexivity.
Defined.
End Call.

Section Ask.
#[local] Existing Instance quoteless.
#[local] Existing Instance quoteless_laws.
#[local] Existing Instance quoteless_json.
#[local] Existing Instance demo_json_env.
#[local] Existing Instance demo_json_siginfo.

(** The JSON of an answer is its text, and the one query that is asked is for the number 7. *)
Definition text_json_output : Json WasmOutput := {|
  json_to_vec w := match w with OkString text => Some (lit text) | _ => None end;
  json_from_slice d := Some (OkString (string_of_list_byte d))
|}.
Definition text_json_answer : Json QueryAnswer := {|
  json_to_vec a := match a with ContractOk b => Some b | _ => None end;
  json_from_slice b := Some (ContractOk b)
|}.
Definition text_serde_query : Serde (StdResult Binary) := {|
  to_vec r := match r with Ok d => Ok (lit (base64_encode d)) | _ => Ok (lit "error") end;
  from_slice _ := Err (generic_err "unused");
  type_name := "QueryResult"
|}.
Definition ask_hash : string := hex_encode (calc_contract_hash demo_code).
Definition ask_json_query : Json QueryChain.QueryRequest := {|
  json_to_vec _ := Some (lit "asked");
  json_from_slice _ := Some (QueryChain.QWasm (QueryChain.Smart "to" ask_hash (be_bytes 8 7)))
|}.
#[local] Existing Instance text_json_output.
#[local] Existing Instance text_json_answer.
#[local] Existing Instance text_serde_query.
#[local] Existing Instance ask_json_query.

(** A contract that answers with the number it is asked for. *)
Definition echo : contract_module Z Z Z Empty :=
  mkModule (fun _ _ => Done (Ok default_init_response)) (fun _ _ => Done (Ok (mkHandleResponse [] [] None)))
    (fun n => Done (Ok (be_bytes 8 n))).
Definition echo_exports : Exports arena := create_entry_points echo.
Definition echo_loader : WasmLoader arena := metering_loader echo_exports.
#[local] Existing Instance echo_loader.

Lemma echo_metered : metered_exports True 10 10 echo_exports (meter_exports 10 echo_exports).
Proof. apply (entry_points_metered echo True 10 0); [done|..]; intros; cbn; repeat constructor. Qed.

Definition echo_instance : ContractInstance arena :=
  mkInstance demo_arena 100000 0 0 default_wasm_costs demo_contract_key (meter_exports 10 echo_exports) OpQuery demo_nonce demo_user.

(** The chain answers with the output of the echo. *)
Definition echo_output : result EnclaveError bytes :=
  sealed_output demo_km demo_nonce demo_user [] (Ok (lit (base64_encode (be_bytes 8 7)))).
Definition echo_answer : bytes :=
  match echo_output with Ok out => default [] (base64_decode out) | _ => [] end.
Definition echo_host : Host :=
  {| host_answer _ _ := mkAnswer true OcallSuccess default_vm_error 42 (Some (Some echo_answer)) |}.
#[local] Existing Instance echo_host.

Definition ask_body : bytes :=
  match encrypt_query_request demo_km (QueryChain.QWasm (QueryChain.Smart "to" ask_hash (be_bytes 8 7))) demo_nonce demo_user with
  | Ok (QueryChain.QWasm (QueryChain.Smart _ _ body), _) => body
  | _ => []
  end.

Lemma text_output_roundtrip text d : json_to_vec (OkString text) = Some d -> json_from_slice d = Some (OkString text).
Proof. intros [= <-]. cbn. do 2 f_equal. apply string_of_list_byte_of_string. Qed.

(** The function of the echo on 7. *)
Lemma echo_asked d : exists vm',
  ideal_output (Mem := arena) (Ho := metered_host echo_host d) demo_km 1 (from_slice (T := Z) (be_bytes 8 7)) (query_fn echo)
    (original echo (100000 - query_charges 10 10) echo_instance []) = Some (vm', Ok (lit (base64_encode (be_bytes 8 7)))) /\
  is_gas_depleted (instance vm') = false.
Proof.
  assert ((fun o => (fun p => (is_gas_depleted (instance p.1), p.2)) <$> o)
      (ideal_output (Mem := arena) (Ho := metered_host echo_host d) demo_km 1 (from_slice (T := Z) (be_bytes 8 7)) (query_fn echo)
        (original echo (100000 - query_charges 10 10) echo_instance [])) = Some (false, Ok (lit (base64_encode (be_bytes 8 7))))) as Hv
    by (vm_compute; reflexivity).
  destruct (ideal_output _ _ _ _ _) as [[vm' r]|]; [|discriminate]. cbn in Hv. injection Hv as Hd ->. exists vm'. split; [reflexivity|exact Hd].
Qed.

Lemma nested_query_returns_the_answer_witness :
  (exists fuel0, forall fuel, exists o,
     Operations.query (Mem := arena) demo_km 1 (fuel0 + fuel) 100000 demo_code (demo_contract_key ++ ask_body) [] = Some o /\
     out_result o = echo_output) /\
  encrypt_and_query_chain demo_km 1 [] demo_nonce demo_user 1000 [] =
    ([OQueryChain (lit "asked") 1000], Ok (be_bytes 8 7, 42)).
Proof.
  destruct (nested_query_returns_the_answer (Mem := arena) demo_km 1 demo_code echo text_output_roundtrip 1 1000 [] (lit "asked") "to"
              (be_bytes 8 7) demo_nonce demo_user ask_body 100000 demo_contract_key [] [] echo_instance
              (lit (base64_encode (be_bytes 8 7))) (be_bytes 8 7) (be_bytes 8 7) True 10 10 (100000 - query_charges 10 10)) as [Hrun Hans].
  16: { split; [|apply Hans].
        { destruct Hrun as [fuel0 Hf]. exists fuel0. intros fuel. destruct (Hf fuel) as (o & H1 & [H2|[H2 _]]); [|destruct (H2 Logic.I)].
          exists o. split; [exact H1|exact H2]. }
        eexists _, _, _, _. split_and!; vm_compute; reflexivity. }
  8: reflexivity.
  8: exact echo_metered.
  8: vm_compute; discriminate.
  8: vm_compute; discriminate.
  8: { intros d _. vm_compute. discriminate. }
  8: { intros d _. apply echo_asked. }
  all: vm_compute; reflexivity.
Defined.
End Ask.
End Demo.
