(* ===== verification/ContractState.v ===== *)
(** * What a contract's function does to its state

    A contract function is a tree of calls of its dependencies ([contract_program]).  Here it is
    given its plain meaning, on a map from keys to values, and the enclave is shown to implement
    it: over a host that keeps what it is given, the encrypted store represents the map, before
    and after a run of the services of the enclave (db.rs, contract.rs) on the program. *)

From Stdlib Require Import Strings.String.
From stdpp Require Import base tactics list numbers strings ssreflect.
From S2P Require Import Prelude Utf8 Crypto SecretMsg Signatures Validation EnclaveDb QueryChain Runtime Operations GuestMemory Metering Math Storage Typed Std Querying GuestImports GuestLink GuestExports MeteredContract.

Local Open Scope list_scope.

(** ** The plain meaning of a program *)

Abbreviation State := (bytes -> option bytes).

Definition put (k v : bytes) (s : State) : State := fun k' => if bool_decide (k = k') then Some v else s k'.
Definition erase_key (k : bytes) (s : State) : State := fun k' => if bool_decide (k = k') then None else s k'.

Section Plain.
Context `{C : Codecs} `{BE : Bech32Errors}.

(** The answer to a conversion of an address; [None] where the call is aborted. *)
Definition converted (convert : bytes -> result WasmEngineError (bytes + bytes)) (buffer : Z) (prefix : string)
    (address : bytes) : option (StdResult bytes) :=
  match convert address with
  | Ok (inl text) => Some (Err (generic_err (prefix +:+ string_of_list_byte text)))
  | Ok (inr a) => if (buffer <? Z.of_nat (length a))%Z then None else Some (Ok a)
  | _ => None
  end.

Definition canonical_of : bytes -> option (StdResult bytes) :=
  converted canonicalize CANONICAL_ADDRESS_BUFFER_LENGTH "canonicalize_address errored: ".
Definition human_of : bytes -> option (StdResult bytes) :=
  converted humanize HUMAN_ADDRESS_BUFFER_LENGTH "humanize_address errored: ".

(** A program on a map; the answers to its queries come from the chain. *)
Fixpoint plain {A} (c : contract_program A) (answers : list QuerierResult) (s : State) : option (A * State) :=
  match c with
  | Done a => Some (a, s)
  | Get key k => plain (k (s key)) answers s
  | Set_ key value k => plain k answers (put key value s)
  | Remove key k => plain k answers (erase_key key s)
  | Canonical human k => r ← canonical_of human; plain (k r) answers s
  | Human canonical k => r ← human_of canonical; plain (k r) answers s
  | RawQuery _ k => match answers with r :: answers' => plain (k r) answers' s | [] => None end
  end.

End Plain.

(** The keys a program may touch. *)
Fixpoint within {A} (K : bytes -> Prop) (c : contract_program A) : Prop :=
  match c with
  | Done _ => True
  | Get key k => K key /\ forall r, within K (k r)
  | Set_ key _ k => K key /\ within K k
  | Remove key k => K key /\ within K k
  | Canonical _ k => forall r, within K (k r)
  | Human _ k => forall r, within K (k r)
  | RawQuery _ k => forall r, within K (k r)
  end.

(** ** The map behind the encrypted store *)

Section Represents.
Context `{P : Primitives} {HP : PrimitiveLaws}.
Variable km : Keychain.
Variable ck : bytes.
Variable K : bytes -> Prop.

(** Different fields of this contract are stored under different names. *)
Hypothesis fields_distinct : forall k k', K k -> K k' -> field_name_digest k ck = field_name_digest k' ck -> k = k'.

(** What a read of a key makes of the stored bytes. *)
Definition opened (store : State) (key : bytes) : result WasmEngineError (option bytes) :=
  match returned (store (field_name_digest key ck)) with
  | None => Ok None
  | Some value => Some <$> decrypt_key km (field_name_digest key ck) value ck
  end.

Definition represents (store s : State) : Prop := forall k, K k -> opened store k = Ok (s k).

Lemma represents_ext store store' s : (forall k, store k = store' k) -> represents store s -> represents store' s.
Proof. intros He Hr k Hk. unfold opened. rw -He. by apply Hr. Qed.

Lemma represents_empty : represents (fun _ => None) (fun _ => None).
Proof. done. Qed.

Context `{Ho : Host} {base : State} {cost : Trace -> Ocall -> Z} {HH : HonestHost base cost}.

Lemma read_represents s h key h' v g :
  represents (replay base h) s -> K key -> read_encrypted_key km key ck h = (h', Ok (v, g)) ->
  v = s key /\ represents (replay base h') s.
Proof.
  intros Hr Hk. rw read_encrypted_key_honest. specialize (Hr key Hk) as Hv. unfold opened in Hv. intros [= <- E].
  split; [|done]. destruct (returned (replay base h _)) as [c|]; [|congruence].
  destruct (decrypt_key _ _ _ _) as [d| |]; [|done..]. cbn in *. congruence.
Qed.

Lemma write_represents s h key value h' g :
  represents (replay base h) s -> K key -> write_encrypted_key km key value ck h = (h', Ok g) ->
  represents (replay base h') (put key value s).
Proof.
  intros Hr Hk (ad & c & Had & Hc & ->)%write_encrypted_key_honest k Hk'. unfold opened, put. cbn [replay].
  case_bool_decide as Hd.
  - apply fields_distinct in Hd as ->; [|done..]. rw bool_decide_true // returned_nonempty; [|by destruct ad].
    by rw (decrypt_encrypt_key _ _ value).
  - rw bool_decide_false; [by apply Hr|]. by intros ->.
Qed.

Lemma remove_represents s h key h' g :
  represents (replay base h) s -> K key -> remove_encrypted_key key ck h = (h', Ok g) ->
  represents (replay base h') (erase_key key s).
Proof.
  intros Hr Hk. rw remove_encrypted_key_honest. intros [= <- _] k Hk'. unfold opened, erase_key. cbn [replay].
  case_bool_decide as Hd.
  - apply fields_distinct in Hd as ->; [|done..]. by rw bool_decide_true.
  - rw bool_decide_false; [by apply Hr|]. by intros ->.
Qed.

End Represents.

(** ** The services of the enclave on a program *)

Section Simulation.
Context {Mem : Type}.
Context `{P : Primitives} {HP : PrimitiveLaws} `{C : Codecs} `{BE : Bech32Errors}.
Context `{JQ : Json QueryChain.QueryRequest} `{JA : Json QueryAnswer} `{JS : Json QueryChain.StdError} `{JE : JsonErrors}.
Context `{SQ : Serde QuerierResult}.
Context `{Ho : Host} {base : State} {cost : Trace -> Ocall -> Z} {HH : HonestHost base cost}.
Variable km : Keychain.
Variable depth : Z.
Variable ck : bytes.
Variable K : bytes -> Prop.
Hypothesis fields_distinct : forall k k', K k -> K k' -> field_name_digest k ck = field_name_digest k' ck -> k = k'.

(** The machine of the contract with this key, over a store that represents [s]. *)
Definition holds (s : State) (vm : VM Mem) : Prop :=
  instance_key (instance vm) = ck /\ represents km ck K (replay base (trace vm)) s.

Lemma charged g (vm vm' : VM Mem) u :
  use_gas_externally g vm = Some (vm', Ok u) ->
  trace vm' = trace vm /\ instance_key (instance vm') = instance_key (instance vm).
Proof.
  unfold use_gas_externally, check_gas_usage. cbv [mbind X_bind modifyI readI throwX liftX mret X_ret]. cbn [instance].
  destruct (is_gas_depleted _); [done|]. by intros [= <- _].
Qed.

Lemma get_holds s key (vm vm' : VM Mem) v :
  holds s vm -> K key -> ideal_get km key vm = Some (vm', Ok v) -> v = s key /\ holds s vm'.
Proof.
  intros [Hck Hr] Hk. unfold ideal_get, serve_get. cbv [mapErrX mbind X_bind readI onTrace mret X_ret]. rw Hck.
  destruct (read_encrypted_key km key ck (trace vm)) as [h' [[v' g]| |]] eqn:E; [|done..]. cbn [fst snd].
  destruct (use_gas_externally g _) as [[vm1 [u| |]]|] eqn:Eg; [|done..]. intros [= <- <-].
  destruct (charged _ _ _ _ Eg) as [Ht Hi]. destruct (read_represents km ck K _ _ _ _ _ _ Hr Hk E) as [-> Hr'].
  split; [done|]. split; [by rw Hi|]. by rw Ht.
Qed.

Lemma change_holds s s' (change : bytes -> M Trace WasmEngineError Z) (vm vm' : VM Mem) u :
  holds s vm ->
  (forall h' g, change ck (trace vm) = (h', Ok g) -> represents km ck K (replay base h') s') ->
  mapErrX HostErr (serve_change change) vm = Some (vm', Ok u) -> holds s' vm'.
Proof.
  intros [Hck Hr] Hc. unfold serve_change. cbv [mapErrX mbind X_bind readI onTrace mret X_ret throwX liftX].
  destruct (is_query _); [done|]. rw Hck. destruct (change ck (trace vm)) as [h' [g| |]] eqn:E; [|done..].
  destruct (use_gas_externally g _) as [[vm1 [v| |]]|] eqn:Eg; [|done..]. intros [= <- _].
  destruct (charged _ _ _ _ Eg) as [Ht Hi]. split; [by rw Hi|]. rw Ht. by eapply Hc.
Qed.

Lemma address_holds s price convert buffer prefix a (vm vm' : VM Mem) r :
  holds s vm -> ideal_address price convert buffer prefix a vm = Some (vm', Ok r) ->
  converted convert buffer prefix a = Some r /\ holds s vm'.
Proof.
  intros [Hck Hr]. unfold ideal_address, serve_address, converted. cbv [mapErrX mbind X_bind readI mret X_ret throwX liftX].
  destruct (use_gas_externally _ vm) as [[vm1 [u| |]]|] eqn:Eg; [|done..]. destruct (charged _ _ _ _ Eg) as [Ht Hi].
  destruct (convert a) as [[text|c]| |]; [| |done..].
  - intros [= <- <-]. split; [done|]. split; [by rw Hi|by rw Ht].
  - destruct (_ <? _)%Z; [done|]. intros [= <- <-]. split; [done|]. split; [by rw Hi|by rw Ht].
Qed.

Lemma query_holds s request (vm vm' : VM Mem) r :
  holds s vm -> ideal_query km depth request vm = Some (vm', Ok r) -> holds s vm'.
Proof.
  intros [Hck Hr]. unfold ideal_query, serve_query. cbv [mapErrX mbind X_bind readI onTrace mret X_ret].
  pose proof (query_chain_trace km depth request (instance_nonce (instance vm)) (instance_user_key (instance vm))
                (gas_left (instance vm)) (trace vm)) as Ht.
  destruct (encrypt_and_query_chain _ _ _ _ _ _ _) as [h' [[d g]| |]]; [|done..]. cbn [fst snd] in *.
  destruct (use_gas_externally g _) as [[vm1 [u| |]]|] eqn:Eg; [|done..]. intros [= <- _].
  destruct (charged _ _ _ _ Eg) as [Ht' Hi]. split; [by rw Hi|]. rw Ht'. cbn [trace].
  destruct Ht as [->|[_ [q ->]]]; [done|]. exact Hr.
Qed.

Lemma bind_Ok {E A B} (m : X Mem E A) (f : A -> X Mem E B) vm vm' b :
  (m ≫= f) vm = Some (vm', Ok b) -> exists vm1 a, m vm = Some (vm1, Ok a) /\ f a vm1 = Some (vm', Ok b).
Proof. cbv [mbind X_bind]. destruct (m vm) as [[vm1 [a| |]]|]; [|done..]. intros H. by exists vm1, a. Qed.

(** A run of the services that ends is a run of the plain meaning: on the represented map, with the
    answers the chain gave, to the represented map. *)
Lemma ideal_is_plain {A} (c : contract_program A) s (vm vm' : VM Mem) a :
  within K c -> holds s vm -> ideal km depth c vm = Some (vm', Ok a) ->
  exists answers s', plain c answers s = Some (a, s') /\ holds s' vm'.
Proof.
  revert s vm. induction c as [a0|key k IH|key value k IH|key k IH|x k IH|x k IH|q k IH]; intros s vm Hw Hs; cbn [ideal within] in *.
  - intros [= <- <-]. by exists [], s.
  - destruct Hw as [Hk Hw]. intros (vm1 & v & E1 & E2)%bind_Ok. destruct (get_holds _ _ _ _ _ Hs Hk E1) as [-> Hs1].
    exact (IH _ _ _ (Hw _) Hs1 E2).
  - destruct Hw as [Hk Hw]. intros (vm1 & [] & E1 & E2)%bind_Ok.
    assert (holds (put key value s) vm1) as Hs1.
    { eapply change_holds; [exact Hs| |exact E1]. intros h' g E. by apply (write_represents km ck K fields_distinct s (trace vm) key value h' g (proj2 Hs)). }
    exact (IH _ _ Hw Hs1 E2).
  - destruct Hw as [Hk Hw]. intros (vm1 & [] & E1 & E2)%bind_Ok.
    assert (holds (erase_key key s) vm1) as Hs1.
    { eapply change_holds; [exact Hs| |exact E1]. intros h' g E. by apply (remove_represents km ck K fields_distinct s (trace vm) key h' g (proj2 Hs)). }
    exact (IH _ _ Hw Hs1 E2).
  - intros (vm1 & r & E1 & E2)%bind_Ok. destruct (address_holds _ _ _ _ _ _ _ _ _ Hs E1) as [Hr Hs1].
    destruct (IH _ _ _ (Hw _) Hs1 E2) as (answers & s' & Hp & Hs'). exists answers, s'. split; [|done].
    cbn [plain]. unfold canonical_of. by rw Hr.
  - intros (vm1 & r & E1 & E2)%bind_Ok. destruct (address_holds _ _ _ _ _ _ _ _ _ Hs E1) as [Hr Hs1].
    destruct (IH _ _ _ (Hw _) Hs1 E2) as (answers & s' & Hp & Hs'). exists answers, s'. split; [|done].
    cbn [plain]. unfold human_of. by rw Hr.
  - intros (vm1 & r & E1 & E2)%bind_Ok. destruct (IH _ _ _ (Hw _) (query_holds _ _ _ _ _ Hs E1) E2) as (answers & s' & Hp & Hs').
    by exists (r :: answers), s'.
Qed.

End Simulation.

(** ** Successful calls *)

Section Calls.
Context {Mem : Type} `{WM : WasmMemory Mem} {ML : WasmMemoryLaws Mem} `{AL : GuestMemory.Allocator Mem} {LL : AllocatorLaws Mem}.
Context `{WL : WasmLoader Mem} `{P : Primitives} {HP : PrimitiveLaws} `{C : Codecs} `{Pr : Prost}.
Context `{BE : Bech32Errors}.
Context `{JQ : Json QueryChain.QueryRequest} `{JA : Json QueryAnswer} `{JS : Json QueryChain.StdError} `{JE : JsonErrors}.
Context `{JV : Json Value} `{JT : Json string} `{JW : Json WasmOutput} `{JC : Json (list SecretMsg.Coin)} `{JN : Json SecretMsg.Env}.
Context `{JG : Json SigInfo} `{JD : Json SignDoc}.
Context `{SE : Serde Std.Env} `{SQ : Serde QuerierResult}.
Context {I H Q U : Type} `{SI : Serde I} `{SH : Serde H} `{SM : Serde Q}.
Context `{RI : Serde (StdResult (InitResponse U))} `{RH : Serde (StdResult (HandleResponse U))} `{RQ : Serde (StdResult Binary)}.
Variable km : Keychain.

(** The contract: its code and its functions, the key its init was given, the keys it uses.  What is
    instantiated is the contract with calls of [gas] in it. *)
Variable code : bytes.
Variable con : contract_module I H Q U.
Variable ck : bytes.
Variable K : bytes -> Prop.
Hypothesis compiled : forall limit op n pk i, start_engine (Mem := Mem) limit code ck op n pk = Ok i ->
  metered_exports False 0 0 (create_entry_points con) (module_exports i).
Hypothesis fields_distinct : forall k k', K k -> K k' -> field_name_digest k ck = field_name_digest k' ck -> k = k'.
Hypothesis uses_fields : forall e m, within K (handle_fn con e m).

(** A message as the chain passes it on. *)
Record Message : Type := mkMessage { m_env : bytes; m_msg : bytes; m_sig : bytes }.

(** What the enclave makes of a message: the environment for the contract, the sender's nonce and
    key, the plain message and the contract's address. *)
Record Decoded : Type := mkDecoded { d_env : bytes; d_nonce : IoNonce; d_user : bytes; d_inner : bytes; d_addr : bytes }.

Definition decodes (m : Message) (d : Decoded) : Prop :=
  exists e sm,
    json_from_slice (m_env m) = Some e /\ json_to_vec (with_code_hash e code) = Some (d_env d) /\
    extract_contract_key e = Ok ck /\
    CanonicalAddr_from_human (SecretMsg.address (SecretMsg.contract e)) = Some (d_addr d) /\
    secret_from_slice (m_msg m) = Ok sm /\ nonce sm = d_nonce d /\ user_public_key sm = d_user d /\
    (plain ← decrypt km sm; validate_msg plain code) = Ok (d_inner d).

(** The contract's function on the map: what it returns for the arguments it parsed. *)
Definition plain_handle (d : Decoded) (answers : list QuerierResult) (s : State)
  : option (StdResult (HandleResponse U) * State) :=
  match parse_args (d_env d) (d_inner d) with
  | Ok p => plain (handle_fn con p.1 p.2) answers s
  | Err e => Some (Err e, s)
  | Panic => None
  end.

(** One call of the plain contract: its response, serialized and encrypted for the sender. *)
Definition plain_call (s : State) (m : Message) (out : bytes) (s' : State) : Prop :=
  exists d answers res output,
    decodes m d /\ plain_handle d answers s = Some (res, s') /\ to_vec res = Ok output /\
    encrypt_output km output (d_nonce d) (d_user d) (d_addr d) = Ok out.

Section Output.
Context `{Ho : Host} {base : State} {cost : Trace -> Ocall -> Z} {HH : HonestHost base cost}.
Variable depth : Z.

(** What the entry points of the contract return is what its function returns on the map. *)
Lemma ideal_output_plain d s i vm' output :
  represents km ck K base s -> instance_key i = ck ->
  ideal_output (Mem := Mem) km depth (parse_args (d_env d) (d_inner d)) (fun p => handle_fn con p.1 p.2) (mkVM i []) = Some (vm', Ok output) ->
  exists answers res s', plain_handle d answers s = Some (res, s') /\ to_vec res = Ok output /\
    represents km ck K (replay base (trace vm')) s'.
Proof.
  intros Hr Hi. unfold ideal_output, plain_handle.
  assert (holds (base := base) km ck K s (mkVM i [])) as Hs by done.
  intros (vm1 & res & E1 & E2)%bind_Ok.
  assert (to_vec res = Ok output /\ vm1 = vm') as [Hv ->].
  { revert E2. unfold encode. destruct res as [x|x|]; [..|done]; destruct (to_vec _); try done; by intros [= -> ->]. }
  unfold ideal_parsed in E1. destruct (parse_args (d_env d) (d_inner d)) as [p|err|]; [| |done].
  - apply bind_Ok in E1 as (vm2 & res' & E1 & E3).
    destruct (ideal_is_plain km depth ck K fields_distinct _ _ _ _ _ (uses_fields _ _) Hs E1) as (answers & s' & Hp & [_ Hs']).
    exists answers, res, s'. destruct res' as [x|x|]; [..|done]; injection E3 as <- <-; by split_and!.
  - injection E1 as <- <-. by exists [], (Err err), s.
Qed.

End Output.

Section Host.
Context `{Ho : Host} {base : State} {cost : Trace -> Ocall -> Z} {HH : HonestHost base cost}.
Variable depth : Z.

(** The heap of a fresh instance is enough for the call of the contract with the limit [lp], whatever
    gas [g] its queries are given. *)
Definition fits (lp limit : Z) (m : Message) : Prop :=
  forall d i g, decodes m d -> start_engine (Mem := Mem) limit code ck OpHandle (d_nonce d) (d_user d) = Ok i ->
  (call_need (Ho := metered_host Ho g) km depth (handle_fn con) (d_env d) (d_inner d) (original con lp i []) <= room (memory i))%Z.

(** The engine on a message that passed the checks. *)
#[local] Abbreviation driven fuel limit key e inner h n pk addr :=
  (drive (Mem := Mem) km h (start_engine limit code key OpHandle n pk) (write_args km depth fuel e code inner)
     (fun p => engine_handle km depth fuel p.1 p.2) n pk addr (fun output => output)).

(** What a successful [handle] has checked, and that it is a run of the engine. *)
Lemma handle_Ok fuel limit env msg_bytes sig_info h o out :
  Operations.handle (Mem := Mem) km depth fuel limit code env msg_bytes sig_info h = Some o -> out_result o = Ok out ->
  exists e info sm key addr inner,
    json_from_slice env = Some e /\ json_from_slice sig_info = Some info /\ secret_from_slice msg_bytes = Ok sm /\
    verify_params km info e sm = Ok tt /\ extract_contract_key e = Ok key /\
    (plain ← decrypt km sm; validate_msg plain code) = Ok inner /\
    CanonicalAddr_from_human (SecretMsg.address (SecretMsg.contract e)) = Some addr /\
    validate_contract_key km key addr code = Ok true /\
    driven fuel limit key e inner h (nonce sm) (user_public_key sm) addr = Some o.
Proof.
  intros Hh Ho'. assert (forall P : Prop, out_trace o = h /\ is_ok (out_result o) = false -> P) as Hno by (intros ? [_ Hf]; by rw Ho' in Hf).
  unfold Operations.handle in Hh.
  apply check_cases in Hh as [?|(e & He & Hh)]; [by apply Hno|]. apply check_cases in Hh as [?|(info & Hi & Hh)]; [by apply Hno|].
  apply check_cases in Hh as [?|(sm & Hs & Hh)]; [by apply Hno|]. apply check_cases in Hh as [?|([] & Hv & Hh)]; [by apply Hno|].
  apply check_cases in Hh as [?|(key & Hk & Hh)]; [by apply Hno|]. apply check_cases in Hh as [?|(pt & Hp & Hh)]; [by apply Hno|].
  apply check_cases in Hh as [?|(inner & Hn & Hh)]; [by apply Hno|]. apply check_cases in Hh as [?|(addr & Ha & Hh)]; [by apply Hno|].
  apply check_cases in Hh as [?|([] & Hkey & Hh)]; [by apply Hno| |cbn in Hh; simplify_eq; done].
  destruct (json_from_slice env) as [e'|] eqn:Ee; [|done]. destruct (json_from_slice sig_info) as [i'|] eqn:Es; [|done].
  destruct (CanonicalAddr_from_human _) as [a'|] eqn:Ea; [|done]. cbn in He, Hi, Ha. simplify_eq.
  exists e, info, sm, key, addr, inner. rw Hp. by split_and!.
Qed.
(** The chain passes the key of this contract on. *)
Definition keyed (m : Message) : Prop :=
  forall e, json_from_slice (m_env m) = Some e -> extract_contract_key e = Ok ck.

(** A successful handle is a call of the plain contract: on the map the store represented before,
    to the map it represents after. *)
Lemma successful_handle_is_plain fuel limit m o out s :
  represents km ck K base s -> keyed m -> fits U64_MAX limit m ->
  Operations.handle (Mem := Mem) km depth fuel limit code (m_env m) (m_msg m) (m_sig m) [] = Some o -> out_result o = Ok out ->
  exists s', plain_call s m out s' /\ represents km ck K (replay base (out_trace o)) s'.
Proof.
  intros Hr Hkey Hfits Hh Hout.
  destruct (handle_Ok _ _ _ _ _ _ _ _ Hh Hout) as (e & info & sm & key & addr & inner & He & _ & Hs & _ & Hk & Hd & Ha & _ & Hdr).
  specialize (Hkey _ He) as Hk'. rw Hk in Hk'. injection Hk' as ->.
  destruct (start_engine limit code ck OpHandle (nonce sm) (user_public_key sm)) as [i| |] eqn:Hi; cycle 1.
  { cbn in Hdr. by simplify_eq. } { cbn in Hdr. by simplify_eq. }
  destruct (json_to_vec (with_code_hash e code)) as [eb|] eqn:Hj; cycle 1.
  { unfold drive, write_args in Hdr. cbv [mbind X_bind liftX] in Hdr. rw Hj in Hdr. cbn in Hdr. by simplify_eq. }
  set (d := mkDecoded eb (nonce sm) (user_public_key sm) inner addr).
  assert (decodes m d) as Hdec by (exists e, sm; by split_and!).
  destruct (start_engine_instance _ _ _ _ _ _ _ Hi) as (_ & Hfresh & Hik).
  destruct (metered_handle_success km depth con 0 0 i [] e code inner eb (nonce sm) (user_public_key sm) addr (fun output => output)
              fuel o out (compiled _ _ _ _ _ Hi) Hfresh Hj (fun g _ => Hfits d i g Hdec Hi) Hdr Hout)
    as (g & vm' & output & _ & Hid & Henc & Ht).
  destruct (ideal_output_plain (HH := metered_honest _ _ _ g HH) depth d s (unmetered U64_MAX 0 (create_entry_points con) i) vm' output Hr Hik Hid)
    as (answers & res & s' & Hp & Hv & Hs').
  exists s'. split.
  - exists d, answers, res, output. split_and!; [done..|]. revert Henc. cbn [d_nonce d_user d_addr d]. by destruct (encrypt_output _ _ _ _ _).
  - eapply represents_ext; [|exact Hs']. intros k. by rw Ht replay_metered.
Qed.
End Host.
End Calls.
