(* ===== verification/GoBindings.v ===== *)
(** * Between the chain and the host: go-cosmwasm/src

    memory.rs, error/go.rs, error/rust.rs, db.rs, iterator.rs, querier.rs, api.rs and the
    entry points of lib.rs that store and run contracts.  The callbacks of the chain (Go) are
    parameters that answer with a status, gas and the buffers they asked Rust to allocate.
    The vectors that are alive are a map from addresses, so that a double free and a leak are
    visible; [None] is undefined behaviour. *)

From Stdlib Require Import Strings.String.
From stdpp Require Import base tactics list numbers strings ssreflect gmap relations.
From S2P Require Import Prelude Utf8 Math Storage Crypto EnclaveDb QueryChain Runtime Operations Ecalls SgxVm SgxVmFacts WasmCheck.

Local Open Scope string_scope.
Local Open Scope list_scope.

(** ** Texts of the errors *)

Section Display.
(** [{:?}] of a string and of an SGX status. *)
Variable debug_str : string -> string.
Variable debug_status : Z -> string.

Definition show_unsigned (z : Z) : string := u128_to_string z.
Definition show_signed (z : Z) : string :=
  if (z <? 0)%Z then "-" +:+ u128_to_string (- z) else u128_to_string z.

Definition display_ffi_error (e : FfiError) : string :=
  match e with
  | ForeignPanic => "Panic in FFI call"
  | BadArgument => "bad argument passed to FFI"
  | FfiInvalidUtf8 => "VM received invalid UTF-8 data from backend"
  | FfiOutOfGas => "Ran out of gas during FFI call"
  | FfiUnknown msg =>
      "Unknown error during FFI call: " +:+
      match msg with Some m => "Some(" +:+ debug_str m +:+ ")" | None => "None" end
  | UserErr msg => "User error during FFI call: " +:+ msg
  end.

Definition display_region_error (e : RegionValidationError) : string :=
  match e with
  | LengthExceedsCapacity l c =>
      "Region length exceeds capacity. Length " +:+ show_unsigned l +:+ ", capacity " +:+ show_unsigned c
  | OutOfRange o c =>
      "Region exceeds address space. Offset " +:+ show_unsigned o +:+ ", capacity " +:+ show_unsigned c
  | ZeroOffset => "Got a zero Wasm address in the offset"
  end.

Definition display_communication_error (e : CommunicationError) : string :=
  match e with
  | DerefErr offset msg =>
      "The Wasm memory address " +:+ show_unsigned offset +:+
      " provided by the contract could not be dereferenced: " +:+ msg
  | InvalidOrder value => "Got an invalid value for iteration order: " +:+ show_signed value
  | InvalidRegion source => "Got an invalid region: " +:+ display_region_error source
  | CommInvalidUtf8 msg => "Cannot decode UTF8 bytes into string: " +:+ msg
  | RegionLengthTooBig l m =>
      "Region length too big. Got " +:+ show_unsigned l +:+ ", limit " +:+ show_unsigned m
  | RegionTooSmall s r => "Region too small. Got " +:+ show_unsigned s +:+ ", required " +:+ show_unsigned r
  | ZeroAddress => "Got a zero Wasm address"
  end.

Definition display_enclave_error (e : EnclaveError) : string :=
  match e with
  | FailedOcall _ => "failed to execute ocall"
  | ValidationFailure => "failed to validate transaction"
  | InvalidWasm => "tried to load invalid wasm code"
  | CannotInitializeWasmMemory => "failed to initialize wasm memory"
  | WasmModuleWithStart => "WasmModuleWithStart"
  | WasmModuleWithFP => "found floating point operation in module code"
  | FailedGasMeteringInjection => "failed to inject gas metering"
  | InternalError => "internal error during execution"
  | OutOfGas => "execution ran out of gas"
  | FailedFunctionCall => "calling a function in the contract failed for an unexpected reason"
  | ContractPanicUnreachable => "the contract panicked"
  | ContractPanicMemoryAccessOutOfBounds => "the contract tried to access memory out of bounds"
  | ContractPanicTableAccessOutOfBounds => "the contract tried to access a nonexistent resource"
  | ContractPanicElemUninitialized => "the contract tried to access an uninitialized resource"
  | ContractPanicDivisionByZero => "the contract tried to divide by zero"
  | ContractPanicInvalidConversionToInt => "the contract tried to perform an invalid conversion to an integer"
  | ContractPanicStackOverflow => "the contract has run out of space on the stack"
  | ContractPanicUnexpectedSignature =>
      "the contract tried to call a function but expected an incorrect function signature"
  | FailedSeal => "failed to seal data"
  | FailedUnseal => "failed to unseal data"
  | FailedContractAuthentication => "failed to authenticate secret contract"
  | FailedToDeserialize => "failed to deserialize data"
  | FailedToSerialize => "failed to serialize data"
  | EncryptionError => "failed to encrypt data"
  | DecryptionError => "failed to decrypt data"
  | MemoryAllocationError => "failed to allocate memory"
  | MemorySafetyAllocationError => "failed to allocate minimal safety buffer"
  | MemoryReadError => "failed to read memory"
  | MemoryWriteError => "failed to write memory"
  | NotImplemented => "function not implemented"
  | FailedTxVerification => "failed to verify transaction signature"
  | UnauthorizedWrite => "contract tried to write to storage during a query"
  | HostMisbehavior => "communication with the enclave's host failed"
  | EnclavePanic => "panicked due to unexpected behavior"
  | OutOfMemory => "enclave ran out of heap memory"
  | ExceededRecursionLimit => "depth of nested contract calls exceeded"
  | UnknownError => "unknown error"
  end.

Definition display_vm_enclave_error (e : VmEnclaveError) : string :=
  match e with
  | EnclaveSideErr error => display_enclave_error error
  | SdkErr status => "SGX error: " +:+ debug_status status
  end.

Definition display_vm_error (e : VmError) : string :=
  match e with
  | CacheErr msg => "Cache error: " +:+ msg
  | CommunicationErr source => "Error in guest/host communication: " +:+ display_communication_error source
  | CompileErr msg => "Error compiling Wasm: " +:+ msg
  | ConversionErr f t i => "Couldn't convert from " +:+ f +:+ " to " +:+ t +:+ ". Input: " +:+ i
  | VmGenericErr msg => "Generic error: " +:+ msg
  | InstantiationErr msg => "Error instantiating a Wasm module: " +:+ msg
  | IntegrityErr => "Hash doesn't match stored data"
  | IteratorDoesNotExist id => "Iterator with ID " +:+ show_unsigned id +:+ " does not exist"
  | VmParseErr target msg => "Error parsing into type " +:+ target +:+ ": " +:+ msg
  | VmSerializeErr source msg => "Error serializing type " +:+ source +:+ ": " +:+ msg
  | ResolveErr msg => "Error resolving Wasm function: " +:+ msg
  | RuntimeErr msg => "Error executing Wasm: " +:+ msg
  | StaticValidationErr msg => "Error during static Wasm validation: " +:+ msg
  | UninitializedContextData kind => "Uninitialized Context Data: " +:+ kind
  | FfiErr source => "Calling external function through FFI: " +:+ display_ffi_error source
  | GasDepletion => "Ran out of gas during contract execution"
  | WriteAccessDenied => "Must not call a writing storage function in this context."
  | EnclaveErr source => "Enclave: " +:+ display_vm_enclave_error source
  end.

(** *** error/rust.rs *)

Inductive Error : Type :=
| EmptyArg (name : string)
| GoInvalidUtf8 (msg : string)
| GoOutOfGas
| GoPanic
| VmErr (msg : string)
| GoCwEnclaveError (msg : string).

Definition error_of_vm (source : VmError) : Error :=
  match source with
  | GasDepletion => GoOutOfGas
  | _ => VmErr (display_vm_error source)
  end.

(** [Display for Utf8Error]. *)
Definition display_utf8_error (e : nat * option nat) : string :=
  let index := show_unsigned (Z.of_nat e.1) in
  match e.2 with
  | Some n => "invalid utf-8 sequence of " +:+ show_unsigned (Z.of_nat n) +:+ " bytes from index " +:+ index
  | None => "incomplete utf-8 byte sequence from index " +:+ index
  end.

(** [str::from_utf8] with its error converted. *)
Definition str_from_utf8 (data : bytes) : result Error string :=
  match Text.utf8_error 0 data with
  | None => Ok (string_of_list_byte data)
  | Some e => Err (GoInvalidUtf8 (display_utf8_error e))
  end.

Definition display_error (e : Error) : string :=
  match e with
  | EmptyArg name => "Null/Empty argument: " +:+ name
  | GoInvalidUtf8 msg => "Cannot decode UTF8 bytes into string: " +:+ msg
  | GoOutOfGas => "Ran out of gas"
  | GoPanic => "Caught Panic"
  | VmErr msg => "Execution error: " +:+ msg
  | GoCwEnclaveError msg => msg
  end.

End Display.

Inductive ErrnoValue : Type := ESuccess | EOther | EOutOfGas.
Definition errno_i32 (e : ErrnoValue) : Z := match e with ESuccess => 0 | EOther => 1 | EOutOfGas => 2 end.

(** ** memory.rs *)

Record Buffer : Type := mkBuffer { ptr : Z; len : Z; cap : Z }.

(** The vectors of non-zero capacity that were released to the caller. *)
Abbreviation Memory := (gmap Z bytes).

Definition default_buffer : Buffer := mkBuffer 0 0 0.

Section Memory.
Context `{AL : Allocator}.

(** An empty vector owns no memory: its pointer is dangling, but not null. *)
Definition from_vec (v : bytes) (m : Memory) : Memory * Buffer :=
  match v with
  | [] => (m, mkBuffer 1 0 0)
  | _ => let p := address_for (dom m) in
         let n := Z.of_nat (length v) in (<[p := v]> m, mkBuffer p n n)
  end.

Definition read (b : Buffer) (m : Memory) : option (option bytes) :=
  if (ptr b =? 0)%Z then Some None
  else if (cap b =? 0)%Z then Some (Some [])
  else Some <$> m !! ptr b.

Definition consume (b : Buffer) (m : Memory) : option (Memory * bytes) :=
  if (ptr b =? 0)%Z then Some (m, [])
  else if (cap b =? 0)%Z then Some (m, [])
  else unbox (ptr b) m.

Definition allocate_rust (data : bytes) (m : Memory) : Memory * Buffer :=
  if (length data =? 0)%nat then from_vec [] m else from_vec data m.

Definition free_rust (b : Buffer) (m : Memory) : option Memory := fst <$> consume b m.

(** ** error/go.rs *)

Inductive GoResult : Type := GoOk | GoResPanic | GoBadArgument | GoResOutOfGas | GoOther | GoUser.

Definition go_result_from (n : Z) : GoResult :=
  if (n =? 0)%Z then GoOk
  else if (n =? 1)%Z then GoResPanic
  else if (n =? 2)%Z then GoBadArgument
  else if (n =? 3)%Z then GoResOutOfGas
  else if (n =? 5)%Z then GoUser
  else GoOther.

Definition display_go_result (r : GoResult) : string :=
  match r with
  | GoOk => "Ok" | GoResPanic => "Panic" | GoBadArgument => "BadArgument"
  | GoResOutOfGas => "OutOfGas" | GoOther => "Other Error" | GoUser => "User Error"
  end.

Definition read_error_msg (error_msg : Buffer) (fallback : string) (m : Memory) : option (Memory * string) :=
  if (ptr error_msg =? 0)%Z then Some (m, fallback)
  else '(m', v) ← consume error_msg m; Some (m', string_of_list_byte (Text.from_utf8_lossy v)).

Definition into_ffi_result (r : GoResult) (error_msg : Buffer) (fallback : string) (m : Memory)
  : option (Memory * result FfiError unit) :=
  match r with
  | GoOk => Some (m, Ok tt)
  | GoResPanic => Some (m, Err ForeignPanic)
  | GoBadArgument => Some (m, Err BadArgument)
  | GoResOutOfGas => Some (m, Err FfiOutOfGas)
  | GoOther => '(m', msg) ← read_error_msg error_msg fallback m; Some (m', Err (FfiUnknown (Some msg)))
  | GoUser => '(m', msg) ← read_error_msg error_msg fallback m; Some (m', Err (UserErr msg))
  end.

End Memory.

(** ** What buffers own *)

Section Ownership.
Context `{AL : Allocator}.

(** The memory is [m] and, apart from it, the vectors of [l]. *)
Definition owns (m : Memory) (l : list (Z * bytes)) (m' : Memory) : Prop :=
  NoDup l.*1 /\ Forall (fun p => m !! p = None) l.*1 /\ m' = list_to_map l ∪ m.

(** What a buffer made from [v] holds. *)
Definition chunk (b : Buffer) (v : bytes) : list (Z * bytes) :=
  match v with [] => [] | _ => [(ptr b, v)] end.

Definition buffer_of (b : Buffer) (v : bytes) : Prop :=
  ptr b <> 0%Z /\ (v = [] <-> cap b = 0%Z).

Lemma owns_nil m m' : owns m [] m' <-> m' = m.
Proof.
  split.
  - intros (_ & _ & ->). apply map_empty_union.
  - intros ->. split; [constructor|]. split; [constructor|]. symmetry. apply map_empty_union.
Qed.

Lemma owns_subseteq m l m' : owns m l m' -> m ⊆ m'.
Proof.
  intros (_ & Hf & ->). apply map_union_subseteq_r, map_disjoint_spec. intros p x y Hx Hy.
  apply elem_of_list_to_map_2 in Hx. rw Forall_forall in Hf.
  specialize (Hf p (list_elem_of_fmap_2 fst _ _ Hx)). congruence.
Qed.

Lemma owns_alloc m l m' v m'' b :
  owns m l m' -> from_vec v m' = (m'', b) -> buffer_of b v /\ owns m (chunk b v ++ l) m''.
Proof.
  intros (Hd & Hf & ->). unfold from_vec. destruct v as [|x v]; intros [= <- <-].
  - split; [done|]. by split.
  - set (p := address_for _). assert (p ∉ dom (list_to_map l ∪ m)) as Hp by apply address_unused.
    rw dom_union_L not_elem_of_union dom_list_to_map_L not_elem_of_list_to_set !not_elem_of_dom in Hp.
    destruct Hp as [Hl Hm]. split.
    + split; [apply address_not_null|]. cbn [cap length]. split; [done|lia].
    + cbn [chunk ptr app]. split; [by apply NoDup_cons|]. split; [by apply Forall_cons|].
      cbn [list_to_map foldr uncurry]. by rw insert_union_l.
Qed.

Lemma owns_consume m l1 b v l2 m' :
  owns m (l1 ++ chunk b v ++ l2) m' -> buffer_of b v ->
  exists m'', consume b m' = Some (m'', v) /\ owns m (l1 ++ l2) m''.
Proof.
  intros (Hd & Hf & ->) [Hz Hc]. unfold consume. destruct (Z.eqb_spec (ptr b) 0) as [|_]; [done|].
  destruct v as [|x v]; cbn [chunk app] in *.
  { destruct (Z.eqb_spec (cap b) 0) as [_|n]; [|by destruct n; apply Hc]. eexists. split; [done|]. by split. }
  destruct (Z.eqb_spec (cap b) 0) as [E|_]; [by apply Hc in E|].
  rw !fmap_app fmap_cons in Hd Hf. cbn [fst] in Hd, Hf.
  assert (l1.*1 ++ ptr b :: l2.*1 ≡ₚ ptr b :: l1.*1 ++ l2.*1) as Hp by (symmetry; apply Permutation_middle).
  rw Hp in Hd Hf. apply NoDup_cons in Hd as [Hn Hd]. apply Forall_cons in Hf as [Hm Hf].
  assert ((list_to_map (l1 ++ (ptr b, x :: v) :: l2) : Memory) = <[ptr b := x :: v]> (list_to_map (l1 ++ l2))) as ->.
  { rw -(list_to_map_cons (M := gmap Z)). apply list_to_map_proper; [|symmetry; apply Permutation_middle].
    rw !fmap_app fmap_cons. rw Hp. by apply NoDup_cons. }
  unfold unbox. rw -insert_union_l lookup_insert_eq. cbn [mbind option_bind]. eexists. split; [done|].
  split; [by rw fmap_app|]. split; [by rw fmap_app|]. rw delete_insert_id //. apply lookup_union_None. split; [|done].
  apply not_elem_of_list_to_map_1. by rw fmap_app.
Qed.

End Ownership.

(** ** The callbacks of the chain *)

(** What a callback leaves in its return value and out-parameters; [go_err] is the text that it
    had Rust allocate, if it did. *)
Record GoAnswer : Type := mkGo { go_code : Z; go_gas : Z; go_err : option bytes }.

Record iterator_t : Type := mkIter { db_counter : Z; iterator_index : Z }.
Definition default_iter : iterator_t := mkIter 0 0.

(** [D] is what is behind [db_t] and the gas meter. *)
Class GoDb (D : Type) : Type := {
  read_db : D -> bytes -> D * (GoAnswer * option bytes);
  write_db : D -> bytes -> bytes -> D * GoAnswer;
  remove_db : D -> bytes -> D * GoAnswer;
  (** The iterator and whether its table of functions was set. *)
  scan_db : D -> option bytes -> option bytes -> Z -> D * (GoAnswer * (iterator_t * bool));
  next_db : D -> iterator_t -> D * (GoAnswer * (option bytes * option bytes))
}.

Section Callbacks.
Context `{AL : Allocator} {D : Type} `{GD : GoDb D}.
Variable debug_str : string -> string.

Definition lossy (data : bytes) : string := string_of_list_byte (Text.from_utf8_lossy data).

(** An out-parameter starts as the null buffer and is set with [allocate_rust]. *)
Definition out_param (o : option bytes) (m : Memory) : Memory * Buffer :=
  match o with None => (m, default_buffer) | Some data => allocate_rust data m end.

Definition db_get (d : D) (key : bytes) (m : Memory) : option (D * Memory * FfiResult (option bytes)) :=
  let (m1, key_buf) := from_vec key m in
  let '(d', (a, out)) := read_db d key in
  let (m2, result_buf) := out_param out m1 in
  let (m3, err) := out_param (go_err a) m2 in
  let gas_info := with_externally_used (go_gas a) in
  '(m4, _) ← consume key_buf m3;
  '(m5, status) ← into_ffi_result (go_result_from (go_code a)) err
                    ("Failed to read a key in the db: " +:+ lossy key) m4;
  match status with
  | Ok _ =>
      if (ptr result_buf =? 0)%Z then Some (d', m5, (Ok None, gas_info))
      else '(m6, value) ← consume result_buf m5; Some (d', m6, (Ok (Some value), gas_info))
  | Err e => Some (d', m5, (Err e, gas_info))
  | Panic => Some (d', m5, (Panic, gas_info))
  end.

Definition db_set (d : D) (key value : bytes) (m : Memory) : option (D * Memory * FfiResult unit) :=
  let (m1, key_buf) := from_vec key m in
  let (m2, value_buf) := from_vec value m1 in
  let '(d', a) := write_db d key value in
  let (m3, err) := out_param (go_err a) m2 in
  let gas_info := with_externally_used (go_gas a) in
  '(m4, _) ← consume key_buf m3;
  '(m5, _) ← consume value_buf m4;
  '(m6, status) ← into_ffi_result (go_result_from (go_code a)) err
                    ("Failed to set a key in the db: " +:+ lossy key) m5;
  Some (d', m6, (status, gas_info)).

Definition db_remove (d : D) (key : bytes) (m : Memory) : option (D * Memory * FfiResult unit) :=
  let (m1, key_buf) := from_vec key m in
  let '(d', a) := remove_db d key in
  let (m2, err) := out_param (go_err a) m1 in
  let gas_info := with_externally_used (go_gas a) in
  '(m3, _) ← consume key_buf m2;
  '(m4, status) ← into_ffi_result (go_result_from (go_code a)) err
                    ("Failed to delete a key in the db: " +:+ lossy key) m3;
  Some (d', m4, (status, gas_info)).

Record GoIter : Type := mkGoIter { iter_state : iterator_t; has_vtable : bool }.

Definition debug_opt (o : option bytes) : string :=
  match o with Some s => "Some(" +:+ debug_str (lossy s) +:+ ")" | None => "None" end.

(** A bound that is absent is the null buffer. *)
Definition bound_buf (o : option bytes) (m : Memory) : Memory * Buffer :=
  match o with Some s => from_vec s m | None => (m, default_buffer) end.

Definition order_i32 (o : Order) : Z := match o with Ascending => 1 | Descending => 2 end.

Definition db_range (d : D) (start stop : option bytes) (order : Order) (m : Memory)
  : option (D * Memory * FfiResult GoIter) :=
  let (m1, start_buf) := bound_buf start m in
  let (m2, end_buf) := bound_buf stop m1 in
  let '(d', (a, (it, set))) := scan_db d start stop (order_i32 order) in
  let (m3, err) := out_param (go_err a) m2 in
  let gas_info := with_externally_used (go_gas a) in
  '(m4, _) ← consume start_buf m3;
  '(m5, _) ← consume end_buf m4;
  '(m6, status) ← into_ffi_result (go_result_from (go_code a)) err
                    ("Failed to read the next key between " +:+ debug_opt start +:+ " and " +:+ debug_opt stop) m5;
  match status with
  | Ok _ => Some (d', m6, (Ok (mkGoIter it set), gas_info))
  | Err e => Some (d', m6, (Err e, gas_info))
  | Panic => Some (d', m6, (Panic, gas_info))
  end.

(** The key and the value are read, not consumed. *)
Definition iter_next (d : D) (it : GoIter) (m : Memory) : option (D * Memory * FfiResult (option (bytes * bytes))) :=
  if negb (has_vtable it) then Some (d, m, (Err (FfiUnknown (Some "iterator vtable not set")), free_gas))
  else
    let '(d', (a, (key, value))) := next_db d (iter_state it) in
    let (m1, key_buf) := out_param key m in
    let (m2, value_buf) := out_param value m1 in
    let (m3, err) := out_param (go_err a) m2 in
    let gas_info := with_externally_used (go_gas a) in
    '(m4, status) ← into_ffi_result (go_result_from (go_code a)) err
                      "Failed to fetch next item from iterator" m3;
    match status with
    | Ok _ =>
        okey ← read key_buf m4;
        match okey with
        | Some k =>
            ovalue ← read value_buf m4;
            match ovalue with
            | Some v => Some (d', m4, (Ok (Some (k, v)), gas_info))
            | None => Some (d', m4,
                (Err (FfiUnknown (Some "Failed to read value while reading the next key in the db")), gas_info))
            end
        | None => Some (d', m4, (Ok None, gas_info))
        end
    | Err e => Some (d', m4, (Err e, gas_info))
    | Panic => Some (d', m4, (Panic, gas_info))
    end.

End Callbacks.

(** ** querier.rs and api.rs *)

Section QuerierApi.
Context `{AL : Allocator}.

(** [R] is [SystemResult<StdResult<Binary>>]: the answer in the JSON, or the error of the
    parser; and the answer that reports an invalid response. *)
Definition go_query_raw {R} (query_external : bytes -> Z -> GoAnswer * option bytes)
    (from_slice : bytes -> R + string) (invalid_response : string -> bytes -> R)
    (request : bytes) (gas_limit : Z) (m : Memory) : option (Memory * FfiResult R) :=
  let (m1, request_buf) := from_vec request m in
  let '(a, out) := query_external request gas_limit in
  let (m2, result_buf) := out_param out m1 in
  let (m3, err) := out_param (go_err a) m2 in
  let gas_info := with_externally_used (go_gas a) in
  '(m4, _) ← consume request_buf m3;
  '(m5, status) ← into_ffi_result (go_result_from (go_code a)) err
                    ("Failed to query another contract with this request: " +:+ lossy request) m4;
  match status with
  | Ok _ =>
      '(m6, bin_result) ← consume result_buf m5;
      Some (m6, (Ok match from_slice bin_result with
                    | inl r => r
                    | inr e => invalid_response ("Parsing Go response: " +:+ e) bin_result
                    end, gas_info))
  | Err e => Some (m5, (Err e, gas_info))
  | Panic => Some (m5, (Panic, gas_info))
  end.

(** What both conversions of addresses do; [finish] makes the address of the output. *)
Definition go_address {A} (callback : bytes -> GoAnswer * option bytes) (fallback : string)
    (finish : bytes -> result FfiError A) (input : bytes) (m : Memory) : option (Memory * FfiResult A) :=
  let (m1, input_buf) := from_vec input m in
  let '(a, out) := callback input in
  let (m2, output) := out_param out m1 in
  let (m3, err) := out_param (go_err a) m2 in
  let gas_info := with_cost (go_gas a) in
  '(m4, _) ← consume input_buf m3;
  '(m5, status) ← into_ffi_result (go_result_from (go_code a)) err fallback m4;
  match status with
  | Ok _ =>
      if (ptr output =? 0)%Z then Some (m5, (finish [], gas_info))
      else '(m6, v) ← consume output m5; Some (m6, (finish v, gas_info))
  | Err e => Some (m5, (Err e, gas_info))
  | Panic => Some (m5, (Panic, gas_info))
  end.

Definition go_canonical_address (canonicalize_address : bytes -> GoAnswer * option bytes) (human : string) :=
  go_address canonicalize_address ("Failed to canonicalize the address: " +:+ human) Ok (lit human).

(** [shown] is [Display for CanonicalAddr], base64. *)
Definition go_human_address (humanize_address : bytes -> GoAnswer * option bytes) (shown : bytes -> string)
    (canonical : bytes) :=
  go_address humanize_address ("Failed to humanize the address: " +:+ shown canonical)
    (fun v => if Text.from_utf8 v then Ok (string_of_list_byte v) else Err FfiInvalidUtf8) canonical.

End QuerierApi.

(** ** Memory and errors of the callbacks *)

(** The error that a callback's answer stands for. *)
Definition message (a : GoAnswer) (fallback : string) : string :=
  match go_err a with None => fallback | Some e => lossy e end.

Definition ffi_status (a : GoAnswer) (fallback : string) : result FfiError unit :=
  match go_result_from (go_code a) with
  | GoOk => Ok tt
  | GoResPanic => Err ForeignPanic
  | GoBadArgument => Err BadArgument
  | GoResOutOfGas => Err FfiOutOfGas
  | GoOther => Err (FfiUnknown (Some (message a fallback)))
  | GoUser => Err (UserErr (message a fallback))
  end.

(** A callback hands over an output when it succeeds, or a text when it fails with one. *)
Definition takes_text (a : GoAnswer) : bool :=
  match go_result_from (go_code a) with GoOther | GoUser => true | _ => false end.

(** The memory of an out-parameter. *)
Definition texts (o : option bytes) : list bytes :=
  match o with Some (x :: v) => [x :: v] | _ => [] end.

(** What nobody frees: a text that is not asked for, an output of a failed callback. *)
Definition leaked (a : GoAnswer) (out : option bytes) : list bytes :=
  (if takes_text a then [] else texts (go_err a)) ++ (if (go_code a =? 0)%Z then [] else texts out).

Section CallbackFacts.
Context `{AL : Allocator}.

Definition ochunk (b : Buffer) (o : option bytes) : list (Z * bytes) :=
  match o with None => [] | Some v => chunk b v end.

Definition obuffer (b : Buffer) (o : option bytes) : Prop :=
  match o with None => b = default_buffer | Some v => buffer_of b v end.

Lemma ochunk_texts b o : (ochunk b o).*2 = texts o.
Proof. destruct o as [[|x v]|]; done. Qed.

Lemma owns_out m l m1 o m2 b :
  owns m l m1 -> out_param o m1 = (m2, b) -> obuffer b o /\ owns m (ochunk b o ++ l) m2.
Proof.
  intros Ho. destruct o as [v|]; cbn [out_param]; [|by intros [= <- <-]].
  assert (allocate_rust v m1 = from_vec v m1) as -> by (by destruct v). by apply owns_alloc.
Qed.

(** Taking an out-parameter back. *)
Lemma owns_consume_out m l1 b o l2 m1 :
  owns m (l1 ++ ochunk b o ++ l2) m1 -> obuffer b o ->
  exists m2, consume b m1 = Some (m2, default [] o) /\ owns m (l1 ++ l2) m2.
Proof.
  destruct o as [v|]; cbn [ochunk obuffer]; intros Ho; [by apply owns_consume|].
  intros ->. by exists m1.
Qed.

Lemma obuffer_null b o : obuffer b o -> (ptr b =? 0)%Z = match o with None => true | Some _ => false end.
Proof. destruct o; cbn [obuffer]; [intros [? _]; by apply Z.eqb_neq|by intros ->]. Qed.

Lemma go_ok_code n : go_result_from n = GoOk <-> n = 0%Z.
Proof.
  unfold go_result_from. destruct (Z.eqb_spec n 0) as [->|Hn]; [done|]. split; [|done]. by repeat case_match.
Qed.

Lemma owns_status a err fallback m l1 l2 m1 :
  owns m (l1 ++ ochunk err (go_err a) ++ l2) m1 -> obuffer err (go_err a) ->
  exists m2 e, into_ffi_result (go_result_from (go_code a)) err fallback m1 = Some (m2, ffi_status a fallback) /\
    owns m (l1 ++ e ++ l2) m2 /\ e.*2 = (if takes_text a then [] else texts (go_err a)).
Proof.
  intros Ho Hb. assert (exists m2, read_error_msg err fallback m1 = Some (m2, message a fallback) /\ owns m (l1 ++ l2) m2)
    as (m2 & Hm & Ho2).
  { unfold read_error_msg, message. rw (obuffer_null _ _ Hb).
    destruct (go_err a) as [e|] eqn:Ee; [|by exists m1].
    destruct (owns_consume_out m l1 err (Some e) l2 m1 Ho Hb) as (m2 & -> & Ho2). by exists m2. }
  unfold into_ffi_result, ffi_status, takes_text.
  destruct (go_result_from (go_code a)); rw ?Hm.
  1-4: exists m1, (ochunk err (go_err a)); split; [done|]; split; [done|apply ochunk_texts].
  all: exists m2, []; done.
Qed.

(** The calls of callbacks with one input: it is freed, and what is left are the output and
    perhaps the text. *)
Lemma callback_steps input a out fallback m m1 ib m2 ob m3 eb :
  from_vec input m = (m1, ib) -> out_param out m1 = (m2, ob) -> out_param (go_err a) m2 = (m3, eb) ->
  exists m4 m5 e, consume ib m3 = Some (m4, input) /\
    into_ffi_result (go_result_from (go_code a)) eb fallback m4 = Some (m5, ffi_status a fallback) /\
    obuffer ob out /\ owns m (e ++ ochunk ob out) m5 /\
    e.*2 = (if takes_text a then [] else texts (go_err a)).
Proof.
  intros E1 E2 E3. destruct (owns_alloc m [] m input m1 ib) as [Hib Ho1]; [by apply owns_nil|done|].
  destruct (owns_out _ _ _ _ _ _ Ho1 E2) as [Hob Ho2]. destruct (owns_out _ _ _ _ _ _ Ho2 E3) as [Heb Ho3].
  rw app_assoc in Ho3. destruct (owns_consume _ _ _ _ _ _ Ho3 Hib) as (m4 & Hc & Ho4). rw app_nil_r in Ho4.
  destruct (owns_status a eb fallback m [] (ochunk ob out) m4 Ho4 Heb) as (m5 & e & Hs & Ho5 & He).
  by exists m4, m5, e.
Qed.

Lemma take_out m e ob out m5 :
  owns m (e ++ ochunk ob out) m5 -> obuffer ob out ->
  exists m6, consume ob m5 = Some (m6, default [] out) /\ owns m e m6.
Proof.
  intros Ho Hb. rw -(app_nil_r (ochunk ob out)) in Ho.
  destruct (owns_consume_out m e ob out [] m5 Ho Hb) as (m6 & Hc & Ho6). rw app_nil_r in Ho6. by exists m6.
Qed.

Lemma status_ok a fallback : go_code a = 0%Z -> ffi_status a fallback = Ok tt.
Proof. intros Hz. unfold ffi_status. by rw (proj2 (go_ok_code _) Hz). Qed.

Lemma status_err a fallback : go_code a <> 0%Z -> exists e, ffi_status a fallback = Err e.
Proof.
  intros Hz. unfold ffi_status. destruct (go_result_from (go_code a)) eqn:Hg; [by apply go_ok_code in Hg|by eexists..].
Qed.

(** Success takes the output, failure leaks it. *)
Lemma leaked_ok a out : go_code a = 0%Z -> leaked a out = (if takes_text a then [] else texts (go_err a)).
Proof. intros Hz. unfold leaked. by rw Hz app_nil_r. Qed.

Lemma leaked_err a out ob e :
  go_code a <> 0%Z -> e.*2 = (if takes_text a then [] else texts (go_err a)) ->
  (e ++ ochunk ob out).*2 = leaked a out.
Proof. intros Hz He. unfold leaked. rw fmap_app He ochunk_texts. by destruct (Z.eqb_spec (go_code a) 0). Qed.

Context {D : Type} `{GD : GoDb D}.

(** Reading a key of the chain: the status and text of the callback become the error, the output
    becomes the value (a null buffer none), the key is freed, and no memory is left but an
    output of a failed call or a text that was not asked for; nothing is freed twice. *)
Theorem db_get_spec d key m :
  let fallback := "Failed to read a key in the db: " +:+ lossy key in
  let '(d', (a, out)) := read_db d key in
  exists m' l,
    db_get d key m = Some (d', m', ((_ ← ffi_status a fallback; Ok out), with_externally_used (go_gas a))) /\
    owns m l m' /\ l.*2 = leaked a out.
Proof.
  cbv zeta. unfold db_get. destruct (from_vec key m) as [m1 kb] eqn:E1. destruct (read_db d key) as [d' [a out]].
  destruct (out_param out m1) as [m2 ob] eqn:E2. destruct (out_param (go_err a) m2) as [m3 eb] eqn:E3.
  destruct (callback_steps key a out ("Failed to read a key in the db: " +:+ lossy key) m _ _ _ _ _ _ E1 E2 E3)
    as (m4 & m5 & e & -> & Hs & Hob & Ho & He). cbn [mbind option_bind]. rw Hs. cbn [mbind option_bind].
  destruct (decide (go_code a = 0%Z)) as [Hz|Hz].
  - rw (status_ok _ _ Hz) (obuffer_null _ _ Hob) (leaked_ok _ _ Hz).
    destruct (take_out _ _ _ _ _ Ho Hob) as (m6 & Hc & Ho6). destruct out as [v|]; [rw Hc; by exists m6, e|].
    exists m5, e. cbn [ochunk] in Ho. rw app_nil_r in Ho. done.
  - destruct (status_err a ("Failed to read a key in the db: " +:+ lossy key) Hz) as [err ->].
    exists m5, (e ++ ochunk ob out). split; [done|]. split; [done|]. by apply leaked_err.
Qed.

(** Removing a key of the chain's store: the status of the callback, and no memory but a text
    that was not asked for. *)
Theorem db_remove_spec d key m :
  let fallback := "Failed to delete a key in the db: " +:+ lossy key in
  let '(d', a) := remove_db d key in
  exists m' l,
    db_remove d key m = Some (d', m', (ffi_status a fallback, with_externally_used (go_gas a))) /\
    owns m l m' /\ l.*2 = leaked a None.
Proof.
  cbv zeta. unfold db_remove. destruct (from_vec key m) as [m1 kb] eqn:E1. destruct (remove_db d key) as [d' a].
  destruct (out_param (go_err a) m1) as [m3 eb] eqn:E3.
  destruct (callback_steps key a None ("Failed to delete a key in the db: " +:+ lossy key) m _ _ _ _ _ _ E1 eq_refl E3)
    as (m4 & m5 & e & -> & Hs & _ & Ho & He). cbn [mbind option_bind]. rw Hs. cbn [mbind option_bind].
  cbn [ochunk] in Ho. rw app_nil_r in Ho. exists m5, e. split; [done|]. split; [done|].
  unfold leaked. rw He. destruct (go_code a =? 0)%Z; by rw app_nil_r.
Qed.

(** The same for writing; two inputs are freed. *)
Theorem db_set_spec d key value m :
  let fallback := "Failed to set a key in the db: " +:+ lossy key in
  let '(d', a) := write_db d key value in
  exists m' l,
    db_set d key value m = Some (d', m', (ffi_status a fallback, with_externally_used (go_gas a))) /\
    owns m l m' /\ l.*2 = leaked a None.
Proof.
  cbv zeta. unfold db_set. destruct (from_vec key m) as [m1 kb] eqn:E1. destruct (from_vec value m1) as [m2 vb] eqn:E2.
  destruct (write_db d key value) as [d' a]. destruct (out_param (go_err a) m2) as [m3 eb] eqn:E3.
  destruct (owns_alloc m [] m key m1 kb) as [Hkb Ho1]; [by apply owns_nil|done|].
  destruct (owns_alloc _ _ _ _ _ _ Ho1 E2) as [Hvb Ho2]. destruct (owns_out _ _ _ _ _ _ Ho2 E3) as [Heb Ho3].
  rw app_assoc in Ho3. destruct (owns_consume _ _ _ _ _ _ Ho3 Hkb) as (m4 & -> & Ho4). cbn [mbind option_bind].
  rw -app_assoc in Ho4. destruct (owns_consume _ _ _ _ _ _ Ho4 Hvb) as (m5 & -> & Ho5). cbn [mbind option_bind].
  destruct (owns_status a eb ("Failed to set a key in the db: " +:+ lossy key) m [] [] m5) as (m6 & e & -> & Ho6 & He).
  { by rw app_nil_r in Ho5 |- *. }
  { done. }
  cbn [mbind option_bind app] in *. rw app_nil_r in Ho6. exists m6, e. split; [done|]. split; [done|].
  unfold leaked. rw He. destruct (go_code a =? 0)%Z; by rw app_nil_r.
Qed.

End CallbackFacts.

(** ** The chain's store as the storage of an instance *)

Section Storage.
Context `{AL : Allocator} {D : Type} `{GD : GoDb D}.

(** The answers do not depend on the memory they pass through. *)
#[export] Instance go_storage : VmStorage D := {|
  st_get d key := match db_get d key ∅ with Some (d', _, r) => (d', r) | None => (d, (Panic, free_gas)) end;
  st_set d key value :=
    match db_set d key value ∅ with Some (d', _, r) => (d', r) | None => (d, (Panic, free_gas)) end;
  st_remove d key := match db_remove d key ∅ with Some (d', _, r) => (d', r) | None => (d, (Panic, free_gas)) end
|}.

(** A chain whose callbacks succeed and keep what they are given. *)
Class HonestGoDb : Type := {
  contents : D -> bytes -> option bytes;
  go_reads d k : let '(d', (a, out)) := read_db d k in
    go_code a = 0%Z /\ out = contents d k /\ forall k', contents d' k' = contents d k';
  go_writes d k v : let '(d', a) := write_db d k v in
    go_code a = 0%Z /\ forall k', contents d' k' = if bool_decide (k = k') then Some v else contents d k';
  go_removes d k : let '(d', a) := remove_db d k in
    go_code a = 0%Z /\ forall k', contents d' k' = if bool_decide (k = k') then None else contents d k'
}.

#[export] Instance go_storage_honest `{HG : HonestGoDb} : HonestStorage D.
Proof.
  refine {| stored := contents |}; cbn [st_get st_set st_remove go_storage].
  - intros d k. pose proof (db_get_spec d k ∅) as Hs. pose proof (go_reads d k) as Hr. cbv zeta in Hs.
    destruct (read_db d k) as [d' [a out]]. destruct Hs as (m' & l & -> & _). destruct Hr as (Hz & -> & Hk).
    cbn [fst snd]. by rw (status_ok _ _ Hz).
  - intros d k v. pose proof (db_set_spec d k v ∅) as Hs. pose proof (go_writes d k v) as Hr. cbv zeta in Hs.
    destruct (write_db d k v) as [d' a]. destruct Hs as (m' & l & -> & _). destruct Hr as (Hz & Hk).
    cbn [fst snd]. by rw (status_ok _ _ Hz).
  - intros d k. pose proof (db_remove_spec d k ∅) as Hs. pose proof (go_removes d k) as Hr. cbv zeta in Hs.
    destruct (remove_db d k) as [d' a]. destruct Hs as (m' & l & -> & _). destruct Hr as (Hz & Hk).
    cbn [fst snd]. by rw (status_ok _ _ Hz).
Defined.

End Storage.

(** ** lib.rs *)

Definition DATA_DIR_ARG : string := "data_dir".
Definition FEATURES_ARG : string := "supported_features".
Definition CACHE_ARG : string := "cache".
Definition WASM_ARG : string := "wasm".
Definition CODE_ID_ARG : string := "code_id".
Definition MSG_ARG : string := "msg".
Definition PARAMS_ARG : string := "params".
Definition GAS_USED_ARG : string := "gas_used".
Definition SIG_INFO_ARG : string := "sig_info".

(** What the caller sees next to the result: [errno], the error buffer and the gas counter,
    each of the last two if it passed a pointer to one. *)
Record CState : Type := mkC {
  c_mem : Memory;
  errno : ErrnoValue;
  errout : option Buffer;
  gas_out : option Z
}.

Section Errors.
Context `{AL : Allocator}.

Definition clear_error (st : CState) : CState := mkC (c_mem st) ESuccess (errout st) (gas_out st).

Definition set_error (err : Error) (st : CState) : CState :=
  let number := match err with GoOutOfGas => EOutOfGas | _ => EOther end in
  match errout st with
  | Some _ => let (m, b) := from_vec (lit (display_error err)) (c_mem st) in mkC m number (Some b) (gas_out st)
  | None => mkC (c_mem st) number None (gas_out st)
  end.

(** [catch_unwind] has turned a panic into an error before. *)
Definition handle_c_error (r : result Error bytes) (st : CState) : CState * bytes :=
  match r with
  | Ok value => (clear_error st, value)
  | Err error => (set_error error st, [])
  | Panic => (set_error GoPanic st, [])
  end.

(** The end of every entry point that returns a buffer. *)
Definition return_buffer (r : result Error bytes) (st : CState) : CState * Buffer :=
  let (st', data) := handle_c_error r st in
  let (m, b) := from_vec data (c_mem st') in
  (mkC m (errno st') (errout st') (gas_out st'), b).

End Errors.

Section EntryPoints.
Context `{AL : Allocator} {D : Type} `{GD : GoDb D}.
Context {Q R A I : Type} `{VQ : VmQuerier Q R}.
Context {Mem : Type} `{WL : WasmLoader Mem}.
Variable export_section : ParityModule (Mem := Mem) -> option (list ExportEntry).
Variable import_section : ParityModule (Mem := Mem) -> option (list ImportEntry).
Variable deserialize_error : bytes -> string.
Variable debug_str : string -> string.
Variable debug_status : Z -> string.
Variable debug_print : bool.
Variable sha256 : bytes -> bytes.
Variable hex_encode : bytes -> string.
(** What the enclave finds behind the pointers of the host. *)
Variable allocated : bytes -> option (option bytes).
(** The ecalls, with the arguments they pass on. *)
Local Abbreviation Entry := (Entry (S := D) (Q := Q) (I := I)).
Variable ecall_init : bytes -> bytes -> bytes -> Entry InitResult.
Variable ecall_handle : bytes -> bytes -> bytes -> Entry HandleResult.
Variable ecall_query : bytes -> Entry QueryResult.

Local Abbreviation error_of_vm := (error_of_vm debug_str debug_status).
Local Abbreviation arg name o := (ok_or (EmptyArg name) o).

(** The process: the caches behind pointers, the directory, the boxes of the host, the store of
    the chain that a [DB] points to, and what the caller of the library sees.  The argument
    buffers are what reading them gives. *)
Record Process : Type := mkProcess {
  caches : gmap Z CosmCache;
  disk : gmap string bytes;
  boxes_of_host : Heap;
  chain : D;
  visible : CState
}.

Definition set_visible (st : CState) (p : Process) : Process :=
  mkProcess (caches p) (disk p) (boxes_of_host p) (chain p) st.

Definition do_init_cache (mkdir : option string) (data_dir supported_features : option bytes)
  : result Error CosmCache :=
  dir ← arg DATA_DIR_ARG data_dir;
  dir_str ← str_from_utf8 dir;
  features_bin ← arg FEATURES_ARG supported_features;
  features_str ← str_from_utf8 features_bin;
  map_err error_of_vm (cache_new mkdir (features_from_csv features_str)).

(** [0] is the null pointer. *)
Definition init_cache (mkdir : option string) (data_dir supported_features : option bytes) (p : Process)
  : Process * Z :=
  match do_init_cache mkdir data_dir supported_features with
  | Ok cache =>
      let q := address_for (dom (caches p)) in
      (mkProcess (<[q := cache]> (caches p)) (disk p) (boxes_of_host p) (chain p) (clear_error (visible p)), q)
  | Err e => (set_visible (set_error e (visible p)) p, 0%Z)
  | Panic => (set_visible (set_error GoPanic (visible p)) p, 0%Z)
  end.

(** The outer [None] is a pointer that is no live cache. *)
Definition to_cache (cache : Z) (p : Process) : option (option CosmCache) :=
  if (cache =? 0)%Z then Some None else Some <$> caches p !! cache.

Definition release_cache (cache : Z) (p : Process) : option Process :=
  if (cache =? 0)%Z then Some p
  else '(cs, _) ← unbox cache (caches p); Some (mkProcess cs (disk p) (boxes_of_host p) (chain p) (visible p)).

(** An entry point: the cache is looked up, the body runs under [catch_unwind], and its result
    is handed to the caller. *)
Definition with_cache (cache : Z) (p : Process)
    (body : CosmCache -> option (Process * result Error bytes)) : option (Process * Buffer) :=
  c ← to_cache cache p;
  match c with
  | Some c' =>
      '(p', r) ← body c';
      let (st, b) := return_buffer r (visible p') in Some (set_visible st p', b)
  | None =>
      let (st, b) := return_buffer (Err (EmptyArg CACHE_ARG)) (visible p) in Some (set_visible st p, b)
  end.

Definition do_create (o : WriteOutcome) (c : CosmCache) (wasm : option bytes) (p : Process)
  : Process * result Error bytes :=
  match wasm with
  | None => (p, Err (EmptyArg WASM_ARG))
  | Some w =>
      let (d, r) := save_wasm (Mem := Mem) export_section import_section deserialize_error debug_str
                      true debug_print sha256 hex_encode c o w (disk p) in
      (mkProcess (caches p) d (boxes_of_host p) (chain p) (visible p), map_err error_of_vm r)
  end.

Definition create (o : WriteOutcome) (cache : Z) (wasm : option bytes) (p : Process) : option (Process * Buffer) :=
  with_cache cache p (fun c => Some (do_create o c wasm p)).

(** The name of the missing argument is that of the cache. *)
Definition do_get_code (o : ReadOutcome) (id : option bytes) (p : Process) : result Error bytes :=
  raw ← arg CACHE_ARG id;
  checksum ← map_err error_of_vm (checksum_try_from raw);
  map_err error_of_vm (load_wasm sha256 hex_encode o checksum (disk p)).

Definition get_code (o : ReadOutcome) (cache : Z) (id : option bytes) (p : Process) : option (Process * Buffer) :=
  with_cache cache p (fun _ => Some (p, do_get_code o id p)).

(** What the four calls of a contract do once their arguments are there; the instance is
    recycled, and the gas reported, before the result is looked at. *)
Definition run_contract (o : ReadOutcome) (enclave : option Z) (cache : Z) (c : CosmCache) (checksum : bytes)
    (api : A) (querier : Q) (gas_limit : Z)
    (call : Instance D Q I A -> Heap -> option (Instance D Q I A * Heap * VmResult bytes)) (p : Process)
  : option (Process * result Error bytes) :=
  let (c', r) := get_instance sha256 hex_encode c o checksum (disk p) (chain p) api querier gas_limit enclave in
  let p1 := mkProcess (<[cache := c']> (caches p)) (disk p) (boxes_of_host p) (chain p) (visible p) in
  match r with
  | Err e => Some (p1, Err (error_of_vm e))
  | Panic => Some (p1, Panic)
  | Ok instance =>
      '(i, hp, res) ← call instance (boxes_of_host p);
      let st := visible p in
      let gas := match res with
                 | Panic => gas_out st
                 | _ => Some (used_internally (create_gas_report (inner i)))
                 end in
      let db := match recycle i with Some (db, _, _) => db | None => chain p end in
      Some (mkProcess (caches p1) (disk p) hp db (mkC (c_mem st) (errno st) (errout st) gas),
            map_err error_of_vm res)
  end.

(** The arguments are checked in the order of the source. *)
Definition code_and (code_id : option bytes) (p : Process) : result Error bytes :=
  _ ← arg GAS_USED_ARG (gas_out (visible p));
  raw ← arg CODE_ID_ARG code_id;
  map_err error_of_vm (checksum_try_from raw).

Definition do_init o enclave cache c (code_id params msg : option bytes) api querier gas_limit
    (sig_info : option bytes) (p : Process) : option (Process * result Error bytes) :=
  match (checksum ← code_and code_id p; ps ← arg PARAMS_ARG params; m ← arg MSG_ARG msg;
         sig ← arg SIG_INFO_ARG sig_info; Ok (checksum, ps, m, sig)) with
  | Ok (checksum, ps, m, sig) =>
      run_contract o enclave cache c checksum api querier gas_limit
        (call_init_raw allocated (ecall_init ps m sig)) p
  | Err e => Some (p, Err e)
  | Panic => Some (p, Panic)
  end.

Definition do_handle o enclave cache c (code_id params msg : option bytes) api querier gas_limit
    (sig_info : option bytes) (p : Process) : option (Process * result Error bytes) :=
  match (checksum ← code_and code_id p; ps ← arg PARAMS_ARG params; m ← arg MSG_ARG msg;
         sig ← arg SIG_INFO_ARG sig_info; Ok (checksum, ps, m, sig)) with
  | Ok (checksum, ps, m, sig) =>
      run_contract o enclave cache c checksum api querier gas_limit
        (call_handle_raw allocated (ecall_handle ps m sig)) p
  | Err e => Some (p, Err e)
  | Panic => Some (p, Panic)
  end.

Definition do_migrate o enclave cache c (code_id params msg : option bytes) api querier gas_limit
    (p : Process) : option (Process * result Error bytes) :=
  match (checksum ← code_and code_id p; ps ← arg PARAMS_ARG params; m ← arg MSG_ARG msg; Ok checksum) with
  | Ok checksum => run_contract o enclave cache c checksum api querier gas_limit call_migrate_raw p
  | Err e => Some (p, Err e)
  | Panic => Some (p, Panic)
  end.

Definition do_query o enclave cache c (code_id msg : option bytes) api querier gas_limit
    (p : Process) : option (Process * result Error bytes) :=
  match (checksum ← code_and code_id p; m ← arg MSG_ARG msg; Ok (checksum, m)) with
  | Ok (checksum, m) =>
      run_contract o enclave cache c checksum api querier gas_limit (call_query_raw allocated (ecall_query m)) p
  | Err e => Some (p, Err e)
  | Panic => Some (p, Panic)
  end.

Definition instantiate o enclave cache code_id params msg api querier gas_limit sig_info (p : Process) :=
  with_cache cache p (fun c => do_init o enclave cache c code_id params msg api querier gas_limit sig_info p).
Definition go_handle o enclave cache code_id params msg api querier gas_limit sig_info (p : Process) :=
  with_cache cache p (fun c => do_handle o enclave cache c code_id params msg api querier gas_limit sig_info p).
Definition migrate o enclave cache code_id params msg api querier gas_limit (p : Process) :=
  with_cache cache p (fun c => do_migrate o enclave cache c code_id params msg api querier gas_limit p).
Definition go_query o enclave cache code_id msg api querier gas_limit (p : Process) :=
  with_cache cache p (fun c => do_query o enclave cache c code_id msg api querier gas_limit p).

(** *** What the caller sees *)

Lemma from_vec_read v m m' b : from_vec v m = (m', b) -> m ⊆ m' /\ read b m' = Some (Some v) /\ len b = Z.of_nat (length v).
Proof.
  intros E. destruct (owns_alloc m [] m v m' b) as [[Hz Hc] Ho]; [by apply owns_nil|done|].
  split; [by eapply owns_subseteq|]. unfold read. destruct (Z.eqb_spec (ptr b) 0) as [|_]; [done|].
  unfold from_vec in E. destruct v as [|x v]; injection E as <- <-; [done|]. cbn [cap len ptr].
  destruct (Z.eqb_spec (Z.of_nat (length (x :: v))) 0); [cbn in *; lia|]. by rw lookup_insert_eq.
Qed.

Lemma read_weaken b m m' v : m ⊆ m' -> read b m = Some v -> read b m' = Some v.
Proof.
  intros Hs. unfold read. destruct (ptr b =? 0)%Z; [done|]. destruct (cap b =? 0)%Z; [done|].
  destruct (m !! ptr b) as [x|] eqn:E; [|done]. by rw (lookup_weaken _ _ _ _ E Hs).
Qed.

(** The error that is reported; a panic was caught. *)
Definition reported (r : result Error bytes) : option Error :=
  match r with Ok _ => None | Err e => Some e | Panic => Some GoPanic end.

(** How an entry point ends: on success errno is cleared and the buffer holds the data; on an
    error or a caught panic errno is set (to out-of-gas exactly for that error), the buffer
    is empty and not null, and the error buffer, if there is one, holds the text of the
    error; the gas counter is not touched. *)
Theorem results_reach_the_caller r st :
  let (st', b) := return_buffer r st in
  c_mem st ⊆ c_mem st' /\ gas_out st' = gas_out st /\
  match reported r with
  | None => exists data, r = Ok data /\ errno st' = ESuccess /\ errout st' = errout st /\
      read b (c_mem st') = Some (Some data)
  | Some e => (errno st' = EOutOfGas <-> e = GoOutOfGas) /\ errno st' <> ESuccess /\
      read b (c_mem st') = Some (Some []) /\
      match errout st with
      | None => errout st' = None
      | Some _ => exists eb, errout st' = Some eb /\ read eb (c_mem st') = Some (Some (lit (display_error e)))
      end
  end.
Proof.
  assert (forall e st1, set_error e st = st1 -> c_mem st ⊆ c_mem st1 /\ gas_out st1 = gas_out st /\
            (errno st1 = EOutOfGas <-> e = GoOutOfGas) /\ errno st1 <> ESuccess /\
            match errout st with
            | None => errout st1 = None
            | Some _ => exists eb, errout st1 = Some eb /\ read eb (c_mem st1) = Some (Some (lit (display_error e)))
            end) as Hset.
  { intros e st1 <-. unfold set_error. destruct (errout st) as [b0|].
    - destruct (from_vec (lit (display_error e)) (c_mem st)) as [m eb] eqn:Ev. apply from_vec_read in Ev as (Hs & Hr & _).
      cbn. split_and!; [done..|by destruct e|by destruct e|by exists eb].
    - cbn. split_and!; [done..|by destruct e|by destruct e|done]. }
  unfold return_buffer, handle_c_error.
  destruct r as [data|e|]; cbn [reported].
  - destruct (from_vec data (c_mem (clear_error st))) as [m b] eqn:Ev. apply from_vec_read in Ev as (Hs & Hr & _).
    cbn in *. split_and!; [done..|]. by exists data.
  - destruct (Hset e _ eq_refl) as (Hs & Hg & Hn & Hn' & He). cbn [from_vec]. cbn. split_and!; done.
  - destruct (Hset GoPanic _ eq_refl) as (Hs & Hg & Hn & Hn' & He). cbn [from_vec]. cbn. split_and!; done.
Qed.

(** *** What a contract call leaves on the chain *)

Local Abbreviation Call := (Call (S := D) (Q := Q) (I := I)).
Local Abbreviation load o checksum p := (load_wasm sha256 hex_encode o checksum (disk p)).

Context {HG : HonestGoDb (D := D)}.

(** One call on a fresh instance: the store after recycling, and the gas. *)
Lemma one_call_store (cl : Call) code (db : D) (api : A) querier gas_limit hp i hp' r :
  call_raw allocated cl (from_code code db api querier gas_limit) hp = Some (i, hp', r) ->
  exists db', recycle i = Some (db', api, querier) /\
    forall k, contents db' k = replay (contents db) (observed cl (from_code code db api querier gas_limit) hp).1 k.
Proof.
  intros Hc.
  destruct (runs_storage allocated (from_code code db api querier gas_limit) hp
              ([] ++ (observed cl (from_code code db api querier gas_limit) hp).1) [(observed cl (from_code code db api querier gas_limit) hp).2] i hp' db querier)
    as (db' & Hr & Hk); [|done|done|by exists db'].
  eapply runs_call; [exact Hc|constructor].
Qed.

Lemma one_call_effect (cl : Call) code (db : D) (api : A) querier gas_limit hp i hp' r :
  call_raw allocated cl (from_code code db api querier gas_limit) hp = Some (i, hp', r) ->
  let (h, gas) := observed cl (from_code code db api querier gas_limit) hp in
  (0 <= gas)%Z -> used_gas (inner i) = Z.min U64_MAX gas /\
  exists db', recycle i = Some (db', api, querier) /\ forall k, contents db' k = replay (contents db) h k.
Proof.
  intros Hc. pose proof (call_raw_effect _ _ _ _ _ _ _ Hc) as He. destruct (one_call_store _ _ _ _ _ _ _ _ _ _ Hc) as (db' & Hr & Hk).
  destruct (observed cl (from_code code db api querier gas_limit) hp) as [h gas] eqn:Ho. cbn [fst] in Hk.
  intros Hg. split; [|by exists db'].
  destruct He as [[->|[-> ->]] _]; [done|]. injection Ho as _ <-. cbn. unfold U64_MAX. lia.
Qed.

(** C25: Running a contract through the bindings over a chain whose store keeps what it is given
    either fails before the contract runs, with the store and the gas counter as they were,
    or reports the gas of the ecall, even when the call fails, and leaves in the store
    exactly the writes and removals the ecall asked for. *)
Theorem contract_call_reaches_the_chain o enclave cache c checksum (api : A) querier gas_limit (cl : Call) p p' r :
  run_contract o enclave cache c checksum api querier gas_limit (call_raw allocated cl) p = Some (p', r) ->
  (forall i hp, 0 <= (observed (A := A) cl i hp).2)%Z ->
  is_ok r = false /\ chain p' = chain p /\ gas_out (visible p') = gas_out (visible p) \/
  exists code i hp res,
    let instance := from_code code (chain p) api querier gas_limit in
    let (h, gas) := observed cl instance (boxes_of_host p) in
    load o checksum p = Ok code /\
    call_raw allocated cl instance (boxes_of_host p) = Some (i, hp, res) /\ r = map_err error_of_vm res /\
    gas_out (visible p') = Some (Z.min U64_MAX gas) /\
    forall k, contents (chain p') k = replay (contents (chain p)) h k.
Proof.
  intros Hrun Hpos. unfold run_contract, get_instance in Hrun.
  destruct (load o checksum p) as [code|e|] eqn:El; [|injection Hrun as <- <-; by left..].
  destruct (arith U32_MAX (misses (stats c) + 1)) as [n|e|]; [|injection Hrun as <- <-; by left..].
  destruct enclave as [status|]; [injection Hrun as <- <-; by left|].
  destruct (call_raw allocated cl (from_code code (chain p) api querier gas_limit) (boxes_of_host p))
    as [[[i hp] res]|] eqn:Hc; [|done].
  pose proof (call_raw_no_panic _ _ _ _ _ _ _ Hc) as Hnp. pose proof (one_call_effect _ _ _ _ _ _ _ _ _ _ Hc) as He.
  specialize (Hpos (from_code code (chain p) api querier gas_limit) (boxes_of_host p)).
  cbn [mbind option_bind] in Hrun. injection Hrun as <- <-. right. exists code, i, hp, res. cbv zeta.
  destruct (observed cl _ (boxes_of_host p)) as [h gas]. destruct (He Hpos) as (Hg & db' & Hr & Hk).
  split_and!; [done|done|done| |]; cbn [visible chain gas_out].
  - unfold create_gas_report. cbn [used_internally]. rw Hg. by destruct res.
  - by rw Hr.
Qed.

End EntryPoints.

(** ** The iterator leaks *)

Section Leaks.
Context `{AL : Allocator} {D : Type} `{GD : GoDb D}.

(** Every successful step of an iterator of the chain leaves the memory of its key and of its
    value allocated: they are read and copied, never consumed. *)
Theorem iterator_entries_are_not_freed d it m d' a key value :
  has_vtable it = true -> next_db d (iter_state it) = (d', (a, (key, value))) ->
  go_code a = 0%Z -> go_err a = None ->
  exists m' l r, iter_next d it m = Some (d', m', r) /\ owns m l m' /\
    l.*2 = texts value ++ texts key /\
    r.1 = match key, value with
          | Some k, Some v => Ok (Some (k, v))
          | Some _, None => Err (FfiUnknown (Some "Failed to read value while reading the next key in the db"))
          | None, _ => Ok None
          end.
Proof.
  intros Hv Hn Hz He. unfold iter_next. rw Hv Hn. cbn [negb]. destruct (out_param key m) as [m1 kb] eqn:E1. destruct (out_param value m1) as [m2 vb] eqn:E2.
  rw He. cbn [out_param].
  destruct (owns_out m [] m key m1 kb) as [Hkb Ho1]; [by apply owns_nil|done|].
  destruct (owns_out _ _ _ _ _ _ Ho1 E2) as [Hvb Ho2]. rw app_nil_r in Ho2.
  rw (proj2 (go_ok_code _) Hz). cbn [into_ffi_result mbind option_bind].
  assert (forall b o l1 l2, owns m (l1 ++ ochunk b o ++ l2) m2 -> obuffer b o -> read b m2 = Some o) as Hread.
  { intros b o l1 l2 Ho Hb. unfold read. rw (obuffer_null _ _ Hb). destruct o as [v|]; [|done].
    destruct (owns_consume_out m l1 b (Some v) l2 m2 Ho Hb) as (m3 & Hc & _). unfold consume in Hc.
    rw (obuffer_null _ _ Hb) in Hc. destruct (cap b =? 0)%Z; [by injection Hc as _ <-|].
    unfold unbox in Hc. destruct (m2 !! ptr b) as [x|]; [|done]. by injection Hc as _ <-. }
  rw (Hread kb key (ochunk vb value) []) ?app_nil_r //. cbn [mbind option_bind].
  assert (read vb m2 = Some value) as Hrv by (by apply (Hread vb value [] (ochunk kb key))).
  assert ((ochunk vb value ++ ochunk kb key).*2 = texts value ++ texts key) as Ht by (by rw fmap_app !ochunk_texts).
  destruct key as [k|]; [rw Hrv; cbn [mbind option_bind]; destruct value as [v|]|];
    (eexists m2, _, _; split; [reflexivity|]; split; [exact Ho2|]; split; [exact Ht|done]).
Qed.

End Leaks.

(** ** The theorems at a concrete chain *)

#[local] Existing Instance demo_allocator.
#[local] Existing Instance demo_vm_querier.

(** A chain that charges nine gas per call and iterates over one entry. *)
#[local] Instance demo_go_db : GoDb MemoryStorage := {|
  read_db s k := (s, (mkGo 0 9 None, btree_get (data s) k));
  write_db s k v := (mkMemory (btree_insert (data s) k v), mkGo 0 9 None);
  remove_db s k := (mkMemory (btree_remove (data s) k), mkGo 0 9 None);
  scan_db s _ _ _ := (s, (mkGo 0 9 None, (default_iter, true)));
  next_db s _ := (s, (mkGo 0 9 None, (Some (lit "key"), Some (lit "value"))))
|}.

#[local] Instance demo_go_honest : HonestGoDb.
Proof.
  refine {| contents s k := btree_get (data s) k |}; cbn.
  - done.
  - intros s k v. split; [done|]. intros k'. rw btree_get_insert. by repeat case_decide.
  - intros s k. split; [done|]. intros k'. rw btree_get_remove. by repeat case_decide.
Defined.

Lemma iterator_entries_are_not_freed_witness :
  exists m' r, iter_next demo_vm_store (mkGoIter default_iter true) ∅ = Some (demo_vm_store, m', r) /\
    r.1 = Ok (Some (lit "key", lit "value")) /\ size m' = 2.
Proof.
  destruct (iterator_entries_are_not_freed (GD := demo_go_db) demo_vm_store (mkGoIter default_iter true) ∅ demo_vm_store
              (mkGo 0 9 None) (Some (lit "key")) (Some (lit "value")) eq_refl eq_refl eq_refl eq_refl)
    as (m' & l & r & E & _ & _ & Hr).
  exists m', r. split; [exact E|]. split; [exact Hr|]. vm_compute in E. injection E as <- _. reflexivity.
Defined.

(** A contract call that writes a key and reports forty gas. *)
Definition demo_call_raw : Call (S := MemoryStorage) (Q := unit) (I := Z) := HandleCall demo_handle.

Definition demo_process : Process (D := MemoryStorage) :=
  mkProcess {[ 7%Z := upload_cache ]} {[ "wasm" := lit "wasm" ]} demo_heap demo_vm_store
    (mkC ∅ ESuccess (Some default_buffer) (Some 0%Z)).

Definition demo_run : option (Process * result Error bytes) :=
  run_contract (fun s => s) (fun _ => "status") (fun x => x) string_of_list_byte Readable None 7 upload_cache
    (lit "wasm") "api" tt 100 (call_raw (HS := go_storage) plentiful demo_call_raw) demo_process.

Lemma contract_call_reaches_the_chain_witness :
  exists p, demo_run = Some (p, Ok (lit "done")) /\ gas_out (visible p) = Some 40%Z /\
    contents (chain p) (lit "k") = Some (lit "w").
Proof.
  destruct demo_run as [[p r]|] eqn:E; [|vm_compute in E; discriminate].
  assert (r = Ok (lit "done")) as -> by (vm_compute in E; by injection E as _ <-).
  exists p. split; [reflexivity|].
  destruct (contract_call_reaches_the_chain (fun s => s) (fun _ => "status") (fun x => x) string_of_list_byte plentiful
              Readable None 7 upload_cache (lit "wasm") "api" tt 100 demo_call_raw demo_process p (Ok (lit "done")) E)
    as [[H _]|(code & i & hp & res & H)].
  - intros i hp. vm_compute. discriminate.
  - discriminate.
  - destruct H as (_ & _ & _ & Hg & Hk). split; [exact Hg|]. rw Hk. reflexivity.
Defined.
