(* ===== verification/EndToEnd.v ===== *)
(** * From a transaction to the contract's state

    The whole stack in one refinement: a transaction enters go-cosmwasm/src/lib.rs, which loads
    the code and makes an instance of sgx-vm (cache.rs, instance.rs, calls.rs); wasmi/wrapper.rs
    calls the enclave (exports.rs), which authenticates and decrypts the message
    (contract_operations.rs) and runs the contract; the contract, linked to cosmwasm-std, calls
    back through the host functions, and every access to its state is encrypted (db.rs), leaves
    the enclave as an ocall (wasmi/exports.rs) and ends in the store of the chain (db.rs of the
    bindings).  What remains of all this, seen from outside, is the contract's function on a map. *)

From Stdlib Require Import Strings.String.
From stdpp Require Import base tactics list numbers strings ssreflect gmap.
From S2P Require Import Prelude Utf8 Crypto SecretMsg Signatures Validation EnclaveDb QueryChain Runtime Operations Ecalls SgxVm SgxVmFacts WasmCheck GuestMemory Metering Math Storage Typed Std Querying GuestImports GuestLink GuestExports MeteredContract CallPath ContractState GoBindings.

Local Open Scope list_scope.

Section EndToEnd.
(** The chain and the host. *)
Context `{HA : SgxVm.Allocator} {D : Type} `{GD : GoDb D} {HG : HonestGoDb (D := D)}.
Context {Qr R A It : Type} `{VQ : VmQuerier Qr R}.
Variable debug_str : string -> string.
Variable debug_status : Z -> string.
Variable sha256 : bytes -> bytes.
Variable file_name : bytes -> string.
(** What becomes of a value that the host copies into the enclave. *)
Variable allocated : bytes -> option (option bytes).

(** The enclave. *)
Context {Mem : Type} `{WM : WasmMemory Mem} {ML : WasmMemoryLaws Mem} `{GA : GuestMemory.Allocator Mem} {GL : AllocatorLaws Mem}.
Context `{WL : WasmLoader Mem} `{P : Primitives} {HP : PrimitiveLaws} `{C : Codecs} `{Pr : Prost} `{BE : Bech32Errors}.
Context `{JQ : Json QueryChain.QueryRequest} `{JA : Json QueryAnswer} `{JS : Json QueryChain.StdError} `{JE : JsonErrors}.
Context `{JV : Json Value} `{JT : Json string} `{JW : Json WasmOutput} `{JC : Json (list SecretMsg.Coin)} `{JN : Json SecretMsg.Env}.
Context `{JG : Json SigInfo} `{JD : Json SignDoc}.
Variable grow : nat -> nat.
Variable km : Keychain.

(** The contract. *)
Context `{SE : Serde Std.Env} `{SQ : Serde QuerierResult}.
Context {I H Q U : Type} `{SI : Serde I} `{SH : Serde H} `{SM : Serde Q}.
Context `{RI : Serde (StdResult (InitResponse U))} `{RH : Serde (StdResult (HandleResponse U))} `{RQ : Serde (StdResult Binary)}.
Variable code : bytes.
Variable con : contract_module I H Q U.
Variable ck : bytes.
Variable K : bytes -> Prop.
(** The module of the contract, loaded, is the contract with calls of [gas] in it; [alloc] and [entry]
    bound what they charge in allocate and in a function, if there is a bound. *)
Variable bounded : Prop.
Variables alloc entry : Z.
Definition compiled : Prop := forall limit op n pk i, start_engine (Mem := Mem) limit code ck op n pk = Ok i ->
  metered_exports bounded alloc entry (create_entry_points con) (module_exports i).
(** Every value that the host copies into the enclave can be allocated there. *)
Definition buffers_fit : Prop := forall v, allocated v = Some (returned (Some v)).
(** No two of the contract's keys have the same field digest. *)
Definition fields_distinct : Prop := forall k k', K k -> K k' -> field_name_digest k ck = field_name_digest k' ck -> k = k'.
Definition uses_fields : Prop := forall e m, within K (handle_fn con e m).

(** ** The ecall as the host makes it *)

#[local] Abbreviation Process := (GoBindings.Process (D := D)).
#[local] Abbreviation slice_of b := (Ecalls.mkSlice 1 b).

(** A status other than success. *)
Definition OUT_OF_FUEL : Z := 1.

(** [Module::handle] passes the slices of four vectors, the gas that is left and a counter at 0;
    the output is copied to user space.  A run that is out of fuel has no result. *)
Definition enclave_handle (fuel : nat) (w : World) (shared : Shared) (params msg sig_info : bytes)
  : Entry (S := D) (Q := Qr) (I := It) HandleResult :=
  fun st bytecode gas buffers =>
    let depth := (Recursion.increment (rec_depth shared)).1 in
    let Ho := vm_host allocated st in
    match Ecalls.ecall_handle (Mem := Mem) grow (fun output => Some (SgxVm.ocall_allocate output buffers).2) km fuel w gas 0
            (slice_of bytecode) (slice_of params) (slice_of msg) (slice_of sig_info) [] shared with
    | Some (_, r) =>
        let copied := match exhausted w, Operations.handle (Mem := Mem) km depth fuel gas bytecode params msg sig_info [] with
                      | None, Some o => match out_result o with
                                        | Ok output => (SgxVm.ocall_allocate output buffers).1
                                        | _ => buffers
                                        end
                      | _, _ => buffers
                      end in
        mkRun SgxVm.SGX_SUCCESS (ret_gas r) (ret r) (ret_trace r) copied
    | None => mkRun OUT_OF_FUEL 0 (HandleFailure EnclavePanic) [] buffers
    end.

(** The parts of the world a transaction meets: the enclave's shared state, what the machine does
    during the ecall, the file that is read, the cache, the arguments. *)
Record Transaction : Type := mkTransaction {
  tx_fuel : nat;
  tx_world : World;
  tx_shared : Shared;
  tx_read : ReadOutcome;
  tx_cache : Z;
  tx_cosm : CosmCache;
  tx_code_id : bytes;
  tx_api : A;
  tx_querier : Qr;
  tx_limit : Z;
  tx_message : Message
}.

(** The call of a contract in the bindings, with the enclave behind it. *)
Definition transact (t : Transaction) (p : Process) : option (Process * result Error bytes) :=
  GoBindings.do_handle debug_str debug_status sha256 file_name allocated
    (enclave_handle (tx_fuel t) (tx_world t) (tx_shared t)) (tx_read t) None (tx_cache t) (tx_cosm t)
    (Some (tx_code_id t)) (Some (m_env (tx_message t))) (Some (m_msg (tx_message t))) (tx_api t) (tx_querier t)
    (tx_limit t) (Some (m_sig (tx_message t))) p.

(** The host of a transaction: a fresh instance over the store of the chain. *)
Definition tx_start (t : Transaction) (p : Process) : HostState D Qr It :=
  mkHost (inst_context (readonly (from_code (A := A) code (chain p) (tx_api t) (tx_querier t) (tx_limit t)) false))
    (vm_errors (boxes_of_host p)).

Definition tx_depth (t : Transaction) : Z := (Recursion.increment (rec_depth (tx_shared t))).1.

(** ** One transaction *)

Lemma ecall_handle_success `{Ho : Host} alloc_out fuel w gas used bytecode params msg sig_info h st st' r p :
  Ecalls.ecall_handle (Mem := Mem) grow alloc_out km fuel w gas used bytecode params msg sig_info h st = Some (st', r) ->
  ret r = HandleSuccessful p ->
  exists o output,
    Operations.handle (Mem := Mem) km (Recursion.increment (rec_depth st)).1 fuel gas (s_data bytecode) (s_data params)
      (s_data msg) (s_data sig_info) h = Some o /\
    out_result o = Ok output /\ alloc_out output = Some p /\ ret_trace r = out_trace o /\ exhausted w = None.
Proof.
  unfold Ecalls.ecall_handle, ecall. destruct (Recursion.increment _) as [d [u| |]]; [|by intros [= _ <-]|done].
  destruct (register_oom_handler _ _ _) as [st1 [u1| |]]; [|by intros [= _ <-]|done]. cbn [fst].
  destruct (negb _); [by intros [= _ <-]|].
  destruct (Operations.handle _ _ _ _ _ _ _ _ _) as [o|]; [|done]. unfold leave, caught.
  destruct (exhausted w) as [cut|].
  { destruct (restore_safety_buffer _ _ _) as [st4 [u4| |]]; [|by intros [= _ <-]|done]. by intros [= _ <-]. }
  destruct (out_result o) as [output|e|] eqn:Ho'.
  - destruct (restore_safety_buffer _ _ _) as [st4 [u4| |]]; [|by intros [= _ <-]|done]. intros [= _ <-].
    unfold result_handle_success_to_handleresult. cbn [ret ret_trace]. destruct (alloc_out output) as [q|] eqn:Ha; [|done].
    intros [= ->]. by exists o, output.
  - destruct (restore_safety_buffer _ _ _) as [st4 [u4| |]]; [|by intros [= _ <-]|done]. by intros [= _ <-].
  - destruct (restore_safety_buffer _ _ _) as [st4 [u4| |]]; [|by intros [= _ <-]|done]. by intros [= _ <-].
Qed.

(** An ecall whose result the host takes for a success was a successful handle, and its output is
    what the host finds in user space. *)
Lemma enclave_handle_success fuel w shared params msg sig_info st bc gas buffers errs hp v :
  let run := enclave_handle fuel w shared params msg sig_info st bc gas buffers in
  status run = SgxVm.SGX_SUCCESS ->
  handle_result_to_vm_result (run_result run) (mkHeap errs (run_buffers run)) = Some (hp, Ok v) ->
  exists o, Operations.handle (Mem := Mem) (Ho := vm_host allocated st) km (Recursion.increment (rec_depth shared)).1 fuel
      gas bc params msg sig_info [] = Some o /\ out_result o = Ok v /\ run_ocalls run = out_trace o.
Proof.
  cbv zeta. unfold enclave_handle. destruct (Ecalls.ecall_handle _ _ _ _ _ _ _ _ _ _ _ _ _) as [[sh r]|] eqn:E; [|done].
  cbn [status run_result run_buffers run_ocalls]. intros _. destruct (ret r) as [p|e] eqn:Er.
  2: { unfold handle_result_to_vm_result. intros Ht. exfalso. revert Ht. unfold take_error. cbv [mbind option_bind].
       by destruct (vm_error_of_enclave _ _) as [[]|]. }
  destruct (ecall_handle_success (Ho := vm_host allocated st) _ _ _ _ _ _ _ _ _ _ _ _ _ _ E Er)
    as (o & output & Hh & Hout & [= <-] & Ht & Hx).
  cbn [s_data] in Hh. rw Hh Hx Hout. cbn [handle_result_to_vm_result].
  pose proof (take_allocated output (mkHeap errs buffers)) as Ha. cbn [user_buffers vm_errors] in Ha.
  unfold SgxVm.ocall_allocate in Ha |- *. cbn [fst snd]. rw Ha. cbn. intros [= _ <-]. by exists o.
Qed.

(** A successful call of an instance, seen from the enclave. *)
Lemma call_handle_success fuel w shared params msg sig_info (i i' : SgxVm.Instance D Qr It A) hp hp' out :
  call_handle_raw allocated (enclave_handle fuel w shared params msg sig_info) i hp = Some (i', hp', Ok out) ->
  let st := mkHost (inst_context (readonly i false)) (vm_errors hp) in
  exists o, Operations.handle (Mem := Mem) (Ho := vm_host allocated st) km (Recursion.increment (rec_depth shared)).1 fuel
      (SgxVm.gas_left (inner i)) (bytecode (inner i)) params msg sig_info [] = Some o /\ out_result o = Ok out /\
    (observed (HandleCall (enclave_handle fuel w shared params msg sig_info)) i hp).1 = out_trace o.
Proof.
  cbv zeta. unfold call_handle_raw, run_entry, observed, observe, module_handle, finish_call. cbn [inner readonly fst].
  set (run := enclave_handle fuel w shared params msg sig_info _ _ _ _).
  destruct (Z.eqb_spec (status run) SgxVm.SGX_SUCCESS) as [Hst|]; [|done].
  destruct (handle_result_to_vm_result _ _) as [[hp1 r]|] eqn:Hv; [|done]. intros [= _ _ ->].
  exact (enclave_handle_success _ _ _ _ _ _ _ _ _ _ _ _ _ Hst Hv).
Qed.

(** A transaction of this contract. *)
Definition of_contract (t : Transaction) (p : Process) : Prop :=
  (forall checksum, checksum_try_from (tx_code_id t) = Ok checksum ->
     load_wasm sha256 file_name (tx_read t) checksum (disk p) = Ok code) /\
  keyed ck (tx_message t) /\ (0 <= tx_limit t)%Z.

(** The heap of a fresh instance is enough for the function of the contract, when it is run with the
    gas limit [lp]. *)
Definition heap_enough (lp : Z) (t : Transaction) (p : Process) : Prop :=
  fits (Mem := Mem) (Ho := vm_host allocated (tx_start t p)) km code con ck (tx_depth t) lp (tx_limit t) (tx_message t).

(** A transaction that succeeds is a call of the contract's function on the map its part of the
    chain's store represents. *)
Lemma transaction_is_plain t p p' out s :
  compiled -> buffers_fit -> fields_distinct -> uses_fields ->
  of_contract t p -> heap_enough U64_MAX t p -> represents km ck K (contents (chain p)) s -> transact t p = Some (p', Ok out) ->
  exists s', plain_call km code con ck s (tx_message t) out s' /\ represents km ck K (contents (chain p')) s'.
Proof.
  intros Hcomp Hbuf Hdist Huses (Hload & Hkey & Hlim) Hfits Hr. unfold transact, GoBindings.do_handle, code_and.
  destruct (gas_out (visible p)); [|by intros [= _ <-]]. cbn [ok_or mbind result_bind].
  destruct (checksum_try_from (tx_code_id t)) as [checksum| |] eqn:Hcs; [|by intros [= _ <-]..]. cbn [map_err mbind result_bind ok_or].
  unfold run_contract, get_instance. rw (Hload _ eq_refl).
  destruct (arith _ _); [|by intros [= _ <-]..].
  destruct (call_handle_raw _ _ _ _) as [[[i hp] res]|] eqn:Hc; [|done]. cbn [mbind option_bind]. intros [= <- Hres].
  destruct res as [v| |]; [|done..]. cbn [map_err] in Hres. injection Hres as ->. cbn [chain].
  pose proof (one_call_store allocated (HandleCall _) _ _ _ _ _ _ _ _ _ Hc) as (db' & Hrec & Hk). rw Hrec.
  destruct (call_handle_success _ _ _ _ _ _ _ _ _ _ _ Hc) as (o & Hh & Hout & Hobs). cbn [inner from_code bytecode new_module] in Hh.
  rw Hobs in Hk. unfold SgxVm.gas_left in Hh. cbn [module_limit used_gas new_module] in Hh.
  replace (saturating_sub (tx_limit t) 0) with (tx_limit t) in Hh by (unfold saturating_sub; lia).
  assert (HonestHost (H := vm_host allocated (tx_start t p)) (contents (chain p)) (vm_cost allocated (tx_start t p))) as Hhon.
  { exact (vm_host_honest allocated (tx_start t p) (chain p) eq_refl Hbuf). }
  destruct (successful_handle_is_plain (Ho := vm_host allocated (tx_start t p)) km code con ck K
              (fun l op n pk i Hi => metered_exports_unbounded _ _ _ _ _ _ _ (Hcomp l op n pk i Hi)) Hdist Huses
              (tx_depth t) (tx_fuel t) (tx_limit t) (tx_message t) o out s Hr Hkey Hfits Hh Hout) as (s' & Hcall & Hs').
  exists s'. split; [done|]. eapply represents_ext; [|exact Hs']. intros k. by rw Hk.
Qed.

(** ** Sequences of transactions *)

(** Transactions one after another, with the outputs of those that succeeded.  After a failed one
    the chain goes on from any process whose store has the contents from before it. *)
Inductive transactions : Process -> list (Transaction * bytes) -> Process -> Prop :=
| transactions_none p : transactions p [] p
| transactions_ok t p p1 out l p2 :
    of_contract t p -> heap_enough U64_MAX t p -> transact t p = Some (p1, Ok out) -> transactions p1 l p2 ->
    transactions p ((t, out) :: l) p2
| transactions_failed t p p1 r p1' l p2 :
    transact t p = Some (p1, r) -> is_ok r = false -> (forall k, contents (chain p1') k = contents (chain p) k) ->
    transactions p1' l p2 -> transactions p l p2.

(** Calls of the plain contract one after another. *)
Inductive plain_calls : State -> list (Transaction * bytes) -> State -> Prop :=
| plain_none s : plain_calls s [] s
| plain_next t out l s s1 s2 :
    plain_call km code con ck s (tx_message t) out s1 -> plain_calls s1 l s2 -> plain_calls s ((t, out) :: l) s2.

(** C2: Any sequence of transactions of a contract through the bindings, the host and the
    enclave, some of which fail, is a sequence of calls of the contract's handle function on
    a map: the successful ones return, encrypted for their senders, what the function
    returns on the map that the earlier ones left, and the encrypted store of the chain
    represents that map. The contract is loaded metered: its exports are its entry points
    with calls of gas inserted anywhere. Conditions: the transactions that succeed name the
    contract's code and key, and the database of the chain keeps what it is given; every
    value the host copies into the enclave can be allocated there; the contract uses a set
    of keys no two of which have the same field digest; the heap of each instance is enough
    for the function (run with the largest gas limit, whatever gas its queries are given);
    after a failed transaction the chain goes on from the store as it was before it. *)
Theorem transactions_refine_the_contract p l p' s :
  compiled -> buffers_fit -> fields_distinct -> uses_fields ->
  transactions p l p' -> represents km ck K (contents (chain p)) s ->
  exists s', plain_calls s l s' /\ represents km ck K (contents (chain p')) s'.
Proof.
  intros Hcomp Hbuf Hdist Huses Ht. revert s.
  induction Ht as [p|t p p1 out l p2 Hof Hheap Htx _ IH|t p p1 r p1' l p2 Htx Hf Hback _ IH]; intros s Hr.
  - exists s. by split; [constructor|].
  - destruct (transaction_is_plain _ _ _ _ _ Hcomp Hbuf Hdist Huses Hof Hheap Hr Htx) as (s1 & Hc & Hr1).
    destruct (IH _ Hr1) as (s2 & Hcs & Hr2). exists s2. split; [by econstructor|done].
  - apply IH. eapply represents_ext; [|exact Hr]. intros k. by rw Hback.
Qed.

(** ** Transactions end *)

Definition with_fuel (n : nat) (t : Transaction) : Transaction :=
  mkTransaction n (tx_world t) (tx_shared t) (tx_read t) (tx_cache t) (tx_cosm t) (tx_code_id t) (tx_api t) (tx_querier t)
    (tx_limit t) (tx_message t).

(** The machine has what an ecall needs: a guard, memory for the reserve, which was not lost before
    and which ecalls from within ocalls keep, and slices that are not empty. *)
Definition enclave_ready (w : World) (shared : Shared) : Prop :=
  (0 <= rec_depth shared < Recursion.RECURSION_LIMIT)%Z /\
  enough_memory grow (reserve_in w) /\ enough_memory grow (reserve_out w) /\ safety shared <> Safety.Broken /\
  (forall st, is_built st -> is_built (nested w st)) /\ gas_inside w = true /\ exhausted w = None.

Definition machine_ready (t : Transaction) : Prop :=
  enclave_ready (tx_world t) (tx_shared t) /\
  code <> [] /\ m_env (tx_message t) <> [] /\ m_msg (tx_message t) <> [] /\ m_sig (tx_message t) <> [].

Lemma ecall_handle_runs `{Ho : Host} alloc_out fuel w gas used bc params msg sig_info h st o :
  enclave_ready w st -> forallb validate_const_ptr [params; msg; bc; sig_info] = true ->
  Operations.handle (Mem := Mem) km (Recursion.increment (rec_depth st)).1 fuel gas (s_data bc) (s_data params)
      (s_data msg) (s_data sig_info) h = Some o ->
  out_result o <> Panic ->
  exists st' gas', Ecalls.ecall_handle (Mem := Mem) grow alloc_out km fuel w gas used bc params msg sig_info h st =
    Some (st', mkReturned (result_handle_success_to_handleresult alloc_out (out_result o)) gas' (out_trace o)).
Proof.
  intros (Hd & Hin & Hout & Hnb & Hnest & Hg & Hx) Hv Hh Ho'. unfold Ecalls.ecall_handle, ecall. revert Hh. unfold Recursion.increment.
  destruct (Z.eqb_spec (rec_depth st) Recursion.RECURSION_LIMIT); [lia|]. cbn [fst]. intros Hh.
  unfold register_oom_handler. specialize (Hin (set_depth (Z.min U8_MAX (rec_depth st + 1)) st) Hnb).
  destruct (restore_safety_buffer grow (reserve_in w) _) as [st1 r1] eqn:E1. cbn [snd] in Hin. subst r1. rw Hg Hv. cbn [andb negb].
  destruct (restore_builds _ _ _ _ _ E1) as [b Hb].
  assert (is_built (nested w (set_oom false st1))) as Hn by (apply Hnest; by exists b).
  rw Hh. unfold leave, caught. rw Hx. specialize (Hout (nested w (set_oom false st1)) (built_not_broken _ Hn)).
  destruct (out_result o) as [v|e|]; [| |done];
    (destruct (restore_safety_buffer grow (reserve_out w) _) as [st4 r4]); cbn [snd] in Hout; subst r4; by eexists _, _.
Qed.

(** The host's result for an ecall that ended with [o]. *)
Definition handed (r : result EnclaveError bytes) (errs : Boxes VmError) (buffers : Boxes bytes) : option (Heap * VmResult bytes) :=
  match r with
  | Ok output => Some (mkHeap errs buffers, Ok output)
  | Err e => take_error e (mkHeap errs buffers)
  | Panic => None
  end.

Lemma enclave_handle_runs fuel w shared params msg sig_info st bc gas buffers errs o :
  enclave_ready w shared ->
  forallb validate_const_ptr [slice_of params; slice_of msg; slice_of bc; slice_of sig_info] = true ->
  Operations.handle (Mem := Mem) (Ho := vm_host allocated st) km (Recursion.increment (rec_depth shared)).1 fuel
      gas bc params msg sig_info [] = Some o -> out_result o <> Panic ->
  let run := enclave_handle fuel w shared params msg sig_info st bc gas buffers in
  status run = SgxVm.SGX_SUCCESS /\ run_ocalls run = out_trace o /\
  handle_result_to_vm_result (run_result run) (mkHeap errs (run_buffers run)) = handed (out_result o) errs buffers.
Proof.
  intros Hready Hv Hh Ho' run. subst run. unfold enclave_handle.
  destruct (ecall_handle_runs (Ho := vm_host allocated st) (fun output => Some (SgxVm.ocall_allocate output buffers).2) fuel w gas 0
              (slice_of bc) (slice_of params) (slice_of msg) (slice_of sig_info) [] shared o Hready Hv Hh Ho')
    as (st' & gas' & ->).
  cbn [status run_ocalls run_result run_buffers ret ret_trace]. split; [done|]. split; [done|].
  destruct Hready as (_ & _ & _ & _ & _ & _ & Hx). rw Hx Hh. destruct (out_result o) as [output|e|]; [|done|done].
  cbn [handle_result_to_vm_result result_handle_success_to_handleresult handed]. pose proof (take_allocated output (mkHeap errs buffers)) as Ha.
  unfold SgxVm.ocall_allocate in Ha |- *. cbn [fst snd user_buffers vm_errors] in *. by rw Ha.
Qed.

(** A call of a fresh instance, from the enclave's handle. *)
Lemma instance_runs w shared fuel (i : SgxVm.Instance D Qr It A) params msg sig_info hp o :
  enclave_ready w shared ->
  bytecode (inner i) <> [] -> params <> [] -> msg <> [] -> sig_info <> [] ->
  Operations.handle (Mem := Mem) (Ho := vm_host allocated (mkHost (inst_context (readonly i false)) (vm_errors hp))) km
    (Recursion.increment (rec_depth shared)).1 fuel (SgxVm.gas_left (inner i)) (bytecode (inner i)) params msg sig_info [] = Some o ->
  (exists output, out_result o = Ok output) \/ (exists e, out_result o = Err e /\ enclave_out_of_gas e) ->
  let entry := enclave_handle fuel w shared params msg sig_info in
  (exists i' hp' res, call_handle_raw allocated entry i hp = Some (i', hp', res) /\
     match out_result o with Ok output => res = Ok output | _ => is_ok res = false end) /\
  (observed (HandleCall entry) i hp).1 = out_trace o.
Proof.
  intros Hready Hc He Hm Hs Hh Ho' entry'.
  assert (forallb validate_const_ptr [slice_of params; slice_of msg; slice_of (bytecode (inner i)); slice_of sig_info] = true) as Hv.
  { cbn. by destruct params, msg, (bytecode (inner i)), sig_info. }
  destruct (enclave_handle_runs _ _ _ _ _ _ _ _ _ (user_buffers hp)
              (errors (SgxVm.after allocated (mkHost (inst_context (readonly i false)) (vm_errors hp)) (out_trace o)))
              _ Hready Hv Hh) as (Hst & Htr & Hr); [by destruct Ho' as [[? ->]|(? & -> & _)]|].
  split; [|exact Htr]. unfold call_handle_raw, run_entry, module_handle, finish_call. cbn [inner readonly]. unfold entry'.
  rw Hst Htr Hr. destruct Ho' as [[output ->]|(e & -> & He')]; cbn; [by eexists _, _, _|].
  destruct He' as [-> | ->]; by eexists _, _, _.
Qed.

(** A message that the enclave accepts for this contract: signed, decrypted, with a valid key. *)
Definition accepted (m : Message) (d : Decoded) : Prop :=
  exists e sm info,
    json_from_slice (m_env m) = Some e /\ json_to_vec (with_code_hash e code) = Some (d_env d) /\
    extract_contract_key e = Ok ck /\
    CanonicalAddr_from_human (SecretMsg.address (SecretMsg.contract e)) = Some (d_addr d) /\
    secret_from_slice (m_msg m) = Ok sm /\ nonce sm = d_nonce d /\ user_public_key sm = d_user d /\
    (plain ← decrypt km sm; validate_msg plain code) = Ok (d_inner d) /\
    json_from_slice (m_sig m) = Some info /\ verify_params km info e sm = Ok tt /\
    validate_contract_key km ck (d_addr d) code = Ok true.

Lemma accepted_decodes m d : accepted m d -> decodes km code ck m d.
Proof. intros (e & sm & info & ? & ? & ? & ? & ? & ? & ? & ? & _). by exists e, sm. Qed.


End EndToEnd.

(** ** A contract on a concrete chain *)

Section Demo.
#[local] Existing Instance demo_allocator.
#[local] Existing Instance demo_vm_querier.
#[local] Existing Instance demo_go_db.
#[local] Existing Instance demo_go_honest.
#[local] Existing Instance GuestArena.arena_memory.
#[local] Existing Instance GuestArena.arena_laws.
#[local] Existing Instance GuestArena.arena_allocator.
#[local] Existing Instance GuestArena.arena_allocator_laws.
#[local] Existing Instance demo_primitives.
#[local] Existing Instance demo_primitive_laws.
#[local] Existing Instance demo_codecs.
#[local] Existing Instance demo_prost.
#[local] Existing Instance demo_bech32_errors.
#[local] Existing Instance demo_json_errors.
#[local] Existing Instance no_json.
#[local] Existing Instance demo_json_coins.
#[local] Existing Instance demo_json_string.
#[local] Existing Instance demo_json_value.
#[local] Existing Instance demo_json_signdoc.
#[local] Existing Instance demo_json_env.
#[local] Existing Instance demo_json_output.
#[local] Existing Instance demo_serde_result.
#[local] Existing Instance demo_serde_u64.
#[local] Existing Instance demo_serde_env.
#[local] Existing Instance demo_serde_handle.
#[local] Existing Instance demo_serde_init.
#[local] Existing Instance demo_serde_query.
#[local] Existing Instance counter_loader.

(** The signature of a call is passed on as it is. *)
Definition callback_json : Json SigInfo := {|
  json_to_vec _ := None;
  json_from_slice b := Some (mkSigInfo [] (mkCosmosSignature (Secp256k1 []) []) (Some b))
|}.
#[local] Existing Instance callback_json.

Definition counter_id : bytes := demo_hash demo_code.
Definition counter_process : GoBindings.Process (D := MemoryStorage) :=
  mkProcess {[ 7%Z := upload_cache ]} {[ string_of_list_byte counter_id := demo_code ]} demo_heap (mkMemory [])
    (mkC ∅ ESuccess (Some default_buffer) (Some 0%Z)).

(** Alice's contract sends the counter a number. *)
Definition counter_message (v : Z) : Message :=
  match encrypt_wasm_msg demo_km
          (SecretMsg.Execute "to" (hex_encode (calc_contract_hash demo_code)) (be_bytes 8 v) [SecretMsg.mkCoin "uscrt" "5"] None)
          demo_nonce demo_user (lit "alice") with
  | Ok (SecretMsg.Execute _ _ out _ (Some sig)) => mkMessage (lit "env") out sig
  | _ => mkMessage [] [] []
  end.
Definition counter_tx (v : Z) : Transaction (Qr := unit) (A := string) :=
  mkTransaction 3000 demo_world demo_shared Readable 7 upload_cache counter_id "api" tt 100000 (counter_message v).
Definition counter_step (v : Z) (p : GoBindings.Process (D := MemoryStorage)) :=
  transact (It := Z) (Mem := GuestArena.arena) (fun s => s) (fun _ => "status"%string) demo_hash string_of_list_byte plentiful
    Safety.vec_grow demo_km (counter_tx v) p.

Definition process_after (r : option (GoBindings.Process (D := MemoryStorage) * result Error bytes))
  : GoBindings.Process (D := MemoryStorage) := from_option fst counter_process r.
Definition counter_p1 : GoBindings.Process (D := MemoryStorage) := process_after (counter_step 7 counter_process).
Definition counter_p2 : GoBindings.Process (D := MemoryStorage) := process_after (counter_step 9 counter_p1).

Lemma counter_runs :
  counter_step 7 counter_process = Some (counter_p1, Ok (lit "output")) /\
  counter_step 9 counter_p1 = Some (counter_p2, Ok (lit "output")).
Proof. split; vm_compute; reflexivity. Qed.

Definition counter_decoded (v : Z) : Decoded := mkDecoded (lit "env") demo_nonce demo_user (be_bytes 8 v) (lit "to").

(** The message is decoded in one way only. *)
Lemma counter_decodes v sm d :
  secret_from_slice (m_msg (counter_message v)) = Ok sm ->
  nonce sm = demo_nonce -> user_public_key sm = demo_user ->
  (plain ← decrypt demo_km sm; validate_msg plain demo_code) = Ok (be_bytes 8 v) ->
  decodes demo_km demo_code demo_contract_key (counter_message v) d -> d = counter_decoded v.
Proof.
  intros Hsm Hn Hu Hd (e & sm' & He & Hv & _ & Ha & Hsm' & Hn' & Hu' & Hd').
  rw Hsm in Hsm'. simplify_eq Hsm'. intros <-. rw Hd in Hd'. simplify_eq Hd'. intros Hi. apply (inj Some) in He as <-.
  destruct d as [de dn du di da]. cbn [d_env d_nonce d_user d_inner d_addr] in *. subst dn du di.
  apply (inj Some) in Hv as <-. apply (inj Some) in Ha as <-. by rw Hn Hu.
Qed.

Lemma counter_started limit op n pk i :
  start_engine (Mem := GuestArena.arena) limit demo_code demo_contract_key op n pk = Ok i ->
  i = Runtime.mkInstance demo_arena limit 0 0 default_wasm_costs demo_contract_key (meter_exports 10 counter_exports) op n pk.
Proof. by intros [= <-]. Qed.

Lemma counter_compiled bounded : compiled (Mem := GuestArena.arena) demo_code demo_contract demo_contract_key bounded 10 50.
Proof. intros limit op n pk i Hi. apply counter_started in Hi as ->. apply demo_contract_metered. Qed.

Lemma counter_buffers : buffers_fit plentiful.
Proof. intros v. reflexivity. Qed.

(** The counter uses the key n; another key has another digest. *)
Definition counter_field (k : bytes) : Prop := k = lit "n" \/ k = lit "owner".

Lemma counter_fields : fields_distinct demo_contract_key counter_field.
Proof. intros k k' [-> | ->] [-> | ->] E; [done| | |done]; vm_compute in E; discriminate. Qed.

Lemma counter_within : uses_fields demo_contract counter_field.
Proof. intros e m. repeat split; by left. Qed.

Definition counter_secret (v : Z) : SecretMessage :=
  match secret_from_slice (m_msg (counter_message v)) with Ok sm => sm | _ => mkSecret [] [] [] end.

(** The message with the number [v] holds it. *)
Definition counter_opens (v : Z) : Prop :=
  secret_from_slice (m_msg (counter_message v)) = Ok (counter_secret v) /\
  nonce (counter_secret v) = demo_nonce /\ user_public_key (counter_secret v) = demo_user /\
  (plain ← decrypt demo_km (counter_secret v); validate_msg plain demo_code) = Ok (be_bytes 8 v).

Definition counter_instance : ContractInstance GuestArena.arena :=
  Runtime.mkInstance demo_arena 100000 0 0 default_wasm_costs demo_contract_key (meter_exports 10 counter_exports)
    OpHandle demo_nonce demo_user.

Lemma counter_of_contract v (p : GoBindings.Process (D := MemoryStorage)) :
  disk p = disk counter_process -> of_contract demo_hash string_of_list_byte demo_code demo_contract_key (counter_tx v) p.
Proof.
  intros Hdisk. split_and!.
  - intros checksum Hc. cbn [tx_code_id counter_tx] in Hc. change (checksum_try_from counter_id) with (Ok (E := VmError) counter_id) in Hc.
    simplify_eq Hc. intros <-. cbn [tx_read counter_tx]. rw Hdisk. by vm_compute.
  - intros e He. apply (inj Some) in He as <-. by vm_compute.
  - done.
Qed.

Lemma counter_heap lp v (p : GoBindings.Process (D := MemoryStorage)) :
  counter_opens v ->
  (forall g, call_need (Mem := GuestArena.arena)
     (Ho := metered_host (vm_host (HS := go_storage) plentiful (tx_start (It := Z) demo_code (counter_tx v) p)) g) demo_km
     (tx_depth (counter_tx v)) (handle_fn demo_contract) (lit "env") (be_bytes 8 v) (original demo_contract lp counter_instance [])
     <= room demo_arena)%Z ->
  heap_enough (It := Z) (Mem := GuestArena.arena) plentiful demo_km demo_code demo_contract demo_contract_key lp (counter_tx v) p.
Proof.
  intros (Hsm & Hn & Hu & Hd) Hneed d i g Hdec Hi. pose proof (counter_decodes v _ d Hsm Hn Hu Hd Hdec) as ->. clear Hdec.
  apply counter_started in Hi as ->. exact (Hneed g).
Qed.

(** A transaction that runs out of gas. *)
Definition poor_tx (v : Z) : Transaction (Qr := unit) (A := string) :=
  mkTransaction 3000 demo_world demo_shared Readable 7 upload_cache counter_id "api" tt 40 (counter_message v).
Definition poor_step (v : Z) (p : GoBindings.Process (D := MemoryStorage)) :=
  transact (It := Z) (Mem := GuestArena.arena) (fun s => s) (fun _ => "status"%string) demo_hash string_of_list_byte plentiful
    Safety.vec_grow demo_km (poor_tx v) p.

Lemma poor_fails : (fun o => (fun r => is_ok r.2) <$> o) (poor_step 8 counter_p1) = Some false.
Proof. vm_compute. reflexivity. Qed.

(** 7 is stored, a transaction with too little gas fails, and 9 is stored. *)
Lemma transactions_refine_the_contract_witness :
  exists s', plain_calls demo_km demo_code demo_contract demo_contract_key (fun _ => None)
      [(counter_tx 7, lit "output"); (counter_tx 9, lit "output")] s' /\
    opened demo_km demo_contract_key (contents (chain counter_p2)) (lit "n") = Ok (s' (lit "n")).
Proof.
  destruct (transactions_refine_the_contract (A := string) (It := Z) (Mem := GuestArena.arena) (fun s => s) (fun _ => "status"%string) demo_hash
              string_of_list_byte plentiful Safety.vec_grow demo_km demo_code demo_contract demo_contract_key
              counter_field False 10 50) with (p := counter_process) (l := [(counter_tx 7, lit "output"); (counter_tx 9, lit "output")])
    (p' := counter_p2) (s := fun _ : bytes => @None bytes) as (s' & Hc & Hr).
  - apply counter_compiled.
  - exact counter_buffers.
  - exact counter_fields.
  - exact counter_within.
  - destruct counter_runs as [H1 H2]. eapply transactions_ok; [apply counter_of_contract; vm_compute; reflexivity| |exact H1|].
    { apply counter_heap; [split_and!; vm_compute; reflexivity|]. intros g. vm_compute. discriminate. }
    pose proof poor_fails as Hp. destruct (poor_step 8 counter_p1) as [[p1 r]|] eqn:Ep; [|discriminate].
    eapply transactions_failed with (t := poor_tx 8) (p1 := p1) (r := r) (p1' := counter_p1); [exact Ep|cbn in Hp; by injection Hp|done|].
    eapply transactions_ok; [apply counter_of_contract; vm_compute; reflexivity| |exact H2|constructor].
    apply counter_heap; [split_and!; vm_compute; reflexivity|]. intros g. vm_compute. discriminate.
  - intros k _. reflexivity.
  - exists s'. split; [exact Hc|]. apply Hr. by left.
Defined.

Definition counter_start : HostState MemoryStorage unit Z := tx_start demo_code (counter_tx 7) counter_process.

(** The function of the counter on 7, whatever gas metering leaves. *)
Lemma counter_ideal g :
  exists vm' output,
    ideal_output (Mem := GuestArena.arena) (Ho := metered_host (vm_host (HS := go_storage) plentiful counter_start) g) demo_km 3
      (parse_args (T := Z) (lit "env") (be_bytes 8 7)) (fun p => handle_fn demo_contract p.1 p.2)
      (original demo_contract (100000 - handle_charges 10 50) counter_instance []) = Some (vm', Ok output) /\
    is_gas_depleted (instance vm') = false /\
    is_ok (encrypt_output demo_km output demo_nonce demo_user (lit "to")) = true /\ output = be_bytes 8 7.
Proof.
  assert ((fun o => (fun p => (is_gas_depleted (instance p.1), p.2)) <$> o)
      (ideal_output (Mem := GuestArena.arena) (Ho := metered_host (vm_host (HS := go_storage) plentiful counter_start) g) demo_km 3
        (parse_args (T := Z) (lit "env") (be_bytes 8 7)) (fun p => handle_fn demo_contract p.1 p.2)
        (original demo_contract (100000 - handle_charges 10 50) counter_instance [])) = Some (false, Ok (be_bytes 8 7))) as Hv
    by (vm_compute; reflexivity).
  destruct (ideal_output _ _ _ _ _) as [[vm' r]|]; [|discriminate]. cbn in Hv. injection Hv as Hd ->. exists vm', (be_bytes 8 7).
  split; [reflexivity|]. split; [exact Hd|]. split; [vm_compute; reflexivity|reflexivity].
Qed.

End Demo.
