(* ===== verification/Cert.v ===== *)
(** * Certificates of registering nodes: cosmwasm/packages/wasmi-runtime/src/registration/cert.rs

    Writing the self-signed certificate that carries a node's report ([gen_ecc_cert]) and
    finding the report in it again ([get_netscape_comment]).  The DER writer (crate yasna),
    the P-256 signer of the SGX SDK and the clock are the class [CertTools]; what X.690 says
    of the encodings is [CertLaws]. *)

From Stdlib Require Import Strings.String.
From stdpp Require Import base tactics list numbers strings ssreflect.
From S2P Require Import Prelude.

Local Open Scope list_scope.

(** ** The DER writer *)

(** What the closures passed to [yasna::construct_der] write. *)
Inductive Der : Type :=
| write_sequence (elements : list Der)
| write_set (elements : list Der)
| write_tagged (context : Z) (content : Der)
| write_i8 (n : Z)
| write_u8 (n : Z)
| write_oid (arcs : list Z)
| write_utf8_string (s : string)
| write_utctime (seconds : Z)
| write_bitvec (b : bytes)
| write_bytes (b : bytes)
| write_biguint (n : Z).

Record EcPublic : Type := mkEcPublic { gx : bytes; gy : bytes }.

(** A signature is two lists of eight 32-bit words. *)
Record EcSignature : Type := mkEcSignature { sig_x : list Z; sig_y : list Z }.

Class CertTools : Type := {
  construct_der : Der -> bytes;
  (** Whether [UTCTime] can express an instant. *)
  utc_range : Z -> bool;
  (** The slice [&writer.buf[4..]] after the given elements of a sequence were written. *)
  written_after_4 : list Der -> bytes;
  ecdsa_sign_slice (data private : bytes) : option EcSignature;
  (** Seconds since 1970, if the clock is not before that. *)
  system_time : option Z
}.

(** The definite length form of X.690. *)
Definition der_length (n : nat) : bytes :=
  let z := Z.of_nat n in
  if (n <? 128)%nat then [byte_of_Z z]
  else if (z <? 256)%Z then byte_of_Z 129 :: be_bytes 1 z
  else if (z <? 65536)%Z then byte_of_Z 130 :: be_bytes 2 z
  else if (z <? 16777216)%Z then byte_of_Z 131 :: be_bytes 3 z
  else byte_of_Z 132 :: be_bytes 4 z.

Definition der_tlv (tag : Z) (content : bytes) : bytes :=
  byte_of_Z tag :: der_length (length content) ++ content.

(** The object identifier of a Netscape comment, and its encoding. *)
Definition netscape_comment_arcs : list Z := [2; 16; 840; 1; 113730; 1; 13]%Z.
Definition ns_cmt_oid : bytes :=
  map byte_of_Z [0x06; 0x09; 0x60; 0x86; 0x48; 0x01; 0x86; 0xF8; 0x42; 0x01; 0x0D]%Z.

Class CertLaws `{CertTools} : Prop := {
  der_sequence l : construct_der (write_sequence l) = der_tlv 0x30 (concat (map construct_der l));
  der_tagged t d : construct_der (write_tagged t d) = der_tlv (0xA0 + t) (construct_der d);
  der_octets b : construct_der (write_bytes b) = der_tlv 0x04 b;
  der_netscape_comment : construct_der (write_oid netscape_comment_arcs) = ns_cmt_oid
}.

(** ** gen_ecc_cert *)

Definition CERTEXPIRYDAYS : Z := 3652.
Definition ISSUER : string := "SecretTEE".
Definition SUBJECT : string := "Secret Network Node Certificate".

Inductive CertError : Type := CertGenericError.

Section Generate.
Context `{T : CertTools}.

Definition ecdsa_with_sha256 : Der := write_sequence [write_oid [1; 2; 840; 10045; 4; 3; 2]%Z].

(** A name with one common name. *)
Definition common_name (cn : string) : Der :=
  write_sequence [write_set [write_sequence [write_oid [2; 5; 4; 3]%Z; write_utf8_string cn]]].

(** [BigUint::from_slice]: base 2^32, the least significant digit first. *)
Definition biguint_from_slice (digits : list Z) : Z := foldr (fun d acc => d + 2^32 * acc)%Z 0%Z digits.

Definition public_key_bytes (pub_k : EcPublic) : bytes := Byte.x04 :: rev (gx pub_k) ++ rev (gy pub_k).

Definition ec_algorithm : list Der :=
  [write_oid [1; 2; 840; 10045; 2; 1]%Z; write_oid [1; 2; 840; 10045; 3; 1; 7]%Z].

Definition tbs_certificate (payload : bytes) (pub_k : EcPublic) (now : Z) : Der :=
  write_sequence [
    write_tagged 0 (write_i8 2);
    write_u8 1;
    ecdsa_with_sha256;
    common_name ISSUER;
    write_sequence [write_utctime now; write_utctime (now + CERTEXPIRYDAYS * 86400)];
    common_name SUBJECT;
    write_sequence [write_sequence ec_algorithm; write_bitvec (public_key_bytes pub_k)];
    write_tagged 3
      (write_sequence [write_sequence [write_oid netscape_comment_arcs; write_bytes payload]])].

Definition signature_der (sig : EcSignature) : bytes :=
  construct_der (write_sequence [write_biguint (biguint_from_slice (rev (sig_x sig)));
                                 write_biguint (biguint_from_slice (rev (sig_y sig)))]).

Definition private_key_der (prv_k : bytes) (pub_k : EcPublic) : bytes :=
  construct_der (write_sequence [
    write_u8 0;
    write_sequence ec_algorithm;
    write_bytes (construct_der (write_sequence [
      write_u8 1;
      write_bytes (rev prv_k);
      write_tagged 1 (write_bitvec (public_key_bytes pub_k))]))]).

Definition gen_ecc_cert {E} (payload prv_k : bytes) (pub_k : EcPublic) : result E (bytes * bytes) :=
  now ← expect system_time;
  if negb (utc_range now && utc_range (now + CERTEXPIRYDAYS * 86400)) then Panic
  else
    let tbs := tbs_certificate payload pub_k now in
    sig ← expect (ecdsa_sign_slice (written_after_4 [tbs; ecdsa_with_sha256]) prv_k);
    let cert_der := construct_der (write_sequence [tbs; ecdsa_with_sha256; write_bitvec (signature_der sig)]) in
    Ok (private_key_der prv_k pub_k, cert_der).

End Generate.

(** ** Finding a value in a certificate *)

(** [cert.windows(oid.len()).position(|window| window == oid)]. *)
Fixpoint window_position (oid cert : bytes) : option nat :=
  if bool_decide (take (length oid) cert = oid) then Some 0
  else match cert with [] => None | _ :: cert' => S <$> window_position oid cert' end.

Definition byte_at {E} (l : bytes) (i : nat) : result E nat :=
  b ← expect (l !! i); Ok (Z.to_nat (Z_of_byte b)).

Definition extract_asn1_value (cert oid : bytes) : result CertError bytes :=
  match window_position oid cert with
  | None => Err CertGenericError
  | Some size =>
      let offset := size + 12 in
      if (length cert <=? offset + 2)%nat then Err CertGenericError
      else
        len ← byte_at cert offset;
        '(len, offset) ← (if (0x80 <? len)%nat then
                            hi ← byte_at cert (offset + 1);
                            lo ← byte_at cert (offset + 2);
                            Ok (hi * 0x100 + lo, offset + 2)
                          else Ok (len, offset));
        let offset := offset + 1 in
        if (length cert <=? offset + len)%nat then Err CertGenericError
        else slice cert offset (offset + len)
  end.

Definition get_netscape_comment (cert_der : bytes) : result CertError bytes :=
  extract_asn1_value cert_der ns_cmt_oid.

Definition prime256v1_oid : bytes :=
  map byte_of_Z [0x06; 0x08; 0x2A; 0x86; 0x48; 0xCE; 0x3D; 0x03; 0x01; 0x07]%Z.

Definition get_cert_pubkey (cert_der : bytes) : result CertError bytes :=
  extract_asn1_value cert_der prime256v1_oid.

(** ** Properties *)

Lemma window_position_Some oid cert p :
  window_position oid cert = Some p ->
  cert = take p cert ++ oid ++ drop (p + length oid) cert.
Proof.
  revert p. induction cert as [|b cert IH]; intros p; cbn [window_position].
  - case_bool_decide as Ho; [|done]. intros [= <-]. rw take_nil in Ho. by subst.
  - case_bool_decide as Ho.
    + intros [= <-]. cbn [take app Nat.add]. rw -{1}(take_drop (length oid) (b :: cert)). by rw Ho.
    + destruct (window_position oid cert) as [q|]; [|done]. intros [= <-].
      cbn [take app Nat.add drop]. f_equal. by apply IH.
Qed.

Lemma window_position_le oid pre post :
  exists p, window_position oid (pre ++ oid ++ post) = Some p /\ p <= length pre.
Proof.
  induction pre as [|b pre (p & Hp & Hle)]; cbn [app window_position].
  - exists 0. split; [|done].
    destruct (oid ++ post) eqn:Ho; cbn [window_position]; by rw -Ho take_app_length bool_decide_true.
  - destruct (bool_decide _); [exists 0; split; [done|lia]|]. rw Hp. exists (S p).
    split; [done|cbn; lia].
Qed.

(** The length that is read from the first three bytes [L] of a value's length and contents. *)
Definition length_read (b0 b1 b2 : byte) : nat * nat :=
  let n := Z.to_nat (Z_of_byte b0) in
  if (0x80 <? n)%nat then (Z.to_nat (Z_of_byte b1) * 0x100 + Z.to_nat (Z_of_byte b2), 3) else (n, 1).

Lemma extract_at oid cert p b0 b1 b2 rest :
  window_position oid cert = Some p ->
  drop (p + 12) cert = b0 :: b1 :: b2 :: rest ->
  let '(len, skip) := length_read b0 b1 b2 in
  extract_asn1_value cert oid =
    if (length (drop (p + 12) cert) <=? skip + len)%nat then Err CertGenericError
    else Ok (take len (drop skip (drop (p + 12) cert))).
Proof.
  intros Hp Hd. assert (length cert = p + 12 + (3 + length rest)) as Hl.
  { apply (f_equal length) in Hd. rw length_drop in Hd. cbn in Hd. lia. }
  assert (forall i, cert !! (p + 12 + i) = (b0 :: b1 :: b2 :: rest) !! i) as Hi.
  { intros i. by rw -Hd lookup_drop. }
  unfold extract_asn1_value, byte_at, length_read. rw Hp.
  rw (proj2 (Nat.leb_gt _ _)); [|lia].
  pose proof (Hi 0) as H0. rw Nat.add_0_r in H0. rw H0 (Hi 1) (Hi 2). cbn [lookup list_lookup expect mbind result_bind].
  rw length_drop.
  destruct (0x80 <? _)%nat; cbn [mbind result_bind];
    repeat match goal with |- context [(?a <=? ?b)%nat] => destruct (Nat.leb_spec a b) end; try done; try lia;
    (rw slice_ok; [|lia]); rw !drop_drop; do 2 f_equal; first [lia|f_equal; lia].
Qed.

(** Extraction never panics, whatever bytes are presented as a certificate. *)
Lemma extract_no_panic cert oid : extract_asn1_value cert oid <> Panic.
Proof.
  destruct (window_position oid cert) as [p|] eqn:Hp.
  - destruct (drop (p + 12) cert) as [|b0 [|b1 [|b2 rest]]] eqn:Hd.
    4: { pose proof (extract_at _ _ _ _ _ _ _ Hp Hd) as He. destruct (length_read b0 b1 b2).
         rw He. by destruct (_ <=? _)%nat. }
    all: unfold extract_asn1_value; rw Hp; apply (f_equal length) in Hd;
      rw length_drop in Hd; cbn in Hd; rw (proj2 (Nat.leb_le _ _)); [done|lia].
  - unfold extract_asn1_value. by rw Hp.
Qed.

(** The comment lengths the reader understands: one length byte, or exactly two more. *)
Definition readable (n : nat) : Prop := n < 128 \/ (256 <= n /\ (Z.of_nat n < 65536)%Z).

Lemma byte_of_Z_nat z : (0 <= z < 256)%Z -> Z.to_nat (Z_of_byte (byte_of_Z z)) = Z.to_nat z.
Proof. intros. rw Z_of_byte_of_Z Z.mod_small //. Qed.

Lemma byte_nat_bound b : Z.to_nat (Z_of_byte b) < 256.
Proof. pose proof (Z_of_byte_range b). lia. Qed.

Lemma length_read_short b0 b1 b2 :
  Z.to_nat (Z_of_byte b0) <= 128 -> length_read b0 b1 b2 = (Z.to_nat (Z_of_byte b0), 1).
Proof. intros. unfold length_read. by rw (proj2 (Nat.ltb_ge _ _)). Qed.

Lemma length_read_long z b1 b2 :
  (128 < z < 256)%Z ->
  length_read (byte_of_Z z) b1 b2 = (Z.to_nat (Z_of_byte b1) * 256 + Z.to_nat (Z_of_byte b2), 3).
Proof. intros. unfold length_read. rw byte_of_Z_nat; [|lia]. rw (proj2 (Nat.ltb_lt _ _)) //. lia. Qed.

(** What the reader makes of a DER length: right exactly for the readable ones. *)
Lemma der_length_read payload post :
  2 <= length post ->
  exists b0 b1 b2 rest,
    der_length (length payload) ++ payload ++ post = b0 :: b1 :: b2 :: rest /\
    let '(len, skip) := length_read b0 b1 b2 in
    (readable (length payload) -> len = length payload /\ skip = length (der_length (length payload))) /\
    (~ readable (length payload) -> len <> length payload).
Proof.
  intros Hpost. set (n := length payload). unfold readable. unfold der_length at 1.
  destruct (Nat.ltb_spec n 128) as [H1|H1].
  { assert (2 <= length (payload ++ post)) as Hl by (rw length_app; lia).
    destruct (payload ++ post) as [|b1 [|b2 rest]]; [cbn in Hl; lia..|].
    exists (byte_of_Z (Z.of_nat n)), b1, b2, rest. split; [done|].
    assert (Z.to_nat (Z_of_byte (byte_of_Z (Z.of_nat n))) = n) as Hb by (rw byte_of_Z_nat; lia).
    rw length_read_short Hb; [|lia]. unfold der_length. rw (proj2 (Nat.ltb_lt _ _) H1).
    split; [done|lia]. }
  destruct (Z.ltb_spec (Z.of_nat n) 256) as [H2|H2].
  { destruct payload as [|b2 rest]; [cbn in n; lia|].
    exists (byte_of_Z 129), (byte_of_Z (Z.of_nat n)), b2, (rest ++ post). split; [done|].
    rw length_read_long; [|lia]. rw byte_of_Z_nat; [|lia]. split; lia. }
  destruct (Z.ltb_spec (Z.of_nat n) 65536) as [H3|H3].
  { exists (byte_of_Z 130), (byte_of_Z (Z.of_nat n / 256)), (byte_of_Z (Z.of_nat n)), (payload ++ post).
    split; [done|]. rw length_read_long; [|lia].
    rw byte_of_Z_nat; [|split; [apply Z.div_pos|apply Z.div_lt_upper_bound]; lia].
    rw Z_of_byte_of_Z. unfold der_length. rw (proj2 (Nat.ltb_ge _ _) H1).
    rw (proj2 (Z.ltb_ge _ _) H2) (proj2 (Z.ltb_lt _ _) H3). split; [|lia]. intros _. split; [|done].
    pose proof (Z.div_mod (Z.of_nat n) 256). pose proof (Z.mod_pos_bound (Z.of_nat n) 256).
    pose proof (Z.div_pos (Z.of_nat n) 256). lia. }
  assert (exists z b1 b2 rest, (128 < z < 256)%Z /\
    (if (Z.of_nat n <? 16777216)%Z then byte_of_Z 131 :: be_bytes 3 (Z.of_nat n)
     else byte_of_Z 132 :: be_bytes 4 (Z.of_nat n)) ++ payload ++ post = byte_of_Z z :: b1 :: b2 :: rest)
    as (z & b1 & b2 & rest & Hz & ->).
  { destruct (_ <? _)%Z; [exists 131%Z|exists 132%Z]; eexists _, _, _; (split; [lia|reflexivity]). }
  exists (byte_of_Z z), b1, b2, rest. split; [done|]. rw length_read_long //.
  pose proof (byte_nat_bound b1). pose proof (byte_nat_bound b2). split; lia.
Qed.

(** What follows the identifier is returned exactly when its length is readable. *)
Lemma extract_value oid cert p payload post :
  length oid = 11 -> window_position oid cert = Some p ->
  drop (p + 11) cert = der_tlv 0x04 payload ++ post -> 2 <= length post ->
  extract_asn1_value cert oid = Ok payload <-> readable (length payload).
Proof.
  intros Ho Hp Hd Hpost.
  assert (drop (p + 12) cert = der_length (length payload) ++ payload ++ post) as Hd'.
  { replace (p + 12) with (p + 11 + 1) by lia. rw -drop_drop Hd. unfold der_tlv. cbn [app drop]. by rw -app_assoc. }
  destruct (der_length_read payload post Hpost) as (b0 & b1 & b2 & rest & Hb & Hr).
  pose proof (extract_at oid cert p b0 b1 b2 rest Hp) as He. rw Hd' Hb in He.
  specialize (He eq_refl). rw -Hb in He.
  destruct (length_read b0 b1 b2) as [len skip]. destruct Hr as [Hyes Hno]. rw He. split.
  - case: Nat.leb_spec => // Hl [= Hlen]. destruct (decide (readable (length payload))) as [|Hn]; [done|].
    destruct (Hno Hn). apply (f_equal length) in Hlen.
    rw length_take length_drop in Hlen. lia.
  - intros Hr. destruct (Hyes Hr) as [-> ->]. rw drop_app_length take_app_length.
    case: Nat.leb_spec => // Hl. rw !length_app in Hl. lia.
Qed.

(** Wherever the identifier of the comment occurs in a certificate, the value follows it: no
    other field (the public key, say) contains the identifier by accident. *)
Fixpoint sole_comment (value cert : bytes) : bool :=
  match cert with
  | [] => true
  | _ :: cert' =>
      implb (bool_decide (take 11 cert = ns_cmt_oid)) (bool_decide (take (length value) (drop 11 cert) = value))
      && sole_comment value cert'
  end.

Lemma sole_comment_at value cert p :
  sole_comment value cert = true -> window_position ns_cmt_oid cert = Some p ->
  take (length value) (drop (p + 11) cert) = value.
Proof.
  revert p. induction cert as [|b cert IH]; intros p Hs Hp.
  - cbn [window_position] in Hp. case_bool_decide as H0; [|done]. by rw take_nil in H0.
  - cbn [sole_comment] in Hs. apply andb_prop in Hs as [Hhere Hs].
    cbn [window_position] in Hp. change (length ns_cmt_oid) with 11 in Hp. case_bool_decide as H0.
    + simplify_eq Hp. intros <-. cbn [implb] in Hhere. by apply bool_decide_eq_true in Hhere.
    + destruct (window_position ns_cmt_oid cert) as [q|]; [|done]. simplify_eq Hp. intros <-.
      cbn [Nat.add drop]. by apply IH.
Qed.

Section CertFacts.
Context `{T : CertTools} {HT : CertLaws}.

Definition carries (value : bytes) (d : Der) : Prop :=
  exists pre post, construct_der d = pre ++ value ++ post.

Lemma carries_tlv value tag pre post : exists pre' post', der_tlv tag (pre ++ value ++ post) = pre' ++ value ++ post'.
Proof.
  exists (byte_of_Z tag :: der_length (length (pre ++ value ++ post)) ++ pre), post.
  unfold der_tlv. cbn [app]. by rw -app_assoc.
Qed.

Lemma carries_sequence value l d : d ∈ l -> carries value d -> carries value (write_sequence l).
Proof.
  intros Hd (pre & post & Hc). unfold carries. rw der_sequence.
  apply list_elem_of_split in Hd as (l1 & l2 & ->). rw map_app concat_app. cbn [map concat]. rw Hc.
  replace (concat (map construct_der l1) ++ (pre ++ value ++ post) ++ concat (map construct_der l2))
    with ((concat (map construct_der l1) ++ pre) ++ value ++ (post ++ concat (map construct_der l2)))
    by (by rw -!app_assoc).
  apply carries_tlv.
Qed.

Lemma carries_tagged value t d : carries value d -> carries value (write_tagged t d).
Proof. intros (pre & post & Hc). unfold carries. rw der_tagged Hc. apply carries_tlv. Qed.

Lemma tbs_carries payload pub_k now :
  carries (ns_cmt_oid ++ der_tlv 0x04 payload) (tbs_certificate payload pub_k now).
Proof.
  eapply carries_sequence; [do 7 right; left|].
  apply carries_tagged. eapply carries_sequence; [left|].
  unfold carries. rw der_sequence. cbn [map concat]. rw der_netscape_comment der_octets.
  rw (app_assoc ns_cmt_oid) -(app_nil_l ((ns_cmt_oid ++ _) ++ [])). apply carries_tlv.
Qed.

(** A certificate is its fields around the comment, of which the last two follow it. *)
Lemma gen_ecc_cert_layout {E} payload prv_k pub_k key_der cert_der :
  gen_ecc_cert (E:=E) payload prv_k pub_k = Ok (key_der, cert_der) ->
  exists pre post, cert_der = pre ++ ns_cmt_oid ++ der_tlv 0x04 payload ++ post /\ 2 <= length post.
Proof.
  unfold gen_ecc_cert. destruct system_time as [now|]; cbn [expect mbind result_bind]; [|done].
  destruct (negb _); [done|]. destruct (ecdsa_sign_slice _ _) as [sig|]; [|done]. intros [= _ <-].
  destruct (tbs_carries payload pub_k now) as (pre & post & Hc).
  rw der_sequence. cbn [map concat]. rw Hc. unfold der_tlv at 1.
  eexists (_ :: _ ++ pre), (post ++ construct_der ecdsa_with_sha256 ++ _).
  split; [cbn [app]; by rw -!app_assoc|].
  unfold ecdsa_with_sha256. rw der_sequence. unfold der_tlv. cbn [app].
  rw !length_app. cbn [length]. rw !length_app. unfold der_length.
  repeat match goal with |- context [if ?c then _ else _] => destruct c end; cbn [length]; lia.
Qed.

(** The first occurrence of the comment's identifier is followed by the payload. *)
Lemma comment_position {E} payload prv_k pub_k key_der cert_der :
  gen_ecc_cert (E:=E) payload prv_k pub_k = Ok (key_der, cert_der) ->
  sole_comment (der_tlv 0x04 payload) cert_der = true ->
  exists p post, window_position ns_cmt_oid cert_der = Some p /\
    drop (p + 11) cert_der = der_tlv 0x04 payload ++ post /\ 2 <= length post.
Proof.
  intros Hg Hs. destruct (gen_ecc_cert_layout _ _ _ _ _ Hg) as (pre & post & Hc & Hpost).
  destruct (window_position_le ns_cmt_oid pre (der_tlv 0x04 payload ++ post)) as (p & Hp & Hle).
  rw -Hc in Hp. pose proof (sole_comment_at _ _ _ Hs Hp) as Ht.
  exists p, (drop (length (der_tlv 0x04 payload)) (drop (p + 11) cert_der)). split_and!; [done| |].
  - by rw -{1}(take_drop (length (der_tlv 0x04 payload)) (drop (p + 11) cert_der)) Ht.
  - rw !length_drop Hc !length_app. change (length ns_cmt_oid) with 11. lia.
Qed.

(** A certificate written for a payload gives that payload back exactly when its length is below
    128, or at least 256 and below 65536: the reader takes every longer form of a length for
    the one with two bytes. (It looks for the first occurrence of the comment's identifier,
    so no other field may contain it.) *)
Theorem comment_is_readable {E} payload prv_k pub_k key_der cert_der :
  gen_ecc_cert (E:=E) payload prv_k pub_k = Ok (key_der, cert_der) ->
  sole_comment (der_tlv 0x04 payload) cert_der = true ->
  get_netscape_comment cert_der = Ok payload <-> readable (length payload).
Proof.
  intros Hg Hs. destruct (comment_position _ _ _ _ _ Hg Hs) as (p & post & Hp & Hd & Hl).
  by apply extract_value with (p := p) (post := post).
Qed.

End CertFacts.

(** ** A concrete encoder, used to run the models on examples *)

Definition demo_base128 (z : Z) : bytes :=
  if (z <? 128)%Z then [byte_of_Z z]
  else if (z <? 16384)%Z then [byte_of_Z (128 + z / 128); byte_of_Z (z mod 128)]
  else [byte_of_Z (128 + z / 16384); byte_of_Z (128 + (z / 128) mod 128); byte_of_Z (z mod 128)].

Fixpoint demo_der (d : Der) : bytes :=
  match d with
  | write_sequence l => der_tlv 0x30 (concat (map demo_der l))
  | write_set l => der_tlv 0x31 (concat (map demo_der l))
  | write_tagged t c => der_tlv (0xA0 + t) (demo_der c)
  | write_i8 n | write_u8 n => der_tlv 0x02 [byte_of_Z n]
  | write_oid (a :: b :: arcs) => der_tlv 0x06 (concat (map demo_base128 ((40 * a + b)%Z :: arcs)))
  | write_oid _ => der_tlv 0x06 []
  | write_utf8_string s => der_tlv 0x0C (lit s)
  | write_utctime t => der_tlv 0x17 (be_bytes 8 t)
  | write_bitvec b => der_tlv 0x03 (Byte.x00 :: b)
  | write_bytes b => der_tlv 0x04 b
  | write_biguint n => der_tlv 0x02 (Byte.x00 :: be_bytes 32 n)
  end.

Definition demo_cert_tools : CertTools := {|
  construct_der := demo_der;
  utc_range t := (-631152000 <=? t)%Z && (t <? 2524608000)%Z;
  written_after_4 l := drop 4 (concat (map demo_der l));
  ecdsa_sign_slice data private :=
    Some (mkEcSignature (map Z_of_byte (take 8 private)) (map Z_of_byte (take 8 data)));
  system_time := Some 1600000000%Z
|}.

Lemma demo_cert_laws : @CertLaws demo_cert_tools.
Proof. by split. Qed.

Definition demo_private : bytes := be_bytes 32 12345.
Definition demo_public : EcPublic := mkEcPublic (be_bytes 32 77) (be_bytes 32 78).

Definition demo_generated (payload : bytes) : bytes * bytes :=
  match gen_ecc_cert (T:=demo_cert_tools) (E:=unit) payload demo_private demo_public with
  | Ok p => p
  | _ => ([], [])
  end.

Lemma comment_is_readable_witness :
  get_netscape_comment (demo_generated (lit "AAAAAAAAAAAAAAAAAAAAAAAAAAAAAAAAAAAAAAAAAAA=")).2 =
    Ok (lit "AAAAAAAAAAAAAAAAAAAAAAAAAAAAAAAAAAAAAAAAAAA=") /\
  get_netscape_comment (demo_generated (replicate 200 Byte.x41)).2 <> Ok (replicate 200 Byte.x41).
Proof.
  split.
  - apply (@comment_is_readable demo_cert_tools demo_cert_laws unit _ demo_private demo_public
             (demo_generated (lit "AAAAAAAAAAAAAAAAAAAAAAAAAAAAAAAAAAAAAAAAAAA=")).1);
      [by vm_compute..|left; vm_compute; lia].
  - intros H%(@comment_is_readable demo_cert_tools demo_cert_laws unit _ demo_private demo_public
             (demo_generated (replicate 200 Byte.x41)).1); [|by vm_compute..].
    unfold readable in H. rw length_replicate in H. lia.
Defined.
