(* ===== verification/Report.v ===== *)
(** * Attestation reports: cosmwasm/packages/wasmi-runtime/src/registration/report.rs

    The report Intel's attestation service signs for an enclave: its JSON, the quote inside
    it, and the checks of signature and version ([AttestationReport_from_cert]).  X.509
    verification (crate webpki, with the root certificate) is the class [Webpki], parsing of
    JSON text the class [ReportJson]. *)

From Stdlib Require Import Strings.String.
From stdpp Require Import base tactics list numbers strings ssreflect.
From S2P Require Import Prelude SecretMsg Cert.

Local Open Scope list_scope.

(** ** Errors and results *)

Inductive ReportError : Type := ReportParseError | ReportValidationError.

(** enclave-ffi-types/src/types.rs *)
Inductive NodeAuthResult : Type :=
| NodeSuccess
| NodeGroupOutOfDate
| NodeSignatureInvalid
| NodeSignatureRevoked
| NodeGroupRevoked
| NodeKeyRevoked
| NodeSigrlVersionMismatch
| NodeConfigurationNeeded
| NodeSwHardeningAndConfigurationNeeded
| NodeBadQuoteStatus
| NodeMrEnclaveMismatch
| NodeMrSignerMismatch
| NodeInvalidInput
| NodeInvalidCert
| NodeCantWriteToStorage
| NodeMalformedPublicKey
| NodeSeedEncryptionFailed
| NodeMemorySafetyAllocationError
| NodePanic.

#[export] Instance NodeAuthResult_eq_dec : EqDecision NodeAuthResult.
Proof. solve_decision. Defined.

(** The certificate's comment: Intel's report, its signature and the signing certificate. *)
Record EndorsedAttestationReport : Type := mkEndorsed {
  ear_report : bytes;
  ear_signature : bytes;
  ear_signing_cert : bytes
}.

(** ** Enclave reports *)

Record SgxEnclaveReport : Type := mkEnclaveReport {
  cpu_svn : bytes;
  misc_select : Z;
  attributes : bytes;
  mr_enclave : bytes;
  mr_signer : bytes;
  isv_prod_id : Z;
  isv_svn : Z;
  report_data : bytes
}.

(** [from_le_bytes] of the unsigned integers. *)
Definition from_le_bytes (l : bytes) : Z := from_be_bytes (rev l).

(** The closure [take] of both parsers, over the position it advances. *)
Definition take_n (b : bytes) (n : nat) : M nat ReportError bytes :=
  fun pos =>
    if ((0 <? n) && (pos + n <=? length b))%nat then
      match slice b pos (pos + n) with
      | Ok s => (pos + n, Ok s)
      | Err e => (pos, Err e)
      | Panic => (pos, Panic)
      end
    else (pos, Err ReportParseError).

(** [<[u8; n]>::try_from(take(n)?)?]. *)
Definition take_array (b : bytes) (n : nat) : M nat ReportError bytes :=
  s ← take_n b n;
  if (length s =? n)%nat then mret s else throw ReportParseError.

(** The loop that copies what was taken over an array of zeros. *)
Fixpoint fill_from (slots : bytes) (it : bytes) : result ReportError bytes :=
  match slots, it with
  | [], _ => Ok []
  | _ :: slots', b :: it' => rest ← fill_from slots' it'; Ok (b :: rest)
  | _ :: _, [] => Err ReportParseError
  end.

Definition at_end (b : bytes) : M nat ReportError unit :=
  fun pos => (pos, if (pos =? length b)%nat then Ok tt else Err ReportParseError).

Definition SgxEnclaveReport_fields (b : bytes) : M nat ReportError SgxEnclaveReport :=
  cpu_svn ← take_array b 16;
  misc_select ← take_array b 4;
  _ ← take_n b 28;
  attributes ← take_array b 16;
  mr_enclave ← take_array b 32;
  _ ← take_n b 32;
  mr_signer ← take_array b 32;
  _ ← take_n b 96;
  isv_prod_id ← take_array b 2;
  isv_svn ← take_array b 2;
  _ ← take_n b 60;
  taken ← take_n b 64;
  report_data ← liftR (fill_from (replicate 64 Byte.x00) taken);
  _ ← at_end b;
  mret (mkEnclaveReport cpu_svn (from_le_bytes misc_select) attributes mr_enclave mr_signer
          (from_le_bytes isv_prod_id) (from_le_bytes isv_svn) report_data).

Definition SgxEnclaveReport_parse_from (b : bytes) : result ReportError SgxEnclaveReport :=
  (SgxEnclaveReport_fields b 0).2.

(** ** Quotes *)

Inductive SgxEpidQuoteSigType : Type := Unlinkable | Linkable.
Inductive SgxEcdsaQuoteAkType : Type := P256_256 | P384_384.
Inductive SgxQuoteVersion : Type :=
| V1 (t : SgxEpidQuoteSigType)
| V2 (t : SgxEpidQuoteSigType)
| V3 (t : SgxEcdsaQuoteAkType).

Inductive SgxQuoteStatus : Type :=
| StatusOK
| SignatureInvalid
| GroupRevoked
| SignatureRevoked
| KeyRevoked
| SigrlVersionMismatch
| GroupOutOfDate
| ConfigurationNeeded
| SwHardeningNeeded
| ConfigurationAndSwHardeningNeeded
| OutOfDate
| OutOfDateConfigurationNeeded
| UnknownBadStatus.

Definition NodeAuthResult_from (status : SgxQuoteStatus) : NodeAuthResult :=
  match status with
  | ConfigurationAndSwHardeningNeeded => NodeSwHardeningAndConfigurationNeeded
  | ConfigurationNeeded => NodeConfigurationNeeded
  | GroupOutOfDate => NodeGroupOutOfDate
  | KeyRevoked => NodeKeyRevoked
  | SigrlVersionMismatch => NodeSigrlVersionMismatch
  | SignatureRevoked => NodeSignatureRevoked
  | GroupRevoked => NodeGroupRevoked
  | _ => NodeBadQuoteStatus
  end.

Definition SgxQuoteStatus_from (status : string) : SgxQuoteStatus :=
  if (status =? "OK")%string then StatusOK
  else if (status =? "SIGNATURE_INVALID")%string then SignatureInvalid
  else if (status =? "GROUP_REVOKED")%string then GroupRevoked
  else if (status =? "SIGNATURE_REVOKED")%string then SignatureRevoked
  else if (status =? "KEY_REVOKED")%string then KeyRevoked
  else if (status =? "SIGRL_VERSION_MISMATCH")%string then SigrlVersionMismatch
  else if (status =? "GROUP_OUT_OF_DATE")%string then GroupOutOfDate
  else if (status =? "OUT_OF_DATE")%string then OutOfDate
  else if (status =? "OUT_OF_DATE_CONFIGURATION_NEEDED")%string then OutOfDateConfigurationNeeded
  else if (status =? "CONFIGURATION_NEEDED")%string then ConfigurationNeeded
  else if (status =? "SW_HARDENING_NEEDED")%string then SwHardeningNeeded
  else if (status =? "CONFIGURATION_AND_SW_HARDENING_NEEDED")%string then ConfigurationAndSwHardeningNeeded
  else UnknownBadStatus.

(** [qe_vendor_id] is a [Uuid], which [Uuid::from_slice] makes of any 16 bytes. *)
Record SgxQuote : Type := mkQuote {
  version : SgxQuoteVersion;
  gid : Z;
  isv_svn_qe : Z;
  isv_svn_pce : Z;
  qe_vendor_id : bytes;
  user_data : bytes;
  isv_enclave_report : SgxEnclaveReport
}.

Definition epid_type (t : Z) : result ReportError SgxEpidQuoteSigType :=
  if (t =? 0)%Z then Ok Unlinkable else if (t =? 1)%Z then Ok Linkable else Err ReportParseError.

Definition ecdsa_type (t : Z) : result ReportError SgxEcdsaQuoteAkType :=
  if (t =? 2)%Z then Ok P256_256 else if (t =? 3)%Z then Ok P384_384 else Err ReportParseError.

(** The [match] on the version; each arm takes the two bytes of its type. *)
Definition quote_version (b : bytes) (v : Z) : M nat ReportError SgxQuoteVersion :=
  if (v =? 1)%Z then t ← take_array b 2; t ← liftR (epid_type (from_le_bytes t)); mret (V1 t)
  else if (v =? 2)%Z then t ← take_array b 2; t ← liftR (epid_type (from_le_bytes t)); mret (V2 t)
  else if (v =? 3)%Z then t ← take_array b 2; t ← liftR (ecdsa_type (from_le_bytes t)); mret (V3 t)
  else throw ReportParseError.

Definition SgxQuote_fields (b : bytes) : M nat ReportError SgxQuote :=
  v ← take_array b 2;
  version ← quote_version b (from_le_bytes v);
  gid ← take_array b 4;
  isv_svn_qe ← take_array b 2;
  isv_svn_pce ← take_array b 2;
  qe_vendor_id ← take_array b 16;
  user_data ← take_array b 20;
  body ← take_n b 384;
  isv_enclave_report ← liftR (SgxEnclaveReport_parse_from body);
  _ ← at_end b;
  mret (mkQuote version (from_le_bytes gid) (from_le_bytes isv_svn_qe) (from_le_bytes isv_svn_pce)
          qe_vendor_id user_data isv_enclave_report).

Definition SgxQuote_parse_from (b : bytes) : result ReportError SgxQuote := (SgxQuote_fields b 0).2.

(** ** Advisories *)

Definition WHITELISTED_ADVISORIES : list string := ["INTEL-SA-00334"; "INTEL-SA-00219"]%string.

Definition ADVISORY_DESC (advisory : string) : option string :=
  if (advisory =? "INTEL-SA-00161")%string then Some "You must disable hyperthreading in the BIOS"%string
  else if (advisory =? "INTEL-SA-00289")%string
  then Some "You must disable overclocking/undervolting in the BIOS"%string
  else None.

Definition whitelisted (advisory : string) : bool := bool_decide (advisory ∈ WHITELISTED_ADVISORIES).

Fixpoint vulnerable (advisories : list string) : list string :=
  match advisories with
  | [] => []
  | i :: rest =>
      (if negb (whitelisted i) then i :: match ADVISORY_DESC i with Some v => [v] | None => [] end else [])
      ++ vulnerable rest
  end.

(** ** serde_json, webpki *)

(** [serde_json::Value]; a number that is not an unsigned 64-bit integer is [JNumber None]. *)
Inductive JsonValue : Type :=
| JNull
| JBool (b : bool)
| JNumber (as_u64 : option Z)
| JString (s : string)
| JArray (l : list JsonValue)
| JObject (fields : list (string * JsonValue)).

Class ReportJson : Type := {
  value_from_slice : bytes -> option JsonValue;
  (** The strings of the three fields of an [EndorsedAttestationReport]. *)
  endorsed_from_slice : bytes -> option (bytes * bytes * bytes);
  endorsed_to_string : string -> string -> string -> option bytes
}.

(** [value["key"]], [as_u64], [as_str] and [from_value::<Vec<String>>]. *)
Definition json_index (v : JsonValue) (key : string) : JsonValue :=
  match v with
  | JObject fields =>
      match List.find (fun kv => (kv.1 =? key)%string) fields with Some kv => kv.2 | None => JNull end
  | _ => JNull
  end.
Definition as_u64 (v : JsonValue) : option Z := match v with JNumber n => n | _ => None end.
Definition as_str (v : JsonValue) : option string := match v with JString s => Some s | _ => None end.
Definition as_strings (v : JsonValue) : option (list string) :=
  match v with JArray l => mapM as_str l | _ => None end.

Inductive SignatureAlgorithm : Type :=
| ECDSA_P256_SHA256 | ECDSA_P256_SHA384 | ECDSA_P384_SHA256 | ECDSA_P384_SHA384
| RSA_PSS_2048_8192_SHA256_LEGACY_KEY | RSA_PSS_2048_8192_SHA384_LEGACY_KEY
| RSA_PSS_2048_8192_SHA512_LEGACY_KEY
| RSA_PKCS1_2048_8192_SHA256 | RSA_PKCS1_2048_8192_SHA384 | RSA_PKCS1_2048_8192_SHA512
| RSA_PKCS1_3072_8192_SHA384.

Definition SUPPORTED_SIG_ALGS : list SignatureAlgorithm :=
  [ECDSA_P256_SHA256; ECDSA_P256_SHA384; ECDSA_P384_SHA256; ECDSA_P384_SHA384;
   RSA_PSS_2048_8192_SHA256_LEGACY_KEY; RSA_PSS_2048_8192_SHA384_LEGACY_KEY;
   RSA_PSS_2048_8192_SHA512_LEGACY_KEY;
   RSA_PKCS1_2048_8192_SHA256; RSA_PKCS1_2048_8192_SHA384; RSA_PKCS1_2048_8192_SHA512;
   RSA_PKCS1_3072_8192_SHA384].

Class Webpki : Type := {
  EndEntityCert : Type;
  TrustAnchor : Type;
  end_entity_from : bytes -> option EndEntityCert;
  verify_is_valid_tls_server_cert :
    EndEntityCert -> list SignatureAlgorithm -> list TrustAnchor -> list bytes -> Z -> bool;
  verify_signature (cert : EndEntityCert) (alg : SignatureAlgorithm) (msg signature : bytes) : bool;
  (** [RootCertStore::add_pem_file] and [to_trust_anchor]. *)
  add_pem_file : bytes -> option (list TrustAnchor);
  IAS_REPORT_CA : bytes
}.

Section FromCert.
Context `{C : Codecs} `{J : ReportJson} `{W : Webpki}.

(** cert.rs *)
Definition get_ias_auth_config {E} : result E (bytes * list TrustAnchor) :=
  let ias_ca_stripped :=
    List.filter (fun x => negb (bool_decide (x = Byte.x0d)) && negb (bool_decide (x = Byte.x0a))) IAS_REPORT_CA in
  let head_len := length (lit "-----BEGIN CERTIFICATE-----") in
  let tail_len := length (lit "-----END CERTIFICATE-----") in
  let full_len := length ias_ca_stripped in
  if (full_len <? tail_len)%nat then Panic
  else
    ias_ca_core ← slice ias_ca_stripped head_len (full_len - tail_len);
    ias_cert_dec ← expect (base64_decode ias_ca_core);
    roots ← expect (add_pem_file IAS_REPORT_CA);
    Ok (ias_cert_dec, roots).

(** [as_base64] and [from_base64] on the three fields. *)
Definition endorsed_serialize (r : EndorsedAttestationReport) : option bytes :=
  endorsed_to_string (base64_encode (ear_report r)) (base64_encode (ear_signature r))
    (base64_encode (ear_signing_cert r)).

Definition endorsed_deserialize (payload : bytes) : option EndorsedAttestationReport :=
  '(r, s, c) ← endorsed_from_slice payload;
  r ← base64_decode r; s ← base64_decode s; c ← base64_decode c;
  Some (mkEndorsed r s c).

Record AttestationReport : Type := mkReport {
  sgx_quote_status : SgxQuoteStatus;
  sgx_quote_body : SgxQuote;
  platform_info_blob : option bytes;
  advisroy_ids : list string
}.

(** What is read from the signed JSON text. *)
Definition attestation_of_json (report : bytes) : result ReportError AttestationReport :=
  attn_report ← ok_or ReportParseError (value_from_slice report);
  version ← ok_or ReportParseError (as_u64 (json_index attn_report "version"));
  if negb (version =? 4)%Z then Err ReportParseError
  else
    blob ← match as_str (json_index attn_report "platformInfoBlob") with
           | Some blob => b ← ok_or ReportParseError (hex_decode (lit blob)); Ok (Some b)
           | None => Ok None
           end;
    status ← ok_or ReportParseError (as_str (json_index attn_report "isvEnclaveQuoteStatus"));
    quote_encoded ← ok_or ReportParseError (as_str (json_index attn_report "isvEnclaveQuoteBody"));
    quote_raw ← ok_or ReportParseError (base64_decode (lit quote_encoded));
    body ← SgxQuote_parse_from quote_raw;
    advisories ← ok_or ReportParseError (as_strings (json_index attn_report "advisoryIDs"));
    Ok (mkReport (SgxQuoteStatus_from status) body blob advisories).

Definition AttestationReport_from_cert (cert : bytes) : result ReportError AttestationReport :=
  payload ← map_err (fun _ => ReportParseError) (get_netscape_comment cert);
  report ← ok_or ReportParseError (endorsed_deserialize payload);
  signing_cert ← ok_or ReportParseError (end_entity_from (ear_signing_cert report));
  '(ias_cert, trust_anchors) ← get_ias_auth_config;
  if negb (verify_is_valid_tls_server_cert signing_cert SUPPORTED_SIG_ALGS trust_anchors [ias_cert] 1699088856)
  then Err ReportValidationError
  else if negb (verify_signature signing_cert RSA_PKCS1_2048_8192_SHA256 (ear_report report) (ear_signature report))
  then Err ReportParseError
  else attestation_of_json (ear_report report).

End FromCert.

(** ** Properties *)

(** The [size] bytes at an offset. *)
Definition field (b : bytes) (off size : nat) : bytes := take size (drop off b).

Lemma take_n_bind {A} b n (f : bytes -> M nat ReportError A) pos :
  0 < n ->
  (take_n b n ≫= f) pos =
    if (pos + n <=? length b)%nat then f (field b pos n) (pos + n) else (pos, Err ReportParseError).
Proof.
  intros Hn. cbv [mbind M_bind take_n]. rw (proj2 (Nat.ltb_lt _ _) Hn). cbn [andb].
  destruct (Nat.leb_spec (pos + n) (length b)); [|done].
  rw slice_ok; [|lia]. unfold field. by rw Nat.add_comm Nat.add_sub.
Qed.

Lemma take_array_bind {A} b n (f : bytes -> M nat ReportError A) pos :
  0 < n ->
  (take_array b n ≫= f) pos =
    if (pos + n <=? length b)%nat then f (field b pos n) (pos + n) else (pos, Err ReportParseError).
Proof.
  intros Hn. unfold take_array. cbv [mbind M_bind].
  pose proof (take_n_bind b n (fun s => if (length s =? n)%nat then mret s else throw ReportParseError) pos Hn) as Ht.
  cbv [mbind M_bind] in Ht. rw Ht. destruct (Nat.leb_spec (pos + n) (length b)); [|done].
  unfold field. rw length_take_le; [|rw length_drop; lia]. by rw Nat.eqb_refl.
Qed.

Lemma fill_from_all slots it : length slots = length it -> fill_from slots it = Ok it.
Proof.
  revert it. induction slots as [|s slots IH]; intros [|b it]; try done.
  intros [= Hl]. cbn [fill_from mbind result_bind]. by rw IH.
Qed.

Lemma field_length b off size : off + size <= length b -> length (field b off size) = size.
Proof. intros. unfold field. rw length_take_le // length_drop. lia. Qed.


Definition enclave_report_at (b : bytes) (off : nat) : SgxEnclaveReport :=
  mkEnclaveReport (field b off 16) (from_le_bytes (field b (off + 16) 4)) (field b (off + 48) 16)
    (field b (off + 64) 32) (field b (off + 128) 32) (from_le_bytes (field b (off + 256) 2))
    (from_le_bytes (field b (off + 258) 2)) (field b (off + 320) 64).

Lemma field_field b off size off' size' :
  off' + size' <= size -> field (field b off size) off' size' = field b (off + off') size'.
Proof. intros. unfold field. rw skipn_firstn_comm take_take drop_drop. f_equal. lia. Qed.

(** Rewriting a parser into nested tests of the length. *)
Ltac parse_steps :=
  repeat first [ rw take_array_bind; [|lia] | rw take_n_bind; [|lia] ]; cbn [Nat.add].

(** The parser of enclave reports reads 384 bytes, each field at its documented offset. *)
Lemma enclave_report_parsed b :
  SgxEnclaveReport_parse_from b =
    if (length b =? 384)%nat then Ok (enclave_report_at b 0) else Err ReportParseError.
Proof.
  unfold SgxEnclaveReport_parse_from, SgxEnclaveReport_fields. parse_steps.
  destruct (Nat.leb_spec 384 (length b)) as [Hl|Hl].
  - cbv [mbind M_bind liftR at_end]. rw fill_from_all; [|by rw field_length; [|lia]].
    rw (Nat.eqb_sym 384) !(proj2 (Nat.leb_le _ (length b))); [|lia..].
    by destruct (Nat.eqb_spec (length b) 384).
  - rw (proj2 (Nat.eqb_neq _ _)); [|lia]. by repeat case_match.
Qed.

Definition quote_version_at (b : bytes) : result ReportError SgxQuoteVersion :=
  let v := from_le_bytes (field b 0 2) in
  let t := from_le_bytes (field b 2 2) in
  if (v =? 1)%Z then t ← epid_type t; Ok (V1 t)
  else if (v =? 2)%Z then t ← epid_type t; Ok (V2 t)
  else if (v =? 3)%Z then t ← ecdsa_type t; Ok (V3 t)
  else Err ReportParseError.

Lemma quote_version_total b : (exists v, quote_version_at b = Ok v) \/ quote_version_at b = Err ReportParseError.
Proof.
  unfold quote_version_at, epid_type, ecdsa_type.
  repeat match goal with |- context [if (?v =? ?c)%Z then _ else _] => destruct (v =? c)%Z end; eauto.
Qed.

Lemma quote_version_bind {A} b (f : SgxQuoteVersion -> M nat ReportError A) :
  ((quote_version b (from_le_bytes (field b 0 2)) ≫= f) 2).2 =
    if (4 <=? length b)%nat
    then match quote_version_at b with Ok v => (f v 4).2 | Err e => Err e | Panic => Panic end
    else Err ReportParseError.
Proof.
  unfold quote_version, quote_version_at.
  assert (forall {B} (k : bytes -> M nat ReportError B), (take_array b 2 ≫= k) 2 =
    if (4 <=? length b)%nat then k (field b 2 2) 4 else (2, Err ReportParseError)) as Ht.
  { intros. rw take_array_bind //. lia. }
  destruct (4 <=? length b)%nat;
    repeat match goal with |- context [if (?v =? _)%Z then _ else _] => destruct (v =? _)%Z end;
    cbv [mbind M_bind] in *; rw ?Ht; cbv [liftR result_bind]; try done;
    by destruct (epid_type _) || destruct (ecdsa_type _).
Qed.

Lemma at_end_ret {A} b (a : A) : ((at_end b ≫= fun _ => mret a) 432).2 =
  if (length b =? 432)%nat then Ok a else Err ReportParseError.
Proof. cbv [mbind M_bind at_end]. rw Nat.eqb_sym. by destruct (_ =? _)%nat. Qed.

(** The parser of quotes, as a test of the length and reads at fixed offsets. *)
Lemma quote_parsed b :
  SgxQuote_parse_from b =
    if (length b =? 432)%nat then
      v ← quote_version_at b;
      Ok (mkQuote v (from_le_bytes (field b 4 4)) (from_le_bytes (field b 8 2)) (from_le_bytes (field b 10 2))
            (field b 12 16) (field b 28 20)
            (mkEnclaveReport (field b 48 16) (from_le_bytes (field b 64 4)) (field b 96 16)
               (field b 112 32) (field b 176 32) (from_le_bytes (field b 304 2))
               (from_le_bytes (field b 306 2)) (field b 368 64)))
    else Err ReportParseError.
Proof.
  unfold SgxQuote_parse_from, SgxQuote_fields. rw take_array_bind; [|lia]. cbn [Nat.add].
  destruct (Nat.leb_spec 2 (length b)); [|by rw (proj2 (Nat.eqb_neq _ _)); [|lia]].
  rw quote_version_bind.
  destruct (Nat.leb_spec 4 (length b)); [|by rw (proj2 (Nat.eqb_neq _ _)); [|lia]].
  destruct (quote_version_total b) as [[v ->]| ->]; cbn [mbind result_bind]; [|by destruct (_ =? _)%nat].
  parse_steps. destruct (Nat.leb_spec 432 (length b)) as [Hl|Hl].
  - rw !(proj2 (Nat.leb_le _ (length b))); [|lia..]. cbv [mbind M_bind liftR].
    rw enclave_report_parsed field_length; [|lia]. cbn [Nat.eqb].
    pose proof (@at_end_ret SgxQuote b) as He. cbv [mbind M_bind] in He. rw He.
    unfold enclave_report_at. rw !field_field; [|lia..]. done.
  - rw (proj2 (Nat.eqb_neq _ _)); [|lia]. by repeat case_match.
Qed.

(** C31: Parsing a quote is exactly reading the fields of the documented layout: it succeeds on
    432 bytes whose version and type are known, and on nothing else; the body is read at the
    offsets the comments give (measurement of the enclave at 112, of its signer at 176, the
    data it chose at 368), and no input makes it panic. *)
Theorem quote_layout b :
  SgxQuote_parse_from b =
    if (length b =? 432)%nat then
      v ← quote_version_at b;
      Ok (mkQuote v (from_le_bytes (field b 4 4)) (from_le_bytes (field b 8 2)) (from_le_bytes (field b 10 2))
            (field b 12 16) (field b 28 20)
            (mkEnclaveReport (field b 48 16) (from_le_bytes (field b 64 4)) (field b 96 16)
               (field b 112 32) (field b 176 32) (from_le_bytes (field b 304 2))
               (from_le_bytes (field b 306 2)) (field b 368 64)))
    else Err ReportParseError.
Proof. apply quote_parsed. Qed.

(** Nothing is reported as vulnerable exactly when every advisory is on the list of allowed ones. *)
Lemma vulnerable_nil advisories :
  vulnerable advisories = [] <-> Forall (fun a => a ∈ WHITELISTED_ADVISORIES) advisories.
Proof.
  induction advisories as [|a l IH]; [done|]. cbn [vulnerable]. unfold whitelisted.
  case_bool_decide as Ha; cbn [negb app]; split.
  - intros Hl%IH. by constructor.
  - intros [_ Hl]%Forall_cons. by apply IH.
  - done.
  - by intros [? _]%Forall_cons.
Qed.

Class ReportJsonLaws `{ReportJson} : Prop := {
  endorsed_roundtrip r s c text :
    endorsed_to_string r s c = Some text -> endorsed_from_slice text = Some (lit r, lit s, lit c)
}.

Section FromCertFacts.
Context `{C : Codecs} `{J : ReportJson} `{W : Webpki}.

(** A report written into a certificate's comment is read back. *)
Lemma endorsed_report_roundtrip {HC : CodecLaws} {HJ : ReportJsonLaws} r text :
  endorsed_serialize r = Some text -> endorsed_deserialize text = Some r.
Proof.
  unfold endorsed_serialize, endorsed_deserialize. intros H%endorsed_roundtrip. rw H.
  cbn [mbind option_bind]. rw !base64_roundtrip. by destruct r.
Qed.

(** A report that was accepted is signed under Intel's root, and is what the signed text says. *)
Definition signed_by_intel (r : EndorsedAttestationReport) : Prop :=
  exists signing_cert ias_cert trust_anchors,
    end_entity_from (ear_signing_cert r) = Some signing_cert /\
    get_ias_auth_config (E:=ReportError) = Ok (ias_cert, trust_anchors) /\
    verify_is_valid_tls_server_cert signing_cert SUPPORTED_SIG_ALGS trust_anchors [ias_cert] 1699088856 = true /\
    verify_signature signing_cert RSA_PKCS1_2048_8192_SHA256 (ear_report r) (ear_signature r) = true.

Lemma from_cert_Ok cert a :
  AttestationReport_from_cert cert = Ok a ->
  exists payload r, get_netscape_comment cert = Ok payload /\ endorsed_deserialize payload = Some r /\
    signed_by_intel r /\ attestation_of_json (ear_report r) = Ok a.
Proof.
  unfold AttestationReport_from_cert. intros H.
  destruct (get_netscape_comment cert) as [payload| |]; [|done..]. cbn [map_err mbind result_bind] in H.
  destruct (endorsed_deserialize payload) as [r|] eqn:Hr; [|done]. cbn [ok_or mbind result_bind] in H.
  destruct (end_entity_from _) as [sc|] eqn:Hs; [|done]. cbn [ok_or mbind result_bind] in H.
  destruct get_ias_auth_config as [[ic ta]| |] eqn:Hi; [|done..]. cbn [mbind result_bind] in H.
  destruct (verify_is_valid_tls_server_cert _ _ _ _ _) eqn:Hv; [|done].
  destruct (verify_signature _ _ _ _) eqn:Hg; [|done].
  exists payload, r. split_and!; [done..| |done]. by exists sc, ic, ta.
Qed.

(** What was read: API version 4, and the quote at its place in the text. *)
Lemma attestation_of_json_Ok report a :
  attestation_of_json report = Ok a ->
  exists v status encoded raw,
    value_from_slice report = Some v /\ as_u64 (json_index v "version") = Some 4%Z /\
    as_str (json_index v "isvEnclaveQuoteStatus") = Some status /\
    sgx_quote_status a = SgxQuoteStatus_from status /\
    as_str (json_index v "isvEnclaveQuoteBody") = Some encoded /\
    base64_decode (lit encoded) = Some raw /\ SgxQuote_parse_from raw = Ok (sgx_quote_body a) /\
    as_strings (json_index v "advisoryIDs") = Some (advisroy_ids a).
Proof.
  unfold attestation_of_json. destruct (value_from_slice report) as [v|]; [|done]. cbn [ok_or mbind result_bind].
  destruct (as_u64 _) as [n|] eqn:Hn; [|done]. cbn [ok_or mbind result_bind].
  destruct (Z.eqb_spec n 4) as [->|]; [|done]. cbn [negb]. intros H.
  destruct (match as_str _ with Some _ => _ | None => _ end) as [blob| |]; [|done..].
  destruct (as_str (json_index v "isvEnclaveQuoteStatus")) as [st|] eqn:Hst; [|done]. cbn [ok_or mbind result_bind] in H.
  destruct (as_str (json_index v "isvEnclaveQuoteBody")) as [enc|] eqn:Henc; [|done]. cbn [ok_or mbind result_bind] in H.
  destruct (base64_decode (lit enc)) as [raw|] eqn:Hraw; [|done]. cbn [ok_or mbind result_bind] in H.
  destruct (SgxQuote_parse_from raw) as [q| |] eqn:Hq; [|done..]. cbn [ok_or mbind result_bind] in H.
  destruct (as_strings _) as [adv|] eqn:Ha; [|done]. simplify_eq H. intros <-.
  exists v, st, enc, raw. by split_and!.
Qed.

(** Intel's service lists advisories only for platforms that have some.  A report whose text
    has no such list is refused, although a status of "OK" needs none. *)
Lemma report_without_advisories_is_rejected report v :
  value_from_slice report = Some v -> json_index v "advisoryIDs" = JNull ->
  forall a, attestation_of_json report <> Ok a.
Proof.
  intros Hv Hn a H. apply attestation_of_json_Ok in H as (v' & ? & ? & ? & Hv' & _ & _ & _ & _ & _ & _ & Ha).
  rw Hv in Hv'. simplify_eq Hv'. intros <-. by rw Hn in Ha.
Qed.

End FromCertFacts.

(** The quote of the repository's own test, with what the test expects of it. *)
Definition test_quote : bytes :=
  be_bytes 36 0x020001002f0b00000a00090000000000ad73450388a677623f82219675b6024c00000000 ++
  be_bytes 36 0x000000000000000000000000050e0205ff80000000000000000000000000000000000000 ++
  be_bytes 36 0x000000000000000000000000000000000000000000000000070000000000000007000000 ++
  be_bytes 36 0x00000000330aa910a3776780e20026ae3dac07af0e5a931f84f1f8307dbb85902f586953 ++
  be_bytes 36 0x000000000000000000000000000000000000000000000000000000000000000083d719e7 ++
  be_bytes 36 0x7deaca1470f6baf62a4d774303c899db69020f9c70ee1dfc08c7ce9e0000000000000000 ++
  be_bytes 36 0x000000000000000000000000000000000000000000000000000000000000000000000000 ++
  be_bytes 36 0x000000000000000000000000000000000000000000000000000000000000000000000000 ++
  be_bytes 36 0x000000000000000000000000000000000000000000000000000000000000000000000000 ++
  be_bytes 36 0x000000000000000000000000000000000000000000000000000000000000000000000000 ++
  be_bytes 36 0x0000000000000000d8218f64d0c56609d20352e14b7ffd9b1881c07cf8cef67bc2edf833 ++
  be_bytes 36 0xad079d780dd65b8745788ea87be4422dd5775d80f59fa9446632133b33cf2d60f1ba51b3.

Example test_sgx_quote_parse_from :
  match SgxQuote_parse_from test_quote with
  | Ok q => version q = V2 Linkable /\ gid q = 2863%Z /\ isv_svn_qe q = 10%Z /\ isv_svn_pce q = 9%Z /\
      user_data q = map byte_of_Z [117; 182; 2; 76; 0; 0; 0; 0; 0; 0; 0; 0; 0; 0; 0; 0; 0; 0; 0; 0]%Z /\
      mr_signer (isv_enclave_report q) =
        map byte_of_Z [131; 215; 25; 231; 125; 234; 202; 20; 112; 246; 186; 246; 42; 77; 119; 67; 3; 200;
                       153; 219; 105; 2; 15; 156; 112; 238; 29; 252; 8; 199; 206; 158]%Z
  | _ => False
  end.
Proof. vm_compute. repeat split. Qed.
