(* ===== verification/Attestation.v ===== *)
(** * Attesting a node's key: registration/attestation.rs and registration/hex.rs

    Under cosmwasm/packages/wasmi-runtime/src: how an enclave obtains a quote for its key, has
    Intel's attestation service sign it, and puts the result into a certificate; in software
    mode the certificate carries the bare key.  The SGX instructions and the ocalls to the
    quoting enclave are the class [Quoting]; the TLS connection and the HTTP parser are the
    class [IasConnection].  Rust strings are their UTF-8 bytes. *)

From Stdlib Require Import Strings.String.
From stdpp Require Import base tactics list numbers strings ssreflect.
From S2P Require Import Prelude Utf8 Crypto SecretMsg Cert Report.

Import Text.
Local Open Scope list_scope.

(** [sgx_status_t]. *)
Definition SGX_SUCCESS : Z := 0.
Definition SGX_ERROR_UNEXPECTED : Z := 1.

(** ** hex.rs *)

Definition is_between (lo hi b : byte) : bool := Text.between (Z_of_byte lo) (Z_of_byte hi) b.

Definition decode_hex_digit {E} (digit : byte) : result E Z :=
  if is_between Byte.x30 Byte.x39 digit then Ok (Z_of_byte digit - 0x30)%Z
  else if is_between Byte.x61 Byte.x66 digit then Ok (Z_of_byte digit - 0x61 + 10)%Z
  else if is_between Byte.x41 Byte.x46 digit then Ok (Z_of_byte digit - 0x41 + 10)%Z
  else Panic.

(** Blanks are skipped where a first digit is expected. *)
Fixpoint decode_hex {E} (hex : bytes) : result E bytes :=
  match hex with
  | [] => Ok []
  | first :: rest =>
      if bool_decide (first = Byte.x20) then decode_hex rest
      else match rest with
      | [] => Panic
      | second :: rest' =>
          hi ← decode_hex_digit first;
          lo ← decode_hex_digit second;
          r ← decode_hex rest';
          Ok (byte_of_Z (Z.lor (Z.shiftl hi 4) lo) :: r)
      end
  end.

(** A text that is too short gives the zero identifier. *)
Definition decode_spid {E} (hex : bytes) : result E bytes :=
  let hex := trim hex in
  if (length hex <? 16 * 2)%nat then Ok (replicate 16 Byte.x00)
  else decoded_vec ← decode_hex hex; slice decoded_vec 0 16.

(** [char::from_digit(digit, 16)]. *)
Definition encode_hex_digit {E} (digit : Z) : result E byte :=
  if (digit <? 10)%Z then Ok (byte_of_Z (0x30 + digit))
  else if (digit <? 16)%Z then Ok (byte_of_Z (0x61 + digit - 10))
  else Panic.

Definition encode_hex_byte {E} (b : byte) : result E bytes :=
  hi ← encode_hex_digit (Z.shiftr (Z_of_byte b) 4);
  lo ← encode_hex_digit (Z.land (Z_of_byte b) 0x0F);
  Ok [hi; lo].

(** [strs.join(" ")]. *)
Fixpoint join_blank (strs : list bytes) : bytes :=
  match strs with
  | [] => []
  | [s] => s
  | s :: strs' => s ++ Byte.x20 :: join_blank strs'
  end.

Definition encode_hex {E} (b : bytes) : result E bytes := join_blank <$> mapR encode_hex_byte b.

(** [str::split] with a non-empty pattern; [skip] bytes of a match are still to be passed. *)
Fixpoint split_str (sep : bytes) (skip : nat) (acc l : bytes) : list bytes :=
  match l with
  | [] => [rev acc]
  | b :: l' =>
      match skip with
      | S skip' => split_str sep skip' acc l'
      | O => if bool_decide (take (length sep) l = sep)
             then rev acc :: split_str sep (length sep - 1) [] l'
             else split_str sep 0 (b :: acc) l'
      end
  end.

Definition split_by (sep l : bytes) : list bytes := split_str sep 0 [] l.

(** [str::replace] of a non-empty pattern by nothing. *)
Definition remove_all (pat l : bytes) : bytes := concat (split_by pat l).

(** [String::push] of a character below 256. *)
Definition push_char (c : Z) : bytes :=
  if (c <? 128)%Z then [byte_of_Z c]
  else [byte_of_Z (Z.lor 0xC0 (Z.shiftr c 6)); byte_of_Z (Z.lor 0x80 (Z.land c 0x3F))].

(** [u8::from_str_radix(&s[0..2], 16).unwrap()], which also reads a plus sign. *)
Definition radix16 {E} (a b : byte) : result E Z :=
  if bool_decide (a = Byte.x2b) then decode_hex_digit b
  else hi ← decode_hex_digit a; lo ← decode_hex_digit b; Ok (hi * 16 + lo)%Z.

Definition percent_part {E} (s : bytes) : result E bytes :=
  match s with
  | a :: b :: rest => c ← radix16 a b; Ok (push_char c ++ rest)
  | _ => Panic
  end.

Definition percent_decode {E} (orig : bytes) : result E bytes :=
  match split_by [Byte.x25] orig with
  | [] => Panic
  | v0 :: v => parts ← mapR percent_part v; Ok (v0 ++ concat parts)
  end.

(** ** Talking to Intel's service *)

(** What [httparse::Response::parse] makes of a response: its result ([None] an error, [Some
    None] a partial response), the status code and the headers. *)
Record HttpResponse : Type := mkHttp {
  parse_result : option (option nat);
  http_code : option Z;
  http_headers : list (string * bytes)
}.

Class IasConnection : Type := {
  http_parse : bytes -> HttpResponse;
  (** A TLS session over a socket: the whole answer to a request, if there is one. *)
  tls_exchange : Z -> bytes -> option bytes;
  (** Whether the logger evaluates the arguments of [warn!]. *)
  warn_enabled : bool
}.

(** The features the enclave is built with. *)
Class Features : Type := {
  sgx_mode_hw : bool;
  production : bool;
  test_feature : bool
}.

(** [String::from_utf8(..).unwrap()]. *)
Definition utf8_unwrap {E} (b : bytes) : result E bytes := if from_utf8 b then Ok b else Panic.

Definition dec_digit (acc : option Z) (b : byte) : option Z :=
  a ← acc;
  if is_between Byte.x30 Byte.x39 b then checked U32_MAX (a * 10 + (Z_of_byte b - 0x30))%Z else None.

(** [str::parse::<u32>]. *)
Definition parse_u32 (s : bytes) : option Z :=
  match s with
  | [] => None
  | b :: rest =>
      if bool_decide (b = Byte.x2b)
      then match rest with [] => None | _ => foldl dec_digit (Some 0%Z) rest end
      else foldl dec_digit (Some 0%Z) s
  end.

(** The body of a response, after [result.unwrap().unwrap()]. *)
Definition response_body {E} (r : HttpResponse) (resp : bytes) : result E bytes :=
  parsed ← expect (parse_result r);
  header_len ← expect parsed;
  body ← slice resp header_len (length resp);
  utf8_unwrap body.

Section Ias.
Context `{C : Codecs} `{I : IasConnection} `{Ft : Features}.

Fixpoint sigrl_length {E} (headers : list (string * bytes)) (len_num : Z) : result E Z :=
  match headers with
  | [] => Ok len_num
  | (name, value) :: headers' =>
      if (name =? "content-length")%string then
        len_str ← utf8_unwrap value;
        n ← expect (parse_u32 len_str);
        sigrl_length headers' n
      else sigrl_length headers' len_num
  end.

Definition parse_response_sigrl {E} (resp : bytes) : result E bytes :=
  let respp := http_parse resp in
  len_num ← sigrl_length (http_headers respp) 0;
  if negb (len_num =? 0)%Z then
    resp_body ← response_body respp resp;
    expect (base64_decode resp_body)
  else Ok [].

(** The loop over the headers: content length, signature and certificate. *)
Fixpoint report_headers {E} (headers : list (string * bytes)) (len_num : Z) (sig cert : bytes)
  : result E (Z * bytes * bytes) :=
  match headers with
  | [] => Ok (len_num, sig, cert)
  | (name, value) :: headers' =>
      if (name =? "Content-Length")%string then
        len_str ← utf8_unwrap value;
        n ← expect (parse_u32 len_str);
        report_headers headers' n sig cert
      else if (name =? "X-IASReport-Signature")%string then
        v ← utf8_unwrap value; report_headers headers' len_num v cert
      else if (name =? "X-IASReport-Signing-Certificate")%string then
        v ← utf8_unwrap value; report_headers headers' len_num sig v
      else report_headers headers' len_num sig cert
  end.

(** The log message for the status code; the last arm unwraps the code to print it. *)
Definition log_code {E} (code : option Z) : result E unit :=
  match code with
  | None => if warn_enabled then Panic else Ok tt
  | Some _ => Ok tt
  end.

Definition parse_response_attn_report {E} (resp : bytes) : result E (bytes * bytes * bytes) :=
  let respp := http_parse resp in
  _ ← log_code (http_code respp);
  '(len_num, sig, cert) ← report_headers (http_headers respp) 0 [] [];
  cert ← percent_decode (remove_all (lit "%0A") cert);
  sig_cert ← expect (split_by (lit "-----") cert !! 2);
  attn_report ← (if negb (len_num =? 0)%Z then response_body respp resp else Ok []);
  sig_bytes ← expect (base64_decode sig);
  sig_cert_bytes ← expect (base64_decode sig_cert);
  Ok (attn_report, sig_bytes, sig_cert_bytes).

Definition DEV_HOSTNAME : bytes := lit "api.trustedservices.intel.com".
Definition SIGRL_SUFFIX : bytes :=
  if production then lit "/sgx/attestation/v4/sigrl/" else lit "/sgx/dev/attestation/v4/sigrl/".
Definition REPORT_SUFFIX : bytes :=
  if production then lit "/sgx/attestation/v4/report" else lit "/sgx/dev/attestation/v4/report".

Definition crlf : bytes := [Byte.x0d; Byte.x0a].

(** [{:08x}] of a 32-bit number. *)
Fixpoint hex_digits (w : nat) (n : Z) : bytes :=
  match w with
  | O => []
  | S w' =>
      let d := (n mod 16)%Z in
      hex_digits w' (n / 16) ++ [byte_of_Z (if d <? 10 then 0x30 + d else 0x61 + d - 10)%Z]
  end.

Definition trim_end (l : bytes) : bytes :=
  rev (trim_front space1 (fun b a => space2 a b) (fun c b a => space3 a b c) (rev l)).

(** [{}] of a length. *)
Fixpoint decimal_digits (fuel : nat) (n : nat) : bytes :=
  match fuel with
  | O => []
  | S fuel' =>
      (if (n <? 10)%nat then [] else decimal_digits fuel' (n / 10)) ++ [byte_of_Z (0x30 + Z.of_nat (n mod 10))]
  end.

Definition ias_key (api_key_file : bytes) : bytes := trim_end (from_utf8_lossy api_key_file).

Definition get_sigrl_from_intel {E} (fd gid : Z) (api_key_file : bytes) : result E bytes :=
  let req := lit "GET " ++ SIGRL_SUFFIX ++ hex_digits 8 gid ++ lit " HTTP/1.1" ++ crlf ++
             lit "HOST: " ++ DEV_HOSTNAME ++ crlf ++
             lit "Ocp-Apim-Subscription-Key: " ++ ias_key api_key_file ++ crlf ++
             lit "Connection: Close" ++ crlf ++ crlf in
  plaintext ← expect (tls_exchange fd req);
  _ ← utf8_unwrap plaintext;
  parse_response_sigrl plaintext.

(** The request for a report on a quote. *)
Definition report_request (quote api_key_file : bytes) : bytes :=
  let q := [Byte.x22] in
  let encoded_json := lit "{" ++ q ++ lit "isvEnclaveQuote" ++ q ++ lit ":" ++ q ++
                      lit (base64_encode quote) ++ q ++ lit "}" ++ crlf in
  lit "POST " ++ REPORT_SUFFIX ++ lit " HTTP/1.1" ++ crlf ++ lit "HOST: " ++ DEV_HOSTNAME ++ crlf ++
  lit "Ocp-Apim-Subscription-Key:" ++ ias_key api_key_file ++ crlf ++
  lit "Content-Length:" ++ decimal_digits 20 (length encoded_json) ++ crlf ++
  lit "Content-Type: application/json" ++ crlf ++ lit "Connection: close" ++ crlf ++ crlf ++ encoded_json.

Definition get_report_from_intel {E} (fd : Z) (quote api_key_file : bytes) : result E (bytes * bytes * bytes) :=
  plaintext ← expect (tls_exchange fd (report_request quote api_key_file));
  _ ← utf8_unwrap plaintext;
  parse_response_attn_report plaintext.

End Ias.

(** ** Quotes *)

Record TargetInfo : Type := mkTarget { ti_mr_enclave : bytes; ti_flags : Z; ti_xfrm : Z }.

(** The body of an [sgx_report_t]. *)
Record SgxReport : Type := mkSgxReport {
  r_mr_enclave : bytes;
  r_mr_signer : bytes;
  r_flags : Z;
  r_xfrm : Z;
  r_report_data : bytes
}.

Inductive QuoteSignType : Type := SGX_UNLINKABLE_SIGNATURE | SGX_LINKABLE_SIGNATURE.

(** What [ocall_get_quote] fills in. *)
Record QuoteAnswer : Type := mkQuoteAnswer { qe_report : SgxReport; quote_buf : bytes; quote_len : nat }.

(** Each ocall gives the status of the call, the status the host returns, and what the host
    wrote; the host is not trusted with any of them. *)
Class Quoting : Type := {
  ocall_sgx_init_quote : Z * Z * TargetInfo * bytes;
  ocall_get_ias_socket : nat -> Z * Z * Z;
  ocall_get_quote (sigrl : option bytes) (report : SgxReport) (sign_type : QuoteSignType)
    (spid nonce : bytes) : Z * Z * QuoteAnswer;
  (** Instructions of the processor. *)
  rsgx_create_report : TargetInfo -> bytes -> result Z SgxReport;
  rsgx_verify_report : SgxReport -> result Z unit;
  quote_nonce : bytes;
  (** [SgxEccHandle::create_key_pair]. *)
  create_key_pair : option (bytes * EcPublic)
}.

(** The two status checks after every ocall. *)
Definition ocall_status (res rt : Z) : result Z unit :=
  if negb (res =? SGX_SUCCESS)%Z then Err res
  else if negb (rt =? SGX_SUCCESS)%Z then Err rt else Ok tt.

Definition RET_QUOTE_BUF_LEN : nat := 2048.
Definition REPORT_DATA_SIZE : nat := 32.

(** The buffer of zeros, after the quoting enclave wrote its quote to it. *)
Definition return_quote_buf (answer : QuoteAnswer) : bytes :=
  take RET_QUOTE_BUF_LEN (quote_buf answer ++ replicate RET_QUOTE_BUF_LEN Byte.x00).

Definition as_u32_le (array : bytes) : Z :=
  match map Z_of_byte array with
  | [a; b; c; d] => (a + Z.shiftl b 8 + Z.shiftl c 16 + Z.shiftl d 24)%Z
  | _ => 0
  end.

Section Attest.
Context `{P : Primitives} `{C : Codecs} `{J : ReportJson} `{I : IasConnection} `{Ft : Features}.
Context `{Q : Quoting} `{T : CertTools}.

Definition get_mr_enclave : result Z bytes :=
  let '(res, rt, ti, _) := ocall_sgx_init_quote in
  _ ← ocall_status res rt;
  match rsgx_create_report ti (replicate 64 Byte.x00) with
  | Ok r => Ok (r_mr_enclave r)
  | Err _ => Err SGX_ERROR_UNEXPECTED
  | Panic => Panic
  end.

(** The checks on the report of the quoting enclave: genuine, from this platform, and for
    this nonce and quote. *)
Definition check_qe_report (ti : TargetInfo) (answer : QuoteAnswer) : result Z bytes :=
  let qe := qe_report answer in
  _ ← rsgx_verify_report qe;
  if negb (bytes_eqb (ti_mr_enclave ti) (r_mr_enclave qe) && (ti_flags ti =? r_flags qe)%Z
           && (ti_xfrm ti =? r_xfrm qe)%Z)
  then Err SGX_ERROR_UNEXPECTED
  else
    quote ← slice (return_quote_buf answer) 0 (quote_len answer);
    lhs_hash ← slice (r_report_data qe) 0 REPORT_DATA_SIZE;
    if negb (bytes_eqb (digest_sha256 (quote_nonce ++ quote)) lhs_hash)
    then Err SGX_ERROR_UNEXPECTED
    else Ok quote.

Definition create_attestation_report (pub_k : bytes) (sign_type : QuoteSignType) (spid_file api_key_file : bytes)
  : result Z EndorsedAttestationReport :=
  let '(res, rt, ti, eg) := ocall_sgx_init_quote in
  _ ← ocall_status res rt;
  let eg_num := as_u32_le eg in
  let '(res, rt, ias_sock) := ocall_get_ias_socket 0 in
  _ ← ocall_status res rt;
  sigrl_vec ← get_sigrl_from_intel ias_sock eg_num api_key_file;
  rep ← map_err (fun _ => SGX_ERROR_UNEXPECTED) (rsgx_create_report ti (pub_k ++ replicate 32 Byte.x00));
  spid ← decode_spid (from_utf8_lossy spid_file);
  let sigrl := match sigrl_vec with [] => None | _ => Some sigrl_vec end in
  let '(res, rt, answer) := ocall_get_quote sigrl rep sign_type spid quote_nonce in
  _ ← ocall_status res rt;
  quote_vec ← check_qe_report ti answer;
  let '(res, rt, ias_sock) := ocall_get_ias_socket 1 in
  _ ← ocall_status res rt;
  '(attn_report, signature, signing_cert) ← get_report_from_intel ias_sock quote_vec api_key_file;
  Ok (mkEndorsed attn_report signature signing_cert).

(** ** Certificates *)

(** In software mode the certificate carries the key alone. *)
Definition create_attestation_certificate_sw (kp : KeyPair) : result Z (bytes * bytes) :=
  '(prv_k, pub_k) ← expect create_key_pair;
  gen_ecc_cert (lit (base64_encode (public_key kp))) prv_k pub_k.

Definition create_attestation_certificate_hw (kp : KeyPair) (sign_type : QuoteSignType) (spid api_key : bytes)
  : result Z (bytes * bytes) :=
  '(prv_k, pub_k) ← expect create_key_pair;
  signed_report ← create_attestation_report (public_key kp) sign_type spid api_key;
  payload ← ok_or SGX_ERROR_UNEXPECTED (endorsed_serialize signed_report);
  gen_ecc_cert payload prv_k pub_k.

Definition create_attestation_certificate (kp : KeyPair) (sign_type : QuoteSignType)
    (spid api_key : bytes) : result Z (bytes * bytes) :=
  if sgx_mode_hw then create_attestation_certificate_hw kp sign_type spid api_key
  else create_attestation_certificate_sw kp.

End Attest.

(** ** Properties *)

Lemma hex_digit_roundtrip {E E'} d :
  (0 <= d < 16)%Z ->
  exists c, encode_hex_digit (E:=E) d = Ok c /\ c <> Byte.x20 /\ decode_hex_digit (E:=E') c = Ok d.
Proof.
  intros Hd. assert (d ∈ seqZ 0 16) as Hin by (apply elem_of_seqZ; lia).
  repeat (apply elem_of_cons in Hin as [->|Hin]; [by eexists; vm_compute|]). by apply not_elem_of_nil in Hin.
Qed.

Lemma hex_byte_roundtrip {E E'} b :
  exists h l, encode_hex_byte (E:=E) b = Ok [h; l] /\ h <> Byte.x20 /\
    decode_hex_digit (E:=E') h = Ok (Z.shiftr (Z_of_byte b) 4) /\
    decode_hex_digit (E:=E') l = Ok (Z.land (Z_of_byte b) 0x0F).
Proof.
  pose proof (Z_of_byte_range b) as Hb.
  destruct (@hex_digit_roundtrip E E' (Z.shiftr (Z_of_byte b) 4)) as (h & Hh & ? & ?).
  { rw Z.shiftr_div_pow2 //. split; [apply Z.div_pos|apply Z.div_lt_upper_bound]; lia. }
  destruct (@hex_digit_roundtrip E E' (Z.land (Z_of_byte b) 0x0F)) as (l & Hl & _ & ?).
  { change 0x0F%Z with (Z.ones 4). rw Z.land_ones //. apply Z.mod_pos_bound. lia. }
  exists h, l. unfold encode_hex_byte. rw Hh. cbn [mbind result_bind]. by rw Hl.
Qed.

Lemma nibbles_join b : byte_of_Z (Z.lor (Z.shiftl (Z.shiftr (Z_of_byte b) 4) 4) (Z.land (Z_of_byte b) 0x0F)) = b.
Proof. by destruct b. Qed.

(** Printing bytes in hexadecimal succeeds, and reading them back gives the bytes. *)
Lemma hex_roundtrip_bytes {E E'} b :
  exists hex, encode_hex (E:=E) b = Ok hex /\ decode_hex (E:=E') hex = Ok b.
Proof.
  unfold encode_hex. assert (exists strs, mapR (encode_hex_byte (E:=E)) b = Ok strs /\
    decode_hex (E:=E') (join_blank strs) = Ok b /\ length strs = length b) as (strs & -> & ? & _); [|by eexists].
  induction b as [|x b (strs & Hb & IH & Hlen)]; [by exists []|].
  destruct (@hex_byte_roundtrip E E' x) as (h & l & Hx & Hsp & Hh & Hl).
  exists ([h; l] :: strs). cbn [mapR]. rw Hx. cbn [mbind result_bind]. rw Hb. split; [done|].
  split; [|cbn; lia]. destruct strs as [|s' strs].
  - destruct b; [|done]. cbn [join_blank decode_hex]. rw bool_decide_false // Hh Hl. cbn [mbind result_bind].
    by rw nibbles_join.
  - change (join_blank ([h; l] :: s' :: strs)) with (h :: l :: Byte.x20 :: join_blank (s' :: strs)).
    cbn [decode_hex]. rw bool_decide_false // Hh Hl bool_decide_true // IH. cbn [mbind result_bind].
    by rw nibbles_join.
Qed.

(** ** Header names *)

(** HTTP header names are compared without regard to case; the parser keeps their spelling. *)
Fixpoint lowercase (s : string) : string :=
  match s with
  | EmptyString => EmptyString
  | String c s' =>
      let n := Ascii.nat_of_ascii c in
      String (if ((65 <=? n) && (n <=? 90))%nat then Ascii.ascii_of_nat (n + 32) else c) (lowercase s')
  end.

Definition spells_length (s : string) (r : HttpResponse) : Prop :=
  Forall (fun h => lowercase h.1 = "content-length"%string -> h.1 = s) (http_headers r).

Section IasFacts.
Context `{C : Codecs} `{I : IasConnection}.

Lemma sigrl_length_absent {E} headers n :
  Forall (fun h : string * bytes => h.1 <> "content-length"%string) headers ->
  sigrl_length (E:=E) headers n = Ok n.
Proof.
  induction 1 as [|[name v] headers Hn _ IH]; [done|]. cbn [sigrl_length].
  destruct (String.eqb_spec name "content-length"); [done|]. exact IH.
Qed.

Lemma report_headers_absent {E} headers n sig cert n' sig' cert' :
  Forall (fun h : string * bytes => h.1 <> "Content-Length"%string) headers ->
  report_headers (E:=E) headers n sig cert = Ok (n', sig', cert') -> n' = n.
Proof.
  intros Hf. revert sig cert. induction Hf as [|[name v] headers Hn _ IH]; intros sig cert; cbn [report_headers].
  - by intros [= <- _ _].
  - destruct (String.eqb_spec name "Content-Length"); [done|].
    unfold utf8_unwrap. repeat (destruct (_ =? _)%string; [destruct (from_utf8 v); [|done]; apply IH|]). apply IH.
Qed.

(** The two responses of Intel's service are read with two spellings of the same header,
    [content-length] and [Content-Length]. A service that spells it in one way is never
    understood twice: either every revocation list reads as empty, or every report does. *)
Theorem one_spelling_loses_a_response {E E'} s sigrl_resp report_resp :
  spells_length s (http_parse sigrl_resp) -> spells_length s (http_parse report_resp) ->
  parse_response_sigrl (E:=E) sigrl_resp = Ok [] \/
  forall out, parse_response_attn_report (E:=E') report_resp = Ok out -> out.1.1 = [].
Proof.
  intros H1 H2. destruct (decide (s = "content-length"%string)) as [->|Hs]; [right|left].
  - intros out. unfold parse_response_attn_report. intros H.
    destruct (log_code _); [|done..]. cbn [mbind result_bind] in H.
    destruct (report_headers _ _ _ _) as [[[n sig] cert]| |] eqn:Hr; [|done..]. cbn [mbind result_bind] in H.
    apply report_headers_absent in Hr as ->.
    2: { eapply Forall_impl; [exact H2|]. intros h Hh Hc. rw Hc in Hh. by specialize (Hh eq_refl). }
    destruct (percent_decode _) as [c| |]; [|done..]. cbn [mbind result_bind] in H.
    destruct (split_by _ _ !! 2); [|done]. cbn [Z.eqb negb mbind result_bind expect] in H.
    destruct (base64_decode sig); [|done]. cbn [mbind result_bind expect] in H.
    destruct (base64_decode _); [|done]. cbn [mbind result_bind expect] in H. by injection H as <-.
  - unfold parse_response_sigrl. rw sigrl_length_absent //.
    eapply Forall_impl; [exact H1|]. intros h Hh Hc. rw Hc in Hh. by specialize (Hh eq_refl).
Qed.

End IasFacts.

Section AttestFacts.
Context `{P : Primitives} `{C : Codecs} `{J : ReportJson} `{I : IasConnection} `{Ft : Features}.
Context `{Q : Quoting} `{T : CertTools}.

Lemma ocall_status_Ok res rt : ocall_status res rt = Ok tt -> res = SGX_SUCCESS /\ rt = SGX_SUCCESS.
Proof.
  unfold ocall_status. destruct (Z.eqb_spec res SGX_SUCCESS); [|done].
  by destruct (Z.eqb_spec rt SGX_SUCCESS).
Qed.

(** The quote comes from a quoting enclave on this platform, and answers this request. *)
Definition genuine_quote (ti : TargetInfo) (answer : QuoteAnswer) (quote : bytes) : Prop :=
  rsgx_verify_report (qe_report answer) = Ok tt /\
  r_mr_enclave (qe_report answer) = ti_mr_enclave ti /\
  quote = take (quote_len answer) (return_quote_buf answer) /\
  digest_sha256 (quote_nonce ++ quote) = take 32 (r_report_data (qe_report answer)).

Lemma check_qe_report_Ok ti answer quote :
  check_qe_report ti answer = Ok quote -> genuine_quote ti answer quote.
Proof.
  unfold check_qe_report, genuine_quote, slice, bytes_eqb, REPORT_DATA_SIZE.
  destruct (rsgx_verify_report _) as [[]| |]; [|done..]. cbn [mbind result_bind].
  case_bool_decide as Hm; [|done]. destruct (_ =? _)%Z; [|done]. destruct (_ =? _)%Z; [|done]. cbn [andb negb].
  destruct (bool_decide (0 <= quote_len _ <= _)); cbn [mbind result_bind]; [|done].
  destruct (bool_decide (0 <= 32 <= _)); cbn [mbind result_bind]; [|done].
  case_bool_decide as Hh; [|done]. intros [= <-]. rw !drop_0 !Nat.sub_0_r in Hh |- *. done.
Qed.

(** A created report inverted: every call that [create_attestation_report] made and its answer. *)
Lemma create_attestation_report_inv pub_k sign_type spid api_key e :
  create_attestation_report pub_k sign_type spid api_key = Ok e ->
  exists ti eg rep sigrl spid' answer quote sock plaintext,
    ocall_sgx_init_quote = (SGX_SUCCESS, SGX_SUCCESS, ti, eg) /\
    rsgx_create_report ti (pub_k ++ replicate 32 Byte.x00) = Ok rep /\
    ocall_get_quote sigrl rep sign_type spid' quote_nonce = (SGX_SUCCESS, SGX_SUCCESS, answer) /\
    genuine_quote ti answer quote /\
    tls_exchange sock (report_request quote api_key) = Some plaintext /\
    parse_response_attn_report (E:=Z) plaintext = Ok (ear_report e, ear_signature e, ear_signing_cert e).
Proof.
  unfold create_attestation_report. destruct ocall_sgx_init_quote as [[[res rt] ti] eg].
  destruct (ocall_status res rt) as [[]| |] eqn:H1; [|done..]. apply ocall_status_Ok in H1 as [-> ->].
  cbn [mbind result_bind]. destruct (ocall_get_ias_socket 0) as [[r2 t2] s2].
  destruct (ocall_status r2 t2); [|done..]. cbn [mbind result_bind].
  destruct (get_sigrl_from_intel _ _ _) as [sigrl| |]; [|done..]. cbn [mbind result_bind].
  destruct (rsgx_create_report _ _) as [rep| |] eqn:Hrep; [|done..]. cbn [map_err mbind result_bind].
  destruct (decode_spid _) as [spid'| |]; [|done..]. cbn [mbind result_bind].
  destruct (ocall_get_quote _ _ _ _ _) as [[r3 t3] answer] eqn:Hq.
  destruct (ocall_status r3 t3) as [[]| |] eqn:H3; [|done..]. apply ocall_status_Ok in H3 as [-> ->].
  cbn [mbind result_bind]. destruct (check_qe_report ti answer) as [quote| |] eqn:Hc; [|done..].
  cbn [mbind result_bind]. destruct (ocall_get_ias_socket 1) as [[r4 t4] s4].
  destruct (ocall_status r4 t4); [|done..]. cbn [mbind result_bind]. unfold get_report_from_intel.
  destruct (tls_exchange _ _) as [plaintext|] eqn:Ht; [|done]. cbn [expect mbind result_bind].
  unfold utf8_unwrap. destruct (from_utf8 plaintext); [|done]. cbn [mbind result_bind].
  destruct (parse_response_attn_report plaintext) as [[[rp sg] ct]| |] eqn:Hp; [|done..]. intros [= <-].
  eexists ti, eg, rep, _, spid', answer, quote, s4, plaintext.
  split_and!; try done. by apply check_qe_report_Ok.
Qed.


End AttestFacts.

(** ** Concrete parameters, used to run the models on examples *)

Definition demo_ias : IasConnection := {|
  http_parse _ := mkHttp (Some (Some 0)) (Some 200%Z)
    [("Content-Length", lit "6"); ("X-IASReport-Signature", lit "signature");
     ("X-IASReport-Signing-Certificate",
      lit "-----BEGIN%20CERTIFICATE-----%0Acertificate%0A-----END%20CERTIFICATE-----")]%string;
  tls_exchange _ _ := Some (lit "report");
  warn_enabled := true
|}.

Definition demo_nonce : bytes := be_bytes 16 7.

(** A platform whose quoting enclave vouches for the quote of the repository's test. *)
Definition demo_quoting : Quoting := {|
  ocall_sgx_init_quote := (0%Z, 0%Z, mkTarget (lit "quoting enclave") 7 7, be_bytes 4 0);
  ocall_get_ias_socket _ := (0%Z, 0%Z, 3%Z);
  ocall_get_quote _ _ _ _ _ :=
    (0%Z, 0%Z, mkQuoteAnswer (mkSgxReport (lit "quoting enclave") [] 7 7 (demo_hash (demo_nonce ++ test_quote)))
                 test_quote 432);
  rsgx_create_report _ _ := Ok (mkSgxReport (field test_quote 112 32) [] 0 0 []);
  rsgx_verify_report _ := Ok tt;
  quote_nonce := demo_nonce;
  create_key_pair := Some (demo_private, demo_public)
|}.

Definition sw_features : Features := {| sgx_mode_hw := false; production := false; test_feature := false |}.
Definition hw_features : Features := {| sgx_mode_hw := true; production := true; test_feature := false |}.

Section Demo.
#[local] Existing Instance demo_primitives.
#[local] Existing Instance demo_codecs.
#[local] Existing Instance demo_ias.
#[local] Existing Instance demo_quoting.
#[local] Existing Instance hw_features.

Definition demo_endorsed : EndorsedAttestationReport :=
  mkEndorsed (lit "report") (lit "signature") (lit "certificate").


Lemma one_spelling_loses_a_response_witness :
  parse_response_sigrl (E:=unit) (lit "report") = Ok [] \/
  forall out, parse_response_attn_report (E:=unit) (lit "report") = Ok out -> out.1.1 = [].
Proof.
  apply (one_spelling_loses_a_response "Content-Length"); vm_compute; repeat constructor; done.
Defined.
End Demo.
