(* ===== verification/SigningCert.v ===== *)
(** * The signing certificate of a report: registration/attestation.rs against what Intel sends

    Intel's service puts the chain of certificates that signed a report, in PEM and percent
    encoded, into a header of its response.  The enclave removes the encoded line ends, decodes
    the rest with its own percent decoder and cuts out the text of the first certificate.  This
    file states the encoding as RFC 3986 has it and shows what the reader makes of it. *)

From Stdlib Require Import Strings.String.
From stdpp Require Import base tactics list numbers strings ssreflect.
From S2P Require Import Prelude Utf8 Crypto SecretMsg Attestation.

Import Text.
Local Open Scope list_scope.

(** ** Percent encoding *)

Abbreviation PERCENT := Byte.x25.
Abbreviation NEWLINE := Byte.x0a.
Abbreviation DASH := Byte.x2d.

Definition upper_hex (d : Z) : byte := byte_of_Z (if (d <? 10)%Z then 0x30 + d else 0x41 + d - 10)%Z.
Definition escape (b : byte) : bytes := [PERCENT; upper_hex (Z_of_byte b / 16); upper_hex (Z_of_byte b mod 16)].

(** [keep] are the characters that the service leaves as they are. *)
Definition percent_encode (keep : byte -> bool) (s : bytes) : bytes :=
  concat ((fun b => if keep b then [b] else escape b) <$> s).

Definition is_ascii (b : byte) : Prop := (Z_of_byte b < 128)%Z.

Lemma escape_digits b :
  upper_hex (Z_of_byte b / 16) <> PERCENT /\ upper_hex (Z_of_byte b mod 16) <> PERCENT /\
  radix16 (E := unit) (upper_hex (Z_of_byte b / 16)) (upper_hex (Z_of_byte b mod 16)) = Ok (Z_of_byte b).
Proof. destruct b; vm_compute; done. Qed.

Lemma escape_radix {E} b :
  radix16 (E := E) (upper_hex (Z_of_byte b / 16)) (upper_hex (Z_of_byte b mod 16)) = Ok (Z_of_byte b).
Proof. destruct b; by vm_compute. Qed.

Lemma escape_newline b : escape b = lit "%0A" <-> b = NEWLINE.
Proof. split; [|by intros ->]. destruct b; vm_compute; congruence. Qed.

Lemma push_char_ascii b : is_ascii b -> push_char (Z_of_byte b) = [b].
Proof.
  intros H. unfold push_char. destruct (Z.ltb_spec (Z_of_byte b) 128) as [_|]; [|unfold is_ascii in H; lia].
  f_equal. by destruct b.
Qed.

Section Encoded.
Variable keep : byte -> bool.
Hypothesis percent_escaped : keep PERCENT = false.

Lemma encode_cons b s : percent_encode keep (b :: s) = (if keep b then [b] else escape b) ++ percent_encode keep s.
Proof. done. Qed.

Lemma split_no_match sep acc b l :
  take (length sep) (b :: l) <> sep -> split_str sep 0 acc (b :: l) = split_str sep 0 (b :: acc) l.
Proof. intros H. cbn [split_str]. by rw bool_decide_false. Qed.
Lemma split_match sep acc b l :
  take (length sep) (b :: l) = sep -> split_str sep 0 acc (b :: l) = rev acc :: split_str sep (length sep - 1) [] l.
Proof. intros H. cbn [split_str]. by rw bool_decide_true. Qed.

(** A character that is no percent sign starts no match. *)
Lemma split_other sep acc b l :
  head sep = Some PERCENT -> b <> PERCENT -> split_str sep 0 acc (b :: l) = split_str sep 0 (b :: acc) l.
Proof.
  intros Hs Hb. apply split_no_match. destruct sep as [|c sep]; [done|]. injection Hs as ->. cbn. by intros [= ->].
Qed.

Lemma split_at_percent acc l :
  split_str [PERCENT] 0 acc (PERCENT :: l) = rev acc :: split_str [PERCENT] 0 [] l.
Proof. done. Qed.

Lemma kept_is_not_percent b : keep b = true -> b <> PERCENT.
Proof. intros H ->. congruence. Qed.

Lemma decode_parts {E} s acc :
  Forall is_ascii s ->
  exists v0 v parts, split_str [PERCENT] 0 acc (percent_encode keep s) = (rev acc ++ v0) :: v /\
    mapR (E := E) percent_part v = Ok parts /\ v0 ++ concat parts = s.
Proof.
  intros Hs. revert acc. induction Hs as [|b s Hb Hs IH]; intros acc.
  { exists [], [], []. by rw app_nil_r. }
  rw encode_cons. destruct (keep b) eqn:Hk.
  - cbn [app]. rw split_other //; [|by apply kept_is_not_percent].
    destruct (IH (b :: acc)) as (v0 & v & parts & -> & Hp & <-). exists (b :: v0), v, parts.
    cbn [rev]. by rw -app_assoc.
  - destruct (escape_digits b) as (H1 & H2 & _). unfold escape. cbn [app]. rw split_at_percent.
    rw split_other // split_other //.
    destruct (IH [upper_hex (Z_of_byte b mod 16); upper_hex (Z_of_byte b / 16)]) as (v0 & v & parts & -> & Hp & <-).
    eexists [], _, ((b :: v0) :: parts). rw app_nil_r. split; [done|]. split; [|done].
    cbn [mapR rev app percent_part]. rw escape_radix. cbn [mbind result_bind]. rw push_char_ascii // Hp. done.
Qed.

(** The decoder inverts percent encoding, whatever characters the service leaves alone, for texts
    in ASCII. *)
Theorem percent_decode_encode {E} s :
  Forall is_ascii s -> percent_decode (E := E) (percent_encode keep s) = Ok s.
Proof.
  intros Hs. destruct (decode_parts (E := E) s [] Hs) as (v0 & v & parts & Hv & Hp & <-).
  unfold percent_decode, split_by. rw Hv Hp. done.
Qed.

Hypothesis newline_escaped : keep NEWLINE = false.

(** Removing every encoded line end is removing every line end before encoding. *)
Lemma remove_newlines s : remove_all (lit "%0A") (percent_encode keep s) = percent_encode keep (List.filter (fun b => negb (bool_decide (b = NEWLINE))) s).
Proof.
  unfold remove_all, split_by. transitivity (rev [] ++ percent_encode keep (List.filter (fun b => negb (bool_decide (b = NEWLINE))) s)); [|done].
  generalize (@nil byte) as acc. induction s as [|b s IH]; intros acc; [done|].
  rw encode_cons. cbn [List.filter]. destruct (keep b) eqn:Hk.
  - rw bool_decide_false; [|by intros ->; congruence]. cbn [negb app].
    rw split_other //; [|by apply kept_is_not_percent]. rw IH encode_cons Hk. cbn [rev app]. by rw -app_assoc.
  - destruct (escape_digits b) as (H1 & H2 & _). destruct (decide (b = NEWLINE)) as [->|Hb].
    + rw bool_decide_true //. cbn [negb]. change (escape NEWLINE ++ percent_encode keep s) with (PERCENT :: Byte.x30 :: Byte.x41 :: percent_encode keep s).
      rw split_match //. cbn [concat]. f_equal. apply (IH []).
    + rw bool_decide_false //. cbn [negb]. rw encode_cons Hk. unfold escape. cbn [app]. rw split_no_match.
      2: { intros E. apply Hb, escape_newline. exact E. }
      rw split_other // split_other // IH. unfold escape. cbn [rev app]. by rw -!app_assoc.
Qed.
End Encoded.

(** ** The certificate in the chain *)

Definition DASHES : bytes := lit "-----".

Lemma split_before_dashes p acc r :
  DASH ∉ p -> split_str DASHES 0 acc (p ++ DASHES ++ r) = (rev acc ++ p) :: split_str DASHES 0 [] r.
Proof.
  revert acc. induction p as [|b p IH]; intros acc Hp.
  - rw app_nil_r. change ([] ++ DASHES ++ r) with (DASH :: (lit "----" ++ r)). by rw split_match.
  - apply not_elem_of_cons in Hp as [Hb Hp]. cbn [app]. rw split_no_match; [|by intros [= ->]].
    rw IH //. cbn [rev]. by rw -app_assoc.
Qed.

Definition BEGIN : bytes := DASHES ++ lit "BEGIN CERTIFICATE" ++ DASHES.
Definition END_ : bytes := DASHES ++ lit "END CERTIFICATE" ++ DASHES.

(** The third piece between dashes is the text of the first certificate. *)
Lemma first_certificate body rest :
  DASH ∉ body -> split_by DASHES (BEGIN ++ body ++ END_ ++ rest) !! 2 = Some body.
Proof.
  intros Hb. unfold split_by, BEGIN, END_. rw -!app_assoc.
  change (DASHES ++ ?l) with ([] ++ DASHES ++ l) at 1. rw split_before_dashes; [|apply not_elem_of_nil].
  rw split_before_dashes; [|match goal with |- ?P => refine (bool_decide_unpack P _) end; by vm_compute]. by rw split_before_dashes.
Qed.

Definition without_newlines (s : bytes) : bytes := List.filter (fun b => negb (bool_decide (b = NEWLINE))) s.

Section Chain.
Context `{C : Codecs} {CL : CodecLaws} `{I : IasConnection}.
Variable keep : byte -> bool.

(** A response whose headers carry the length of the report, its signature and the encoded chain,
    and whose chain starts with the certificate [der] in PEM, broken into lines anywhere, is
    read as the report, the signature and exactly that certificate. *)
Theorem signing_certificate_is_extracted {E} resp n signature pem rest der report :
  keep PERCENT = false -> keep NEWLINE = false -> Forall is_ascii pem ->
  http_code (http_parse resp) = Some 200%Z ->
  report_headers (E := E) (http_headers (http_parse resp)) 0 [] [] =
    Ok (n, lit (base64_encode signature), percent_encode keep pem) ->
  n <> 0%Z -> response_body (E := E) (http_parse resp) resp = Ok report ->
  without_newlines pem = BEGIN ++ lit (base64_encode der) ++ END_ ++ rest ->
  DASH ∉ lit (base64_encode der) ->
  parse_response_attn_report (E := E) resp = Ok (report, signature, der).
Proof.
  intros Hp Hn Ha Hc Hh Hl Hb Hw Hd. unfold parse_response_attn_report. rw Hc Hh. cbn [log_code mbind result_bind].
  rw remove_newlines //. fold (without_newlines pem). rw percent_decode_encode //.
  2: { apply List.Forall_forall. intros b [Hi _]%List.filter_In. rw List.Forall_forall in Ha. by apply Ha. }
  cbn [mbind result_bind]. rw Hw. fold DASHES. rw first_certificate //. cbn [expect mbind result_bind].
  destruct (Z.eqb_spec n 0); [done|]. cbn [negb]. rw Hb. cbn [mbind result_bind]. rw !base64_roundtrip. done.
Qed.

End Chain.

(** Outside ASCII the decoder is not the inverse of encoding: it makes a character of each byte,
    so that a two-byte character comes back as four bytes. *)
Theorem percent_decode_is_latin1 :
  percent_decode (E := unit) (percent_encode (fun _ => false) [Byte.xc3; Byte.xa9]) =
  Ok [Byte.xc3; Byte.x83; Byte.xc2; Byte.xa9].
Proof. by vm_compute. Qed.

(** ** An example: a chain of two certificates *)

#[local] Existing Instance demo_codecs.
#[local] Existing Instance demo_codec_laws.

Definition demo_pem : bytes :=
  BEGIN ++ [NEWLINE] ++ lit "MII" ++ [NEWLINE] ++ lit "Cert" ++ [NEWLINE] ++ END_ ++ [NEWLINE] ++ BEGIN ++ lit "Root" ++ END_.
Definition demo_keep (b : byte) : bool := is_between Byte.x41 Byte.x5a b || is_between Byte.x61 Byte.x7a b || bool_decide (b = DASH).

(** A response of one header of each kind; the parser gives it back as it is. *)
Definition demo_signing_ias : IasConnection := {|
  http_parse resp := mkHttp (Some (Some 0)) (Some 200%Z)
    [("Content-Length"%string, lit "2"); ("X-IASReport-Signature"%string, lit "sig");
     ("X-IASReport-Signing-Certificate"%string, percent_encode demo_keep demo_pem)];
  tls_exchange _ _ := None;
  warn_enabled := false
|}.
#[local] Existing Instance demo_signing_ias.

Lemma signing_certificate_is_extracted_witness :
  parse_response_attn_report (E := unit) (lit "{}") = Ok (lit "{}", lit "sig", lit "MIICert").
Proof.
  apply (signing_certificate_is_extracted demo_keep (lit "{}") 2 (lit "sig") demo_pem (BEGIN ++ lit "Root" ++ END_)).
  - by vm_compute.
  - by vm_compute.
  - match goal with |- ?P => refine (bool_decide_unpack P _) end. by vm_compute.
  - done.
  - by vm_compute.
  - done.
  - by vm_compute.
  - by vm_compute.
  - match goal with |- ?P => refine (bool_decide_unpack P _) end. by vm_compute.
Defined.
