(* ===== verification/Registration.v ===== *)
(** * Registration of nodes: wasmi-runtime/src/registration

    Under cosmwasm/packages: the checks on the certificate of a node (registration/cert.rs),
    the exchange of the seed (seed_exchange.rs), the ecall that runs on the chain (onchain.rs)
    and those that set a node up (offchain.rs), with utils.rs and storage.rs.  A node is its
    lazily loaded key manager, its sealed files and its ordinary files. *)

From Stdlib Require Import Strings.String.
From stdpp Require Import base tactics list numbers strings ssreflect relations.
From S2P Require Import Prelude Utf8 Crypto SecretMsg Ecalls Cert Report Attestation.

Local Open Scope list_scope.

(** ** Constants *)

Inductive SigningMethod : Type := ByMrSigner | ByMrEnclave | ByNone.

Definition SIGNING_METHOD `{Features} : SigningMethod :=
  if production then ByMrEnclave else if test_feature then ByMrSigner else ByMrEnclave.

Definition MRSIGNER : bytes :=
  map byte_of_Z [131; 215; 25; 231; 125; 234; 202; 20; 112; 246; 186; 246; 42; 77; 119; 67; 3; 200; 153; 219;
                 105; 2; 15; 156; 112; 238; 29; 252; 8; 199; 206; 158]%Z.

Definition ATTESTATION_CERTIFICATE_SAVE_PATH : string := "attestation_cert.der".
Definition SEED_EXCH_CERTIFICATE_SAVE_PATH : string := "node-master-cert.der".
Definition IO_CERTIFICATE_SAVE_PATH : string := "io-master-cert.der".

Definition ENCRYPTED_SEED_SIZE : nat := 48.
Definition PUBLIC_KEY_SIZE : nat := 32.
Definition SEED_KEY_SIZE : nat := 32.

(** ** cert.rs: checking a certificate *)

Definition verify_quote_status `{Features} (quote_status : SgxQuoteStatus) (advisories : list string)
  : result NodeAuthResult unit :=
  match quote_status with
  | StatusOK => Ok tt
  | SwHardeningNeeded => Ok tt
  | GroupOutOfDate => if production then Err (NodeAuthResult_from quote_status) else Ok tt
  | ConfigurationAndSwHardeningNeeded =>
      match vulnerable advisories with [] => Ok tt | _ => Err (NodeAuthResult_from quote_status) end
  | _ => Err (NodeAuthResult_from quote_status)
  end.

Section Verify.
Context `{P : Primitives} `{C : Codecs} `{J : ReportJson} `{W : Webpki} `{Ft : Features} `{Q : Quoting}.

Definition verify_ra_cert_sw (cert_der : bytes) : result NodeAuthResult bytes :=
  payload ← map_err (fun _ => NodeInvalidCert) (get_netscape_comment cert_der);
  ok_or NodeInvalidCert (base64_decode payload).

(** Steps 5 of the comment: the enclave that made the report is this one, or of this signer. *)
Definition verify_measurement (report : SgxEnclaveReport) : result NodeAuthResult unit :=
  match SIGNING_METHOD with
  | ByMrEnclave =>
      this_mr_enclave ← map_err (fun _ => NodePanic) get_mr_enclave;
      if negb (bytes_eqb (mr_enclave report) this_mr_enclave) then Err NodeMrEnclaveMismatch else Ok tt
  | ByMrSigner => if negb (bytes_eqb (mr_signer report) MRSIGNER) then Err NodeMrSignerMismatch else Ok tt
  | ByNone => Ok tt
  end.

Definition verify_ra_cert_hw (cert_der : bytes) : result NodeAuthResult bytes :=
  report ← map_err (fun _ => NodeInvalidCert) (AttestationReport_from_cert cert_der);
  _ ← verify_quote_status (sgx_quote_status report) (advisroy_ids report);
  let body := isv_enclave_report (sgx_quote_body report) in
  _ ← verify_measurement body;
  slice (report_data body) 0 32.

Definition verify_ra_cert (cert_der : bytes) : result NodeAuthResult bytes :=
  if sgx_mode_hw then verify_ra_cert_hw cert_der else verify_ra_cert_sw cert_der.

End Verify.

(** ** seed_exchange.rs *)

Section SeedExchange.
Context `{P : Primitives}.

Definition encrypt_seed (km : Keychain) (new_node_pk : bytes) : result Z bytes :=
  kp ← unwrap (seed_exchange_key km);
  let shared_enc_key := diffie_hellman kp new_node_pk in
  seed ← unwrap (get_consensus_seed km);
  match encrypt_siv (mkAESKey shared_enc_key) (seed_bytes seed) (Some [new_node_pk]) with
  | Ok r => if negb (length r =? ENCRYPTED_SEED_SIZE)%nat then Err SGX_ERROR_UNEXPECTED else Ok r
  | Err _ => Err SGX_ERROR_UNEXPECTED
  | Panic => Panic
  end.

Definition decrypt_seed (key_manager : Keychain) (master_pk encrypted_seed : bytes) : result Z Seed :=
  kp ← unwrap (get_registration_key key_manager);
  let shared_enc_key := diffie_hellman kp master_pk in
  let my_public_key := public_key kp in
  match decrypt_siv (mkAESKey shared_enc_key) encrypted_seed (Some [my_public_key]) with
  | Ok r => if negb (length r =? SEED_KEY_SIZE)%nat then Err SGX_ERROR_UNEXPECTED else Ok (mkSeed r)
  | Err _ => Err SGX_ERROR_UNEXPECTED
  | Panic => Panic
  end.

End SeedExchange.

(** ** A node *)

(** Files by name, the newest version of each first. *)
Abbreviation Disk := (list (string * bytes)).

(** [KEY_MANAGER] is built by [Keychain::new] when it is first used. *)
Record Node : Type := mkNode {
  n_keys : option Keychain;
  n_sealed : Disk;
  n_files : Disk
}.

Definition set_sealed (d : Disk) (n : Node) : Node := mkNode (n_keys n) d (n_files n).
Definition set_files (d : Disk) (n : Node) : Node := mkNode (n_keys n) (n_sealed n) d.

(** The ordinary file system: whether a file can be created, and what a write leaves in it. *)
Class UntrustedFs : Type := {
  ut_create : string -> bool;
  ut_write_all : string -> bytes -> bytes * bool
}.

Section Ecall.
Context `{P : Primitives} `{F : SgxFs} `{UF : UntrustedFs} `{C : Codecs} `{J : ReportJson} `{W : Webpki}.
Context `{I : IasConnection} `{Ft : Features} `{Q : Quoting} `{T : CertTools}.

Definition KEY_MANAGER (n : Node) : Node * Keychain :=
  match n_keys n with
  | Some k => (n, k)
  | None => let k := keychain_new (n_sealed n) in (mkNode (Some k) (n_sealed n) (n_files n), k)
  end.

(** A process started anew on the same files. *)
Definition restarted (n : Node) : Node := mkNode None (n_sealed n) (n_files n).

(** storage.rs *)
Definition write_to_untrusted (b : bytes) (filepath : string) : M Node Z unit :=
  fun n =>
    if ut_create filepath then
      let '(contents, ok) := ut_write_all filepath b in
      (set_files (file_store (n_files n) filepath contents) n, if ok then Ok tt else Err SGX_ERROR_UNEXPECTED)
    else (n, Err SGX_ERROR_UNEXPECTED).

(** utils.rs *)
Definition attest_from_key (kp : KeyPair) (save_path : string) (spid api_key : bytes) : M Node Z unit :=
  kc ← liftR (create_attestation_certificate kp SGX_UNLINKABLE_SIGNATURE spid api_key);
  write_to_untrusted kc.2 save_path.

(** What an error of the key manager becomes. *)
Definition unexpected {E A} (r : result E A) : result Z unit :=
  match r with Ok _ => Ok tt | Err _ => Err SGX_ERROR_UNEXPECTED | Panic => Panic end.

(** offchain.rs.  An ecall's status is [SGX_SUCCESS] when it ends in [Ok], with the public key
    it fills in; [inside] is whether the host's buffer passed the check of the pointer. *)
Definition ecall_init_bootstrap (rand_seed rand_key : result CryptoError bytes) (inside : bool)
    (spid api_key : HostSlice) : M Node Z bytes :=
  fun n =>
    if negb inside then (n, Err SGX_ERROR_UNEXPECTED)
    else if negb (validate_const_ptr spid) then (n, Err SGX_ERROR_UNEXPECTED)
    else if negb (validate_const_ptr api_key) then (n, Err SGX_ERROR_UNEXPECTED)
    else
      let e0 := mkEnclave (keychain_new (n_sealed n)) (n_sealed n) in
      let '(e1, r1) := create_consensus_seed rand_seed e0 in
      match unexpected r1 with
      | Ok _ =>
          let e2 := mkEnclave (generate_consensus_master_keys (keychain e1)) (disk e1) in
          let '(e3, r3) := create_registration_key rand_key e2 in
          (_ ← liftR (unexpected r3);
           kp ← liftR (unwrap (seed_exchange_key (keychain e3)));
           _ ← attest_from_key kp SEED_EXCH_CERTIFICATE_SAVE_PATH (s_data spid) (s_data api_key);
           kp ← liftR (unwrap (get_consensus_io_exchange_keypair (keychain e3)));
           _ ← attest_from_key kp IO_CERTIFICATE_SAVE_PATH (s_data spid) (s_data api_key);
           kp ← liftR (unwrap (seed_exchange_key (keychain e3)));
           mret (public_key kp)) (set_sealed (disk e3) n)
      | Err s => (set_sealed (disk e1) n, Err s)
      | Panic => (set_sealed (disk e1) n, Panic)
      end.

Definition ecall_init_node (master_cert encrypted_seed : HostSlice) : M Node Z unit :=
  fun n =>
    if negb (validate_const_ptr master_cert) then (n, Err SGX_ERROR_UNEXPECTED)
    else if negb (validate_const_ptr encrypted_seed) then (n, Err SGX_ERROR_UNEXPECTED)
    else if negb (length (s_data encrypted_seed) =? ENCRYPTED_SEED_SIZE)%nat then (n, Err SGX_ERROR_UNEXPECTED)
    else
      match verify_ra_cert (s_data master_cert) with
      | Panic => (n, Panic)
      | Err _ => (n, Err SGX_ERROR_UNEXPECTED)
      | Ok pk =>
          if negb (length pk =? PUBLIC_KEY_SIZE)%nat then (n, Err SGX_ERROR_UNEXPECTED)
          else
            let key_manager := keychain_new (n_sealed n) in
            match decrypt_seed key_manager pk (s_data encrypted_seed) with
            | Panic => (n, Panic)
            | Err status => (n, Err status)
            | Ok seed =>
                let '(e1, r1) := set_consensus_seed seed (mkEnclave key_manager (n_sealed n)) in
                (set_sealed (disk e1) n, unexpected r1)
            end
      end.

(** Prints what the service said of this platform; only that it may panic is kept. *)
Definition print_local_report_info {E} (cert : bytes) : result E unit :=
  if negb sgx_mode_hw then Ok tt
  else
    match AttestationReport_from_cert cert with
    | Panic => Panic
    | Err _ => Ok tt
    | Ok report =>
        match NodeAuthResult_from (sgx_quote_status report) with
        | NodeGroupOutOfDate | NodeSwHardeningAndConfigurationNeeded =>
            match platform_info_blob report with
            | Some platform_info => _ ← slice platform_info 4 (length platform_info); Ok tt
            | None => Ok tt
            end
        | _ => Ok tt
        end
    end.

Definition ecall_get_attestation_report (spid api_key : HostSlice) : M Node Z unit :=
  fun n =>
    if negb (validate_const_ptr spid) then (n, Err SGX_ERROR_UNEXPECTED)
    else if negb (validate_const_ptr api_key) then (n, Err SGX_ERROR_UNEXPECTED)
    else
      let '(n1, km) := KEY_MANAGER n in
      (kp ← liftR (unwrap (get_registration_key km));
       kc ← liftR (create_attestation_certificate kp SGX_UNLINKABLE_SIGNATURE (s_data spid) (s_data api_key));
       _ ← write_to_untrusted kc.2 ATTESTATION_CERTIFICATE_SAVE_PATH;
       liftR (print_local_report_info kc.2)) n1.

Definition ecall_key_gen (rand_key : result CryptoError bytes) (inside : bool) : M Node Z bytes :=
  fun n =>
    if negb inside then (n, Err SGX_ERROR_UNEXPECTED)
    else
      let '(e1, r1) := create_registration_key rand_key (mkEnclave (keychain_new (n_sealed n)) (n_sealed n)) in
      (_ ← liftR (unexpected r1);
       kp ← liftR (unwrap (get_registration_key (keychain e1)));
       mret (public_key kp)) (set_sealed (disk e1) n).

(** onchain.rs: the closure under [catch_unwind]. *)
Definition authenticate (cert : bytes) (n : Node) : Node * result NodeAuthResult bytes :=
  match verify_ra_cert cert with
  | Panic => (n, Panic)
  | Err e => (n, Err e)
  | Ok pk =>
      if negb (length pk =? PUBLIC_KEY_SIZE)%nat then (n, Err NodeMalformedPublicKey)
      else
        let '(n1, km) := KEY_MANAGER n in
        (n1, map_err (fun _ => NodeSeedEncryptionFailed) (encrypt_seed km pk))
  end.

Variable grow : nat -> nat.

(** [oom]: whether an allocation fails in the closure.  The seed buffer is given as the bytes
    copied to it, if any. *)
Definition ecall_authenticate_new_node (reserve_in reserve_out : Safety.Supply) (oom : bool) (cert : HostSlice)
    (inside : bool) (st : Shared) (n : Node) : Shared * Node * result Empty_set (NodeAuthResult * option bytes) :=
  match register_oom_handler grow reserve_in st with
  | (st1, Ok _) =>
      if negb inside then (st1, n, Ok (NodeInvalidInput, None))
      else if negb (validate_const_ptr cert) then (st1, n, Ok (NodeInvalidInput, None))
      else
        let '(st2, n2, result) :=
          if oom then (alloc_error_hook st1, n, Panic)
          else let '(n', r) := authenticate (s_data cert) n in (st1, n', r) in
        match restore_safety_buffer grow reserve_out st2 with
        | (st3, Ok _) =>
            match result with
            | Ok res =>
                (st3, n2, if (length res =? ENCRYPTED_SEED_SIZE)%nat then Ok (NodeSuccess, Some res) else Panic)
            | Err e => (st3, n2, Ok (e, None))
            | Panic => (set_oom false st3, n2, Ok (NodePanic, None))
            end
        | (st3, Err _) => (st3, n2, Ok (NodeMemorySafetyAllocationError, None))
        | (st3, Panic) => (st3, n2, Panic)
        end
  | (st1, Err _) => (st1, n, Ok (NodeMemorySafetyAllocationError, None))
  | (st1, Panic) => (st1, n, Panic)
  end.

End Ecall.

(** ** Properties *)

(** X25519: both sides compute the same secret from their own half. *)
Class DhLaws `{Primitives} : Prop := {
  dh_commutes a b :
    length a = 32 -> length b = 32 ->
    x25519_shared a (x25519_public b) = x25519_shared b (x25519_public a);
  x25519_public_length s : length (x25519_public s) = 32
}.

Class UntrustedFsLaws `{UntrustedFs} : Prop := {
  ut_write_ok path data : (ut_write_all path data).2 = true -> (ut_write_all path data).1 = data
}.

Section VerifyFacts.
Context `{P : Primitives} `{C : Codecs} `{J : ReportJson} `{W : Webpki} `{Ft : Features} `{Q : Quoting}.

Lemma status_not_success s : NodeAuthResult_from s <> NodeSuccess.
Proof. by destruct s. Qed.

Lemma quote_status_error s adv e : verify_quote_status s adv = Err e -> e = NodeAuthResult_from s.
Proof.
  destruct s; cbn [verify_quote_status]; try (by intros [= <-]); repeat case_match; congruence.
Qed.

Lemma verify_ra_cert_error cert e : verify_ra_cert cert = Err e -> e <> NodeSuccess.
Proof.
  unfold verify_ra_cert, verify_ra_cert_hw, verify_ra_cert_sw, verify_measurement. intros H ->.
  destruct sgx_mode_hw.
  - destruct (AttestationReport_from_cert cert) as [r| |]; [|done..]. cbn [map_err mbind result_bind] in H.
    destruct (verify_quote_status _ _) as [[]|e|] eqn:Hq; [|apply quote_status_error in Hq|done].
    2: { injection H as ->. by apply (status_not_success (sgx_quote_status r)). }
    cbn [mbind result_bind] in H. unfold slice in H.
    destruct SIGNING_METHOD; [|destruct get_mr_enclave; [|done..]|]; cbn [map_err mbind result_bind] in H;
      repeat (case_match; cbn [mbind result_bind] in H); congruence.
  - destruct (get_netscape_comment cert) as [p| |]; [|done..]. cbn [map_err mbind result_bind ok_or] in H.
    by destruct (base64_decode p).
Qed.

(** Which platforms are let in: in production an up-to-date one, and one that needs software
    hardening; and one that needs configuration besides, if each of its advisories is
    on the list of allowed ones. *)
Lemma quote_status_accepted s adv :
  verify_quote_status s adv = Ok tt ->
  s = StatusOK \/ s = SwHardeningNeeded \/ (s = GroupOutOfDate /\ production = false) \/
  (s = ConfigurationAndSwHardeningNeeded /\ Forall (fun a => a ∈ WHITELISTED_ADVISORIES) adv).
Proof.
  destruct s; cbn [verify_quote_status]; try done; [by auto| | by auto |].
  - destruct production; [done|]. by auto.
  - destruct (vulnerable adv) eqn:Hv; [|done]. apply vulnerable_nil in Hv. by auto.
Qed.

(** What an accepted certificate proves, in hardware mode. *)
Definition attested (cert pk : bytes) : Prop :=
  exists payload r a,
    get_netscape_comment cert = Ok payload /\ endorsed_deserialize payload = Some r /\
    signed_by_intel r /\ attestation_of_json (ear_report r) = Ok a /\
    (sgx_quote_status a = StatusOK \/ sgx_quote_status a = SwHardeningNeeded \/
     (sgx_quote_status a = ConfigurationAndSwHardeningNeeded /\
      Forall (fun i => i ∈ WHITELISTED_ADVISORIES) (advisroy_ids a))) /\
    get_mr_enclave = Ok (mr_enclave (isv_enclave_report (sgx_quote_body a))) /\
    pk = take 32 (report_data (isv_enclave_report (sgx_quote_body a))).

Lemma verify_ra_cert_attested cert pk :
  sgx_mode_hw = true -> production = true -> verify_ra_cert cert = Ok pk -> attested cert pk.
Proof.
  unfold verify_ra_cert, verify_ra_cert_hw, verify_measurement, SIGNING_METHOD. intros -> Hprod. rw Hprod.
  destruct (AttestationReport_from_cert cert) as [a| |] eqn:Ha; [|done..]. cbn [map_err mbind result_bind].
  destruct (verify_quote_status _ _) as [[]| |] eqn:Hq; [|done..]. cbn [mbind result_bind].
  destruct get_mr_enclave as [own| |] eqn:Hown; [|done..]. cbn [map_err mbind result_bind]. unfold bytes_eqb.
  case_bool_decide as Hm; [|done]. cbn [negb mbind result_bind]. unfold slice.
  case_bool_decide; [|done]. intros [= <-]. rw drop_0.
  destruct (from_cert_Ok _ _ Ha) as (payload & r & Hp & Hr & Hs & Hj).
  exists payload, r, a. split_and!; try done; [|by rw Hown Hm].
  apply quote_status_accepted in Hq as [?|[?|[[_ Hf]|?]]]; auto. by rw Hprod in Hf.
Qed.

End VerifyFacts.

Section EcallFacts.
Context `{P : Primitives} `{F : SgxFs} `{UF : UntrustedFs} `{C : Codecs} `{J : ReportJson} `{W : Webpki}.
Context `{I : IasConnection} `{Ft : Features} `{Q : Quoting} `{T : CertTools}.
Variable grow : nat -> nat.

(** The seed of a chain, encrypted so that the holder of the key [pk] can read it. *)
Definition seed_for (km : Keychain) (pk s : bytes) : Prop :=
  exists kp seed,
    consensus_seed_exchange_keypair km = Some kp /\ consensus_seed km = Some seed /\
    siv_encrypt (x25519_shared (secret_key kp) pk) [pk] (seed_bytes seed) = Some s /\
    length s = ENCRYPTED_SEED_SIZE.

Lemma encrypt_seed_Ok km pk s : encrypt_seed km pk = Ok s -> seed_for km pk s.
Proof.
  unfold encrypt_seed, seed_for, seed_exchange_key, get_consensus_seed, encrypt_siv, aes_siv_encrypt, diffie_hellman.
  destruct (consensus_seed_exchange_keypair km) as [kp|]; [|done]. cbn [ok_or unwrap mbind result_bind].
  destruct (consensus_seed km) as [seed|]; [|done]. cbn [ok_or unwrap mbind result_bind key_bytes].
  destruct (siv_encrypt _ _ _) as [c|] eqn:Hc; [|done].
  destruct (Nat.eqb_spec (length c) ENCRYPTED_SEED_SIZE); [|done]. intros [= <-]. by exists kp, seed.
Qed.

Lemma authenticate_Ok cert n n' s :
  authenticate cert n = (n', Ok s) ->
  exists pk km, verify_ra_cert cert = Ok pk /\ length pk = PUBLIC_KEY_SIZE /\
    KEY_MANAGER n = (n', km) /\ seed_for km pk s.
Proof.
  unfold authenticate. destruct (verify_ra_cert cert) as [pk| |]; [|done..].
  destruct (Nat.eqb_spec (length pk) PUBLIC_KEY_SIZE); [|done]. cbn [negb].
  destruct (KEY_MANAGER n) as [n1 km]. destruct (encrypt_seed km pk) as [c| |] eqn:He; [|done..].
  intros [= <- <-]. exists pk, km. split_and!; try done. by apply encrypt_seed_Ok.
Qed.

Lemma authenticate_Err cert n n' e : authenticate cert n = (n', Err e) -> e <> NodeSuccess.
Proof.
  unfold authenticate. destruct (verify_ra_cert cert) as [pk|e'|] eqn:Hv; [| |done].
  - destruct (negb _); [by intros [= _ <-]|]. destruct (KEY_MANAGER n) as [n1 km].
    destruct (encrypt_seed km pk); [done| |done]. by intros [= _ <-].
  - intros [= _ <-]. by eapply verify_ra_cert_error.
Qed.

(** The ecall ends with success and a seed, or with another result and none; or the memory reserve
    fails, outside of what is caught. *)
Lemma authenticate_result reserve_in reserve_out oom cert inside st n :
  (exists st' n' code seed,
    ecall_authenticate_new_node grow reserve_in reserve_out oom cert inside st n = (st', n', Ok (code, seed)) /\
    match seed with Some _ => code = NodeSuccess | None => code <> NodeSuccess end) \/
  ((ecall_authenticate_new_node grow reserve_in reserve_out oom cert inside st n).2 = Panic /\
   (reserve_fails reserve_in st \/ exists c, Safety.growth reserve_out c = false)).
Proof.
  unfold ecall_authenticate_new_node, register_oom_handler.
  pose proof (restore_panics grow reserve_in st) as Hin.
  destruct (restore_safety_buffer grow reserve_in st) as [st1 [[]| |]] eqn:E1;
    [|by left; eexists _, _, _, None|by right; split; [|left; apply Hin]].
  apply restore_builds in E1.
  destruct inside, (validate_const_ptr cert); cbn [negb]; try by left; eexists _, _, _, None.
  destruct (if oom then _ else _) as [[st2 n2] r] eqn:Hr.
  assert (is_built st2) as Hb2.
  { destruct E1 as [b Hb]. revert Hr. destruct oom; [intros [= <- _ _]; apply hook_built; by exists b|].
    destruct (authenticate _ _). intros [= <- _ _]. by exists b. }
  pose proof (restore_panics_built grow reserve_out st2 Hb2) as Hout.
  destruct (restore_safety_buffer grow reserve_out st2) as [st3 [[]| |]];
    [|by left; eexists _, _, _, None|by right; split; [|right; apply Hout]]. left.
  destruct r as [s|e|]; [| |by eexists _, _, _, None];
    (destruct oom; [done|]); destruct (authenticate (s_data cert) n) as [n' r'] eqn:Ha; simplify_eq Hr; intros <- <- ->.
  - destruct (authenticate_Ok _ _ _ _ Ha) as (pk & km & _ & _ & _ & (kp & seed & _ & _ & _ & Hl)).
    rw Hl Nat.eqb_refl. by eexists _, _, _, (Some s).
  - apply authenticate_Err in Ha. by eexists _, _, _, None.
Qed.

(** C30: The ecall that authenticates a node returns a result whatever certificate the host
    presents, also when its work panics or memory runs out in it, unless the memory reserve
    fails: the panics of the checks are caught, and the copy of the encrypted seed that
    follows them, outside of what is caught, never fails. A seed is handed out exactly when
    the result is success. The ecall does not return only when, on entry, an earlier attempt
    to build the reserve panicked, or the reserve is built for the first time and its vector
    or one of its first 2049 chunks cannot be allocated, or when on entry or exit the vector
    of the reserve cannot grow while its lock is held. (Unwinding is taken to find memory in
    the freed reserve.) *)
Theorem authentication_is_contained reserve_in reserve_out oom cert inside st n :
  (exists st' n' code seed,
    ecall_authenticate_new_node grow reserve_in reserve_out oom cert inside st n = (st', n', Ok (code, seed)) /\
    (is_Some seed <-> code = NodeSuccess)) \/
  ((ecall_authenticate_new_node grow reserve_in reserve_out oom cert inside st n).2 = Panic /\
   (reserve_fails reserve_in st \/ exists c, Safety.growth reserve_out c = false)).
Proof.
  destruct (authenticate_result reserve_in reserve_out oom cert inside st n) as [(st' & n' & code & seed & He & Hs)|H]; [left|by right].
  exists st', n', code, seed. split; [done|]. destruct seed; [done|]. by split; [intros []|].
Qed.

Lemma ecall_authenticate_seed reserve_in reserve_out oom cert inside st n st' n' code s :
  ecall_authenticate_new_node grow reserve_in reserve_out oom cert inside st n = (st', n', Ok (code, Some s)) ->
  authenticate (s_data cert) n = (n', Ok s).
Proof.
  unfold ecall_authenticate_new_node.
  destruct (register_oom_handler grow reserve_in st) as [st1 [[]| |]]; [|done..].
  destruct inside, (validate_const_ptr cert); cbn [negb]; try done.
  destruct oom; [by destruct (restore_safety_buffer _ _ _) as [? [[]| |]]|].
  destruct (authenticate (s_data cert) n) as [n2 [r| |]];
    destruct (restore_safety_buffer _ _ _) as [? [[]| |]]; try done.
  destruct (_ =? _)%nat; [|done]. by intros [= _ -> _ ->].
Qed.

(** C9: On a production chain the encrypted seed is released only to a key that an attested
    enclave chose: the certificate carries a report that Intel's service signed, about a
    platform whose status is acceptable and an enclave with the measurement of this one; the
    key is the one in that report, and what is released is the seed encrypted for it and
    nothing else. *)
Theorem seed_only_for_attested_enclaves reserve_in reserve_out oom cert inside st n st' n' code s :
  sgx_mode_hw = true -> production = true ->
  ecall_authenticate_new_node grow reserve_in reserve_out oom cert inside st n = (st', n', Ok (code, Some s)) ->
  exists pk km, attested (s_data cert) pk /\ length pk = PUBLIC_KEY_SIZE /\
    KEY_MANAGER n = (n', km) /\ seed_for km pk s.
Proof.
  intros Hhw Hprod H%ecall_authenticate_seed. destruct (authenticate_Ok _ _ _ _ H) as (pk & km & Hv & Hl & Hk & Hs).
  exists pk, km. split_and!; try done. by apply verify_ra_cert_attested.
Qed.

End EcallFacts.

(** ** The whole exchange, in software mode *)

Section Exchange.
Context `{P : Primitives} {HP : PrimitiveLaws} {HD : DhLaws} `{F : SgxFs} {HF : SgxFsLaws}.
Context `{UF : UntrustedFs} {HUF : UntrustedFsLaws} `{C : Codecs} {HC : CodecLaws} `{T : CertTools} {HT : CertLaws}.
Context `{J : ReportJson} `{W : Webpki} `{I : IasConnection} `{Ft : Features} `{Q : Quoting}.
Hypothesis Hsw : sgx_mode_hw = false.
Hypothesis base64_readable : forall b, length b = 32 -> readable (length (lit (base64_encode b))).

(** The comment of a software certificate for a key, as it is encoded. *)
Definition key_comment (pk : bytes) : bytes := der_tlv 0x04 (lit (base64_encode pk)).

Lemma write_to_untrusted_Ok b path n n' :
  write_to_untrusted b path n = (n', Ok tt) -> n' = set_files (file_store (n_files n) path b) n.
Proof.
  unfold write_to_untrusted. destruct (ut_create path); [|done].
  pose proof (ut_write_ok path b) as Hw. destruct (ut_write_all path b) as [contents [|]]; [|done].
  intros [= <-]. cbn in Hw. by rw Hw.
Qed.

Lemma attest_from_key_Ok kp path spid api_key n n' :
  attest_from_key kp path spid api_key n = (n', Ok tt) ->
  exists key cert, create_attestation_certificate_sw kp = Ok (key, cert) /\
    n' = set_files (file_store (n_files n) path cert) n.
Proof.
  unfold attest_from_key, create_attestation_certificate. rw Hsw. cbv [mbind M_bind liftR].
  destruct (create_attestation_certificate_sw kp) as [[key cert]| |]; [|done..].
  intros H%write_to_untrusted_Ok. by exists key, cert.
Qed.

(** The certificate a node writes for its key is accepted for that key. *)
Lemma own_certificate_verifies kp key cert :
  create_attestation_certificate_sw kp = Ok (key, cert) -> length (public_key kp) = 32 ->
  sole_comment (key_comment (public_key kp)) cert = true ->
  verify_ra_cert cert = Ok (public_key kp).
Proof.
  unfold create_attestation_certificate_sw. intros Hc Hl Hs.
  destruct create_key_pair as [[prv_k pub_k]|]; [|done]. cbn [expect mbind result_bind] in Hc.
  destruct (comment_position _ _ _ _ _ Hc Hs) as (p & post & Hp & Hd & Hpost).
  unfold verify_ra_cert, verify_ra_cert_sw, get_netscape_comment. rw Hsw.
  rw (proj2 (extract_value ns_cmt_oid _ _ _ _ eq_refl Hp Hd Hpost)); [|by apply base64_readable].
  cbn [map_err mbind result_bind]. by rw base64_roundtrip.
Qed.

Lemma certificate_not_empty kp key cert : create_attestation_certificate_sw kp = Ok (key, cert) -> cert <> [].
Proof.
  unfold create_attestation_certificate_sw. intros Hc.
  destruct create_key_pair as [[prv_k pub_k]|]; [|done]. cbn [expect mbind result_bind] in Hc.
  destruct (gen_ecc_cert_layout _ _ _ _ _ Hc) as (pre & post & -> & _). by destruct pre.
Qed.

(** What [Keychain::new] finds after a seed was created, and after a key was. *)
Lemma keychain_new_seed d b :
  open_sealed d CONSENSUS_SEED_SEALING_PATH = Ok b ->
  consensus_seed (keychain_new d) = Some (mkSeed b) /\
  consensus_seed_exchange_keypair (keychain_new d) =
    Some (keypair_from (key_bytes (derive_order (mkSeed b) CONSENSUS_SEED_EXCHANGE_KEYPAIR_DERIVE_ORDER))).
Proof. intros H. unfold keychain_new, seed_unseal, keypair_unseal. by rw H. Qed.

Lemma create_seed_Ok b e e' :
  create_consensus_seed (Ok b) e = (e', Ok tt) -> length b = 32 ->
  disk e' = file_store (disk e) CONSENSUS_SEED_SEALING_PATH b /\ consensus_seed (keychain e') = Some (mkSeed b).
Proof.
  unfold create_consensus_seed, set_consensus_seed, seed_seal. cbn [seed_new mbind result_bind]. intros H Hl.
  destruct (seal _ _ (disk e)) as [d [[]| |]] eqn:Es; [|done..]. apply seal_ok in Es. cbn in Es.
  injection H as <-. by subst d.
Qed.

Lemma create_key_Ok b e e' :
  create_registration_key (Ok b) e = (e', Ok tt) ->
  disk e' = file_store (disk e) REGISTRATION_KEY_SEALING_PATH b /\
  registration_key (keychain e') = Some (keypair_from b) /\
  consensus_seed_exchange_keypair (keychain e') = consensus_seed_exchange_keypair (keychain e).
Proof.
  unfold create_registration_key, set_registration_key, keypair_seal. cbn [keypair_new mbind result_bind]. intros H.
  destruct (seal _ _ (disk e)) as [d [[]| |]] eqn:Es; [|done..]. apply seal_ok in Es. cbn in Es.
  injection H as <-. by subst d.
Qed.

(** The steps of the ecalls that succeeded. *)
Lemma init_bootstrap_Ok b rk inside spid api_key c0 c1 pk master_cert :
  length b = 32 -> length rk = 32 ->
  ecall_init_bootstrap (Ok b) (Ok rk) inside spid api_key c0 = (c1, Ok pk) ->
  file_lookup (n_files c1) SEED_EXCH_CERTIFICATE_SAVE_PATH = Some master_cert ->
  let kp := keypair_from (key_bytes (derive_order (mkSeed b) CONSENSUS_SEED_EXCHANGE_KEYPAIR_DERIVE_ORDER)) in
  pk = public_key kp /\ n_keys c1 = n_keys c0 /\
  open_sealed (n_sealed c1) CONSENSUS_SEED_SEALING_PATH = Ok b /\
  exists key, create_attestation_certificate_sw kp = Ok (key, master_cert).
Proof.
  intros Hb Hrk. unfold ecall_init_bootstrap.
  destruct inside; [|done]. destruct (validate_const_ptr spid); [|done].
  destruct (validate_const_ptr api_key); [|done]. cbn [negb].
  destruct (create_consensus_seed _ _) as [e1 [[]| |]] eqn:H1; [|done..].
  apply create_seed_Ok in H1 as [Hd1 Hs1]; [|done]. cbn [unexpected].
  destruct (create_registration_key _ _) as [e3 [[]| |]] eqn:H3; [|done..].
  apply create_key_Ok in H3 as (Hd3 & _ & Hx3). cbn [disk] in Hd1, Hd3. cbv [mbind M_bind liftR unexpected].
  unfold seed_exchange_key. rw Hx3. cbn [keychain]. unfold generate_consensus_master_keys. rw Hs1.
  cbn [set_consensus_callback_secret set_consensus_state_ikm set_consensus_io_exchange_keypair
       set_consensus_seed_exchange_keypair consensus_seed_exchange_keypair ok_or unwrap].
  set (kp := keypair_from _).
  destruct (attest_from_key kp _ _ _ _) as [m1 [[]| |]] eqn:Ha; [|done..].
  destruct (unwrap _) as [kp2| |]; [|done..].
  destruct (attest_from_key kp2 _ _ _ _) as [m2 [[]| |]] eqn:Ha2; [|done..].
  apply attest_from_key_Ok in Ha as (key & cert & Hc & ->). apply attest_from_key_Ok in Ha2 as (key2 & cert2 & _ & ->).
  intros [= <- <-] Hf. cbn in Hf. injection Hf as <-. split_and!; [done..| |by exists key].
  cbn. rw Hd3 open_other_path; [|apply not_eq_sym, sealing_paths_differ]. rw Hd1. by apply open_after_store.
Qed.

Lemma key_gen_Ok rk inside n0 n1 pk :
  length rk = 32 -> ecall_key_gen (Ok rk) inside n0 = (n1, Ok pk) ->
  pk = x25519_public rk /\ n_keys n1 = n_keys n0 /\ registration_key (keychain_new (n_sealed n1)) = Some (keypair_from rk).
Proof.
  intros Hrk. unfold ecall_key_gen. destruct inside; [|done]. cbn [negb].
  destruct (create_registration_key _ _) as [e1 [[]| |]] eqn:H1; [|done..].
  apply create_key_Ok in H1 as (Hd & Hr & _). cbv [mbind M_bind liftR unexpected].
  unfold get_registration_key. rw Hr. cbn [ok_or unwrap]. intros [= <- <-]. split_and!; [done..|].
  rw registration_key_new. cbn [set_sealed n_sealed]. by rw Hd open_after_store.
Qed.

Lemma attestation_report_Ok spid api_key n1 n2 cert :
  ecall_get_attestation_report spid api_key n1 = (n2, Ok tt) -> n_keys n1 = None ->
  file_lookup (n_files n2) ATTESTATION_CERTIFICATE_SAVE_PATH = Some cert ->
  n_sealed n2 = n_sealed n1 /\ n_keys n2 = Some (keychain_new (n_sealed n1)) /\
  exists kp key, registration_key (keychain_new (n_sealed n1)) = Some kp /\
    create_attestation_certificate_sw kp = Ok (key, cert).
Proof.
  unfold ecall_get_attestation_report. destruct (validate_const_ptr spid); [|done].
  destruct (validate_const_ptr api_key); [|done]. cbn [negb]. unfold KEY_MANAGER. intros H Hk. rw Hk in H.
  revert H. cbv [mbind M_bind liftR]. unfold get_registration_key, create_attestation_certificate. rw Hsw.
  destruct (registration_key _) as [kp|]; [|done]. cbn [ok_or unwrap].
  destruct (create_attestation_certificate_sw kp) as [[key c]| |] eqn:Hc; [|done..].
  destruct (write_to_untrusted _ _ _) as [m [[]| |]] eqn:Hw; [|done..]. apply write_to_untrusted_Ok in Hw as ->.
  intros [= <- _] Hf. cbn in Hf. injection Hf as <-. split; [done|]. split; [done|]. by exists kp, key.
Qed.

(** The new node opens what the chain encrypted for its key. *)
Lemma decrypt_seed_for a rk km kn s :
  length a = 32 -> length rk = 32 ->
  consensus_seed_exchange_keypair km = Some (keypair_from a) ->
  registration_key kn = Some (keypair_from rk) -> seed_for km (x25519_public rk) s ->
  exists seed, consensus_seed km = Some seed /\ decrypt_seed kn (x25519_public a) s = Ok seed.
Proof.
  intros Ha Hrk Hx Hr (kp & seed & Hkp & Hs & He & Hl). rw Hx in Hkp. injection Hkp as <-.
  exists seed. split; [done|]. unfold decrypt_seed, get_registration_key, diffie_hellman, decrypt_siv, aes_siv_decrypt.
  rw Hr. cbn [ok_or unwrap mbind result_bind keypair_from secret_key public_key key_bytes] in *.
  rw -(dh_commutes a rk) // (siv_decrypt_encrypt _ _ _ _ He). apply siv_length in He.
  rw (proj2 (Nat.eqb_eq _ _)); [by destruct seed|]. unfold ENCRYPTED_SEED_SIZE, SEED_KEY_SIZE in *. lia.
Qed.

(** The keys that all nodes of a chain share. *)
Definition same_consensus (k k' : Keychain) : Prop :=
  consensus_seed k = consensus_seed k' /\
  consensus_state_ikm k = consensus_state_ikm k' /\
  consensus_seed_exchange_keypair k = consensus_seed_exchange_keypair k' /\
  consensus_io_exchange_keypair k = consensus_io_exchange_keypair k' /\
  consensus_callback_secret k = consensus_callback_secret k'.

Lemma same_seed_same_consensus d d' b :
  open_sealed d CONSENSUS_SEED_SEALING_PATH = Ok b -> open_sealed d' CONSENSUS_SEED_SEALING_PATH = Ok b ->
  same_consensus (keychain_new d) (keychain_new d').
Proof. intros H H'. unfold same_consensus, keychain_new, seed_unseal, keypair_unseal. by rw H H'. Qed.

Section Run.
Variables (b rk_c rk_n : bytes) (in_c in_n in_s : bool) (spid_c api_c spid_n api_n : HostSlice).
Variables (c0 c1 c2 n0 n1 n2 : Node) (pk_c pk_n master_cert cert s : bytes).
Variables (grow : nat -> nat) (reserve_in reserve_out : Safety.Supply) (oom : bool) (st st' : Shared) (code : NodeAuthResult).
Variables (cert_slice master_slice seed_slice : HostSlice).
Hypotheses (Hb : length b = 32) (Hrc : length rk_c = 32) (Hrn : length rk_n = 32).

(** The first node of the chain: its seed is made, and its certificate written. *)
Hypothesis bootstrap : ecall_init_bootstrap (Ok b) (Ok rk_c) in_c spid_c api_c c0 = (c1, Ok pk_c).
Hypothesis chain_starts : n_keys c0 = None.
Hypothesis chain_file : file_lookup (n_files c1) SEED_EXCH_CERTIFICATE_SAVE_PATH = Some master_cert.
Hypothesis chain_comment : sole_comment (key_comment pk_c) master_cert = true.

(** A new node makes a key and writes its certificate. *)
Hypothesis key_made : ecall_key_gen (Ok rk_n) in_n n0 = (n1, Ok pk_n).
Hypothesis node_starts : n_keys n0 = None.
Hypothesis attested_node : ecall_get_attestation_report spid_n api_n n1 = (n2, Ok tt).
Hypothesis node_file : file_lookup (n_files n2) ATTESTATION_CERTIFICATE_SAVE_PATH = Some cert.
Hypothesis node_comment : sole_comment (key_comment pk_n) cert = true.

(** The chain authenticates that certificate and hands out an encrypted seed. *)
Hypothesis cert_sent : s_data cert_slice = cert.
Hypothesis authenticated :
  ecall_authenticate_new_node grow reserve_in reserve_out oom cert_slice in_s st c1 = (st', c2, Ok (code, Some s)).

(** The new node gets the chain's certificate and the seed, and can write its sealed file. *)
Hypothesis slices : s_data master_slice = master_cert /\ s_data seed_slice = s /\
  s_addr master_slice <> 0%Z /\ s_addr seed_slice <> 0%Z.
Hypothesis can_seal : sgx_create CONSENSUS_SEED_SEALING_PATH = true /\
  (sgx_write_all CONSENSUS_SEED_SEALING_PATH b).2 = true.

Lemma seed_set n :
  exists e1, set_consensus_seed (mkSeed b) (mkEnclave (keychain_new (n_sealed n)) (n_sealed n)) = (e1, Ok tt) /\
    disk e1 = file_store (n_sealed n) CONSENSUS_SEED_SEALING_PATH b.
Proof.
  unfold set_consensus_seed, seed_seal, seal. destruct can_seal as [-> Hw]. cbn [seed_as_slice seed_bytes disk].
  pose proof (sgx_write_ok CONSENSUS_SEED_SEALING_PATH b Hw) as Hd.
  destruct (sgx_write_all _ b) as [c ok]. cbn in Hw, Hd. subst c ok. by eexists.
Qed.

(** The path through [ecall_init_node] on which every check passes. *)
Lemma init_node_runs n pk seed e1 :
  s_addr master_slice <> 0%Z -> s_data master_slice <> [] ->
  s_addr seed_slice <> 0%Z -> length (s_data seed_slice) = ENCRYPTED_SEED_SIZE ->
  verify_ra_cert (s_data master_slice) = Ok pk -> length pk = PUBLIC_KEY_SIZE ->
  decrypt_seed (keychain_new (n_sealed n)) pk (s_data seed_slice) = Ok seed ->
  set_consensus_seed seed (mkEnclave (keychain_new (n_sealed n)) (n_sealed n)) = (e1, Ok tt) ->
  ecall_init_node master_slice seed_slice n = (set_sealed (disk e1) n, Ok tt).
Proof.
  intros Ham Hm Has Hs Hv Hpk Hd Hset. unfold ecall_init_node, validate_const_ptr.
  rw (proj2 (Z.eqb_neq _ _) Ham) (proj2 (Z.eqb_neq _ _) Has) Hs Hv Hpk Hd Hset.
  by destruct (s_data master_slice).
Qed.

(** When the chain's first node was set up, a new node made a key and a certificate for it, and
    the chain authenticated that certificate, then the new node accepts the encrypted seed and,
    started anew, has the same seed and master keys as the chain; the process that accepted it keeps
    the keys it had loaded to make its certificate. *)
Lemma exchange_completes :
  exists n3, ecall_init_node master_slice seed_slice n2 = (n3, Ok tt) /\
    consensus_seed (KEY_MANAGER (restarted n3)).2 = Some (mkSeed b) /\
    same_consensus (KEY_MANAGER (restarted n3)).2 (KEY_MANAGER c2).2 /\
    (KEY_MANAGER n3).2 = keychain_new (n_sealed n1).
Proof.
  destruct (init_bootstrap_Ok _ _ _ _ _ _ _ _ _ Hb Hrc bootstrap chain_file) as (-> & Hkc & Hoc & (key & Hmc)).
  destruct (key_gen_Ok _ _ _ _ _ Hrn key_made) as (-> & Hkn & Hrk).
  rw node_starts in Hkn. rw chain_starts in Hkc.
  destruct (attestation_report_Ok _ _ _ _ _ attested_node Hkn node_file) as (Hsn & Hkn2 & kp & key' & Hkp & Hnc).
  rw Hrk in Hkp. injection Hkp as <-.
  destruct (authenticate_Ok _ _ _ _ (ecall_authenticate_seed _ _ _ _ _ _ _ _ _ _ _ _ authenticated))
    as (pk & km & Hv & _ & Hkm & Hseed).
  rw cert_sent (own_certificate_verifies _ _ _ Hnc (x25519_public_length _) node_comment) in Hv.
  injection Hv as <-. unfold KEY_MANAGER in Hkm. rw Hkc in Hkm. injection Hkm as <- <-.
  destruct (keychain_new_seed _ _ Hoc) as [Hs0 Hx0].
  rw -Hsn in Hrk.
  destruct (decrypt_seed_for _ _ _ _ _ (derive_key_length _ _) Hrn Hx0 Hrk Hseed) as (seed & Hs1 & Hdec).
  rw Hs0 in Hs1. injection Hs1 as <-. destruct Hseed as (_ & _ & _ & _ & _ & Hlen).
  pose proof (own_certificate_verifies _ _ _ Hmc (x25519_public_length _) chain_comment) as Hvm.
  destruct slices as (Hm & Hss & Ham & Has). rw -Hm in Hmc Hvm. rw -Hss in Hdec Hlen. destruct (seed_set n2) as (e1 & Hset & Hdisk).
  assert (open_sealed (disk e1) CONSENSUS_SEED_SEALING_PATH = Ok b) as Ho by (rw Hdisk; by apply open_after_store).
  exists (set_sealed (disk e1) n2). split_and!.
  - exact (init_node_runs _ _ _ _ Ham (certificate_not_empty _ _ _ Hmc) Has Hlen Hvm (x25519_public_length _) Hdec Hset).
  - by apply keychain_new_seed.
  - by eapply same_seed_same_consensus.
  - unfold KEY_MANAGER. cbn [n_keys set_sealed]. by rw Hkn2.
Qed.

End Run.

End Exchange.

(** ** Concrete parameters, used to run the models on examples *)

(** The checksums of [demo_primitives], with an exchange of keys by addition. *)
Definition dh_primitives : Primitives := {|
  digest_sha256 := digest_sha256 (Primitives := demo_primitives);
  hmac_sha256 := hmac_sha256 (Primitives := demo_primitives);
  hkdf_sha256 := hkdf_sha256 (Primitives := demo_primitives);
  siv_encrypt := siv_encrypt (Primitives := demo_primitives);
  siv_decrypt := siv_decrypt (Primitives := demo_primitives);
  x25519_public s := be_bytes 32 (from_be_bytes s);
  x25519_shared s p := demo_hash (be_bytes 33 (from_be_bytes s + from_be_bytes p));
  ripemd160 := ripemd160 (Primitives := demo_primitives);
  secp_message := secp_message (Primitives := demo_primitives);
  secp_signature := secp_signature (Primitives := demo_primitives);
  secp_public_key := secp_public_key (Primitives := demo_primitives);
  secp_verify := secp_verify (Primitives := demo_primitives)
|}.

Lemma dh_primitive_laws : @PrimitiveLaws dh_primitives.
Proof. destruct demo_primitive_laws. by split. Qed.

Lemma dh_laws : @DhLaws dh_primitives.
Proof.
  assert (forall s, length s = 32 -> from_be_bytes (be_bytes 32 (from_be_bytes s)) = from_be_bytes s) as Hs.
  { intros s Hs. by rw -Hs to_from_be_bytes. }
  split; [|intros; apply be_bytes_length]. intros a b Ha Hb.
  cbn [x25519_shared x25519_public dh_primitives]. by rw !Hs // Z.add_comm.
Qed.

Definition demo_untrusted : UntrustedFs := {| ut_create _ := true; ut_write_all _ data := (data, true) |}.

Lemma demo_untrusted_laws : @UntrustedFsLaws demo_untrusted.
Proof. by split. Qed.

(** Every comment is an endorsed report on the quote of the repository's test. *)
Definition demo_report_json : ReportJson := {|
  value_from_slice _ := Some (JObject [
    ("version", JNumber (Some 4%Z)); ("isvEnclaveQuoteStatus", JString "SW_HARDENING_NEEDED");
    ("isvEnclaveQuoteBody", JString (string_of_list_byte test_quote));
    ("advisoryIDs", JArray [JString "INTEL-SA-00334"])]%string);
  endorsed_from_slice _ := Some (lit "report", lit "signature", lit "certificate");
  endorsed_to_string _ _ _ := Some (lit "endorsed")
|}.

Definition demo_webpki : Webpki := {|
  EndEntityCert := bytes;
  TrustAnchor := bytes;
  end_entity_from b := Some b;
  verify_is_valid_tls_server_cert _ _ _ _ _ := true;
  verify_signature c _ msg sig := bytes_eqb sig (lit "signature");
  add_pem_file b := Some [b];
  IAS_REPORT_CA := lit "-----BEGIN CERTIFICATE-----root-----END CERTIFICATE-----"
|}.

Section Demo.
#[local] Existing Instance dh_primitives.
#[local] Existing Instance dh_primitive_laws.
#[local] Existing Instance dh_laws.
#[local] Existing Instance demo_fs.
#[local] Existing Instance demo_fs_laws.
#[local] Existing Instance demo_untrusted.
#[local] Existing Instance demo_untrusted_laws.
#[local] Existing Instance demo_codecs.
#[local] Existing Instance demo_codec_laws.
#[local] Existing Instance demo_cert_tools.
#[local] Existing Instance demo_cert_laws.
#[local] Existing Instance demo_report_json.
#[local] Existing Instance demo_webpki.
#[local] Existing Instance demo_ias.
#[local] Existing Instance demo_quoting.

Definition demo_slice : HostSlice := mkSlice 1 (lit "spid").
Definition demo_file (n : Node) (path : string) : HostSlice := mkSlice 1 (default [] (file_lookup (n_files n) path)).
Definition demo_key (name : string) : bytes := demo_hash (lit name).
Definition empty_node : Node := mkNode None [] [].

Definition demo_chain : Node * result Z bytes :=
  ecall_init_bootstrap (Ft := sw_features) (Ok demo_seed) (Ok (demo_key "chain")) true demo_slice demo_slice empty_node.
Definition demo_answer (ft : Features) (cert : HostSlice) :=
  ecall_authenticate_new_node (Ft := ft) Safety.vec_grow Safety.plenty Safety.plenty false cert true
    demo_shared demo_chain.1.
Definition demo_released (ft : Features) (cert : HostSlice) : bytes :=
  match (demo_answer ft cert).2 with Ok (_, Some s) => s | _ => [] end.

Definition demo_hw_cert : HostSlice := mkSlice 1 (demo_generated (lit "endorsed")).2.

Lemma seed_only_for_attested_enclaves_witness :
  (demo_answer hw_features demo_hw_cert).2 = Ok (NodeSuccess, Some (demo_released hw_features demo_hw_cert)) /\
  exists pk km,
    attested (s_data demo_hw_cert) pk /\ length pk = PUBLIC_KEY_SIZE /\
    KEY_MANAGER demo_chain.1 = ((demo_answer hw_features demo_hw_cert).1.2, km) /\
    seed_for km pk (demo_released hw_features demo_hw_cert).
Proof.
  split; [vm_compute; reflexivity|].
  apply (seed_only_for_attested_enclaves (Ft := hw_features) Safety.vec_grow Safety.plenty Safety.plenty false
           demo_hw_cert true demo_shared demo_chain.1 (demo_answer hw_features demo_hw_cert).1.1
           (demo_answer hw_features demo_hw_cert).1.2 NodeSuccess); vm_compute; reflexivity.
Defined.
End Demo.
