(* ===== verification/HardwareMode.v ===== *)
(** * Attestation in hardware mode, end to end: registration/attestation.rs and cert.rs

    Under cosmwasm/packages/wasmi-runtime/src/registration.  Registration.v shows what an accepted
    certificate proves; this file shows that an honest node gets one: on a platform whose
    processor and quoting enclave do what Intel documents, with a service that answers as its
    API says, the certificate a node makes for its key is accepted for that key. *)

From Stdlib Require Import Strings.String.
From stdpp Require Import base tactics list numbers strings ssreflect.
From S2P Require Import Prelude Utf8 Crypto SecretMsg Ecalls Cert Report Attestation SigningCert Registration.

Local Open Scope list_scope.

(** ** Reading the headers of a response *)

Section Headers.

Definition CONTENT_LENGTH : string := "Content-Length".
Definition SIGNATURE : string := "X-IASReport-Signature".
Definition SIGNING_CERTIFICATE : string := "X-IASReport-Signing-Certificate".

(** The value of the header of a name, if it is there. *)
Fixpoint header (name : string) (headers : list (string * bytes)) : option bytes :=
  match headers with
  | [] => None
  | (k, v) :: rest => if (k =? name)%string then Some v else header name rest
  end.

Lemma header_none name headers : name ∉ headers.*1 -> header name headers = None.
Proof.
  induction headers as [|[k v] rest IH]; [done|]. cbn. intros [Hk Hr]%not_elem_of_cons.
  destruct (String.eqb_spec k name); [by subst|]. by apply IH.
Qed.

Lemma report_headers_read {E} headers n0 sig0 cert0 len n sig cert :
  NoDup headers.*1 ->
  header CONTENT_LENGTH headers = len -> header SIGNATURE headers = sig ->
  header SIGNING_CERTIFICATE headers = cert ->
  (forall v, len = Some v -> Text.from_utf8 v = true /\ parse_u32 v = Some n) -> (len = None -> n = n0) ->
  (forall v, sig = Some v -> Text.from_utf8 v = true) -> (forall v, cert = Some v -> Text.from_utf8 v = true) ->
  report_headers (E := E) headers n0 sig0 cert0 = Ok (n, default sig0 sig, default cert0 cert).
Proof.
  revert n0 sig0 cert0 len sig cert.
  induction headers as [|[k v] rest IH]; intros n0 sig0 cert0 len sig cert Hnd Hl Hs Hc Hn Hn0 Hu Hv; cbn in *.
  { subst. by rw Hn0. }
  apply NoDup_cons in Hnd as [Hk Hnd].
  destruct (String.eqb_spec k "Content-Length") as [->|H1].
  { cbn in Hl. subst len. destruct (Hn v eq_refl) as [Hv1 Hp]. unfold utf8_unwrap. rw Hv1. cbn. rw Hp. cbn.
    apply (IH n sig0 cert0 None sig cert); try done. by apply header_none. }
  cbn [String.eqb] in *. destruct (String.eqb_spec k "X-IASReport-Signature") as [->|H2].
  { cbn in Hl, Hs, Hc. subst sig. unfold utf8_unwrap. rw (Hu v eq_refl). cbn.
    rw (IH n0 v cert0 len None cert) //. by apply header_none. }
  destruct (String.eqb_spec k "X-IASReport-Signing-Certificate") as [->|H3].
  { cbn in Hl, Hs, Hc. subst cert. unfold utf8_unwrap. rw (Hv v eq_refl). cbn.
    rw (IH n0 sig0 v len sig None) //. by apply header_none. }
  destruct (String.eqb_spec k CONTENT_LENGTH), (String.eqb_spec k SIGNATURE), (String.eqb_spec k SIGNING_CERTIFICATE); try done.
  by apply (IH n0 sig0 cert0 len sig cert).
Qed.

End Headers.

(** ** The platform and the service *)

Section Hardware.
Context `{P : Primitives} `{C : Codecs} {HC : CodecLaws} `{T : CertTools} {HT : CertLaws}.
Context `{J : ReportJson} {HJ : ReportJsonLaws} `{W : Webpki} `{I : IasConnection} `{Ft : Features} `{Q : Quoting}.

(** The measurements of this enclave. *)
Variables (own_enclave own_signer : bytes).

(** EREPORT: a report carries the measurements of the enclave and the data it was asked for. *)
Hypothesis reports_are_made : forall ti d, length d = 64 -> exists rep, rsgx_create_report ti d = Ok rep /\
  r_mr_enclave rep = own_enclave /\ r_mr_signer rep = own_signer /\ r_report_data rep = d.

(** A quote describes a report: the fields of its body, at their documented offsets. *)
Definition describes (quote : bytes) (rep : SgxReport) : Prop :=
  432 <= length quote /\ is_ok (quote_version_at quote) = true /\
  field quote 112 32 = r_mr_enclave rep /\ field quote 176 32 = r_mr_signer rep /\
  field quote 368 64 = r_report_data rep.

(** A quote that this platform issued for a report. *)
Definition issued (rep : SgxReport) (quote : bytes) : Prop :=
  exists sigrl sign_type spid ti answer,
    ocall_get_quote sigrl rep sign_type spid quote_nonce = (SGX_SUCCESS, SGX_SUCCESS, answer) /\
    genuine_quote ti answer quote.

(** The quoting enclave quotes the report it was given. *)
Hypothesis quotes_are_made : forall rep quote, issued rep quote -> describes quote rep.

(** The report of the service on a quote, as version 4 of its API has it. *)
Definition reports_on (quote report : bytes) : Prop :=
  exists v status advisories,
    value_from_slice report = Some v /\ as_u64 (json_index v "version") = Some 4%Z /\
    (forall blob, as_str (json_index v "platformInfoBlob") = Some blob -> is_Some (hex_decode (lit blob))) /\
    as_str (json_index v "isvEnclaveQuoteStatus") = Some status /\
    as_str (json_index v "isvEnclaveQuoteBody") = Some (base64_encode (take 432 quote)) /\
    as_strings (json_index v "advisoryIDs") = Some advisories /\
    verify_quote_status (SgxQuoteStatus_from status) advisories = Ok tt.

(** The characters that the service leaves as they are in the header of the chain. *)
Variable keep : byte -> bool.
Hypothesis percent_escaped : keep PERCENT = false.
Hypothesis newline_escaped : keep NEWLINE = false.

(** A response of the service: its headers, each once; the chain with the certificate that signed
    first; the report as its body. *)
Definition answers (quote resp : bytes) : Prop :=
  exists len n signature pem rest der report,
    let h := http_headers (http_parse resp) in
    http_code (http_parse resp) = Some 200%Z /\ NoDup (h.*1) /\
    header CONTENT_LENGTH h = Some len /\ Text.from_utf8 len = true /\ parse_u32 len = Some n /\ n <> 0%Z /\
    header SIGNATURE h = Some (lit (base64_encode signature)) /\ Text.from_utf8 (lit (base64_encode signature)) = true /\
    header SIGNING_CERTIFICATE h = Some (percent_encode keep pem) /\ Text.from_utf8 (percent_encode keep pem) = true /\
    Forall is_ascii pem /\ without_newlines pem = BEGIN ++ lit (base64_encode der) ++ END_ ++ rest /\
    DASH ∉ lit (base64_encode der) /\
    (forall E, response_body (E := E) (http_parse resp) resp = Ok report) /\
    signed_by_intel (mkEndorsed report signature der) /\ reports_on quote report.

Hypothesis service_answers : forall fd rep quote api_key resp,
  issued rep quote -> tls_exchange fd (report_request quote api_key) = Some resp -> answers quote resp.

Lemma response_read {E} quote resp :
  answers quote resp ->
  exists report signature der, parse_response_attn_report (E := E) resp = Ok (report, signature, der) /\
    signed_by_intel (mkEndorsed report signature der) /\ reports_on quote report.
Proof.
  intros (len & n & signature & pem & rest & der & report & Hcode & Hnd & Hl & Hul & Hpl & Hn & Hs & Hus & Hc & Huc & Ha & Hpem & Hd & Hb & Hsig & Hrep).
  exists report, signature, der. split; [|done].
  eapply (signing_certificate_is_extracted keep); try done.
  rw (report_headers_read _ _ _ _ (Some len) n (Some (lit (base64_encode signature))) (Some (percent_encode keep pem))) //; naive_solver.
Qed.

Lemma field_take quote off size : off + size <= 432 -> field (take 432 quote) off size = field quote off size.
Proof. intros H. unfold field. rw skipn_firstn_comm take_take. f_equal. lia. Qed.

Lemma version_take quote : quote_version_at (take 432 quote) = quote_version_at quote.
Proof. unfold quote_version_at. rw !field_take //; lia. Qed.

(** What the verifier reads from a report on a quote that describes an enclave's report. *)
Lemma attestation_read quote report rep :
  describes quote rep -> reports_on quote report ->
  exists a, attestation_of_json report = Ok a /\
    verify_quote_status (sgx_quote_status a) (advisroy_ids a) = Ok tt /\
    mr_enclave (isv_enclave_report (sgx_quote_body a)) = r_mr_enclave rep /\
    mr_signer (isv_enclave_report (sgx_quote_body a)) = r_mr_signer rep /\
    report_data (isv_enclave_report (sgx_quote_body a)) = r_report_data rep.
Proof.
  intros (Hlen & Hv & He & Hs & Hd) (v & status & adv & Hj & Hver & Hblob & Hst & Hq & Hadv & Hok).
  unfold attestation_of_json. rw Hj. cbn [ok_or mbind result_bind]. rw Hver. cbn [ok_or mbind result_bind Z.eqb negb Pos.eqb].
  assert (exists blob, (match as_str (json_index v "platformInfoBlob") with
    | Some blob => b ← ok_or ReportParseError (hex_decode (lit blob)); Ok (Some b)
    | None => Ok None
    end) = Ok blob) as [blob ->].
  { destruct (as_str (json_index v "platformInfoBlob")) as [t|] eqn:Et; [|by eexists].
    destruct (Hblob t eq_refl) as [b ->]. by eexists. }
  cbn [mbind result_bind]. rw Hst. cbn [ok_or mbind result_bind]. rw Hq. cbn [ok_or mbind result_bind].
  rw base64_roundtrip. cbn [ok_or mbind result_bind]. rw quote_parsed length_take_le // version_take.
  change (432 =? 432)%nat with true. cbv iota. destruct (quote_version_at quote) as [ver| |]; [|done..].
  cbn [mbind result_bind]. rw Hadv. cbn [ok_or mbind result_bind]. eexists. split; [done|]. cbn [sgx_quote_status advisroy_ids].
  split; [done|]. cbn [sgx_quote_body isv_enclave_report mr_enclave mr_signer report_data]. rw !field_take //; lia.
Qed.

(** A certificate whose comment carries a signed report is read as that report. *)
Lemma from_cert_read cert payload r :
  get_netscape_comment cert = Ok payload -> endorsed_serialize r = Some payload -> signed_by_intel r ->
  AttestationReport_from_cert cert = attestation_of_json (ear_report r).
Proof.
  intros Hp Hs (sc & ic & ta & He & Hc & Hv & Hg). unfold AttestationReport_from_cert.
  rw Hp. cbn [map_err mbind result_bind]. rw (endorsed_report_roundtrip _ _ Hs). cbn [ok_or mbind result_bind].
  rw He. cbn [ok_or mbind result_bind]. rw Hc. cbn [mbind result_bind]. by rw Hv Hg.
Qed.

(** The certificate carries the report of the service on a quote of this enclave and the key. *)
Lemma hardware_certificate_made kp sign_type spid api_key key cert :
  create_attestation_certificate_hw kp sign_type spid api_key = Ok (key, cert) ->
  exists prv_k pub_k r payload ti eg rep quote,
    create_attestation_report (public_key kp) sign_type spid api_key = Ok r /\
    endorsed_serialize r = Some payload /\ gen_ecc_cert (E := Z) payload prv_k pub_k = Ok (key, cert) /\
    ocall_sgx_init_quote = (SGX_SUCCESS, SGX_SUCCESS, ti, eg) /\
    rsgx_create_report ti (public_key kp ++ replicate 32 Byte.x00) = Ok rep /\ describes quote rep /\
    signed_by_intel r /\ reports_on quote (ear_report r).
Proof.
  unfold create_attestation_certificate_hw. destruct create_key_pair as [[prv_k pub_k]|]; [|done]. cbn [expect mbind result_bind].
  destruct (create_attestation_report _ _ _ _) as [r| |] eqn:Hr; [|done..]. cbn [mbind result_bind].
  destruct (endorsed_serialize r) as [payload|] eqn:Hs; [|done]. cbn [ok_or mbind result_bind]. intros Hg.
  destruct (create_attestation_report_inv _ _ _ _ _ Hr) as (ti & eg & rep & sigrl & spid' & answer & quote & sock & resp & Hi & Hrep & Hq & Hgen & Ht & Hp).
  assert (issued rep quote) as His by (by exists sigrl, sign_type, spid', ti, answer).
  destruct (response_read (E := Z) quote resp (service_answers _ _ _ _ _ His Ht)) as (report & signature & der & Hp' & Hsig & Hon).
  rw Hp in Hp'. destruct r as [rr rs rc]. cbn in *. simplify_eq.
  exists prv_k, pub_k, (mkEndorsed report signature der), payload, ti, eg, rep, quote. split_and!; try done.
  by apply quotes_are_made.
Qed.

(** The measurement of an enclave whose report a quote describes is this enclave's. *)
Lemma own_measurement ti eg body :
  ocall_sgx_init_quote = (SGX_SUCCESS, SGX_SUCCESS, ti, eg) ->
  mr_enclave body = own_enclave -> mr_signer body = own_signer ->
  (SIGNING_METHOD = ByMrSigner -> own_signer = MRSIGNER) -> verify_measurement body = Ok tt.
Proof.
  intros Hi He Hs Hm. unfold verify_measurement, get_mr_enclave, bytes_eqb. rw Hi.
  destruct SIGNING_METHOD; [| |done].
  - by rw Hs Hm // bool_decide_true.
  - change (ocall_status SGX_SUCCESS SGX_SUCCESS) with (Ok (E := Z) tt).
    cbn [mbind result_bind]. destruct (reports_are_made ti (replicate 64 Byte.x00) eq_refl) as (rep & -> & Hrep & _).
    cbn [map_err mbind result_bind]. rw He Hrep. by rw bool_decide_true.
Qed.

(** An honest node in hardware mode is let in: the certificate it makes for its key, with the
    quote its processor vouches for and the report of the service on it, is accepted by an
    enclave of the same code, and for that key.  The comment has to have a length the reader of
    certificates understands, and its identifier must not occur elsewhere in the certificate. *)
Theorem hardware_certificate_is_accepted kp sign_type spid api_key key cert :
  sgx_mode_hw = true -> (SIGNING_METHOD = ByMrSigner -> own_signer = MRSIGNER) -> length (public_key kp) = 32 ->
  create_attestation_certificate kp sign_type spid api_key = Ok (key, cert) ->
  (forall r payload, create_attestation_report (public_key kp) sign_type spid api_key = Ok r ->
     endorsed_serialize r = Some payload ->
     readable (length payload) /\ sole_comment (der_tlv 0x04 payload) cert = true) ->
  verify_ra_cert cert = Ok (public_key kp).
Proof.
  unfold create_attestation_certificate, verify_ra_cert. intros -> Hm Hlen Hc Hcomment.
  destruct (hardware_certificate_made _ _ _ _ _ _ Hc) as
    (prv_k & pub_k & r & payload & ti & eg & rep & quote & Hmade & Hs & Hg & Hi & Hrep & Hd & Hsig & Hon).
  destruct (Hcomment _ _ Hmade Hs) as [Hread Hsole].
  destruct (attestation_read _ _ _ Hd Hon) as (a & Ha & Hst & Hen & Hsi & Hda).
  destruct (reports_are_made ti (public_key kp ++ replicate 32 Byte.x00)) as (rep' & Hr' & He & Hs' & Hd');
    [by rw length_app Hlen|].
  rw Hrep in Hr'. injection Hr' as <-.
  unfold verify_ra_cert_hw.
  rw (from_cert_read cert payload r) // ?Ha; [|by apply (comment_is_readable _ _ _ _ _ Hg Hsole)].
  cbn [map_err mbind result_bind]. rw Hst. cbn [mbind result_bind].
  rw (own_measurement ti eg) //; [|congruence..]. cbn [mbind result_bind]. rw Hda Hd'.
  unfold slice. rw bool_decide_true; [|rw length_app; lia]. by rw drop_0 Nat.sub_0_r -Hlen take_app_length.
Qed.

End Hardware.

(** ** A platform and a service, used to run the models on an example *)

Section Demo.
#[local] Existing Instance demo_primitives.
#[local] Existing Instance demo_codecs.
#[local] Existing Instance demo_codec_laws.
#[local] Existing Instance demo_cert_tools.
#[local] Existing Instance demo_cert_laws.
#[local] Existing Instance demo_webpki.
#[local] Existing Instance hw_features.

Definition node_key : KeyPair := keypair_from (demo_hash (lit "node")).
Definition node_data : bytes := public_key node_key ++ replicate 32 Byte.x00.

(** The enclave of the repository's test, with the data of this node. *)
Definition node_enclave : bytes := field test_quote 112 32.
Definition node_signer : bytes := field test_quote 176 32.
Definition node_quote : bytes := take 368 test_quote ++ node_data.

Definition node_quoting : Quoting := {|
  ocall_sgx_init_quote := (0%Z, 0%Z, mkTarget (lit "quoting enclave") 7 7, be_bytes 4 0);
  ocall_get_ias_socket _ := (0%Z, 0%Z, 3%Z);
  ocall_get_quote _ rep _ _ _ :=
    (0%Z,
     if bytes_eqb (r_mr_enclave rep) node_enclave && bytes_eqb (r_mr_signer rep) node_signer &&
        bytes_eqb (r_report_data rep) node_data then 0%Z else SGX_ERROR_UNEXPECTED,
     mkQuoteAnswer (mkSgxReport (lit "quoting enclave") [] 7 7 (demo_hash (demo_nonce ++ node_quote))) node_quote 432);
  rsgx_create_report _ data := Ok (mkSgxReport node_enclave node_signer 7 7 data);
  rsgx_verify_report _ := Ok tt;
  quote_nonce := demo_nonce;
  create_key_pair := Some (demo_private, demo_public)
|}.
#[local] Existing Instance node_quoting.

(** The service signs a report on that quote. *)
Definition service_ias : IasConnection := {|
  http_parse resp := mkHttp (Some (Some 0)) (Some 200%Z)
    [("Content-Length"%string, lit "2"); ("X-IASReport-Signature"%string, lit "signature");
     ("X-IASReport-Signing-Certificate"%string, percent_encode demo_keep demo_pem)];
  tls_exchange _ _ := Some (lit "{}");
  warn_enabled := false
|}.
#[local] Existing Instance service_ias.

Definition service_json : ReportJson := {|
  value_from_slice _ := Some (JObject [
    ("version", JNumber (Some 4%Z)); ("isvEnclaveQuoteStatus", JString "SW_HARDENING_NEEDED");
    ("isvEnclaveQuoteBody", JString (string_of_list_byte node_quote));
    ("advisoryIDs", JArray [JString "INTEL-SA-00334"])]%string);
  endorsed_from_slice _ := Some (lit "{}", lit "signature", lit "MIICert");
  endorsed_to_string r s c :=
    if bytes_eqb (lit r) (lit "{}") && bytes_eqb (lit s) (lit "signature") && bytes_eqb (lit c) (lit "MIICert")
    then Some (lit "endorsed") else None
|}.
#[local] Existing Instance service_json.

Lemma service_json_laws : @ReportJsonLaws service_json.
Proof.
  split. intros r s c text. cbn [endorsed_to_string endorsed_from_slice service_json]. unfold bytes_eqb.
  repeat case_bool_decide; cbn [andb]; try done. congruence.
Qed.
#[local] Existing Instance service_json_laws.

Lemma node_quote_issued rep quote :
  issued rep quote -> quote = node_quote /\ r_mr_enclave rep = node_enclave /\ r_mr_signer rep = node_signer /\
    r_report_data rep = node_data.
Proof.
  intros (sigrl & st & spid & ti & answer & Hq & _ & _ & -> & _). cbn [ocall_get_quote node_quoting] in Hq.
  unfold bytes_eqb in Hq. repeat (case_bool_decide; cbn [andb] in Hq; [|done]). injection Hq as <-.
  by split_and!.
Qed.

Lemma node_quote_described rep quote : issued rep quote -> describes quote rep.
Proof.
  intros (-> & He & Hs & Hd)%node_quote_issued. unfold describes. rw He Hs Hd.
  split_and!; [|by vm_compute..]. vm_compute. lia.
Qed.

Lemma service_answered : answers demo_keep node_quote (lit "{}").
Proof.
  exists (lit "2"), 2%Z, (lit "signature"), demo_pem, (BEGIN ++ lit "Root" ++ END_), (lit "MIICert"), (lit "{}").
  cbv zeta. split_and!; try done.
  all: try by vm_compute.
  all: try (match goal with |- ?P => refine (bool_decide_unpack P _) end; by vm_compute).
  - vm_compute. eexists _, _, _. by split_and!.
  - eexists _, _, _. by split_and!; try by vm_compute.
Qed.

Definition node_certificate : result Z (bytes * bytes) :=
  create_attestation_certificate node_key SGX_UNLINKABLE_SIGNATURE (lit "spid") (lit "key").
Definition node_cert : bytes := match node_certificate with Ok (_, cert) => cert | _ => [] end.

Lemma hardware_certificate_is_accepted_witness :
  is_ok node_certificate = true /\ verify_ra_cert node_cert = Ok (public_key node_key).
Proof.
  split; [by vm_compute|].
  apply (hardware_certificate_is_accepted node_enclave node_signer) with
    (keep := demo_keep) (sign_type := SGX_UNLINKABLE_SIGNATURE) (spid := lit "spid") (api_key := lit "key")
    (key := match node_certificate with Ok (key, _) => key | _ => [] end).
  - intros ti d _. by eexists.
  - exact node_quote_described.
  - done.
  - done.
  - intros fd rep quote api_key resp [-> _]%node_quote_issued [= <-]. exact service_answered.
  - done.
  - done.
  - by vm_compute.
  - by vm_compute.
  - intros r payload _ Hs. replace payload with (lit "endorsed").
    + split; [left; vm_compute; lia|by vm_compute].
    + unfold endorsed_serialize in Hs. cbn [endorsed_to_string service_json] in Hs.
      by destruct (_ && _ && _); [injection Hs|].
Defined.
End Demo.
