(* ===== verification/RegistrationHost.v ===== *)
(** * Registration as the chain calls it: the host's wrappers and the bindings

    cosmwasm/packages/sgx-vm/src: enclave.rs, seed.rs and attestation.rs, which load the enclave and
    pass buffers to the ecalls of registration, and the entry points of go-cosmwasm/src/lib.rs over
    them.  Loading an enclave and entering it (the SGX runtime) are parameters. *)

From Stdlib Require Import Strings.String.
From stdpp Require Import base tactics list numbers strings ssreflect gmap relations.
From S2P Require Import Prelude Crypto SecretMsg Ecalls SgxVm SgxVmFacts GoBindings Cert Report Attestation Registration.

Local Open Scope string_scope.
Local Open Scope list_scope.

Abbreviation SGX_SUCCESS := Attestation.SGX_SUCCESS.
Definition SGX_ERROR_INVALID_ENCLAVE : Z := 0x2001.
Definition SGX_ERROR_ENCLAVE_CRASHED : Z := 0x1006.

(** ** Texts *)

(** enclave-ffi-types/src/types.rs: [Display] of the results. *)
Definition display_node_auth_result (r : NodeAuthResult) : string :=
  match r with
  | NodeSuccess => "Enclave quote is valid"
  | NodeGroupOutOfDate => "Enclave quote status was GROUP_OUT_OF_DATE which is not allowed"
  | NodeSignatureInvalid => "Enclave quote status was SIGNATURE_INVALID which is not allowed"
  | NodeSignatureRevoked => "Enclave quote status was SIGNATURE_REVOKED which is not allowed"
  | NodeGroupRevoked => "Enclave quote status was GROUP_REVOKED which is not allowed"
  | NodeKeyRevoked => "Enclave quote status was KEY_REVOKED which is not allowed"
  | NodeSigrlVersionMismatch => "Enclave quote status was SIGRL_VERSION_MISMATCH which is not allowed"
  | NodeConfigurationNeeded => "Enclave quote status was CONFIGURATION_NEEDED which is not allowed"
  | NodeSwHardeningAndConfigurationNeeded =>
      "Enclave quote status was CONFIGURATION_AND_SW_HARDENING_NEEDED which is not allowed"
  | NodeBadQuoteStatus => "Enclave quote status invalid"
  | NodeMrEnclaveMismatch => "Enclave version mismatch. Registering enclave had different code signature"
  | NodeMrSignerMismatch => "Enclave version mismatch. Registering enclave had different signer"
  | NodeInvalidInput => "Enclave received invalid inputs"
  | NodeInvalidCert => "The provided certificate was invalid"
  | NodeCantWriteToStorage => "Writing to file system from the enclave failed"
  | NodeMalformedPublicKey => "The public key in the certificate appears to be malformed"
  | NodeSeedEncryptionFailed => "Encrypting the seed failed"
  | NodeMemorySafetyAllocationError => "failed to allocate minimal safety buffer"
  | NodePanic => "Unexpected panic during node authentication. Certificate may be malformed or invalid"
  end.

Inductive HealthCheckResult : Type := Healthy.
Definition display_health (r : HealthCheckResult) : string := "Success".

(** ** enclave.rs *)

(** The environment of the process, and the SGX runtime: whether an enclave can be created
    from a file, and the text of a status. *)
Class SgxRuntime : Type := {
  scrt_enclave_dir : option string;
  path_exists : string -> bool;
  sgx_enclave_create (path : string) (debug : Z) : result Z Z;
  status_text : Z -> string
}.

Definition ENCLAVE_FILE : string := "librust_cosmwasm_enclave.signed.so".

(** [Path::join] with a relative path. *)
Definition path_join (dir file : string) : string :=
  match dir with
  | EmptyString => file
  | _ => if String.prefix "/" (String.substring (String.length dir - 1) 1 dir) then dir +:+ file
         else dir +:+ "/" +:+ file
  end.

Section Load.
Context `{Ft : Features} `{RT : SgxRuntime}.

Definition ENCLAVE_DEBUG : Z := (if production then 0 else 1)%Z.

Definition init_enclave : result Z Z :=
  let enclave_directory := default "." scrt_enclave_dir in
  let p0 := path_join enclave_directory ENCLAVE_FILE in
  let p1 := if path_exists p0 then p0 else path_join "/lib" ENCLAVE_FILE in
  let p2 := if path_exists p1 then p1 else path_join "/usr/lib" ENCLAVE_FILE in
  let p3 := if path_exists p2 then p2 else path_join "/usr/local/lib" ENCLAVE_FILE in
  if path_exists p3 then sgx_enclave_create p3 ENCLAVE_DEBUG else Err SGX_ERROR_INVALID_ENCLAVE.

(** The enclave is created once; every call sees the same result. *)
Definition get_enclave : result Z Z := init_enclave.

End Load.

(** ** seed.rs and attestation.rs *)

(** A slice of the host; its pointer is not null. *)
Definition as_slice (b : bytes) : HostSlice := mkSlice 1 b.

(** Entering the enclave: the runtime may refuse, and an enclave that panicked is lost.
    Otherwise the status is success, and the second component is what the ecall returned. *)
Definition enter {S A} (entry : Z) (f : M S Z A) (s : S) : S * (Z * result Z A) :=
  if negb (entry =? SGX_SUCCESS)%Z then (s, (entry, Panic))
  else match f s with
       | (s', Panic) => (s', (SGX_ERROR_ENCLAVE_CRASHED, Panic))
       | (s', r) => (s', (SGX_SUCCESS, r))
       end.

(** The two checks after the ecall, of the runtime's status and of the returned one. *)
Definition entered {S A} (entry : Z) (f : M S Z A) : M S Z A :=
  fun s => let '(s', (status, ret)) := enter entry f s in
           (s', if negb (status =? SGX_SUCCESS)%Z then Err status else ret).

(** The platform services of the SGX runtime, which the ocalls of attestation.rs pass on to. *)
Class SgxUae : Type := {
  sgx_init_quote : Z * TargetInfo * bytes;
  sgx_calc_quote_size (sigrl : option bytes) : Z * nat;
  sgx_get_quote (report : SgxReport) (quote_type : QuoteSignType) (spid nonce : bytes) (sigrl : option bytes)
    (quote_size : nat) : Z * SgxReport * bytes;
  (** The socket of a connection to the first IPv4 address of a host, if there is one. *)
  connect_ipv4 (host : string) (port : Z) : option Z
}.

Section Ocalls.
Context `{U : SgxUae}.

Definition host_sgx_init_quote : Z * TargetInfo * bytes := sgx_init_quote.

Definition host_get_ias_socket {E} : result E (Z * Z) :=
  sock ← expect (connect_ipv4 "api.trustedservices.intel.com" 443);
  Ok (SGX_SUCCESS, sock).

(** The size of the caller's buffer is not looked at. *)
Definition host_get_quote (sigrl : option bytes) (report : SgxReport) (quote_type : QuoteSignType)
    (spid nonce : bytes) (maxlen : nat) : Z * QuoteAnswer :=
  let untouched := mkSgxReport [] [] 0 0 [] in
  let '(ret, real_quote_len) := sgx_calc_quote_size sigrl in
  if negb (ret =? SGX_SUCCESS)%Z then (ret, mkQuoteAnswer untouched [] 0)
  else
    let '(ret, qe, quote) := sgx_get_quote report quote_type spid nonce sigrl real_quote_len in
    if negb (ret =? SGX_SUCCESS)%Z then (ret, mkQuoteAnswer untouched [] real_quote_len)
    else (ret, mkQuoteAnswer qe quote real_quote_len).

(** A quote that does not fit the enclave's buffer is written all the same; the enclave, which
    trusts the reported length only as far as its buffer goes, does not accept it. *)
Lemma oversized_quote_is_refused `{P : Primitives} `{Qt : Quoting} sigrl rep st spid nonce ti answer :
  host_get_quote sigrl rep st spid nonce RET_QUOTE_BUF_LEN = (SGX_SUCCESS, answer) ->
  RET_QUOTE_BUF_LEN < (sgx_calc_quote_size sigrl).2 ->
  forall quote, check_qe_report ti answer <> Ok quote.
Proof.
  unfold host_get_quote. destruct (sgx_calc_quote_size sigrl) as [ret size]. cbn [snd].
  destruct (Z.eqb_spec ret SGX_SUCCESS) as [->|]; cbn [negb]; [|by intros [= ->]].
  destruct (sgx_get_quote _ _ _ _ _ _) as [[ret qe] q].
  destruct (Z.eqb_spec ret SGX_SUCCESS) as [->|]; cbn [negb]; [|by intros [= ->]].
  intros [= <-] Hsize quote. unfold check_qe_report. cbn [qe_report quote_len].
  destruct (rsgx_verify_report qe) as [[]| |]; [|done..]. cbn [mbind result_bind].
  destruct (negb _); [done|]. rw (slice_panic (return_quote_buf _)) //.
  unfold return_quote_buf. rw length_take. lia.
Qed.

End Ocalls.

Section Wrappers.
Context `{P : Primitives} `{F : SgxFs} `{UF : UntrustedFs} `{C : Codecs} `{J : ReportJson} `{W : Webpki}.
Context `{I : IasConnection} `{Ft : Features} `{Q : Quoting} `{T : CertTools} `{RT : SgxRuntime}.
Variable grow : nat -> nat.

Definition with_enclave {S A} (k : M S Z A) : M S Z A :=
  fun s => match get_enclave with Ok _ => k s | Err status => (s, Err status) | Panic => (s, Panic) end.

Definition untrusted_health_check (entry : Z) : M Node Z HealthCheckResult :=
  with_enclave (entered entry (fun n => (n, Ok Healthy))).

Definition untrusted_init_node (entry : Z) (master_cert encrypted_seed : bytes) : M Node Z unit :=
  with_enclave (entered entry (ecall_init_node (as_slice master_cert) (as_slice encrypted_seed))).

Definition untrusted_key_gen (entry : Z) (rand_key : result CryptoError bytes) (inside : bool) : M Node Z bytes :=
  with_enclave (entered entry (ecall_key_gen rand_key inside)).

Definition untrusted_init_bootstrap (entry : Z) (rand_seed rand_key : result CryptoError bytes) (inside : bool)
    (spid api_key : bytes) : M Node Z bytes :=
  with_enclave (entered entry (ecall_init_bootstrap rand_seed rand_key inside (as_slice spid) (as_slice api_key))).

Definition create_attestation_report_u (entry : Z) (spid api_key : bytes) : M Node Z unit :=
  with_enclave (entered entry (ecall_get_attestation_report (as_slice spid) (as_slice api_key))).

(** What is outside the control of the enclave while it authenticates. *)
Record AuthWorld : Type := mkAuthWorld {
  a_entry : Z;
  a_reserve_in : Safety.Supply;
  a_reserve_out : Safety.Supply;
  a_oom : bool;
  a_inside : bool
}.

Definition ecall_authenticate (w : AuthWorld) (cert : bytes) : M (Shared * Node) Z (NodeAuthResult * option bytes) :=
  fun '(st, n) =>
    match ecall_authenticate_new_node grow (a_reserve_in w) (a_reserve_out w) (a_oom w) (as_slice cert)
            (a_inside w) st n with
    | (st', n', Ok r) => ((st', n'), Ok r)
    | (st', n', _) => ((st', n'), Panic)
    end.

(** The array that receives the seed starts as zeros. *)
Definition untrusted_get_encrypted_seed (w : AuthWorld) (cert : bytes)
  : M (Shared * Node) Z (result NodeAuthResult bytes) :=
  with_enclave (
    r ← entered (a_entry w) (ecall_authenticate w cert);
    let '(retval, copied) := r in
    mret (if decide (retval = NodeSuccess) then Ok (default (replicate ENCRYPTED_SEED_SIZE Byte.x00) copied)
          else Err retval)).

(** ** lib.rs *)

Context `{AL : Allocator}.

Definition enclave_err (status : Z) : Error := GoCwEnclaveError (status_text status).

(** How these entry points end: a buffer, or a truth value. *)
Definition give_buffer (r : result Error bytes) (st : CState) : CState * Buffer :=
  match r with
  | Ok data =>
      let st1 := clear_error st in
      let (mem, b) := from_vec data (c_mem st1) in (mkC mem (errno st1) (errout st1) (gas_out st1), b)
  | Err e => (set_error e st, default_buffer)
  | Panic => (set_error GoPanic st, default_buffer)
  end.

Definition give_bool (r : result Error unit) (st : CState) : CState * bool :=
  match r with
  | Ok _ => (clear_error st, true)
  | Err e => (set_error e st, false)
  | Panic => (set_error GoPanic st, false)
  end.

Definition get_health_check (entry : Z) (n : Node) (st : CState) : Node * (CState * Buffer) :=
  let '(n', r) := untrusted_health_check entry n in
  (n', give_buffer (map_err enclave_err ((fun h => lit (display_health h)) <$> r)) st).

Definition get_encrypted_seed (w : AuthWorld) (cert : option bytes) (s : Shared * Node) (st : CState)
  : (Shared * Node) * (CState * Buffer) :=
  match cert with
  | None => (s, give_buffer (Err (EmptyArg "attestation_cert")) st)
  | Some cert_slice =>
      let '(s', r) := untrusted_get_encrypted_seed w cert_slice s in
      (s', give_buffer
             match r with
             | Err e => Err (enclave_err e)
             | Ok (Err e) => Err (GoCwEnclaveError (display_node_auth_result e))
             | Ok (Ok seed) => Ok seed
             | _ => Panic
             end st)
  end.

Definition init_bootstrap (entry : Z) (rand_seed rand_key : result CryptoError bytes) (inside : bool)
    (spid api_key : option bytes) (n : Node) (st : CState) : Node * (CState * Buffer) :=
  match spid, api_key with
  | None, _ => (n, give_buffer (Err (EmptyArg "spid")) st)
  | Some _, None => (n, give_buffer (Err (EmptyArg "api_key")) st)
  | Some spid_slice, Some api_key_slice =>
      let '(n', r) := untrusted_init_bootstrap entry rand_seed rand_key inside spid_slice api_key_slice n in
      (n', give_buffer (map_err enclave_err r) st)
  end.

Definition init_node (entry : Z) (master_cert encrypted_seed : option bytes) (n : Node) (st : CState)
  : Node * (CState * bool) :=
  match master_cert, encrypted_seed with
  | None, _ => (n, give_bool (Err (EmptyArg "master_cert")) st)
  | Some _, None => (n, give_bool (Err (EmptyArg "encrypted_seed")) st)
  | Some pk_slice, Some encrypted_seed_slice =>
      let '(n', r) := untrusted_init_node entry pk_slice encrypted_seed_slice n in
      (n', give_bool (map_err enclave_err r) st)
  end.

Definition create_attestation_report (entry : Z) (spid api_key : option bytes) (n : Node) (st : CState)
  : Node * (CState * bool) :=
  match spid, api_key with
  | None, _ => (n, give_bool (Err (EmptyArg "spid")) st)
  | Some _, None => (n, give_bool (Err (EmptyArg "api_key")) st)
  | Some spid_slice, Some api_key_slice =>
      let '(n', r) := create_attestation_report_u entry spid_slice api_key_slice n in
      (n', give_bool (map_err enclave_err r) st)
  end.

Definition key_gen (entry : Z) (rand_key : result CryptoError bytes) (inside : bool) (n : Node) (st : CState)
  : Node * (CState * Buffer) :=
  let '(n', r) := untrusted_key_gen entry rand_key inside n in
  (n', give_buffer (map_err enclave_err r) st).

End Wrappers.

(** ** Properties *)

Lemma entered_Ok {S A} entry (f : M S Z A) s s' a :
  entered entry f s = (s', Ok a) <-> entry = SGX_SUCCESS /\ f s = (s', Ok a).
Proof.
  unfold entered, enter. destruct (Z.eqb_spec entry SGX_SUCCESS) as [->|Hn]; cbn [negb].
  - destruct (f s) as [s1 [a1|e|]]; cbn; split; try intros [_ H]; intros; by simplify_eq.
  - split; [|by intros []]. destruct (negb _) eqn:Hb; [done|].
    apply negb_false_iff, Z.eqb_eq in Hb. done.
Qed.

Section Endings.
Context `{AL : Allocator}.

Lemma set_error_errno e st : errno (set_error e st) <> ESuccess.
Proof. unfold set_error. by destruct e, (errout st) as [b|]; try destruct (from_vec _ _). Qed.

(** A buffer is given with success exactly for a result, and holds it. *)
Lemma give_buffer_success r st st' b :
  give_buffer r st = (st', b) -> errno st' = ESuccess ->
  exists data, r = Ok data /\ read b (c_mem st') = Some (Some data).
Proof.
  unfold give_buffer. destruct r as [data|e|].
  - destruct (from_vec data _) as [mem b0] eqn:Hv. intros [= <- <-] _. exists data. split; [done|].
    by apply from_vec_read in Hv as (_ & Hr & _).
  - intros [= <- _] H. by apply set_error_errno in H.
  - intros [= <- _] H. by apply set_error_errno in H.
Qed.

Lemma give_bool_true r st st' : give_bool r st = (st', true) -> r = Ok tt.
Proof. by destruct r as [[]| |]. Qed.

End Endings.

Lemma map_err_Ok {E E' A} (f : E -> E') (r : result E A) a : map_err f r = Ok a -> r = Ok a.
Proof. destruct r; cbn; congruence. Qed.

Section Joining.
Context `{P : Primitives} {HP : PrimitiveLaws} {HD : DhLaws} `{F : SgxFs} {HF : SgxFsLaws}.
Context `{UF : UntrustedFs} {HUF : UntrustedFsLaws} `{C : Codecs} {HC : CodecLaws} `{T : CertTools} {HT : CertLaws}.
Context `{J : ReportJson} `{W : Webpki} `{I : IasConnection} `{Ft : Features} `{Q : Quoting}.
Context `{RT : SgxRuntime} `{AL : Allocator}.
Variable grow : nat -> nat.

Lemma with_enclave_Ok {S A} (k : M S Z A) s s' a :
  with_enclave k s = (s', Ok a) -> is_ok get_enclave = true /\ k s = (s', Ok a).
Proof. unfold with_enclave. by destruct get_enclave. Qed.

Lemma with_enclave_run {S A} (k : M S Z A) s : is_ok get_enclave = true -> with_enclave k s = k s.
Proof. unfold with_enclave. by destruct get_enclave. Qed.

(** A wrapper succeeds only when its ecall did. *)
Lemma wrapper_Ok {S A} entry (f : M S Z A) s s' a :
  with_enclave (entered entry f) s = (s', Ok a) -> is_ok get_enclave = true /\ f s = (s', Ok a).
Proof. intros [Hg [_ Hf]%entered_Ok]%with_enclave_Ok. done. Qed.

Lemma encrypted_seed_Ok w cert sh c sh' c' s :
  untrusted_get_encrypted_seed grow w cert (sh, c) = ((sh', c'), Ok (Ok s)) ->
  ecall_authenticate_new_node grow (a_reserve_in w) (a_reserve_out w) (a_oom w) (as_slice cert) (a_inside w) sh c
    = (sh', c', Ok (NodeSuccess, Some s)).
Proof.
  intros [_ H]%with_enclave_Ok. apply M_bind_Ok in H as ([code seed] & [sh1 c1] & [_ He]%entered_Ok & Hr).
  unfold ecall_authenticate in He.
  destruct (authenticate_result grow (a_reserve_in w) (a_reserve_out w) (a_oom w) (as_slice cert) (a_inside w) sh c)
    as [(st & n & code' & seed' & Ha & Hc)|[Ha _]].
  2: { destruct (ecall_authenticate_new_node _ _ _ _ _ _ _ _) as [[? ?] x]. cbn [snd] in Ha. by subst x. }
  rw Ha in He. simplify_eq He. intros -> -> -> ->. rw Ha.
  destruct (decide (code = NodeSuccess)) as [->|]; [|done]. destruct seed; [|done]. by injection Hr as <- <- <-.
Qed.

(** What the success of an entry point says of its ecall. *)
Lemma init_bootstrap_success entry rs rk inside spid api_key n st n' st' buf pk :
  init_bootstrap entry rs rk inside spid api_key n st = (n', (st', buf)) -> errno st' = ESuccess ->
  read buf (c_mem st') = Some (Some pk) ->
  exists sp ap, ecall_init_bootstrap rs rk inside (as_slice sp) (as_slice ap) n = (n', Ok pk).
Proof.
  unfold init_bootstrap. destruct spid as [sp|], api_key as [ap|];
    try (intros [= <- <- <-] Hn; by apply set_error_errno in Hn).
  destruct (untrusted_init_bootstrap _ _ _ _ _ _ _) as [n1 r] eqn:Hu. intros [= <- Hg] Hn Hr.
  destruct (give_buffer_success _ _ _ _ Hg Hn) as (data & Hd%map_err_Ok & Hr'). rw Hr in Hr'. simplify_eq Hr'. intros <-.
  subst r. exists sp, ap. by apply wrapper_Ok in Hu as [_ Hu].
Qed.

Lemma key_gen_success entry rk inside n st n' st' buf pk :
  key_gen entry rk inside n st = (n', (st', buf)) -> errno st' = ESuccess ->
  read buf (c_mem st') = Some (Some pk) -> ecall_key_gen rk inside n = (n', Ok pk).
Proof.
  unfold key_gen. destruct (untrusted_key_gen _ _ _ _) as [n1 r] eqn:Hu. intros [= <- Hg] Hn Hr.
  destruct (give_buffer_success _ _ _ _ Hg Hn) as (data & Hd%map_err_Ok & Hr'). rw Hr in Hr'. simplify_eq Hr'. intros <-.
  subst r. by apply wrapper_Ok in Hu as [_ Hu].
Qed.

Lemma create_attestation_report_success entry spid api_key n st n' st' :
  create_attestation_report entry spid api_key n st = (n', (st', true)) ->
  is_ok get_enclave = true /\
  exists sp ap, ecall_get_attestation_report (as_slice sp) (as_slice ap) n = (n', Ok tt).
Proof.
  unfold create_attestation_report. destruct spid as [sp|], api_key as [ap|]; try done.
  destruct (create_attestation_report_u _ _ _ _) as [n1 r] eqn:Hu. intros [= <- Hg%give_bool_true%map_err_Ok].
  subst r. apply wrapper_Ok in Hu as [Hg Hu]. split; [done|]. by exists sp, ap.
Qed.

Lemma get_encrypted_seed_success w cert sh c st sh' c' st' buf s :
  get_encrypted_seed grow w (Some cert) (sh, c) st = ((sh', c'), (st', buf)) -> errno st' = ESuccess ->
  read buf (c_mem st') = Some (Some s) ->
  ecall_authenticate_new_node grow (a_reserve_in w) (a_reserve_out w) (a_oom w) (as_slice cert) (a_inside w) sh c
    = (sh', c', Ok (NodeSuccess, Some s)).
Proof.
  unfold get_encrypted_seed. destruct (untrusted_get_encrypted_seed _ _ _ _) as [s1 r] eqn:Hu.
  intros [= -> Hg] Hn Hr. destruct (give_buffer_success _ _ _ _ Hg Hn) as (data & Hd & Hr').
  rw Hr in Hr'. simplify_eq Hr'. intros <-. destruct r as [[seed| |]| |]; simplify_eq Hd. intros ->.
  by apply encrypted_seed_Ok.
Qed.

Section Run.
Hypothesis Hsw : sgx_mode_hw = false.
Hypothesis base64_readable : forall b, length b = 32 -> readable (length (lit (base64_encode b))).
Variables (b rk_c rk_n : bytes) (in_c in_n : bool) (spid_c api_c spid_n api_n : option bytes) (e1 e2 e3 : Z).
Variables (c0 c1 c2 n0 n1 n2 : Node) (pk_c pk_n master_cert cert s : bytes) (w : AuthWorld) (sh sh' : Shared).
Variables (st1 st1' st2 st2' st3 st3' st4 st4' st5 : CState) (buf1 buf2 buf4 : Buffer).
Hypotheses (Hb : length b = 32) (Hrc : length rk_c = 32) (Hrn : length rk_n = 32).

(** The chain's first node is set up; its certificate becomes part of the chain. *)
Hypothesis chain_starts : n_keys c0 = None.
Hypothesis bootstrap : init_bootstrap e1 (Ok b) (Ok rk_c) in_c spid_c api_c c0 st1 = (c1, (st1', buf1)).
Hypothesis bootstrap_ok : errno st1' = ESuccess /\ read buf1 (c_mem st1') = Some (Some pk_c).
Hypothesis chain_file : file_lookup (n_files c1) SEED_EXCH_CERTIFICATE_SAVE_PATH = Some master_cert.
Hypothesis chain_comment : sole_comment (key_comment pk_c) master_cert = true.

(** The new node makes a key and a certificate. *)
Hypothesis node_starts : n_keys n0 = None.
Hypothesis key_made : key_gen e2 (Ok rk_n) in_n n0 st2 = (n1, (st2', buf2)).
Hypothesis key_ok : errno st2' = ESuccess /\ read buf2 (c_mem st2') = Some (Some pk_n).
Hypothesis reported : create_attestation_report e3 spid_n api_n n1 st3 = (n2, (st3', true)).
Hypothesis node_file : file_lookup (n_files n2) ATTESTATION_CERTIFICATE_SAVE_PATH = Some cert.
Hypothesis node_comment : sole_comment (key_comment pk_n) cert = true.

(** The chain hands out the seed for that certificate. *)
Hypothesis seed_given : get_encrypted_seed grow w (Some cert) (sh, c1) st4 = ((sh', c2), (st4', buf4)).
Hypothesis seed_ok : errno st4' = ESuccess /\ read buf4 (c_mem st4') = Some (Some s).

(** The new node can write its sealed file. *)
Hypothesis can_seal : sgx_create CONSENSUS_SEED_SEALING_PATH = true /\
  (sgx_write_all CONSENSUS_SEED_SEALING_PATH b).2 = true.

(** C10: Joining a chain, in software mode: after the first node was set up, a new node made a
    key and a certificate, and the chain gave out a seed for that certificate, [init_node]
    with the chain's certificate and the seed returns true, and the new node, once its
    process is started anew on the same files, has the chain's seed and the master keys that
    the chain's running node has. The process that ran [init_node] keeps until then the
    keychain it had loaded to make its certificate, from its files as they were before the
    seed arrived. Conditions: neither process had used its keys before these steps, the new
    node can create and write its sealed file, the text of a key has a length that the
    reader of certificates understands, and in both certificates the comment's identifier
    occurs nowhere else. *)
Theorem new_node_joins_the_chain :
  exists n3, init_node SGX_SUCCESS (Some master_cert) (Some s) n2 st5 = (n3, (clear_error st5, true)) /\
    consensus_seed (KEY_MANAGER (restarted n3)).2 = Some (mkSeed b) /\
    same_consensus (KEY_MANAGER (restarted n3)).2 (KEY_MANAGER c2).2 /\
    (KEY_MANAGER n3).2 = keychain_new (n_sealed n1).
Proof.
  destruct bootstrap_ok as [Hok1 Hr1], key_ok as [Hok2 Hr2], seed_ok as [Hok4 Hr4].
  destruct (init_bootstrap_success _ _ _ _ _ _ _ _ _ _ _ _ bootstrap Hok1 Hr1) as (sp1 & ap1 & Hboot).
  pose proof (key_gen_success _ _ _ _ _ _ _ _ _ key_made Hok2 Hr2) as Hkey.
  destruct (create_attestation_report_success _ _ _ _ _ _ _ reported) as (Hload & sp3 & ap3 & Hrep).
  pose proof (get_encrypted_seed_success _ _ _ _ _ _ _ _ _ _ seed_given Hok4 Hr4) as Hseed.
  assert (exists n3, ecall_init_node (as_slice master_cert) (as_slice s) n2 = (n3, Ok tt) /\
    consensus_seed (KEY_MANAGER (restarted n3)).2 = Some (mkSeed b) /\
    same_consensus (KEY_MANAGER (restarted n3)).2 (KEY_MANAGER c2).2 /\
    (KEY_MANAGER n3).2 = keychain_new (n_sealed n1)) as (n3 & Hinit & Hrest).
  { eapply (exchange_completes Hsw base64_readable b rk_c rk_n); try eassumption; done. }
  exists n3. split; [|done]. unfold init_node, untrusted_init_node. rw with_enclave_run //.
  by rw (proj2 (entered_Ok _ _ _ _ _) (conj eq_refl Hinit)).
Qed.

End Run.

End Joining.

(** ** The exchange, run *)

Definition demo_runtime : SgxRuntime := {|
  scrt_enclave_dir := None;
  path_exists p := (p =? "/usr/lib/librust_cosmwasm_enclave.signed.so");
  sgx_enclave_create _ _ := Ok 2%Z;
  status_text _ := "SGX_ERROR"
|}.

Section Demo.
#[local] Existing Instance dh_primitives.
#[local] Existing Instance dh_primitive_laws.
#[local] Existing Instance dh_laws.
#[local] Existing Instance demo_fs.
#[local] Existing Instance demo_fs_laws.
#[local] Existing Instance demo_untrusted.
#[local] Existing Instance demo_untrusted_laws.
#[local] Existing Instance demo_codecs.
#[local] Existing Instance demo_codec_laws.
#[local] Existing Instance demo_cert_tools.
#[local] Existing Instance demo_cert_laws.
#[local] Existing Instance demo_report_json.
#[local] Existing Instance demo_webpki.
#[local] Existing Instance demo_ias.
#[local] Existing Instance demo_quoting.
#[local] Existing Instance sw_features.
#[local] Existing Instance demo_runtime.
#[local] Existing Instance demo_allocator.

Definition no_error : CState := mkC ∅ EOther None None.
Definition host_spid : option bytes := Some (lit "spid").
Definition buffer_data (r : CState * Buffer) : bytes :=
  match read r.2 (c_mem r.1) with Some (Some b) => b | _ => [] end.

Definition run_bootstrap : Node * (CState * Buffer) :=
  init_bootstrap SGX_SUCCESS (Ok demo_seed) (Ok (demo_key "chain")) true host_spid host_spid empty_node no_error.
Definition run_key_gen : Node * (CState * Buffer) :=
  key_gen SGX_SUCCESS (Ok (demo_key "node")) true empty_node no_error.
Definition run_report : Node * (CState * bool) :=
  create_attestation_report SGX_SUCCESS host_spid host_spid run_key_gen.1 no_error.
Definition run_cert : bytes := s_data (demo_file run_report.1 ATTESTATION_CERTIFICATE_SAVE_PATH).
Definition run_master : bytes := s_data (demo_file run_bootstrap.1 SEED_EXCH_CERTIFICATE_SAVE_PATH).
Definition run_world : AuthWorld := mkAuthWorld SGX_SUCCESS Safety.plenty Safety.plenty false true.
Definition run_seed : (Shared * Node) * (CState * Buffer) :=
  get_encrypted_seed Safety.vec_grow run_world (Some run_cert) (demo_shared, run_bootstrap.1) no_error.

Lemma new_node_joins_the_chain_witness :
  exists n3,
    init_node SGX_SUCCESS (Some run_master) (Some (buffer_data run_seed.2)) run_report.1 no_error
      = (n3, (clear_error no_error, true)) /\
    consensus_seed (KEY_MANAGER (restarted n3)).2 = Some (mkSeed demo_seed) /\
    same_consensus (KEY_MANAGER (restarted n3)).2 (KEY_MANAGER run_seed.1.2).2 /\
    consensus_seed (KEY_MANAGER n3).2 = None.
Proof.
  assert (exists n3, init_node SGX_SUCCESS (Some run_master) (Some (buffer_data run_seed.2)) run_report.1 no_error
      = (n3, (clear_error no_error, true)) /\
    consensus_seed (KEY_MANAGER (restarted n3)).2 = Some (mkSeed demo_seed) /\
    same_consensus (KEY_MANAGER (restarted n3)).2 (KEY_MANAGER run_seed.1.2).2 /\
    (KEY_MANAGER n3).2 = keychain_new (n_sealed run_key_gen.1)) as (n3 & H1 & H2 & H3 & H4).
  2: { exists n3. split; [exact H1|]. split; [exact H2|]. split; [exact H3|]. rw H4. vm_compute. reflexivity. }
  apply new_node_joins_the_chain with
    (grow := Safety.vec_grow) (rk_c := demo_key "chain") (rk_n := demo_key "node") (in_c := true) (in_n := true)
    (spid_c := host_spid) (api_c := host_spid) (spid_n := host_spid) (api_n := host_spid)
    (e1 := SGX_SUCCESS) (e2 := SGX_SUCCESS) (e3 := SGX_SUCCESS)
    (c0 := empty_node) (c1 := run_bootstrap.1) (n0 := empty_node) (n1 := run_key_gen.1)
    (pk_c := buffer_data run_bootstrap.2) (pk_n := buffer_data run_key_gen.2) (cert := run_cert)
    (w := run_world) (sh := demo_shared) (sh' := run_seed.1.1)
    (st1 := no_error) (st1' := run_bootstrap.2.1) (st2 := no_error) (st2' := run_key_gen.2.1)
    (st3 := no_error) (st3' := run_report.2.1) (st4 := no_error) (st4' := run_seed.2.1)
    (buf1 := run_bootstrap.2.2) (buf2 := run_key_gen.2.2) (buf4 := run_seed.2.2).
  all: try (vm_compute; reflexivity).
  all: try (split; vm_compute; reflexivity).
  intros b Hb. left. cbn [base64_encode demo_codecs]. rw lit_of_bytes. lia.
Defined.
End Demo.
