(* ===== verification/Staking.v ===== *)
(** * The staking derivative contract: cosmwasm/contracts/staking/src

    contract.rs, state.rs and msg.rs: accounts bond native tokens through the contract
    and hold shares of the stake; unbonding turns shares into claims that are paid out
    later.  Balances and claims are two buckets of [Uint128]s, the supply is a singleton.
    The JSON codecs are classes ([Serde]), the chain answers through [Querier]. *)

From Stdlib Require Import Strings.String.
From stdpp Require Import base tactics list numbers strings ssreflect sorting.
From S2P Require Import Prelude Math Storage Prefixed Typed Std.

Local Open Scope string_scope.
Local Open Scope list_scope.

(** ** msg.rs *)

Record InitMsg : Type := mkInitMsg {
  name : string;
  symbol : string;
  decimals : Z;
  msg_validator : HumanAddr;
  msg_exit_tax : Decimal;
  msg_min_withdrawal : Uint128
}.

Inductive HandleMsg : Type :=
| Transfer (recipient : HumanAddr) (amount : Uint128)
| Bond
| Unbond (amount : Uint128)
| Claim
| Reinvest
| BondAllTokens.

Inductive QueryMsg : Type :=
| QBalance (address : HumanAddr)
| QClaims (address : HumanAddr)
| QTokenInfo
| QInvestment.

Record TokenInfoResponse : Type := mkTokenInfo {
  token_name : string;
  token_symbol : string;
  token_decimals : Z
}.

Record InvestmentResponse : Type := mkInvestmentResponse {
  token_supply : Uint128;
  staked_tokens : Coin;
  nominal_value : Decimal;
  res_owner : HumanAddr;
  res_exit_tax : Decimal;
  res_validator : HumanAddr;
  res_min_withdrawal : Uint128
}.

(** ** state.rs *)

Definition KEY_INVESTMENT : bytes := lit "invest".
Definition KEY_TOKEN_INFO : bytes := lit "token".
Definition KEY_TOTAL_SUPPLY : bytes := lit "total_supply".
Definition PREFIX_BALANCE : bytes := lit "balance".
Definition PREFIX_CLAIMS : bytes := lit "claim".

Record InvestmentInfo : Type := mkInvestment {
  owner : CanonicalAddr;
  bond_denom : string;
  exit_tax : Decimal;
  validator : HumanAddr;
  min_withdrawal : Uint128
}.

Record Supply : Type := mkSupply { issued : Uint128; bonded : Uint128; claimed : Uint128 }.
Definition default_supply : Supply := mkSupply Uint.zero Uint.zero Uint.zero.

(** The handles on the buckets and singletons. *)
Definition balances : StdResult bytes := Bucket.new PREFIX_BALANCE.
Definition claims : StdResult bytes := Bucket.new PREFIX_CLAIMS.
Definition invest_info : StdResult bytes := Singleton.new KEY_INVESTMENT.
Definition token_info : StdResult bytes := Singleton.new KEY_TOKEN_INFO.
Definition total_supply : StdResult bytes := Singleton.new KEY_TOTAL_SUPPLY.

(** ** contract.rs *)

Definition FALLBACK_RATIO : Decimal := Dec.one.

(** [get_bonded]: the delegations of the contract, which must be in one denomination. *)
Definition get_bonded `{Querier} (contract : HumanAddr) : StdResult Uint128 :=
  bonds ← query_all_delegations contract;
  match bonds with
  | [] => Ok Uint.zero
  | first :: _ =>
      let d0 := denom (del_amount first) in
      foldl (fun racc d =>
        acc ← racc;
        if bool_decide (denom (del_amount d) = d0) then Uint.add acc (amount (del_amount d))
        else Err (generic_err ("different denoms in bonds: '" +:+ d0 +:+ "' vs '"
                               +:+ denom (del_amount d) +:+ "'")))
        (Ok Uint.zero) bonds
  end.

Definition assert_bonds (supply : Supply) (b : Uint128) : StdResult unit :=
  if bool_decide (bonded supply = b) then Ok tt
  else Err (generic_err ("Stored bonded " +:+ Uint.to_string (bonded supply)
                         +:+ ", but query bonded: " +:+ Uint.to_string b)).

Section Staking.
Context {S : Type} `{HS : Storage S} {api : Api} {querier : Querier}.
Context `{HU : Serde Uint128} `{HI : Serde InvestmentInfo} `{HP : Serde Supply}.
Context `{HT : Serde TokenInfoResponse}.

(** [to_binary] of the callback message [_BondAllTokens]. *)
Variable bond_all_tokens_msg : StdResult Binary.

(** [balance.unwrap_or_default() + x] and [balance.unwrap_or_default() - x]. *)
Definition plus (x : Uint128) (balance : option Uint128) : StdResult Uint128 :=
  Uint.add (default Uint.zero balance) x.
Definition minus (x : Uint128) (balance : option Uint128) : StdResult Uint128 :=
  Uint.sub (default Uint.zero balance) x.

Definition load_invest : M S StdError InvestmentInfo :=
  key ← liftR invest_info; readS (fun s => Singleton.load s key).

Definition init (env : Env) (msg : InitMsg) : M S StdError (InitResponse Empty) :=
  vals ← liftR query_validators;
  if negb (existsb (fun v => bool_decide (v = msg_validator msg)) vals)
  then throw (generic_err (msg_validator msg +:+ " is not in the current validator set"))
  else
    token_key ← liftR token_info;
    _ ← Singleton.save token_key (mkTokenInfo (name msg) (symbol msg) (decimals msg));
    d ← liftR query_bonded_denom;
    o ← liftR (canonical_address (sender (message env)));
    invest_key ← liftR invest_info;
    _ ← Singleton.save invest_key
          (mkInvestment o d (msg_exit_tax msg) (msg_validator msg) (msg_min_withdrawal msg));
    supply_key ← liftR total_supply;
    _ ← Singleton.save supply_key default_supply;
    mret default_init_response.

Definition transfer (env : Env) (recipient : HumanAddr) (send : Uint128)
  : M S StdError (HandleResponse Empty) :=
  rcpt_raw ← liftR (canonical_address recipient);
  sender_raw ← liftR (canonical_address (sender (message env)));
  accounts ← liftR balances;
  _ ← Bucket.update accounts sender_raw (minus send);
  _ ← Bucket.update accounts rcpt_raw (plus send);
  mret (mkHandleResponse []
          [log "action" "transfer"; log "from" (sender (message env)); log "to" recipient;
           log "amount" (Uint.to_string send)] None).

(** How many shares a payment buys. *)
Definition shares_for (supply : Supply) (b payment : Uint128) : StdResult Uint128 :=
  if Uint.is_zero (issued supply) || Uint.is_zero b then dec_mul FALLBACK_RATIO payment
  else Uint.multiply_ratio payment (u128 (issued supply)) (u128 b).

Definition bond (env : Env) : M S StdError (HandleResponse Empty) :=
  sender_raw ← liftR (canonical_address (sender (message env)));
  invest ← load_invest;
  payment ← liftR (ok_or (generic_err ("No " +:+ bond_denom invest +:+ " tokens sent"))
                     (List.find (fun c => bool_decide (denom c = bond_denom invest))
                        (sent_funds (message env))));
  b ← liftR (get_bonded (address (contract env)));
  totals ← liftR total_supply;
  supply ← readS (fun s => Singleton.load s totals);
  _ ← liftR (assert_bonds supply b);
  to_mint ← liftR (shares_for supply b (amount payment));
  new_bonded ← liftR (Uint.add b (amount payment));
  new_issued ← liftR (Uint.add (issued supply) to_mint);
  _ ← Singleton.save totals (mkSupply new_issued new_bonded (claimed supply));
  accounts ← liftR balances;
  _ ← Bucket.update accounts sender_raw (plus to_mint);
  mret (mkHandleResponse [CosmosStaking (Delegate (validator invest) payment)]
          [log "action" "bond"; log "from" (sender (message env));
           log "bonded" (Uint.to_string (amount payment)); log "minted" (Uint.to_string to_mint)]
          None).

Definition unbond (env : Env) (amt : Uint128) : M S StdError (HandleResponse Empty) :=
  sender_raw ← liftR (canonical_address (sender (message env)));
  invest ← load_invest;
  if Uint.ltb amt (min_withdrawal invest)
  then throw (generic_err ("Must unbond at least " +:+ Uint.to_string (min_withdrawal invest)
                           +:+ " " +:+ bond_denom invest))
  else
    tax ← liftR (mul_dec amt (exit_tax invest));
    accounts ← liftR balances;
    _ ← Bucket.update accounts sender_raw (minus amt);
    _ ← (if Uint.ltb Uint.zero tax
         then _ ← Bucket.update accounts (owner invest) (plus tax); mret tt
         else mret tt);
    b ← liftR (get_bonded (address (contract env)));
    remainder ← liftR (Uint.sub amt tax);
    totals ← liftR total_supply;
    supply ← readS (fun s => Singleton.load s totals);
    _ ← liftR (assert_bonds supply b);
    unbonded ← liftR (Uint.multiply_ratio remainder (u128 b) (u128 (issued supply)));
    new_bonded ← liftR (Uint.sub b unbonded);
    new_issued ← liftR (Uint.sub (issued supply) remainder);
    new_claims ← liftR (Uint.add (claimed supply) unbonded);
    _ ← Singleton.save totals (mkSupply new_issued new_bonded new_claims);
    pending ← liftR claims;
    _ ← Bucket.update pending sender_raw (plus unbonded);
    mret (mkHandleResponse
            [CosmosStaking (Undelegate (validator invest) (coin (u128 unbonded) (bond_denom invest)))]
            [log "action" "unbond"; log "to" (sender (message env));
             log "unbonded" (Uint.to_string unbonded); log "burnt" (Uint.to_string amt)] None).

(** The closure of [claim] lowers [to_send] to the claim it is given; that claim is read
    here before the update reads it again. *)
Definition claim (env : Env) : M S StdError (HandleResponse Empty) :=
  invest ← load_invest;
  balance ← liftR (query_balance (address (contract env)) (bond_denom invest));
  if Uint.ltb (amount balance) (min_withdrawal invest)
  then throw (generic_err "Insufficient balance in contract to process claim")
  else
    sender_raw ← liftR (canonical_address (sender (message env)));
    pending ← liftR claims;
    held ← readS (fun s => Bucket.may_load (T := Uint128) s pending sender_raw);
    let to_send := match held with
                   | Some c => Uint.min (amount balance) c
                   | None => amount balance
                   end in
    _ ← Bucket.update pending sender_raw
          (fun c => c ← ok_or (generic_err "no claim for this address") c; Uint.sub c to_send);
    totals ← liftR total_supply;
    _ ← Singleton.update totals
          (fun supply => c ← Uint.sub (claimed supply) to_send;
                         Ok (mkSupply (issued supply) (bonded supply) c));
    mret (mkHandleResponse
            [CosmosBank (Send (address (contract env)) (sender (message env))
                           [mkCoin (denom balance) to_send])]
            [log "action" "claim"; log "from" (sender (message env));
             log "amount" (Uint.to_string to_send)] None).

Definition reinvest (env : Env) : M S StdError (HandleResponse Empty) :=
  invest ← load_invest;
  m ← liftR bond_all_tokens_msg;
  mret (mkHandleResponse
          [CosmosStaking (Withdraw (validator invest) (Some (address (contract env))));
           CosmosWasm (Execute (address (contract env)) (contract_code_hash env) m [])]
          [] None).

(** What the closure of [_bond_all_tokens] makes of the supply. *)
Definition add_rewards (balance min : Uint128) (supply : Supply) : StdResult Supply :=
  free ← Uint.sub balance (claimed supply);
  _ ← Uint.sub free min;
  new_bonded ← Uint.add (bonded supply) free;
  Ok (mkSupply (issued supply) new_bonded (claimed supply)).

(** The closure leaves [balance - claims] in [balance.amount]; the claims are those of the
    supply that the update returns. *)
Definition bond_all_tokens (env : Env) : M S StdError (HandleResponse Empty) :=
  if negb (bool_decide (sender (message env) = address (contract env)))
  then throw unauthorized
  else
    invest ← load_invest;
    balance ← liftR (query_balance (address (contract env)) (bond_denom invest));
    totals ← liftR total_supply;
    fun s =>
      match Singleton.update totals (add_rewards (amount balance) (min_withdrawal invest)) s with
      | (s', Ok supply) =>
          (s', to_bond ← Uint.sub (amount balance) (claimed supply);
               Ok (mkHandleResponse
                     [CosmosStaking (Delegate (validator invest) (mkCoin (denom balance) to_bond))]
                     [log "action" "reinvest"; log "bonded" (Uint.to_string to_bond)] None))
      | (s', Err (Underflow _ _)) => (s', Ok default_handle_response)
      | (s', Err e) => (s', Err e)
      | (s', Panic) => (s', Panic)
      end.

Definition handle (env : Env) (msg : HandleMsg) : M S StdError (HandleResponse Empty) :=
  match msg with
  | Transfer recipient amount => transfer env recipient amount
  | Bond => bond env
  | Unbond amount => unbond env amount
  | Claim => claim env
  | Reinvest => reinvest env
  | BondAllTokens => bond_all_tokens env
  end.

(** ** Queries; the answers are those before [to_binary] encodes them *)

Inductive Answer : Type :=
| BalanceResponse (balance : Uint128)
| ClaimsResponse (claims : Uint128)
| TokenInfo (info : TokenInfoResponse)
| Investment (res : InvestmentResponse).

Definition query_amount (s : S) (handle : StdResult bytes) (address : HumanAddr) : StdResult Uint128 :=
  address_raw ← canonical_address address;
  p ← handle;
  held ← Bucket.may_load s p address_raw;
  Ok (default Uint.zero held).

Definition query_investment (s : S) : StdResult InvestmentResponse :=
  invest_key ← invest_info;
  invest ← Singleton.load (T := InvestmentInfo) s invest_key;
  supply_key ← total_supply;
  supply ← Singleton.load (T := Supply) s supply_key;
  o ← human_address (owner invest);
  value ← (if Uint.is_zero (issued supply) then Ok FALLBACK_RATIO
           else Dec.from_ratio (u128 (bonded supply)) (u128 (issued supply)));
  Ok (mkInvestmentResponse (issued supply) (coin (u128 (bonded supply)) (bond_denom invest)) value
        o (exit_tax invest) (validator invest) (min_withdrawal invest)).

Definition query (s : S) (msg : QueryMsg) : StdResult Answer :=
  match msg with
  | QTokenInfo => key ← token_info; TokenInfo <$> Singleton.load s key
  | QInvestment => Investment <$> query_investment s
  | QBalance address => BalanceResponse <$> query_amount s balances address
  | QClaims address => ClaimsResponse <$> query_amount s claims address
  end.

End Staking.

(** ** The books behind the store *)

Definition balance_prefix : bytes := be_bytes 2 7 ++ PREFIX_BALANCE.
Definition claims_prefix : bytes := be_bytes 2 5 ++ PREFIX_CLAIMS.
Definition supply_key : bytes := be_bytes 2 12 ++ KEY_TOTAL_SUPPLY.

Section Views.
Context {S : Type} `{HS : Storage S} {HR : RangeLaws S} `{HU : Serde Uint128} `{HP : Serde Supply}.

(** A stored number. *)
Definition uint (v : bytes) : Z :=
  match from_slice (T := Uint128) v with Ok u => u128 u | _ => 0%Z end.

Definition amount_in (p : bytes) (s : S) (a : CanonicalAddr) : Z :=
  default 0%Z (uint <$> get s (p ++ a)).
Definition total_in (p : bytes) (s : S) : Z := sum_values uint (contents (mkPrefixed p s)).

Definition supply_wf (sup : Supply) : Prop :=
  Uint.wf (issued sup) /\ Uint.wf (bonded sup) /\ Uint.wf (claimed sup).

(** The store holds this supply, these many shares and these many pending claims. *)
Definition holds (s : S) (sup : Supply) (shares owed : Z) : Prop :=
  store_ok s /\ Singleton.load s supply_key = Ok sup /\
  total_in balance_prefix s = shares /\ total_in claims_prefix s = owed.

(** The contract's invariant: the issued shares are the sum of all balances and the
    reserved tokens the sum of all claims. *)
Definition books (s : S) (sup : Supply) : Prop :=
  supply_wf sup /\ holds s sup (u128 (issued sup)) (u128 (claimed sup)).

End Views.

Section Lemmas.
Context {S : Type} `{HS : Storage S} {HL : StorageLaws S} {HR : RangeLaws S}.
Context `{HU : Serde Uint128} {LU : SerdeLaws Uint128} `{HP : Serde Supply} {LP : SerdeLaws Supply}.

Lemma balance_ok (s : S) : store_ok s -> store_ok (mkPrefixed balance_prefix s).
Proof. intros Hs. split; [done|]. exists (be_bytes 2 7 ++ lit "balanc"), Byte.x65. by vm_compute. Qed.

Lemma claims_ok (s : S) : store_ok s -> store_ok (mkPrefixed claims_prefix s).
Proof. intros Hs. split; [done|]. exists (be_bytes 2 5 ++ lit "clai"), Byte.x6d. by vm_compute. Qed.

#[local] Hint Resolve balance_ok claims_ok : core.

Lemma total_in_set p (s : S) k v :
  store_ok (mkPrefixed p s) ->
  (total_in p (set s (p ++ k) v) = total_in p s - amount_in p s k + uint v)%Z.
Proof.
  intros Hs. unfold total_in, amount_in.
  change (mkPrefixed p (set s (p ++ k) v)) with (set (mkPrefixed p s) k v).
  destruct (contents_spec _ Hs) as [Hok Hg]. by rw contents_set // sum_values_insert // Hg.
Qed.

Lemma total_in_other p q n m (s : S) k v :
  to_length_prefixed n = Ok p -> to_length_prefixed m = Ok q -> n <> m ->
  store_ok (mkPrefixed p s) -> store_ok (mkPrefixed p (set s (q ++ k) v)) ->
  total_in p (set s (q ++ k) v) = total_in p s.
Proof.
  intros Hp Hq Hne H1 H2. unfold total_in. f_equal. apply contents_same; [done..|].
  intros a. change (get (set s (q ++ k) v) (p ++ a) = get s (p ++ a)). rw get_set decide_False //.
  intros E. by apply (namespace_disjoint m n q p k a).
Qed.

Lemma uint_encoded (u : Uint128) v : to_vec u = Ok v -> uint v = u128 u.
Proof. intros Hv. unfold uint. by rw (from_to _ _ Hv). Qed.

Lemma may_load_amount (s : S) p a i :
  Bucket.may_load s p a = Ok i -> u128 (default Uint.zero i) = amount_in p s a.
Proof.
  unfold Bucket.may_load, get_with_prefix, concat, amount_in, may_deserialize.
  destruct (get s (p ++ a)) as [v|]; [|by intros [= <-]]. cbn [fmap option_fmap option_map from_option id].
  unfold uint. destruct (from_slice v) as [u| |]; [|done..]. by intros [= <-].
Qed.

(** What a successful update of a bucket did to the raw store. *)
Lemma update_inv p k (f : option Uint128 -> StdResult Uint128) (s s' : S) out :
  Bucket.update p k f s = (s', Ok out) ->
  exists i v, f i = Ok out /\ u128 (default Uint.zero i) = amount_in p s k /\
    Bucket.may_load s p k = Ok i /\ uint v = u128 out /\ s' = set s (p ++ k) v.
Proof.
  intros Hu. destruct (bucket_update_cases p k f s) as [(i & o & v & Hi & Ha & Hv & E)|[_ E]];
    rw Hu in E; [|done]. injection E as -> ->. exists i, v.
  split_and!; [done|by apply may_load_amount|done|by apply uint_encoded|done].
Qed.

Lemma holds_set s sup sh ow m q k v :
  holds s sup sh ow -> to_length_prefixed m = Ok q -> m <> KEY_TOTAL_SUPPLY ->
  (q = balance_prefix \/ m <> PREFIX_BALANCE) -> (q = claims_prefix \/ m <> PREFIX_CLAIMS) ->
  holds (set s (q ++ k) v) sup
    (if decide (q = balance_prefix) then sh - amount_in q s k + uint v else sh)%Z
    (if decide (q = claims_prefix) then ow - amount_in q s k + uint v else ow)%Z.
Proof.
  intros (Hs & Hl & <- & <-) Hq Hm Hb Hc. pose proof (set_ok s (q ++ k) v Hs) as Hs'.
  split_and!; [done| | |].
  - rw -Hl. unfold Singleton.load. rw get_set decide_False // => E.
    by apply (namespace_disjoint m KEY_TOTAL_SUPPLY q supply_key k []); rw ?app_nil_r.
  - case_decide; [subst q; by apply total_in_set; auto|].
    apply (total_in_other balance_prefix q PREFIX_BALANCE m); auto; by destruct Hb; [|intros E; subst m].
  - case_decide; [subst q; by apply total_in_set; auto|].
    apply (total_in_other claims_prefix q PREFIX_CLAIMS m); auto; by destruct Hc; [|intros E; subst m].
Qed.

Lemma update_balance s sup sh ow k f s' out :
  holds s sup sh ow -> Bucket.update balance_prefix k f s = (s', Ok out) ->
  exists i, f i = Ok out /\ u128 (default Uint.zero i) = amount_in balance_prefix s k /\
    holds s' sup (sh - u128 (default Uint.zero i) + u128 out) ow.
Proof.
  intros Hh (i & v & Hf & Hi & _ & Hv & ->)%update_inv. exists i. split_and!; [done..|].
  rw Hi -Hv. apply (holds_set s sup sh ow PREFIX_BALANCE balance_prefix k v Hh); auto; by right.
Qed.

Lemma update_claim s sup sh ow k f s' out :
  holds s sup sh ow -> Bucket.update claims_prefix k f s = (s', Ok out) ->
  exists i, f i = Ok out /\ Bucket.may_load s claims_prefix k = Ok i /\
    holds s' sup sh (ow - u128 (default Uint.zero i) + u128 out).
Proof.
  intros Hh (i & v & Hf & Hi & Hm & Hv & ->)%update_inv. exists i. split_and!; [done..|].
  rw Hi -Hv. apply (holds_set s sup sh ow PREFIX_CLAIMS claims_prefix k v Hh); auto; by right.
Qed.

Lemma set_supply s sup sh ow sup' v :
  holds s sup sh ow -> to_vec sup' = Ok v -> holds (set s supply_key v) sup' sh ow.
Proof.
  intros (Hs & _ & <- & <-) Hv. pose proof (set_ok s supply_key v Hs) as Hs'.
  assert (supply_key ++ [] = supply_key) as E by apply app_nil_r.
  split_and!; [done| |rw -{1}E|rw -{1}E].
  - unfold Singleton.load. rw get_set. case_decide; [|done]. cbn. by apply from_to.
  - apply (total_in_other _ _ PREFIX_BALANCE KEY_TOTAL_SUPPLY); rw ?E; auto.
  - apply (total_in_other _ _ PREFIX_CLAIMS KEY_TOTAL_SUPPLY); rw ?E; auto.
Qed.

Lemma save_supply s sup sh ow sup' s' :
  holds s sup sh ow -> Singleton.save supply_key sup' s = (s', Ok tt) -> holds s' sup' sh ow.
Proof.
  intros Hh. cbv [Singleton.save mbind M_bind liftR modifyS].
  destruct (to_vec sup') as [v| |] eqn:Hv; [|done..]. intros [= <-]. by eapply set_supply.
Qed.

End Lemmas.

(** ** What the codec and the chain hand over is typed *)

Class WellTyped `{HU : Serde Uint128} `{HI : Serde InvestmentInfo} {querier : Querier} : Prop := {
  decoded_uint b (u : Uint128) : from_slice b = Ok u -> Uint.wf u;
  decoded_invest b (i : InvestmentInfo) : from_slice b = Ok i -> Dec.wf (exit_tax i);
  queried_balance a d c : query_balance a d = Ok c -> Uint.wf (amount c)
}.

Definition msg_wf (env : Env) (msg : HandleMsg) : Prop :=
  Forall (fun c => Uint.wf (amount c)) (sent_funds (message env)) /\
  match msg with Transfer _ a | Unbond a => Uint.wf a | _ => True end.

(** A share is worth at least as much of the stake afterwards. *)
Definition no_dilution (sup sup' : Supply) : Prop :=
  (0 < u128 (issued sup) ->
   u128 (bonded sup) * u128 (issued sup') <= u128 (bonded sup') * u128 (issued sup))%Z.

Lemma no_dilution_refl sup : no_dilution sup sup.
Proof. intros _. lia. Qed.

Lemma add_Ok {E} (a b c : Uint128) :
  Uint.add (E := E) a b = Ok c -> (u128 c = u128 a + u128 b)%Z /\ Uint.wf c.
Proof.
  unfold Uint.add. destruct (arith U128_MAX _) as [z| |] eqn:Hz; [|done..].
  apply arith_Ok in Hz as [-> Hz]. by intros [= <-].
Qed.

Lemma sub_Ok (a b c : Uint128) :
  Uint.sub a b = Ok c -> (u128 c = u128 a - u128 b /\ 0 <= u128 c)%Z.
Proof.
  unfold Uint.sub. destruct (Z.gtb_spec (u128 b) (u128 a)); [done|]. intros [= <-]. cbn [u128]. lia.
Qed.

Lemma ratio_Ok {E} u n d (c : Uint128) :
  Uint.multiply_ratio (E := E) u n d = Ok c ->
  d <> 0%Z /\ (0 <= u128 u * n <= U128_MAX)%Z /\ u128 c = (u128 u * n / d)%Z.
Proof.
  unfold Uint.multiply_ratio. destruct (Z.eqb_spec d 0); [done|].
  destruct (arith U128_MAX _) as [z| |] eqn:Hz; [|done..]. apply arith_Ok in Hz as [-> Hz].
  by intros [= <-].
Qed.

Lemma mul_dec_Ok (u : Uint128) d c :
  mul_dec (E := StdError) u d = Ok c -> Uint.wf u -> Dec.wf d -> (0 <= u128 c)%Z.
Proof.
  unfold mul_dec. destruct (_ || _).
  - by intros [= <-].
  - intros (_ & H & ->)%ratio_Ok _ _. apply Z.div_pos; [lia|]. by vm_compute.
Qed.

(** Minting at the going rate, rounded down, dilutes nobody. *)
Lemma shares_for_fair sup b payment minted :
  shares_for sup b payment = Ok minted -> Uint.wf payment -> supply_wf sup -> b = bonded sup ->
  (0 <= u128 minted)%Z /\ no_dilution sup
    (mkSupply (mkUint128 (u128 (issued sup) + u128 minted))
              (mkUint128 (u128 (bonded sup) + u128 payment)) (claimed sup)).
Proof.
  unfold shares_for, no_dilution, Uint.is_zero. intros Hm Hp (Hi & Hb & _) ->.
  unfold Uint.wf, is_u128 in *. cbn [issued bonded u128].
  destruct (Z.eqb_spec (u128 (issued sup)) 0) as [E|E]; cbn [orb] in Hm.
  - split; [|lia]. by apply mul_dec_Ok in Hm.
  - destruct (Z.eqb_spec (u128 (bonded sup)) 0) as [E'|E'].
    + split; [by apply mul_dec_Ok in Hm|]. rw E'. nia.
    + apply ratio_Ok in Hm as (_ & Hr & ->).
      pose proof (Z.div_pos (u128 payment * u128 (issued sup)) (u128 (bonded sup))).
      pose proof (Z.mul_div_le (u128 payment * u128 (issued sup)) (u128 (bonded sup))). nia.
Qed.

(** Redeeming at the going rate, rounded down, dilutes nobody. *)
Lemma redeem_fair sup remainder unbonded b' i' :
  Uint.multiply_ratio (E := StdError) remainder (u128 (bonded sup)) (u128 (issued sup)) = Ok unbonded ->
  supply_wf sup -> (u128 b' = u128 (bonded sup) - u128 unbonded)%Z ->
  (u128 i' = u128 (issued sup) - u128 remainder)%Z ->
  (0 <= u128 unbonded)%Z /\ no_dilution sup (mkSupply i' b' (claimed sup)).
Proof.
  intros (Hz & Hr & Hu)%ratio_Ok (Hi & Hb & _) Eb Ei. unfold no_dilution, Uint.wf, is_u128 in *.
  cbn [issued bonded]. pose proof (Z.div_pos (u128 remainder * u128 (bonded sup)) (u128 (issued sup))).
  pose proof (Z.mul_div_le (u128 remainder * u128 (bonded sup)) (u128 (issued sup))). rw Eb Ei Hu. nia.
Qed.

Section Operations.
Context {S : Type} `{HS : Storage S} {HL : StorageLaws S} {HR : RangeLaws S}.
Context {api : Api} {querier : Querier}.
Context `{HU : Serde Uint128} {LU : SerdeLaws Uint128} `{HI : Serde InvestmentInfo}.
Context `{HP : Serde Supply} {LP : SerdeLaws Supply} {TY : WellTyped}.
Variable bond_all_tokens_msg : StdResult Binary.

(** A successful operation keeps the books and dilutes nobody. *)
Definition kept (sup : Supply) (s' : S) : Prop :=
  exists sup', books s' sup' /\ no_dilution sup sup'.

Lemma transfer_kept env rcpt send (s s' : S) sup r :
  books s sup -> transfer env rcpt send s = (s', Ok r) -> kept sup s'.
Proof.
  intros [Hwf Hh] H. unfold transfer in H. inv_M H. injection Hm1 as <-.
  destruct (update_balance _ _ _ _ _ _ _ _ Hh Hm2) as (i & [Hi _]%sub_Ok & _ & Hh1).
  destruct (update_balance _ _ _ _ _ _ _ _ Hh1 Hm3) as (j & [Hj _]%add_Ok & _ & Hh2).
  exists sup. split; [|apply no_dilution_refl]. split; [done|].
  rw Hi Hj in Hh2. match type of Hh2 with holds _ _ ?x _ => replace x with (u128 (issued sup)) in Hh2 by lia end.
  done.
Qed.

Lemma sent_wf env msg d (c : Coin) :
  msg_wf env msg -> List.find (fun c => bool_decide (denom c = d)) (sent_funds (message env)) = Some c ->
  Uint.wf (amount c).
Proof. intros [Hf _] [Hin _]%List.find_some. rw Forall_forall in Hf; by apply Hf, list_elem_of_In. Qed.

Lemma assert_bonds_Ok sup b u : assert_bonds sup b = Ok u -> b = bonded sup.
Proof. unfold assert_bonds. by case_bool_decide. Qed.

Lemma holds_eq (s : S) sup a b a' b' : holds s sup a b -> a = a' -> b = b' -> holds s sup a' b'.
Proof. by intros ? <- <-. Qed.

Lemma bond_kept env (s s' : S) sup r :
  msg_wf env Bond -> books s sup -> bond env s = (s', Ok r) -> kept sup s'.
Proof.
  intros Hmsg [Hwf Hh] H. unfold bond, load_invest in H. inv_M H.
  injection Hm3 as <-. injection Hm10 as <-. pose proof (sent_wf _ _ _ _ Hmsg Heqo) as Hp.
  destruct Hh as (Hs & Hl & Hh). rw Hl in Hm4. injection Hm4 as <-.
  apply assert_bonds_Ok in Hm5. destruct (shares_for_fair _ _ _ _ Hm6 Hp Hwf Hm5) as [Hmint Hfair].
  subst a3. apply add_Ok in Hm7 as [Eb Wb]. apply add_Ok in Hm8 as [Ei Wi]. destruct a10.
  pose proof (save_supply _ _ _ _ _ _ (conj Hs (conj Hl Hh)) Hm9) as Hh1.
  destruct (update_balance _ _ _ _ _ _ _ _ Hh1 Hm11) as (i & [Ej _]%add_Ok & _ & Hh2).
  eexists. split; [split; [|eapply holds_eq; [exact Hh2|..]]|].
  - split_and!; [done..|apply Hwf].
  - cbn [issued]. lia.
  - done.
  - unfold no_dilution in *. cbn [issued bonded u128] in *. by rw Ei Eb.
Qed.

(** Taking the shares of the sender and giving the tax to the owner. *)
Lemma unbond_shares accounts who owner tax amt (s s1 s2 : S) sup sh ow b u :
  holds s sup sh ow -> accounts = balance_prefix -> (0 <= u128 tax)%Z ->
  Bucket.update accounts who (minus amt) s = (s1, Ok b) ->
  (if Uint.ltb Uint.zero tax
   then Bucket.update accounts owner (plus tax) ≫= (fun _ => mret tt) else mret tt) s1 = (s2, Ok u) ->
  holds s2 sup (sh - u128 amt + u128 tax) ow.
Proof.
  intros Hh -> Ht H1 H2. destruct (update_balance _ _ _ _ _ _ _ _ Hh H1) as (i & [Hi _]%sub_Ok & _ & Hh1).
  destruct (Uint.ltb Uint.zero tax) eqn:E; inv_M H2.
  - destruct (update_balance _ _ _ _ _ _ _ _ Hh1 Hm) as (j & [Hj _]%add_Ok & _ & Hh2).
    eapply holds_eq; [exact Hh2|lia|done].
  - unfold Uint.ltb in E. apply Z.ltb_ge in E. cbn [Uint.zero u128] in E.
    eapply holds_eq; [exact Hh1|lia|done].
Qed.

Lemma loaded_tax (s : S) key i : Singleton.load s key = Ok i -> Dec.wf (exit_tax i).
Proof.
  unfold Singleton.load, must_deserialize. destruct (get s key) as [v|]; [|done]. apply decoded_invest.
Qed.

Lemma loaded_wf (s : S) p a u : Bucket.may_load s p a = Ok (Some u) -> Uint.wf u.
Proof.
  unfold Bucket.may_load, may_deserialize. destruct (get_with_prefix s p a) as [v|]; [|done].
  destruct (from_slice v) as [u'| |] eqn:E; [|done..]. intros [= <-]. by eapply decoded_uint.
Qed.

Lemma unbond_kept env amt (s s' : S) sup r :
  msg_wf env (Unbond amt) -> books s sup -> unbond env amt s = (s', Ok r) -> kept sup s'.
Proof.
  intros [_ Hamt] [Hwf Hh] H. unfold unbond, load_invest in H. inv_M H.
  destruct (Uint.ltb _ _) in H; [discriminate H|]. inv_M H.
  injection Hm3 as <-. injection Hm8 as <-. injection Hm16 as <-.
  pose proof (mul_dec_Ok _ _ _ Hm2 Hamt (loaded_tax _ _ _ Hm0)) as Htax.
  pose proof (unbond_shares _ _ _ _ _ _ _ _ _ _ _ _ _ Hh eq_refl Htax Hm4 Hm5) as (Hs & Hl & Hh1).
  rw Hl in Hm9. injection Hm9 as <-. apply assert_bonds_Ok in Hm10. subst a6.
  apply sub_Ok in Hm7 as [Er Wr], Hm12 as [Eb Wb], Hm13 as [Ei Wi]. apply add_Ok in Hm14 as [Ec Wc].
  destruct (redeem_fair _ _ _ _ _ Hm11 Hwf Eb Ei) as [Hu Hfair]. destruct a15.
  pose proof (save_supply _ _ _ _ _ _ (conj Hs (conj Hl Hh1)) Hm15) as Hh2.
  destruct (update_claim _ _ _ _ _ _ _ _ Hh2 Hm17) as (i & [Ej _]%add_Ok & _ & Hh3).
  eexists. split; [split; [|eapply holds_eq; [exact Hh3|..]]|exact Hfair].
  - unfold supply_wf, Uint.wf, is_u128 in *. cbn [issued bonded claimed]. lia.
  - cbn [issued]. lia.
  - cbn [claimed]. lia.
Qed.

Lemma min_le a b : (u128 (Uint.min a b) <= u128 a /\ u128 (Uint.min a b) <= u128 b)%Z.
Proof. unfold Uint.min. destruct (Z.leb_spec (u128 a) (u128 b)); lia. Qed.

Lemma min_wf a b : Uint.wf a -> Uint.wf b -> Uint.wf (Uint.min a b).
Proof. unfold Uint.min. by destruct (_ <=? _)%Z. Qed.

Lemma update_supply (s s' : S) sup sh ow f out :
  holds s sup sh ow -> Singleton.update supply_key f s = (s', Ok out) ->
  f sup = Ok out /\ holds s' out sh ow /\ exists v, s' = set s supply_key v.
Proof.
  intros Hh. pose proof Hh as (_ & Hl & _).
  cbv [Singleton.update mbind M_bind readS liftR Singleton.save modifyS mret M_ret]. rw Hl.
  destruct (f sup) as [o| |]; [|done..]. destruct (to_vec o) as [v| |] eqn:Hv; [|done..].
  intros [= <- <-]. split_and!; [done|by eapply set_supply|by exists v].
Qed.

(** The supply is no entry of the claims. *)
Lemma claims_after_supply (s : S) v a :
  amount_in claims_prefix (set s supply_key v) a = amount_in claims_prefix s a.
Proof.
  unfold amount_in. rw get_set. case_decide as E; [|done]. exfalso.
  by apply (namespace_disjoint KEY_TOTAL_SUPPLY PREFIX_CLAIMS supply_key claims_prefix [] a); rw ?app_nil_r.
Qed.

(** What a successful claim pays and what it leaves. *)
Definition claim_paid (env : Env) (s s' : S) (sup : Supply) (r : HandleResponse Empty) : Prop :=
  exists who d available c rest,
    canonical_address (sender (message env)) = Ok who /\
    query_balance (address (contract env)) d = Ok available /\
    Bucket.may_load s claims_prefix who = Ok (Some c) /\
    let paid := Uint.min (amount available) c in
    messages r = [CosmosBank (Send (address (contract env)) (sender (message env))
                                [mkCoin (denom available) paid])] /\
    (forall a, amount_in claims_prefix s' a =
               amount_in claims_prefix s a - if decide (who = a) then u128 paid else 0)%Z /\
    u128 rest = (u128 (claimed sup) - u128 paid)%Z /\
    books s' (mkSupply (issued sup) (bonded sup) rest).

Lemma claim_inv env (s s' : S) sup r :
  books s sup -> claim env s = (s', Ok r) -> claim_paid env s s' sup r.
Proof.
  intros [Hwf Hh] H. unfold claim, load_invest in H. inv_M H.
  destruct (Uint.ltb _ _) in H; [discriminate H|]. inv_M H.
  injection Hm0 as <-. assert (a3 = claims_prefix) as -> by by injection Hm3.
  assert (a6 = supply_key) as -> by by injection Hm6. clear Hm3 Hm6.
  destruct (update_claim _ _ _ _ _ _ _ _ Hh Hm5) as (i & Hf & Hi & Hh1).
  destruct (update_inv _ _ _ _ _ _ Hm5) as (_ & v & _ & _ & _ & Hv & Et).
  rw Hm4 in Hi. injection Hi as ->. destruct i as [c|]; [|done]. cbn [ok_or mbind result_bind] in Hf.
  destruct (update_supply _ _ _ _ _ _ _ Hh1 Hm7) as (Hr & Hh2 & w & Et0).
  cbv beta in Hr. inv_M Hr. injection Hr as <-. set (paid := Uint.min (amount a1) c) in *.
  apply sub_Ok in Hf as [Hf _], Hm0 as [Hc W]. pose proof (may_load_amount _ _ _ _ Hm4) as Hheld.
  pose proof (min_wf _ _ (queried_balance _ _ _ Hm1) (loaded_wf _ _ _ _ Hm4)) as Hw.
  exists a2, (bond_denom a), a1, c, a0. cbv zeta. split_and!; [done..| |done|split].
  - intros x. rw Et0 claims_after_supply Et. unfold amount_in. rw get_set. case_decide as E; case_decide as E'.
    + subst x. unfold amount_in in Hheld. rw -Hheld. change (uint v = u128 c - u128 paid)%Z. lia.
    + by apply (inj (app claims_prefix)) in E.
    + by subst.
    + lia.
  - unfold supply_wf, Uint.wf, is_u128 in *. cbn [issued bonded claimed]. fold paid in Hw. lia.
  - eapply holds_eq; [exact Hh2|done|]. cbn [claimed from_option id]. lia.
Qed.

Lemma claim_kept env (s s' : S) sup r :
  books s sup -> claim env s = (s', Ok r) -> kept sup s'.
Proof.
  intros Hb H. destruct (claim_inv _ _ _ _ _ Hb H) as (? & ? & ? & ? & rest & _ & _ & _ & _ & _ & _ & Hb').
  eexists. split; [exact Hb'|]. intros ?. cbn [bonded issued]. lia.
Qed.

(** What the callback does: nothing when too little is free, else it stakes everything
    but the claims. *)
Definition rewards_staked (env : Env) (s s' : S) (sup : Supply) (r : HandleResponse Empty) : Prop :=
  sender (message env) = address (contract env) /\
  ((s' = s /\ r = default_handle_response) \/
   exists invest available to_bond b,
     Singleton.load s (be_bytes 2 6 ++ KEY_INVESTMENT) = Ok (invest : InvestmentInfo) /\
     query_balance (address (contract env)) (bond_denom invest) = Ok available /\
     messages r = [CosmosStaking (Delegate (validator invest) (mkCoin (denom available) to_bond))] /\
     (u128 to_bond + u128 (claimed sup) = u128 (amount available))%Z /\
     (u128 (min_withdrawal invest) <= u128 to_bond)%Z /\ (0 <= u128 to_bond)%Z /\
     u128 b = (u128 (bonded sup) + u128 to_bond)%Z /\
     books s' (mkSupply (issued sup) b (claimed sup))).

Lemma bond_all_inv env (s s' : S) sup r :
  books s sup -> bond_all_tokens env s = (s', Ok r) -> rewards_staked env s s' sup r.
Proof.
  intros [Hwf Hh] H. unfold bond_all_tokens, load_invest in H.
  case_bool_decide as Hsender; [|discriminate H]. cbn [negb] in H. inv_M H.
  assert (a0 = be_bytes 2 6 ++ KEY_INVESTMENT) as -> by by injection Hm0.
  assert (a2 = supply_key) as -> by by injection Hm2. clear Hm0 Hm2. split; [done|].
  destruct (Singleton.update supply_key _ s) as [s1 [sup1|e|]] eqn:Hu; [| |discriminate H].
  - right. destruct (update_supply _ _ _ _ _ _ _ Hh Hu) as (Hf & Hh1 & _).
    unfold add_rewards in Hf. inv_M Hf. injection Hf as <-. cbn [claimed] in H.
    rw Hm0 in H. injection H as <- <-. apply sub_Ok in Hm0 as [E1 W1], Hm2 as [E2 W2].
    apply add_Ok in Hm3 as [E3 W3]. exists a, a1, a0, a3.
    split_and!; [done..|lia|lia|lia|done|]. split; [|done]. destruct Hwf as (? & _ & ?). done.
  - left. destruct e; try discriminate H. injection H as <- <-. split; [|done].
    cbv [Singleton.update mbind M_bind readS liftR Singleton.save modifyS mret M_ret] in Hu.
    destruct (Singleton.load s supply_key) as [x| |]; [|by injection Hu..].
    destruct (add_rewards _ _ x) as [y| |]; [|by injection Hu..].
    by destruct (to_vec y); [|injection Hu..].
Qed.

Lemma bond_all_kept env (s s' : S) sup r :
  books s sup -> bond_all_tokens env s = (s', Ok r) -> kept sup s'.
Proof.
  intros Hb H. destruct (bond_all_inv _ _ _ _ _ Hb H) as [_ [[-> _]|(? & ? & u & b & _ & _ & _ & _ & _ & Hp & Eb & Hb')]].
  - exists sup. split; [done|apply no_dilution_refl].
  - eexists. split; [exact Hb'|]. intros Hi. cbn [bonded issued]. nia.
Qed.

Lemma handle_kept env msg (s s' : S) sup r :
  msg_wf env msg -> books s sup -> handle bond_all_tokens_msg env msg s = (s', Ok r) -> kept sup s'.
Proof.
  intros Hw Hb H. destruct msg; cbn [handle] in H.
  - by eapply transfer_kept.
  - by eapply bond_kept.
  - by eapply unbond_kept.
  - by eapply claim_kept.
  - unfold reinvest, load_invest in H. inv_M H. exists sup. split; [done|apply no_dilution_refl].
  - by eapply bond_all_kept.
Qed.

End Operations.

(** ** The contract over time

    A call either succeeds or is rolled back by the chain; every call sees the chain, and
    so the querier, of its own block. *)

Section Reachable.
Context {S : Type} `{HS : Storage S} {HL : StorageLaws S} {HR : RangeLaws S} {api : Api}.
Context `{HU : Serde Uint128} {LU : SerdeLaws Uint128} `{HI : Serde InvestmentInfo}.
Context `{HP : Serde Supply} {LP : SerdeLaws Supply} `{HT : Serde TokenInfoResponse}.
Variable bond_all_tokens_msg : StdResult Binary.

Definition fresh (s : S) : Prop := store_ok s /\ forall k, get s k = None.

Inductive reachable : S -> Prop :=
| reach_init (q : Querier) env msg s0 s r :
    fresh s0 -> init env msg s0 = (s, Ok r) -> reachable s
| reach_call (q : Querier) (TY : WellTyped) env msg s s' r :
    reachable s -> msg_wf env msg -> handle bond_all_tokens_msg env msg s = (s', Ok r) ->
    reachable s'.

Lemma total_in_empty p (s : S) :
  store_ok (mkPrefixed p s) -> (forall a, get s (p ++ a) = None) -> total_in p s = 0%Z.
Proof.
  intros Hs Hn. unfold total_in. destruct (contents_spec _ Hs) as [_ Hg].
  destruct (contents (mkPrefixed p s)) as [|[k v] l]; [done|]. specialize (Hg k).
  cbn [btree_get] in Hg. rw bool_decide_true // in Hg. change (Some v = get s (p ++ k)) in Hg.
  by rw Hn in Hg.
Qed.

(** Saving a singleton leaves a bucket's keys alone. *)
Lemma save_other {T} `{Serde T} n m p key (x : T) (s s' : S) u :
  Singleton.save key x s = (s', Ok u) -> to_length_prefixed m = Ok key ->
  to_length_prefixed n = Ok p -> n <> m -> store_ok s ->
  store_ok s' /\ forall a, get s' (p ++ a) = get s (p ++ a).
Proof.
  cbv [Singleton.save mbind M_bind liftR modifyS]. destruct (to_vec x) as [v| |]; [|done..].
  intros [= <- _] Hm Hn Hne Hs. split; [by apply set_ok|]. intros a. rw get_set.
  case_decide as E; [|done]. exfalso. apply (namespace_disjoint m n key p [] a); [done..|by intros ->|].
  by rw app_nil_r.
Qed.

Lemma init_books (q : Querier) env msg (s0 s : S) r :
  fresh s0 -> init env msg s0 = (s, Ok r) -> books s default_supply.
Proof.
  intros [Hs Hn] H. unfold init in H. inv_M H. destruct (negb _) in H; [discriminate H|]. inv_M H.
  assert (a6 = supply_key) as -> by by injection Hm6.
  assert (forall n p, to_length_prefixed n = Ok p -> n <> KEY_TOKEN_INFO -> n <> KEY_INVESTMENT ->
            n <> KEY_TOTAL_SUPPLY -> store_ok t1 /\ forall a, get t1 (p ++ a) = None) as Hempty.
  { intros n p Hp N1 N2 N3.
    destruct (save_other n _ p _ _ _ _ _ Hm1 Hm0 Hp N1 Hs) as [O1 G1].
    destruct (save_other n _ p _ _ _ _ _ Hm5 Hm4 Hp N2 O1) as [O2 G2].
    destruct (save_other n _ p _ _ _ _ _ Hm7 Hm6 Hp N3 O2) as [O3 G3].
    split; [done|]. intros a'. by rw G3 G2 G1 Hn. }
  destruct (Hempty PREFIX_BALANCE balance_prefix) as [O Gb]; [done..|].
  destruct (Hempty PREFIX_CLAIMS claims_prefix) as [_ Gc]; [done..|].
  split; [done|]. split_and!; [done| |apply total_in_empty; [by apply balance_ok|done]
                                     |apply total_in_empty; [by apply claims_ok|done]].
  revert Hm7. cbv [Singleton.save mbind M_bind liftR modifyS].
  destruct (to_vec default_supply) as [v| |] eqn:Hv; [|done..]. intros [= <- _].
  unfold Singleton.load. rw get_set. case_decide; [|done]. cbn. by apply from_to.
Qed.

(** C37: In every state the staking contract reaches from init by successful calls, the issued
    shares are the sum of all balances and the reserved tokens are the sum of all pending
    claims. *)
Theorem staking_books_balance (s : S) : reachable s -> exists sup, books s sup.
Proof.
  induction 1 as [q env msg s0 s r Hf Hi|q TY env msg s s' r _ [sup Hb] Hw Hh].
  - exists default_supply. by eapply init_books.
  - destruct (handle_kept _ _ _ _ _ _ _ Hw Hb Hh) as (sup' & Hb' & _). by exists sup'.
Qed.

End Reachable.

(** ** Properties of single calls *)

(** C38: No successful message lowers the number of staked tokens behind one share: bonding and
    unbonding round in favour of the other holders. *)
Theorem shares_are_not_diluted {S} `{StorageLaws S, !RangeLaws S, Api} {querier : Querier}
    `{Serde Uint128, !SerdeLaws Uint128, Serde InvestmentInfo, Serde Supply, !SerdeLaws Supply}
    {TY : WellTyped}
    callback env msg (s s' : S) sup r :
  books s sup -> msg_wf env msg -> handle callback env msg s = (s', Ok r) ->
  exists sup', Singleton.load s' supply_key = Ok sup' /\
    (0 < u128 (issued sup) ->
     u128 (bonded sup) * u128 (issued sup') <= u128 (bonded sup') * u128 (issued sup))%Z.
Proof.
  intros Hb Hw Hh. destruct (handle_kept _ _ _ _ _ _ _ Hw Hb Hh) as (sup' & (_ & _ & Hl & _) & Hd).
  by exists sup'.
Qed.

(** A successful claim sends the sender the smaller of its claim and the balance of the
    contract, lowers its claim and the reserved total by exactly that amount, and leaves
    every other claim alone. *)
Theorem claim_pays_what_is_owed {S} `{StorageLaws S, !RangeLaws S, Api} {querier : Querier}
    `{Serde Uint128, !SerdeLaws Uint128, Serde InvestmentInfo, Serde Supply, !SerdeLaws Supply}
    {TY : WellTyped}
    env (s s' : S) sup r :
  books s sup -> claim env s = (s', Ok r) ->
  exists who d available c rest,
    canonical_address (sender (message env)) = Ok who /\
    query_balance (address (contract env)) d = Ok available /\
    Bucket.may_load s claims_prefix who = Ok (Some c) /\
    let paid := Uint.min (amount available) c in
    messages r = [CosmosBank (Send (address (contract env)) (sender (message env))
                                [mkCoin (denom available) paid])] /\
    (forall a, amount_in claims_prefix s' a =
               amount_in claims_prefix s a - if decide (who = a) then u128 paid else 0)%Z /\
    u128 rest = (u128 (claimed sup) - u128 paid)%Z /\
    books s' (mkSupply (issued sup) (bonded sup) rest).
Proof. apply claim_inv. Qed.

(** The reinvest callback runs only for the contract itself and either does nothing or stakes
    exactly the balance minus the pending claims, at least the minimum withdrawal. *)
Theorem reinvest_spares_claims {S} `{StorageLaws S, !RangeLaws S, Api} {querier : Querier}
    `{Serde Uint128, !SerdeLaws Uint128, Serde InvestmentInfo, Serde Supply, !SerdeLaws Supply}
    {TY : WellTyped}
    env (s s' : S) sup r :
  books s sup -> bond_all_tokens env s = (s', Ok r) ->
  sender (message env) = address (contract env) /\
  ((s' = s /\ r = default_handle_response) \/
   exists invest available to_bond b,
     Singleton.load s (be_bytes 2 6 ++ KEY_INVESTMENT) = Ok (invest : InvestmentInfo) /\
     query_balance (address (contract env)) (bond_denom invest) = Ok available /\
     messages r = [CosmosStaking (Delegate (validator invest) (mkCoin (denom available) to_bond))] /\
     (u128 to_bond + u128 (claimed sup) = u128 (amount available))%Z /\
     (u128 (min_withdrawal invest) <= u128 to_bond)%Z /\ (0 <= u128 to_bond)%Z /\
     u128 b = (u128 (bonded sup) + u128 to_bond)%Z /\
     books s' (mkSupply (issued sup) b (claimed sup))).
Proof. apply bond_all_inv. Qed.

(** ** The properties at a concrete contract *)

#[export] Instance InvestmentInfo_eq_dec : EqDecision InvestmentInfo.
Proof. solve_decision. Defined.

Definition demo_invest : InvestmentInfo :=
  mkInvestment (lit "creator") "stake" (mkDecimal 20000000000000000) "val" (mkUint128 50).

Definition demo_serde_uint : Serde Uint128 := {|
  to_vec u := if ((0 <=? u128 u) && (u128 u <=? U128_MAX))%Z then Ok (be_bytes 16 (u128 u))
              else Err (generic_err "range");
  from_slice b := if (length b =? 16)%nat then Ok (mkUint128 (from_be_bytes b))
                  else Err (generic_err "length");
  type_name := "Uint128"
|}.

Definition demo_supply_from (d : bytes) : StdResult Supply :=
  i ← @from_slice _ demo_serde_uint (take 16 d);
  b ← @from_slice _ demo_serde_uint (take 16 (drop 16 d));
  c ← @from_slice _ demo_serde_uint (drop 32 d);
  Ok (mkSupply i b c).

Definition demo_serde_supply : Serde Supply := {|
  to_vec s := i ← @to_vec _ demo_serde_uint (issued s); b ← @to_vec _ demo_serde_uint (bonded s);
              c ← @to_vec _ demo_serde_uint (claimed s); Ok (i ++ b ++ c);
  from_slice := demo_supply_from;
  type_name := "Supply"
|}.

(** A codec that knows one configuration. *)
Definition demo_serde_invest : Serde InvestmentInfo := {|
  to_vec i := if bool_decide (i = demo_invest) then Ok [Byte.x01] else Err (generic_err "unknown");
  from_slice b := if bool_decide (b = [Byte.x01]) then Ok demo_invest else Err (generic_err "unknown");
  type_name := "InvestmentInfo"
|}.

Definition demo_serde_token : Serde TokenInfoResponse := {|
  to_vec t := Ok (lit (token_name t));
  from_slice b := Ok (mkTokenInfo (string_of_list_byte b) "" 0);
  type_name := "TokenInfoResponse"
|}.

Lemma demo_uint_encoded (u : Uint128) v :
  @to_vec _ demo_serde_uint u = Ok v -> length v = 16 /\ @from_slice _ demo_serde_uint v = Ok u.
Proof.
  unfold to_vec, from_slice, demo_serde_uint. destruct ((0 <=? u128 u) && _)%Z eqn:Hu; [|done].
  apply andb_true_iff in Hu as [?%Z.leb_le ?%Z.leb_le]. intros Hv.
  assert (v = be_bytes 16 (u128 u)) as -> by congruence.
  rw be_bytes_length. split; [done|]. rw Nat.eqb_refl u128_be_bytes_roundtrip //. by destruct u.
Qed.

Lemma demo_uint_laws : SerdeLaws Uint128 (H := demo_serde_uint).
Proof. constructor. intros u v. apply demo_uint_encoded. Qed.

Lemma demo_supply_laws : SerdeLaws Supply (H := demo_serde_supply).
Proof.
  constructor. intros [i b c] v H. cbn [to_vec demo_serde_supply issued bonded claimed] in H. inv_M H.
  injection H as <-. apply demo_uint_encoded in Hm as [L1 D1], Hm0 as [L2 D2], Hm1 as [_ D3].
  change (demo_supply_from (a ++ a0 ++ a1) = Ok (mkSupply i b c)). unfold demo_supply_from.
  rw (take_app_length' a _ 16) // (drop_app_length' a _ 16) // (take_app_length' a0 _ 16) //.
  rw app_assoc (drop_app_length' (a ++ a0) _ 32).
  - by rw D1 D2 D3.
  - by rw length_app L1 L2.
Qed.

#[local] Existing Instances demo_api demo_serde_uint demo_serde_supply demo_serde_invest demo_serde_token.
#[local] Existing Instances demo_uint_laws demo_supply_laws.

(** The chain: some delegations of the contract, 500 tokens on its account. *)
Definition demo_querier (delegations : list Delegation) : Querier := {|
  query_balance _ d := Ok (mkCoin d (mkUint128 500));
  query_all_balances _ := Ok [];
  query_validators := Ok ["val"];
  query_bonded_denom := Ok "stake";
  query_all_delegations _ := Ok delegations
|}.

Lemma demo_well_typed l : WellTyped (querier := demo_querier l).
Proof.
  split.
  - intros b u. unfold from_slice, demo_serde_uint. destruct (Nat.eqb_spec (length b) 16) as [Hb|]; [|done].
    intros [= <-]. pose proof (from_be_bytes_range b) as Hr. rw Hb in Hr.
    change (256 ^ Z.of_nat 16)%Z with (2 ^ 128)%Z in Hr. unfold Uint.wf, is_u128, U128_MAX. cbn [u128]. lia.
  - intros b i. cbn [from_slice demo_serde_invest]. case_bool_decide; [|done]. by intros [= <-].
  - intros a d c [= <-]. done.
Qed.

Definition demo_delegated (n : Z) : list Delegation := [mkDelegation "contract" "val" (coin n "stake")].

Definition demo_call (who : HumanAddr) (funds : list Coin) : Env :=
  mkEnv (mkBlock 1 1 "chain") (mkMessage who funds) (mkContract "contract") None "".

Definition demo_init : InitMsg :=
  mkInitMsg "drv" "DRV" 9 "val" (mkDecimal 20000000000000000) (mkUint128 50).

Definition demo_step (delegations : list Delegation) (env : Env) (msg : HandleMsg) (s : MemoryStorage) :=
  handle (querier := demo_querier delegations) (Ok []) env msg s.

Definition demo_s0 : MemoryStorage :=
  (init (querier := demo_querier []) (demo_call "creator" []) demo_init Memory.new).1.
Definition demo_s1 : MemoryStorage := (demo_step [] (demo_call "bob" (coins 1000 "stake")) Bond demo_s0).1.
Definition demo_s2 : MemoryStorage :=
  (demo_step (demo_delegated 1000) (demo_call "bob" []) (Unbond (mkUint128 400)) demo_s1).1.

Definition demo_sup1 : Supply := mkSupply (mkUint128 1000) (mkUint128 1000) (mkUint128 0).
Definition demo_sup2 : Supply := mkSupply (mkUint128 608) (mkUint128 608) (mkUint128 392).

Lemma demo_books1 : books demo_s1 demo_sup1.
Proof. split; [done|]. split; [|by vm_compute]. vm_compute. repeat constructor. Qed.

Lemma demo_books2 : books demo_s2 demo_sup2.
Proof. split; [done|]. split; [|by vm_compute]. vm_compute. repeat constructor. Qed.

Lemma staking_books_balance_witness : exists sup, books demo_s2 sup.
Proof.
  apply (staking_books_balance (Ok [])).
  eapply (reach_call _ (demo_querier (demo_delegated 1000)) (demo_well_typed _) (demo_call "bob" [])
            (Unbond (mkUint128 400)) demo_s1);
    [|by split; [constructor|]|by vm_compute].
  eapply (reach_call _ (demo_querier []) (demo_well_typed _) (demo_call "bob" (coins 1000 "stake")) Bond demo_s0);
    [|by split; [repeat constructor|]|by vm_compute].
  eapply (reach_init _ (demo_querier []) (demo_call "creator" []) demo_init Memory.new); [|by vm_compute].
  split; [constructor|done].
Defined.

Lemma shares_are_not_diluted_witness :
  exists sup', Singleton.load demo_s2 supply_key = Ok sup' /\
    (u128 (bonded demo_sup1) * u128 (issued sup') <= u128 (bonded sup') * u128 (issued demo_sup1))%Z.
Proof.
  destruct (shares_are_not_diluted (querier := demo_querier (demo_delegated 1000)) (TY := demo_well_typed _)
              (Ok []) (demo_call "bob" []) (Unbond (mkUint128 400)) demo_s1 demo_s2 demo_sup1
              (mkHandleResponse [CosmosStaking (Undelegate "val" (coin 392 "stake"))]
                 [log "action" "unbond"; log "to" "bob"; log "unbonded" "392"; log "burnt" "400"] None))
    as (sup' & Hl & Hd); [exact demo_books1|by split; [constructor|]|by vm_compute|].
  exists sup'. split; [exact Hl|]. apply Hd. reflexivity.
Defined.

Definition demo_s3 : MemoryStorage := (demo_step [] (demo_call "bob" []) Claim demo_s2).1.

Lemma claim_pays_what_is_owed_witness :
  amount_in claims_prefix demo_s3 (lit "bob") = 0%Z.
Proof.
  destruct (claim_pays_what_is_owed (querier := demo_querier []) (TY := demo_well_typed _)
              (demo_call "bob" []) demo_s2 demo_s3 demo_sup2
              (mkHandleResponse [CosmosBank (Send "contract" "bob" [coin 392 "stake"])]
                 [log "action" "claim"; log "from" "bob"; log "amount" "392"] None))
    as (who & d & av & c & rest & Hw & Hq & Hc & _ & Hs & _); [exact demo_books2|by vm_compute|].
  injection Hw as <-. injection Hq as <-. rw Hs.
  assert (c = mkUint128 392) as -> by (vm_compute in Hc; by injection Hc).
  by vm_compute.
Defined.

Definition demo_s4 : MemoryStorage :=
  (demo_step (demo_delegated 608) (demo_call "contract" []) BondAllTokens demo_s2).1.

Lemma reinvest_spares_claims_witness :
  demo_s4 = demo_s2 \/ exists sup, books demo_s4 sup /\ claimed sup = mkUint128 392.
Proof.
  destruct (reinvest_spares_claims (querier := demo_querier (demo_delegated 608)) (TY := demo_well_typed _)
              (demo_call "contract" []) demo_s2 demo_s4 demo_sup2
              (mkHandleResponse [CosmosStaking (Delegate "val" (coin 108 "stake"))]
                 [log "action" "reinvest"; log "bonded" "108"] None))
    as [_ [[E _]|(i & av & u & b & _ & _ & _ & _ & _ & _ & _ & Hb)]];
    [exact demo_books2|by vm_compute|by left|].
  right. eexists. split; [exact Hb|]. reflexivity.
Defined.
