(* ===== verification/Queue.v ===== *)
(** * The queue contract: cosmwasm/contracts/queue/src/contract.rs

    A queue of [i32] values kept as one storage entry per item under one-byte keys.  The
    abstract specification is a list together with the key of its head; every handler
    refines it, over any store that keeps the promises of [StorageLaws] and [RangeLaws]. *)

From Stdlib Require Import Strings.String.
From stdpp Require Import base tactics list numbers strings ssreflect sorting.
From S2P Require Import Prelude Math Storage Prefixed Typed Std.

Local Open Scope Z_scope.
Local Open Scope list_scope.

Record Item : Type := mkItem { value : Z }.

Inductive HandleMsg : Type :=
| Enqueue (value : Z)
| Dequeue.

Inductive QueryMsg : Type := Count | Sum | Reducer.

Record CountResponse : Type := mkCount { count : Z }.
Record SumResponse : Type := mkSum { sum : Z }.
Record ReducerResponse : Type := mkReducer { counters : list (Z * Z) }.

(** Addition on [i32] with overflow checks, and [Iterator::sum] and [fold] built on it. *)
Definition is_i32 (z : Z) : Prop := - 2^31 <= z < 2^31.
Definition i32_add {E} (a b : Z) : result E Z :=
  if (- 2^31 <=? a + b) && (a + b <? 2^31) then Ok (a + b) else Panic.
Definition i32_sum {E} (l : list Z) : result E Z :=
  foldl (fun racc v => acc ← racc; i32_add acc v) (Ok 0) l.

Section Queue.
Context {S : Type} `{HS : Storage S} `{HI : Serde Item}.

Definition init : M S StdError (InitResponse Empty) := mret default_init_response.

Definition FIRST_KEY : Z := 0.

(** The key after the last one: [key[0] + 1]. *)
Definition next_key (last_item : option KV) : StdResult Z :=
  match last_item with
  | None => Ok FIRST_KEY
  | Some ([], _) => Panic
  | Some (b :: _, _) => arith U8_MAX (Z_of_byte b + 1)
  end.

Definition enqueue (v : Z) : M S StdError (HandleResponse Empty) :=
  items ← readS (fun s => range s None None Descending);
  new_key ← liftR (next_key (head items));
  new_value ← liftR (to_vec (mkItem v));
  _ ← modifyS (fun s => set s [byte_of_Z new_key] new_value);
  mret default_handle_response.

Definition dequeue : M S StdError (HandleResponse Empty) :=
  items ← readS (fun s => range s None None Ascending);
  match head items with
  | Some (key, v) =>
      _ ← modifyS (fun s => remove s key);
      mret (mkHandleResponse [] [] (Some v))
  | None => mret default_handle_response
  end.

Definition handle (msg : HandleMsg) : M S StdError (HandleResponse Empty) :=
  match msg with
  | Enqueue v => enqueue v
  | Dequeue => dequeue
  end.

Definition query_count (s : S) : StdResult CountResponse :=
  items ← range s None None Ascending;
  Ok (mkCount (Z.of_nat (length items) mod 2^32)).

Definition query_sum (s : S) : StdResult SumResponse :=
  items ← range s None None Ascending;
  values ← mapR (fun kv => from_slice (T := Item) kv.2) items;
  total ← i32_sum (map value values);
  Ok (mkSum total).

(** The inner iterator of [query_reducer] over the whole store; an item that does not parse
    is an [expect] that fails. *)
Definition sum_above (s : S) (my_val : Z) : StdResult Z :=
  items ← range s None None Ascending;
  values ← mapR (fun kv => unwrap (from_slice (T := Item) kv.2)) items;
  i32_sum (List.filter (fun v => my_val <? v) (map value values)).

Definition query_reducer (s : S) : StdResult ReducerResponse :=
  items ← range s None None Ascending;
  out ← mapR (fun kv =>
          val ← from_slice (T := Item) kv.2;
          total ← sum_above s (value val);
          Ok (value val, total)) items;
  Ok (mkReducer out).

(** The answers before [to_binary] encodes them. *)
Inductive Answer : Type :=
| CountAnswer (res : CountResponse)
| SumAnswer (res : SumResponse)
| ReducerAnswer (res : ReducerResponse).

Definition query (s : S) (msg : QueryMsg) : StdResult Answer :=
  match msg with
  | Count => CountAnswer <$> query_count s
  | Sum => SumAnswer <$> query_sum s
  | Reducer => ReducerAnswer <$> query_reducer s
  end.

(** A sequence of calls: the outcomes in order, and the store left behind. *)
Fixpoint run_queue (msgs : list HandleMsg) (s : S) : S * list (StdResult (HandleResponse Empty)) :=
  match msgs with
  | [] => (s, [])
  | m :: ms => let (s1, r) := handle m s in
               let (s2, rs) := run_queue ms s1 in (s2, r :: rs)
  end.

End Queue.

(** ** The abstract queue *)

Module Spec.
Section Spec.
Context `{HI : Serde Item}.

Record queue : Type := mkQueue { first : Z; items : list Z }.

(** The bytes an item is stored as. *)
Definition enc (v : Z) : bytes :=
  match to_vec (mkItem v) with Ok b => b | _ => [] end.

Definition full (q : queue) : bool :=
  negb (bool_decide (items q = [])) && (first q + Z.of_nat (length (items q)) =? 256).

Definition handle (msg : HandleMsg) (q : queue) : queue * StdResult (HandleResponse Empty) :=
  match msg with
  | Enqueue v =>
      if full q then (q, Panic)
      else (mkQueue (if bool_decide (items q = []) then 0 else first q) (items q ++ [v]),
            Ok default_handle_response)
  | Dequeue =>
      match items q with
      | [] => (q, Ok default_handle_response)
      | v :: l => (mkQueue (first q + 1) l, Ok (mkHandleResponse [] [] (Some (enc v))))
      end
  end.

Fixpoint run (msgs : list HandleMsg) (q : queue) : queue * list (StdResult (HandleResponse Empty)) :=
  match msgs with
  | [] => (q, [])
  | m :: ms => let (q1, r) := handle m q in
               let (q2, rs) := run ms q1 in (q2, r :: rs)
  end.

(** What the store of a queue holds. *)
Fixpoint entries (k : Z) (l : list Z) : list KV :=
  match l with
  | [] => []
  | v :: l' => ([byte_of_Z k], enc v) :: entries (k + 1) l'
  end.

Definition wf (q : queue) : Prop :=
  0 <= first q /\ first q + Z.of_nat (length (items q)) <= 256 /\ Forall is_i32 (items q).

End Spec.
End Spec.

Definition valid_msg (m : HandleMsg) : Prop :=
  match m with Enqueue v => is_i32 v | Dequeue => True end.

(** Every [i32] item can be encoded. *)
Class ItemCodec `{Serde Item} : Prop := {
  item_total v : is_i32 v -> exists b, to_vec (mkItem v) = Ok b
}.

Section Refinement.
Context {S : Type} `{HS : Storage S} {HL : StorageLaws S} {HR : RangeLaws S}.
Context `{HI : Serde Item} {HIL : SerdeLaws Item} {HIC : ItemCodec}.

(** A store represents an abstract queue. *)
Definition represents (s : S) (q : Spec.queue) : Prop :=
  store_ok s /\ contents s = Spec.entries (Spec.first q) (Spec.items q) /\ Spec.wf q.

Lemma enc_ok v : is_i32 v -> to_vec (mkItem v) = Ok (Spec.enc v).
Proof. intros [b Hb]%item_total. unfold Spec.enc. by rw Hb. Qed.

Lemma dec_enc v : is_i32 v -> from_slice (Spec.enc v) = Ok (mkItem v).
Proof. intros H. apply from_to, enc_ok, H. Qed.

Lemma entries_app k l l' :
  Spec.entries k (l ++ l') = Spec.entries k l ++ Spec.entries (k + Z.of_nat (length l)) l'.
Proof.
  revert k. induction l as [|v l IH]; intros k; cbn [app Spec.entries length].
  - by rw Z.add_0_r.
  - rw IH. cbn. do 3 f_equal. lia.
Qed.

Lemma entries_length k l : length (Spec.entries k l) = length l.
Proof. revert k. induction l as [|v l IH]; intros k; cbn; [done|]. by rw IH. Qed.

Lemma entries_keys k l key b :
  0 <= k -> k + Z.of_nat (length l) <= 256 -> (key, b) ∈ Spec.entries k l ->
  exists j, key = [byte_of_Z j] /\ k <= j < k + Z.of_nat (length l).
Proof.
  revert k. induction l as [|v l IH]; intros k H0 Hl; cbn in *; [by intros ?%elem_of_nil|].
  intros [?|Hin]%elem_of_cons; [simplify_eq; exists k; split; [done|lia]|].
  destruct (IH (k + 1)) as (j & -> & Hj); [lia..|done|]. exists j. split; [done|lia].
Qed.

Lemma key_lt i j : 0 <= i < j -> j < 256 -> bytes_lt [byte_of_Z i] [byte_of_Z j].
Proof.
  intros Hi Hj. unfold bytes_lt. cbn. rw !Z_of_byte_of_Z !Z.mod_small; [|lia..].
  by rw (proj2 (Z.compare_lt_iff i j) ltac:(lia)).
Qed.

Lemma btree_insert_last {V} (m : list (bytes * V)) k v :
  (forall k' v', (k', v') ∈ m -> bytes_lt k' k) -> btree_insert m k v = m ++ [(k, v)].
Proof.
  induction m as [|[k' v'] m IH]; intros H; cbn; [done|].
  assert (bytes_lt k' k) as Hk by (eapply H; left). unfold bytes_lt in Hk.
  rw bytes_cmp_antisym Hk. cbn. rw IH //. intros. eapply H. by right.
Qed.

Lemma btree_remove_head {V} (m : list (bytes * V)) k v :
  btree_ok ((k, v) :: m) -> btree_remove ((k, v) :: m) k = m.
Proof.
  intros [_ Hf]%sorted_cons_inv. unfold btree_remove. cbn. unfold bytes_eqb at 1.
  rw bool_decide_true //. cbn.
  induction m as [|[k' v'] m IH]; cbn; [done|]. unfold bytes_eqb at 1.
  rw bool_decide_false; [|intros ->; eapply bytes_lt_irrefl, Hf; left].
  cbn. f_equal. apply IH. intros. eapply Hf. by right.
Qed.

(** The key of the newest item. *)
Lemma newest_entry k l : l <> [] ->
  exists b, head (reverse (Spec.entries k l)) = Some ([byte_of_Z (k + Z.of_nat (length l) - 1)], b).
Proof.
  intros Hl. destruct (exists_last Hl) as (l' & v & ->). rw entries_app reverse_app. cbn.
  exists (Spec.enc v). do 3 f_equal. rw length_app. cbn. f_equal. lia.
Qed.

Lemma next_key_spec q :
  Spec.wf q ->
  next_key (head (reverse (Spec.entries (Spec.first q) (Spec.items q))))
  = if Spec.full q then Panic
    else Ok (if bool_decide (Spec.items q = []) then 0
             else Spec.first q + Z.of_nat (length (Spec.items q))).
Proof.
  destruct q as [k l]. unfold Spec.wf, Spec.full. cbn [Spec.first Spec.items]. intros (H0 & H1 & _).
  destruct (decide (l = [])) as [->|Hl]; [done|]. rw (bool_decide_false (l = [])) //.
  destruct (newest_entry k l Hl) as [b ->]. cbn [next_key].
  assert (1 <= Z.of_nat (length l)) by (destruct l; [done|cbn; lia]).
  rw Z_of_byte_of_Z Z.mod_small; [|lia]. cbn [negb andb].
  unfold arith, U8_MAX, checked. replace (k + Z.of_nat (length l) - 1 + 1) with (k + Z.of_nat (length l)) by lia.
  destruct (k + Z.of_nat (length l) =? 256) eqn:E.
  - apply Z.eqb_eq in E. rw E. done.
  - apply Z.eqb_neq in E. rw (proj2 (Z.leb_le 0 _)); [|lia]. rw (proj2 (Z.leb_le _ 255)); [|lia]. done.
Qed.

Lemma enqueue_refines (s : S) q v :
  represents s q -> is_i32 v ->
  (enqueue v s).2 = (Spec.handle (Enqueue v) q).2 /\
  represents (enqueue v s).1 (Spec.handle (Enqueue v) q).1.
Proof.
  intros (Hs & Hc & Hq) Hv. unfold enqueue. cbv [mbind M_bind readS].
  rw range_all_descending // Hc. unfold liftR. rw next_key_spec //. cbn [Spec.handle].
  destruct (Spec.full q) eqn:Hf; [done|]. rw enc_ok //. cbv [modifyS mret M_ret]. cbn [fst snd].
  split; [done|]. destruct q as [k l]. unfold represents, Spec.wf, Spec.full in *. cbn [Spec.first Spec.items] in *.
  destruct Hq as (H0 & H1 & H2). split; [by apply set_ok|].
  rw contents_set // Hc. destruct (decide (l = [])) as [->|Hl].
  - cbn. split; [done|]. split_and!; [lia..|]. by constructor.
  - rw bool_decide_false // in Hf. cbn in Hf. apply Z.eqb_neq in Hf.
    rw !(bool_decide_false (l = [])) // entries_app. split.
    + apply btree_insert_last. intros k' b (j & -> & Hj)%entries_keys; [|lia..]. apply key_lt; lia.
    + rw length_app. cbn. split_and!; [lia..|]. apply Forall_app. split; [done|by constructor].
Qed.

Lemma dequeue_refines (s : S) q :
  represents s q ->
  (dequeue s).2 = (Spec.handle Dequeue q).2 /\ represents (dequeue s).1 (Spec.handle Dequeue q).1.
Proof.
  intros (Hs & Hc & Hq). unfold dequeue. cbv [mbind M_bind readS]. rw range_all // Hc.
  destruct q as [k [|v l]]; cbn [Spec.entries head Spec.items Spec.first Spec.handle]; [done|].
  cbv [modifyS mret M_ret]. cbn [fst snd]. split; [done|].
  unfold represents, Spec.wf in *. cbn [Spec.first Spec.items length] in *.
  destruct Hq as (H0 & H1 & [_ H2]%Forall_cons). split; [by apply remove_ok|].
  rw contents_remove // Hc. split; [|split_and!; [lia..|done]].
  cbn [Spec.entries]. apply btree_remove_head.
  destruct (contents_spec s Hs) as [Hok _]. by rw Hc in Hok.
Qed.

Lemma handle_refines (s : S) q m :
  represents s q -> valid_msg m ->
  (handle m s).2 = (Spec.handle m q).2 /\ represents (handle m s).1 (Spec.handle m q).1.
Proof. destruct m; [apply enqueue_refines|]. intros H _. by apply dequeue_refines. Qed.

Lemma run_refines ms (s : S) q :
  represents s q -> Forall valid_msg ms ->
  (run_queue ms s).2 = (Spec.run ms q).2 /\ represents (run_queue ms s).1 (Spec.run ms q).1.
Proof.
  revert s q. induction ms as [|m ms IH]; intros s q Hr Hv; [done|].
  apply Forall_cons in Hv as [Hm Hms]. destruct (handle_refines s q m Hr Hm) as [H1 H2].
  cbn [run_queue Spec.run]. destruct (handle m s) as [s1 r], (Spec.handle m q) as [q1 r']. cbn in *.
  destruct (IH s1 q1 H2 Hms) as [H3 H4].
  destruct (run_queue ms s1) as [s2 rs], (Spec.run ms q1) as [q2 rs']. cbn in *. by subst.
Qed.

Lemma empty_represents (s : S) : store_ok s -> contents s = [] -> represents s (Spec.mkQueue 0 []).
Proof. intros Hs Hc. split; [done|]. split; [done|]. unfold Spec.wf. cbn. split_and!; [lia..|constructor]. Qed.

End Refinement.

(** ** What a user of the queue sees *)

(** The stored bytes that calls handed out. *)
Definition taken (rs : list (StdResult (HandleResponse Empty))) : list bytes :=
  omap (fun r => match r with Ok res => response_data res | _ => None end) rs.

(** The values of the calls to [enqueue] that succeeded. *)
Definition accepted_value (mr : HandleMsg * StdResult (HandleResponse Empty)) : option Z :=
  match mr with (Enqueue v, Ok _) => Some v | _ => None end.
Definition accepted (ms : list HandleMsg) (rs : list (StdResult (HandleResponse Empty))) : list Z :=
  omap accepted_value (zip ms rs).

Section Behaviour.
Context {S : Type} `{HS : Storage S} {HL : StorageLaws S} {HR : RangeLaws S}.
Context `{HI : Serde Item} {HIL : SerdeLaws Item} {HIC : ItemCodec}.

Lemma spec_run_fifo ms q :
  let (q', rs) := Spec.run ms q in
  taken rs ++ map Spec.enc (Spec.items q') = map Spec.enc (Spec.items q ++ accepted ms rs).
Proof.
  revert q. induction ms as [|m ms IH]; intros q; cbn [Spec.run].
  - cbn. by rw app_nil_r.
  - destruct (Spec.handle m q) as [q1 r] eqn:Hm. specialize (IH q1).
    destruct (Spec.run ms q1) as [q2 rs]. destruct m as [v|]; cbn [Spec.handle] in Hm.
    + destruct (Spec.full q); simplify_eq; cbn in *; [done|].
      rw IH. by rw -(app_assoc (Spec.items q)).
    + destruct (Spec.items q) as [|v l] eqn:Hq; simplify_eq; cbn in *; rw IH //.
      by rw Hq.
Qed.

Lemma queue_run_sound ms (s : S) q :
  represents s q -> Forall valid_msg ms ->
  exists q', represents (run_queue ms s).1 q' /\ (run_queue ms s).2 = (Spec.run ms q).2 /\
    taken (run_queue ms s).2 ++ map Spec.enc (Spec.items q')
    = map Spec.enc (Spec.items q ++ accepted ms (run_queue ms s).2).
Proof.
  intros Hr Hv. destruct (run_refines ms s q Hr Hv) as [H1 H2].
  exists (Spec.run ms q).1. split_and!; [done..|]. rw H1.
  pose proof (spec_run_fifo ms q) as H. by destruct (Spec.run ms q).
Qed.

(** C39: Over any sequence of calls on an empty store, the values handed out followed by those
    still stored are exactly the accepted values, in the order they were enqueued. *)
Theorem queue_is_fifo (s : S) ms :
  store_ok s -> contents s = [] -> Forall valid_msg ms ->
  exists left_over,
    contents (run_queue ms s).1 = Spec.entries (Spec.first left_over) (Spec.items left_over) /\
    taken (run_queue ms s).2 ++ map Spec.enc (Spec.items left_over)
    = map Spec.enc (accepted ms (run_queue ms s).2).
Proof.
  intros Hs Hc Hv.
  destruct (queue_run_sound ms s _ (empty_represents s Hs Hc) Hv) as (q & (_ & Hq & _) & _ & H).
  by exists q.
Qed.

(** Draining an abstract queue. *)
Lemma spec_drain q :
  Spec.run (replicate (length (Spec.items q)) Dequeue) q
  = (Spec.mkQueue (Spec.first q + Z.of_nat (length (Spec.items q))) [],
     map (fun v => Ok (mkHandleResponse [] [] (Some (Spec.enc v)))) (Spec.items q)).
Proof.
  destruct q as [k l]. cbn [Spec.items Spec.first]. revert k.
  induction l as [|v l IH]; intros k; cbn [length replicate Spec.run Spec.handle Spec.items Spec.first map].
  - by rw Z.add_0_r.
  - rw IH. do 2 f_equal. rw Nat2Z.inj_succ. lia.
Qed.

(** From every state of the queue, as many dequeues as there are items return them in order and
    empty the store, after which an enqueue succeeds again under the first key. *)
Theorem queue_drains_and_recovers (s : S) q v :
  represents s q -> is_i32 v ->
  let n := length (Spec.items q) in
  let (s', rs) := run_queue (replicate n Dequeue) s in
  taken rs = map Spec.enc (Spec.items q) /\ contents s' = [] /\
  exists s'', enqueue v s' = (s'', Ok default_handle_response) /\
              contents s'' = [([byte_of_Z FIRST_KEY], Spec.enc v)].
Proof.
  intros Hr Hv. cbv zeta. destruct (run_refines (replicate (length (Spec.items q)) Dequeue) s q Hr) as [H1 H2].
  { by apply Forall_replicate. }
  rw spec_drain in H1. rw spec_drain in H2. cbn [fst snd] in H1, H2.
  destruct (run_queue _ s) as [s' rs]. cbn [fst snd] in *. subst rs. split_and!.
  - generalize (Spec.items q). intros l. induction l as [|x l IH]; cbn; [done|]. by f_equal.
  - by destruct H2 as (_ & -> & _).
  - destruct (enqueue_refines s' _ v H2 Hv) as [H3 (_ & H4 & _)].
    destruct (enqueue v s') as [s'' r]. cbn in H3, H4. subst r. by exists s''.
Qed.

(** enqueue panics exactly when the newest item lies under key 255, even if it is the only one
    left in the queue. *)
Theorem enqueue_panics_exactly (s : S) q v :
  represents s q -> is_i32 v ->
  (enqueue v s).2 = Panic <->
  Spec.items q <> [] /\ Spec.first q + Z.of_nat (length (Spec.items q)) = 256.
Proof.
  intros Hr Hv. destruct (enqueue_refines s q v Hr Hv) as [-> _]. cbn [Spec.handle].
  unfold Spec.full. destruct (decide (Spec.items q = [])) as [E|E].
  - rw bool_decide_true //. split; [done|]. by intros [? _].
  - rw bool_decide_false //. cbn [negb andb].
    destruct (_ =? 256) eqn:H; cbn; split; try done.
    + intros _. split; [done|]. by apply Z.eqb_eq.
    + apply Z.eqb_neq in H. by intros [_ ?].
Qed.

(** ** Queries *)

Lemma decode_entries k l :
  Forall is_i32 l ->
  mapR (fun kv => from_slice (T := Item) kv.2) (Spec.entries k l) = Ok (map mkItem l).
Proof.
  revert k. induction l as [|v l IH]; intros k H; cbn; [done|].
  apply Forall_cons in H as [Hv Hl]. rw dec_enc //. cbn. by rw IH.
Qed.

Lemma decode_entries_unwrap k l :
  Forall is_i32 l ->
  mapR (fun kv => unwrap (F := StdError) (from_slice (T := Item) kv.2)) (Spec.entries k l)
  = Ok (map mkItem l).
Proof.
  revert k. induction l as [|v l IH]; intros k H; cbn; [done|].
  apply Forall_cons in H as [Hv Hl]. rw dec_enc //. cbn. by rw IH.
Qed.

Lemma sum_above_spec (s : S) q v :
  represents s q ->
  sum_above s v = i32_sum (List.filter (fun x => v <? x) (Spec.items q)).
Proof.
  intros (Hs & Hc & _ & _ & H). unfold sum_above. rw range_all // Hc. cbn [mbind result_bind].
  rw decode_entries_unwrap //. cbn. rw map_map. cbn. by rw map_id.
Qed.

Lemma reducer_entries (s : S) q k l :
  represents s q -> Forall is_i32 l ->
  mapR (fun kv => val ← from_slice (T := Item) kv.2; total ← sum_above s (value val);
                  Ok (value val, total)) (Spec.entries k l)
  = mapR (fun v => total ← i32_sum (List.filter (fun x => v <? x) (Spec.items q)); Ok (v, total)) l.
Proof.
  intros Hr. revert k. induction l as [|v l IH]; intros k Hl; cbn [Spec.entries mapR snd]; [done|].
  apply Forall_cons in Hl as [Hv Hl]. rw dec_enc //. cbn [mbind result_bind value].
  rw (sum_above_spec s q) //. destruct (i32_sum _); cbn [mbind result_bind]; [|done..]. by rw IH.
Qed.

(** The queries return the number of items, the checked 32-bit sum of the values in order, and
    for every item the checked sum of the larger values. *)
Theorem queue_queries_spec (s : S) q :
  represents s q ->
  query s Count = Ok (CountAnswer (mkCount (Z.of_nat (length (Spec.items q))))) /\
  query s Sum = (fun z => SumAnswer (mkSum z)) <$> i32_sum (Spec.items q) /\
  query s Reducer
  = (fun out => ReducerAnswer (mkReducer out)) <$>
      mapR (fun v => total ← i32_sum (List.filter (fun x => v <? x) (Spec.items q)); Ok (v, total))
        (Spec.items q).
Proof.
  intros Hr. pose proof Hr as (Hs & Hc & H0 & H1 & Hi). split_and!; cbn [query].
  - unfold query_count. rw range_all //. cbn. rw Hc entries_length Z.mod_small //. lia.
  - unfold query_sum. rw range_all // Hc. cbn [mbind result_bind]. rw decode_entries //. cbn.
    rw map_map. cbn. rw map_id. by destruct (i32_sum _).
  - unfold query_reducer. rw range_all //. cbn [mbind result_bind]. rw Hc.
    assert (mapR (fun kv => val ← from_slice kv.2; total ← sum_above s (value val); Ok (value val, total))
              (Spec.entries (Spec.first q) (Spec.items q))
            = mapR (fun v => total ← i32_sum (List.filter (fun x => v <? x) (Spec.items q)); Ok (v, total))
                (Spec.items q)) as ->; [|by destruct (mapR _ _)].
    apply reducer_entries; done.
Qed.

End Behaviour.

(** ** A codec and concrete runs *)

Definition demo_serde_item : Serde Item := {|
  to_vec it := if (- 2^31 <=? value it) && (value it <? 2^31)
               then Ok (be_bytes 4 (value it + 2^31)) else Err (generic_err "range");
  from_slice b := Ok (mkItem (from_be_bytes b - 2^31));
  type_name := "Item"
|}.

Lemma demo_item_in_range v : is_i32 v -> @to_vec _ demo_serde_item (mkItem v) = Ok (be_bytes 4 (v + 2^31)).
Proof.
  intros [H1 H2]. cbn [to_vec demo_serde_item value].
  by rw (proj2 (Z.leb_le _ _) H1) (proj2 (Z.ltb_lt _ _) H2).
Qed.

Lemma demo_item_laws : @SerdeLaws Item demo_serde_item.
Proof.
  constructor. intros [v] b. cbn [to_vec demo_serde_item value].
  destruct ((- 2^31 <=? v) && (v <? 2^31)) eqn:E; [|done]. intros [= <-].
  apply andb_true_iff in E as [?%Z.leb_le ?%Z.ltb_lt]. cbn [from_slice demo_serde_item].
  assert (from_be_bytes (be_bytes 4 (v + 2^31)) = v + 2^31) as Hb.
  { rw from_to_be_bytes Z.mod_small //. change (256 ^ Z.of_nat 4) with (2^32). lia. }
  rw Hb. do 2 f_equal. lia.
Qed.

Lemma demo_item_codec : @ItemCodec demo_serde_item.
Proof. constructor. intros v Hv. eexists. by apply demo_item_in_range. Qed.

Definition demo_msgs : list HandleMsg := [Enqueue 25; Enqueue (-17); Dequeue; Enqueue 40].

Lemma demo_msgs_valid : Forall valid_msg demo_msgs.
Proof. unfold demo_msgs. rw !Forall_cons. cbn. unfold is_i32. split_and!; lia || done || constructor. Qed.

Lemma queue_is_fifo_witness :
  exists left_over,
    contents (run_queue (HI := demo_serde_item) demo_msgs Memory.new).1
    = Spec.entries (HI := demo_serde_item) (Spec.first left_over) (Spec.items left_over) /\
    taken (run_queue (HI := demo_serde_item) demo_msgs Memory.new).2
      ++ map (Spec.enc (HI := demo_serde_item)) (Spec.items left_over)
    = map (Spec.enc (HI := demo_serde_item)) [25; -17; 40].
Proof.
  destruct (queue_is_fifo (HI := demo_serde_item) (HIC := demo_item_codec)
              Memory.new demo_msgs) as (q & H1 & H2).
  - constructor.
  - reflexivity.
  - apply demo_msgs_valid.
  - exists q. split; [exact H1|exact H2].
Defined.

(** A store that holds one item, under the last key. *)
Definition demo_last : Spec.queue := Spec.mkQueue 255 [7].
Definition demo_last_store : MemoryStorage :=
  mkMemory [([byte_of_Z 255], Spec.enc (HI := demo_serde_item) 7)].

Lemma demo_last_represents :
  represents (HI := demo_serde_item) demo_last_store demo_last.
Proof.
  split; [|split; [reflexivity|]].
  - cbn. repeat constructor.
  - unfold Spec.wf. cbn. split_and!; [lia..|]. repeat constructor; lia.
Qed.

Lemma enqueue_panics_exactly_witness :
  (enqueue (HI := demo_serde_item) 8 demo_last_store).2 = Panic.
Proof.
  apply (enqueue_panics_exactly (HI := demo_serde_item) (HIC := demo_item_codec)
           demo_last_store demo_last 8 demo_last_represents); [split; lia|].
  split; [done|reflexivity].
Defined.

Lemma queue_drains_and_recovers_witness :
  let (s', rs) := run_queue (HI := demo_serde_item) [Dequeue] demo_last_store in
  taken rs = [Spec.enc (HI := demo_serde_item) 7] /\ contents s' = [] /\
  exists s'', enqueue (HI := demo_serde_item) 8 s' = (s'', Ok default_handle_response) /\
              contents s'' = [([byte_of_Z 0], Spec.enc (HI := demo_serde_item) 8)].
Proof.
  apply (queue_drains_and_recovers (HI := demo_serde_item) (HIC := demo_item_codec)
           demo_last_store demo_last 8 demo_last_represents). split; lia.
Defined.

Lemma queue_queries_spec_witness :
  query (HI := demo_serde_item) demo_last_store Count = Ok (CountAnswer (mkCount 1)) /\
  query (HI := demo_serde_item) demo_last_store Sum = Ok (SumAnswer (mkSum 7)) /\
  query (HI := demo_serde_item) demo_last_store Reducer = Ok (ReducerAnswer (mkReducer [(7, 0)])).
Proof.
  exact (queue_queries_spec (HI := demo_serde_item) (HIL := demo_item_laws) (HIC := demo_item_codec)
           demo_last_store demo_last demo_last_represents).
Defined.
