(* ===== verification/Escrow.v ===== *)
(** * The escrow contract: cosmwasm/contracts/escrow/src

    contract.rs, state.rs and msg.rs.  An arbiter may release the funds of the contract to a
    recipient until a deadline; after it anybody may return them to the one who created the
    escrow.  The code reads canonical addresses from its environment ([Env] here). *)

From Stdlib Require Import Strings.String.
From stdpp Require Import base tactics list numbers strings ssreflect sorting countable.
From S2P Require Import Prelude Math Storage Prefixed Typed Std Querying.

Local Open Scope string_scope.
Local Open Scope list_scope.

(** ** msg.rs *)

Record InitMsg : Type := mkInitMsg {
  msg_arbiter : HumanAddr;
  msg_recipient : HumanAddr;
  msg_end_height : option Z;
  msg_end_time : option Z
}.

Inductive HandleMsg : Type :=
| Approve (quantity : option (list Coin))
| Refund.

Inductive QueryMsg : Type := .
Inductive MigrateMsg : Type := .

(** ** state.rs *)

Definition CONFIG_KEY : bytes := lit "config".

Record State : Type := mkState {
  arbiter : CanonicalAddr;
  recipient : CanonicalAddr;
  source : CanonicalAddr;
  end_height : option Z;
  end_time : option Z
}.

(** The parts of the environment that the contract reads. *)
Record Env : Type := mkEnv {
  env_block : BlockInfo;
  env_sender : CanonicalAddr;
  env_contract : CanonicalAddr
}.

Definition past (deadline : option Z) (now : Z) : bool :=
  match deadline with Some d => (d <? now)%Z | None => false end.

Definition is_expired (state : State) (env : Env) : bool :=
  if past (end_height state) (height (env_block env)) then true
  else if past (end_time state) (time (env_block env)) then true
  else false.

Definition config : StdResult bytes := Singleton.new CONFIG_KEY.

(** ** contract.rs *)

Section Escrow.
Context {S : Type} `{HS : Storage S} {api : Api} {querier : Querier} `{HSt : Serde State}.

Definition init (env : Env) (msg : InitMsg) : M S StdError (InitResponse Empty) :=
  a ← liftR (canonical_address (msg_arbiter msg));
  r ← liftR (canonical_address (msg_recipient msg));
  let state := mkState a r (env_sender env) (msg_end_height msg) (msg_end_time msg) in
  if is_expired state env then throw (generic_err "creating expired escrow")
  else
    key ← liftR config;
    _ ← Singleton.save key state;
    mret default_init_response.

Definition send_tokens (from_address to_address : CanonicalAddr) (amount : list Coin) (action : string)
  : StdResult (HandleResponse Empty) :=
  from_human ← human_address from_address;
  to_human ← human_address to_address;
  Ok (mkHandleResponse [CosmosBank (Send from_human to_human amount)]
        [log "action" action; log "to" to_human] None).

(** Everything the contract holds. *)
Definition own_balance (env : Env) : StdResult (list Coin) :=
  contract_address_human ← human_address (env_contract env);
  query_all_balances contract_address_human.

Definition try_approve (env : Env) (state : State) (quantity : option (list Coin))
  : StdResult (HandleResponse Empty) :=
  if negb (bool_decide (env_sender env = arbiter state)) then Err unauthorized
  else if is_expired state env then Err (generic_err "escrow expired")
  else
    amount ← match quantity with Some q => Ok q | None => own_balance env end;
    send_tokens (env_contract env) (recipient state) amount "approve".

Definition try_refund (env : Env) (state : State) : StdResult (HandleResponse Empty) :=
  if negb (is_expired state env) then Err (generic_err "escrow not yet expired")
  else
    balance ← own_balance env;
    send_tokens (env_contract env) (source state) balance "refund".

Definition handle (env : Env) (msg : HandleMsg) : M S StdError (HandleResponse Empty) :=
  key ← liftR config;
  state ← readS (fun s => Singleton.load s key);
  liftR (match msg with
         | Approve quantity => try_approve env state quantity
         | Refund => try_refund env state
         end).

Definition query (s : S) (msg : QueryMsg) : StdResult Binary := match msg with end.

Definition migrate (msg : MigrateMsg) : M S StdError (MigrateResponse Empty) :=
  mret default_migrate_response.

(** A sequence of calls with their environments. *)
Fixpoint run_escrow (calls : list (Env * HandleMsg)) (s : S)
  : S * list (StdResult (HandleResponse Empty)) :=
  match calls with
  | [] => (s, [])
  | (env, m) :: cs => let (s1, r) := handle env m s in
                      let (s2, rs) := run_escrow cs s1 in (s2, r :: rs)
  end.

End Escrow.

(** Time passes: neither the height nor the clock of a later block is smaller. *)
Definition later (e1 e2 : Env) : Prop :=
  (height (env_block e1) <= height (env_block e2))%Z /\ (time (env_block e1) <= time (env_block e2))%Z.

(** Two entries of a strongly sorted list are related in order. *)
Lemma sorted_lookup {A} (R : A -> A -> Prop) l i j x y :
  StronglySorted R l -> i < j -> l !! i = Some x -> l !! j = Some y -> R x y.
Proof.
  intros Hs Hij Hi Hj. rw -(take_drop (S i) l) in Hs.
  eapply StronglySorted_app_1_elem_of; [exact Hs|..].
  - apply (list_elem_of_lookup_2 _ i). rw lookup_take_lt //. lia.
  - apply (list_elem_of_lookup_2 _ (j - S i)). rw lookup_drop. by replace (S i + (j - S i)) with j by lia.
Qed.

(** ** The phases of an escrow *)

Section Phases.
Context {S : Type} `{HS : Storage S} {HL : StorageLaws S} {api : Api} {querier : Querier}.
Context `{HSt : Serde State} {HStL : SerdeLaws State}.

Definition config_key : bytes := be_bytes 2 6 ++ CONFIG_KEY.

(** The configuration in a store. *)
Definition configured (s : S) (st : State) : Prop := Singleton.load s config_key = Ok st.

Lemma config_ok : config = Ok config_key.
Proof. reflexivity. Qed.

(** Every call leaves the store as it was. *)
Lemma handle_unfold env m (s : S) :
  handle env m s
  = (s, st ← Singleton.load s config_key;
        match m with
        | Approve quantity => try_approve env st quantity
        | Refund => try_refund env st
        end).
Proof.
  unfold handle. rw config_ok. cbv [mbind M_bind liftR readS result_bind].
  by destruct (Singleton.load s config_key).
Qed.

Lemma run_unfold calls (s : S) :
  run_escrow calls s = (s, map (fun c => (handle c.1 c.2 s).2) calls).
Proof.
  induction calls as [|[env m] cs IH]; cbn [run_escrow map fst snd]; [done|].
  by rw handle_unfold IH.
Qed.

Lemma is_expired_spec st env :
  is_expired st env = past (end_height st) (height (env_block env)) || past (end_time st) (time (env_block env)).
Proof. unfold is_expired. by destruct (past (end_height st) _), (past (end_time st) _). Qed.

Lemma past_later d a b : (a <= b)%Z -> past d a = true -> past d b = true.
Proof. destruct d as [d|]; [|done]. cbn. rw !Z.ltb_lt. lia. Qed.

Lemma expired_later st e1 e2 : later e1 e2 -> is_expired st e1 = true -> is_expired st e2 = true.
Proof.
  intros [H1 H2]. rw !is_expired_spec !orb_true_iff. intros [H|H]; [left|right]; by eapply past_later.
Qed.

Lemma send_tokens_Ok from to amount action r :
  send_tokens from to amount action = Ok r ->
  exists f t, human_address from = Ok f /\ human_address to = Ok t /\
    messages r = [CosmosBank (Send f t amount)].
Proof.
  unfold send_tokens. intros H. inv_M H. simplify_eq. by exists a, a0.
Qed.

Lemma own_balance_Ok env b f :
  own_balance env = Ok b -> human_address (env_contract env) = Ok f -> query_all_balances f = Ok b.
Proof. unfold own_balance. intros H Hf. by rw Hf in H. Qed.

(** A successful call changes nothing in the store and makes one payment: an approval only by
    the arbiter before the deadline and to the recipient, a refund only after the deadline
    and to the source. *)
Theorem escrow_pays_as_agreed env m (s s' : S) r :
  handle env m s = (s', Ok r) ->
  s' = s /\
  exists st from to amount,
    configured s st /\ messages r = [CosmosBank (Send from to amount)] /\
    human_address (env_contract env) = Ok from /\
    match m with
    | Approve quantity =>
        env_sender env = arbiter st /\ is_expired st env = false /\
        human_address (recipient st) = Ok to /\
        match quantity with Some q => amount = q | None => query_all_balances from = Ok amount end
    | Refund =>
        is_expired st env = true /\ human_address (source st) = Ok to /\
        query_all_balances from = Ok amount
    end.
Proof.
  rw handle_unfold. intros [= <- H]. split; [done|]. inv_M H. rename a into st. exists st.
  destruct m as [quantity|].
  - unfold try_approve in H. case_bool_decide as Hs; [|done]. cbn [negb] in H.
    destruct (is_expired st env); [done|]. inv_M H.
    destruct (send_tokens_Ok _ _ _ _ _ H) as (f & t & Hf & Ht & Hr).
    exists f, t, a. split_and!; [done..|]. destruct quantity as [q|]; [by simplify_eq|].
    by eapply own_balance_Ok.
  - unfold try_refund in H. destruct (is_expired st env); [|done]. cbn [negb] in H. inv_M H.
    destruct (send_tokens_Ok _ _ _ _ _ H) as (f & t & Hf & Ht & Hr).
    exists f, t, a. split_and!; [done..|]. by eapply own_balance_Ok.
Qed.

(** A call to [Refund] that succeeds has an expired escrow behind it. *)
Lemma refund_expired env (s s' : S) r :
  handle env Refund s = (s', Ok r) -> exists st, configured s st /\ is_expired st env = true.
Proof.
  rw handle_unfold. intros [= _ H]. inv_M H. exists a. split; [done|].
  unfold try_refund in H. by destruct (is_expired a env).
Qed.

Lemma approve_expired env q (s : S) st :
  configured s st -> is_expired st env = true -> exists e, (handle env (Approve q) s).2 = Err e.
Proof.
  intros Hst He. rw handle_unfold. unfold configured in Hst. rw Hst.
  cbv [mbind result_bind]. cbn [snd]. unfold try_approve. rw He. case_bool_decide; by eexists.
Qed.

(** In any sequence of calls with advancing blocks, no approval succeeds after a refund did. *)
Theorem refund_closes_escrow calls (s : S) i j e1 e2 q r :
  StronglySorted (fun c1 c2 => later c1.1 c2.1) calls ->
  i < j -> calls !! i = Some (e1, Refund) -> calls !! j = Some (e2, Approve q) ->
  (run_escrow calls s).2 !! i = Some (Ok r) ->
  exists e, (run_escrow calls s).2 !! j = Some (Err e).
Proof.
  intros Hs Hij Hi Hj. rw run_unfold. cbn [snd]. rw !list_lookup_fmap Hi Hj. cbn. intros [= Hr].
  assert (later e1 e2) as Hl.
  { exact (sorted_lookup _ _ _ _ _ _ Hs Hij Hi Hj). }
  destruct (refund_expired e1 s _ r (eq_trans (surjective_pairing _) (f_equal2 pair eq_refl Hr)))
    as (st & Hst & He).
  destruct (approve_expired e2 q s st Hst (expired_later _ _ _ Hl He)) as [e Hae].
  exists e. by rw Hae.
Qed.

(** Once the deadline has passed, a refund by anybody succeeds at every later block, whatever
    calls were made in between, and returns the whole balance to the source. *)
Theorem refund_is_live calls (s : S) st env from to amount :
  configured s st -> is_expired st env = true ->
  human_address (env_contract env) = Ok from -> human_address (source st) = Ok to ->
  query_all_balances from = Ok amount ->
  forall e, later env e -> env_contract e = env_contract env ->
  handle e Refund (run_escrow calls s).1
  = (s, Ok (mkHandleResponse [CosmosBank (Send from to amount)]
              [log "action" "refund"; log "to" to] None)).
Proof.
  intros Hst He Hf Ht Hb e Hl Hc. rw run_unfold. cbn [fst]. rw handle_unfold.
  unfold configured in Hst. rw Hst. cbv [mbind result_bind]. unfold try_refund.
  rw (expired_later _ _ _ Hl He). cbn [negb]. unfold own_balance, send_tokens.
  by rw Hc Hf Ht /= /mbind /result_bind Hb.
Qed.

Lemma init_configures env msg (s s' : S) r :
  init env msg s = (s', Ok r) ->
  exists st, configured s' st /\ is_expired st env = false /\ source st = env_sender env /\
    end_height st = msg_end_height msg /\ end_time st = msg_end_time msg.
Proof.
  unfold init. intros H. inv_M H. destruct (is_expired _ _) eqn:He; [done|].
  rw config_ok in H. inv_M H. unfold Singleton.save in Hm2. inv_M Hm2.
  match goal with H : modifyS _ _ = _ |- _ => injection H as <- _ end. simplify_eq.
  eexists. split; [|by split; [exact He|]].
  unfold configured, Singleton.load. rw get_set. case_decide; [|done]. cbn [must_deserialize].
  by apply from_to.
Qed.

(** An escrow created without height and time limit never allows a refund. *)
Theorem escrow_without_deadline_never_refunds env msg (s s' : S) r :
  init env msg s = (s', Ok r) -> msg_end_height msg = None -> msg_end_time msg = None ->
  forall calls e, handle e Refund (run_escrow calls s').1
                  = (s', Err (generic_err "escrow not yet expired")).
Proof.
  intros H H1 H2 calls e. destruct (init_configures _ _ _ _ _ H) as (st & Hst & _ & _ & E1 & E2).
  rw run_unfold. cbn [fst]. rw handle_unfold. unfold configured in Hst. rw Hst.
  cbv [mbind result_bind]. unfold try_refund. rw is_expired_spec. by rw E1 E2 H1 H2.
Qed.

End Phases.

(** ** Concrete runs *)

#[export] Instance State_eq_dec : EqDecision State.
Proof. solve_decision. Defined.
#[export] Instance State_countable : Countable State.
Proof.
  countable_by (fun s => (arbiter s, recipient s, source s, end_height s, end_time s))
    (fun p : bytes * bytes * bytes * option Z * option Z => mkState p.1.1.1.1 p.1.1.1.2 p.1.1.2 p.1.2 p.2).
Defined.

Section Demo.
Local Existing Instance demo_api.

Definition demo_state_serde : Serde State := countable_serde "State" State.
Local Existing Instance demo_state_serde.

Definition demo_funds : Querier := demo_chain [coin 1000 "earth"].
Local Existing Instance demo_funds.

Definition demo_at (who : HumanAddr) (h : Z) : Env :=
  mkEnv (mkBlock h 0 "test") (lit who) (lit "escrow").
Definition demo_init : InitMsg := mkInitMsg "arbiter" "benefits" (Some 1000%Z) None.
Definition demo_store : MemoryStorage := (init (demo_at "creator" 876) demo_init Memory.new).1.
Definition demo_state : State :=
  mkState (lit "arbiter") (lit "benefits") (lit "creator") (Some 1000%Z) None.

Lemma demo_configured : configured demo_store demo_state.
Proof. vm_compute. reflexivity. Qed.

Lemma escrow_pays_as_agreed_witness :
  exists r, handle (demo_at "arbiter" 900) (Approve None) demo_store = (demo_store, Ok r) /\
    messages r = [CosmosBank (Send "escrow" "benefits" [coin 1000 "earth"])].
Proof.
  destruct (handle (demo_at "arbiter" 900) (Approve None) demo_store) as [s' [r| |]] eqn:E.
  - destruct (escrow_pays_as_agreed _ _ _ _ _ E) as (-> & st & f & t & a & Hst & Hr & Hf & Hs & He & Ht & Ha).
    assert (st = demo_state) as -> by (pose proof demo_configured; unfold configured in *; congruence).
    exists r. split; [done|]. rw Hr. clear E Hst He Hs. cbn in Hf, Ht, Ha.
    injection Hf as <-. injection Ht as <-. injection Ha as <-. reflexivity.
  - vm_compute in E. discriminate E.
  - vm_compute in E. discriminate E.
Defined.

Lemma refund_closes_escrow_witness :
  let calls := [(demo_at "anybody" 1001, Refund); (demo_at "arbiter" 1002, Approve None)] in
  exists e, (run_escrow calls demo_store).2 !! 1 = Some (Err e).
Proof.
  refine (refund_closes_escrow _ demo_store 0 1 (demo_at "anybody" 1001) (demo_at "arbiter" 1002) None
           (mkHandleResponse [CosmosBank (Send "escrow" "creator" [coin 1000 "earth"])]
              [log "action" "refund"; log "to" "creator"] None) _ _ _ _ _);
    [|lia|reflexivity|reflexivity|vm_compute; reflexivity].
  repeat constructor; cbn; lia.
Defined.

Lemma refund_is_live_witness :
  handle (demo_at "anybody" 2000) Refund
    (run_escrow [(demo_at "arbiter" 1500, Approve None)] demo_store).1
  = (demo_store, Ok (mkHandleResponse [CosmosBank (Send "escrow" "creator" [coin 1000 "earth"])]
              [log "action" "refund"; log "to" "creator"] None)).
Proof.
  refine (refund_is_live _ demo_store demo_state (demo_at "anybody" 1001) "escrow" "creator"
            [coin 1000 "earth"] demo_configured _ _ _ _ _ _ _); try reflexivity.
  split; cbn; lia.
Defined.

Lemma escrow_without_deadline_never_refunds_witness :
  let s' := (init (demo_at "creator" 876) (mkInitMsg "arbiter" "benefits" None None) Memory.new).1 in
  handle (demo_at "creator" 1000000) Refund (run_escrow [] s').1
  = (s', Err (generic_err "escrow not yet expired")).
Proof.
  cbv zeta.
  refine (escrow_without_deadline_never_refunds (demo_at "creator" 876)
            (mkInitMsg "arbiter" "benefits" None None) Memory.new _ default_init_response _ eq_refl eq_refl
            [] (demo_at "creator" 1000000)).
  vm_compute. reflexivity.
Defined.

End Demo.
