(* ===== verification/Contracts.v ===== *)
(** * The smaller contracts: cosmwasm/contracts/{burner,hackatom,reflect,mint,gov,dist}

    One Module per contract, over any store, codec and querier.  [Burner] erases a contract
    during a migration; [Hackatom] releases funds and has messages that loop for ever (they
    run with fuel, and have not returned when it is used up); [Reflect] forwards messages of
    its owner; [Mint], [Gov] and [Dist] pass on what the chain answers. *)

From Stdlib Require Import Strings.String.
From stdpp Require Import base tactics list numbers strings pretty countable ssreflect.
From S2P Require Import Prelude Utf8 Math Storage Prefixed Typed Std Querying.

Local Open Scope string_scope.
Local Open Scope list_scope.

(** ** burner/src/contract.rs and msg.rs *)

Module Burner.

Record MigrateMsg : Type := mkMigrateMsg { payout : HumanAddr }.

Definition ONLY_MIGRATIONS : StdError := generic_err "You can only use this contract for migrations".

Section Burner.
Context {S : Type} `{HS : Storage S} {querier : Querier}.

Definition init (env : Env) : M S StdError (InitResponse Empty) := throw ONLY_MIGRATIONS.
Definition handle (env : Env) : M S StdError (HandleResponse Empty) := throw ONLY_MIGRATIONS.
Definition query (s : S) : StdResult Binary := Err ONLY_MIGRATIONS.

Definition migrate (env : Env) (msg : MigrateMsg) : M S StdError (MigrateResponse Empty) :=
  items ← readS (fun s => range s None None Ascending);
  let keys := items.*1 in
  _ ← modifyS (fun s => foldl (fun s k => remove s k) s keys);
  balance ← liftR (query_all_balances (address (contract env)));
  mret (mkMigrateResponse
          [CosmosBank (Send (address (contract env)) (payout msg) balance)]
          [log "action" "burn"; log "payout" (payout msg)]
          (Some (lit ("burnt " +:+ pretty (length keys) +:+ " keys")))).

End Burner.
End Burner.

(** ** hackatom/src/contract.rs *)

Module Hackatom.

Record InitMsg : Type := mkInitMsg { msg_verifier : HumanAddr; msg_beneficiary : HumanAddr }.
Record MigrateMsg : Type := mkMigrateMsg { new_verifier : HumanAddr }.
Record State : Type := mkState {
  verifier : CanonicalAddr;
  beneficiary : CanonicalAddr;
  funder : CanonicalAddr
}.

Inductive HandleMsg : Type :=
| Release | CpuLoop | StorageLoop | MemoryLoop | AllocateLargeMemory | PanicMsg | UserErrorsInApiCalls.

Inductive QueryMsg : Type :=
| Verifier
| OtherBalance (address : HumanAddr)
| Recurse (depth work : Z) (contract : HumanAddr) (contract_code_hash : string).

Record VerifierResponse : Type := mkVerifier { res_verifier : HumanAddr }.
Record RecurseResponse : Type := mkRecurse { hashed : Binary }.

Definition CONFIG_KEY : bytes := lit "config".

(** *** The loops: [None] is a loop that still runs when the fuel is used up *)

Abbreviation Returned := (option (StdResult (HandleResponse Empty))).

Fixpoint do_cpu_loop (fuel : nat) (counter : Z) : Returned :=
  match fuel with
  | O => None
  | Datatypes.S fuel' =>
      match arith (E := StdError) U64_MAX (counter + 1) with
      | Ok c => do_cpu_loop fuel' (if (9000000000 <=? c)%Z then 0%Z else c)
      | _ => Some Panic
      end
  end.

Fixpoint do_storage_loop {S} `{Storage S} (fuel : nat) (test_case : Z) (s : S) : S * Returned :=
  match fuel with
  | O => (s, None)
  | Datatypes.S fuel' =>
      let s' := set s (lit "test.key") (lit (Uint.to_string (mkUint128 test_case))) in
      match arith (E := StdError) U64_MAX (test_case + 1) with
      | Ok c => do_storage_loop fuel' c s'
      | _ => (s', Some Panic)
      end
  end.

(** [usize] has 32 bits in wasm. *)
Fixpoint do_memory_loop (fuel : nat) (data : list Z) : Returned :=
  match fuel with
  | O => None
  | Datatypes.S fuel' =>
      match last data with
      | None => Some Panic
      | Some l =>
          match arith (E := StdError) U32_MAX (l + 1) with
          | Ok c => do_memory_loop fuel' (data ++ [c])
          | _ => Some Panic
          end
      end
  end.

Section Hackatom.
Context {S : Type} `{HS : Storage S} {api : Api} {querier : Querier} `{HSt : Serde State}.

(** [memory.grow] of wasm, [{:?}] of an error (derived) and the SHA-256 of the crate sha2. *)
Variable memory_grow : Z -> Z.
Variable debug_error : StdError -> string.
Variable sha256 : bytes -> bytes.

Definition load_state (s : S) : StdResult State :=
  data ← ok_or (NotFound "State") (get s CONFIG_KEY);
  from_slice data.

Definition init (env : Env) (msg : InitMsg) : M S StdError (InitResponse Empty) :=
  v ← liftR (canonical_address (msg_verifier msg));
  b ← liftR (canonical_address (msg_beneficiary msg));
  f ← liftR (canonical_address (sender (message env)));
  data ← liftR (to_vec (mkState v b f));
  _ ← modifyS (fun s => set s CONFIG_KEY data);
  liftR (Context.try_into_init (Context.add_log Context.new "Let the" "hacking begin")).

Definition migrate (env : Env) (msg : MigrateMsg) : M S StdError (MigrateResponse Empty) :=
  config ← readS load_state;
  v ← liftR (canonical_address (new_verifier msg));
  data ← liftR (to_vec (mkState v (beneficiary config) (funder config)));
  _ ← modifyS (fun s => set s CONFIG_KEY data);
  mret default_migrate_response.

Definition do_release (env : Env) : M S StdError (HandleResponse Empty) :=
  state ← readS load_state;
  who ← liftR (canonical_address (sender (message env)));
  if bool_decide (who = verifier state) then
    to_addr ← liftR (human_address (beneficiary state));
    balance ← liftR (query_all_balances (address (contract env)));
    let ctx := Context.add_log Context.new "action" "release" in
    let ctx := Context.add_log ctx "destination" to_addr in
    let ctx := Context.add_message ctx (CosmosBank (Send (address (contract env)) to_addr balance)) in
    let ctx := Context.set_data ctx [Byte.xf0; Byte.x0b; Byte.xaa] in
    mret (Context.into_handle ctx)
  else throw unauthorized.

Definition do_allocate_large_memory : StdResult (HandleResponse Empty) :=
  if (memory_grow 1600 =? U32_MAX)%Z
  then Err (generic_err "Error in memory.grow instruction")
  else Ok default_handle_response.

Definition do_panic : StdResult (HandleResponse Empty) := Panic.

(** [unwrap_err] and the match on the error it gives. *)
Definition expect_generic {A} (r : StdResult A) : StdResult unit :=
  match r with
  | Err (GenericErr _) => Ok tt
  | Err err => Err (generic_err ("Unexpected error in do_user_errors_in_api_calls: " +:+ debug_error err))
  | _ => Panic
  end.

Definition do_user_errors_in_api_calls : StdResult (HandleResponse Empty) :=
  _ ← expect_generic (canonical_address "");
  _ ← expect_generic (canonical_address "bn93hg934hg08q340g8u4jcau3");
  _ ← expect_generic (human_address []);
  _ ← expect_generic (human_address [Byte.xaa; Byte.xbb; Byte.xcc]);
  _ ← expect_generic (human_address (replicate 17 Byte.xa6));
  Ok default_handle_response.

(** A handler that returns. *)
Definition returns (m : M S StdError (HandleResponse Empty)) (s : S) : S * Returned :=
  let (s', r) := m s in (s', Some r).

Definition handle (fuel : nat) (env : Env) (msg : HandleMsg) (s : S) : S * Returned :=
  match msg with
  | Release => returns (do_release env) s
  | CpuLoop => (s, do_cpu_loop fuel 0)
  | StorageLoop => do_storage_loop fuel 0 s
  | MemoryLoop => (s, do_memory_loop fuel [1%Z])
  | AllocateLargeMemory => returns (liftR do_allocate_large_memory) s
  | PanicMsg => returns (liftR do_panic) s
  | UserErrorsInApiCalls => returns (liftR do_user_errors_in_api_calls) s
  end.

Definition query_verifier (s : S) : StdResult VerifierResponse :=
  state ← load_state s;
  addr ← human_address (verifier state);
  Ok (mkVerifier addr).

Definition query_other_balance (address : HumanAddr) : StdResult AllBalanceResponse :=
  amount ← query_all_balances address; Ok (mkAllBalance amount).

Context {RQ : RawQuerier} `{HQ : Serde (QueryRequest Empty)} `{HM : Serde QueryMsg}.
Context `{HRR : Serde RecurseResponse}.

(** [work] rounds of hashing. *)
Definition rounds (work : Z) (b : bytes) : bytes := Nat.iter (Z.to_nat work) sha256 b.

Definition query_recurse (depth work : Z) (contract : HumanAddr) (contract_code_hash : string)
  : StdResult RecurseResponse :=
  let h := rounds work (lit contract) in
  if (depth =? 0)%Z then Ok (mkRecurse h)
  else
    msg ← to_binary (Recurse (depth - 1) work contract contract_code_hash);
    Querying.query (WasmReq (Smart contract contract_code_hash msg)).

Context `{HVR : Serde VerifierResponse} `{HAB : Serde AllBalanceResponse}.

Definition query (s : S) (msg : QueryMsg) : StdResult Binary :=
  match msg with
  | Verifier => res ← query_verifier s; to_binary res
  | OtherBalance address => res ← query_other_balance address; to_binary res
  | Recurse depth work contract contract_code_hash =>
      res ← query_recurse depth work contract contract_code_hash; to_binary res
  end.

End Hackatom.
End Hackatom.

(** ** reflect/src/contract.rs, msg.rs and state.rs *)

Module Reflect.

Inductive CustomMsg : Type := DebugMsg (text : string) | RawMsg (data : Binary).
Inductive CustomQuery : Type := Ping | Capital (text : string).
Record CustomResponse : Type := mkCustomResponse { response_msg : string }.
Record OwnerResponse : Type := mkOwner { res_owner : HumanAddr }.

Inductive HandleMsg : Type :=
| ReflectMsg (msgs : list (CosmosMsg CustomMsg))
| ChangeOwner (owner : HumanAddr).
Inductive QueryMsg : Type := Owner | ReflectCustom (text : string).

Record State : Type := mkState { owner : CanonicalAddr }.
Definition CONFIG_KEY : bytes := lit "config".
Definition config : StdResult bytes := Singleton.new CONFIG_KEY.

Section Reflect.
Context {S : Type} `{HS : Storage S} {api : Api} {RQ : RawQuerier} `{HSt : Serde State}.

Definition init (env : Env) : M S StdError (InitResponse CustomMsg) :=
  o ← liftR (canonical_address (sender (message env)));
  key ← liftR config;
  _ ← Singleton.save key (mkState o);
  mret default_init_response.

Definition try_reflect (env : Env) (msgs : list (CosmosMsg CustomMsg))
  : M S StdError (HandleResponse CustomMsg) :=
  key ← liftR config;
  state ← readS (fun s => Singleton.load s key);
  who ← liftR (canonical_address (sender (message env)));
  if negb (bool_decide (who = owner state)) then throw unauthorized
  else match msgs with
       | [] => throw (generic_err "Must reflect at least one message")
       | _ => mret (mkHandleResponse msgs [log "action" "reflect"] None)
       end.

Definition try_change_owner (env : Env) (new_owner : HumanAddr)
  : M S StdError (HandleResponse CustomMsg) :=
  key ← liftR config;
  _ ← Singleton.update key (fun state =>
        who ← canonical_address (sender (message env));
        if negb (bool_decide (who = owner state)) then Err unauthorized
        else o ← canonical_address new_owner; Ok (mkState o));
  mret (mkHandleResponse [] [log "action" "change_owner"; log "owner" new_owner] None).

Definition handle (env : Env) (msg : HandleMsg) : M S StdError (HandleResponse CustomMsg) :=
  match msg with
  | ReflectMsg msgs => try_reflect env msgs
  | ChangeOwner o => try_change_owner env o
  end.

Definition query_owner (s : S) : StdResult OwnerResponse :=
  key ← config;
  state ← Singleton.load s key;
  o ← human_address (owner state);
  Ok (mkOwner o).

Context `{HQ : Serde (QueryRequest CustomQuery)} `{HC : Serde CustomResponse} `{HO : Serde OwnerResponse}.

Definition query_reflect (text : string) : StdResult CustomResponse :=
  custom_query (CustomReq (Capital text)).

Definition query (s : S) (msg : QueryMsg) : StdResult Binary :=
  match msg with
  | Owner => res ← query_owner s; to_binary res
  | ReflectCustom text => res ← query_reflect text; to_binary res
  end.

End Reflect.
End Reflect.

(** [unwrap_or_else]: an error becomes the given value. *)
Definition unwrap_or {E F A} (r : result E A) (a : A) : result F A :=
  match r with Ok x => Ok x | Err _ => Ok a | Panic => Panic end.

Definition answer (data : Binary) : HandleResponse Empty := mkHandleResponse [] [] (Some data).

(** ** mint/src/contract.rs *)

Module Mint.

Inductive HandleMsg : Type := InflationRate | BondedRatioMsg.

Section Mint.
Context {RQ : RawQuerier} `{HQ : Serde (QueryRequest Empty)}.
Context `{HI : Serde InflationResponse} `{HB : Serde BondedRatioResponse}.

Definition init : StdResult (InitResponse Empty) := Ok default_init_response.

Definition try_inflation_rate : StdResult (HandleResponse Empty) :=
  res ← unwrap_or (Querying.query (MintReq Inflation)) (mkInflation "");
  Ok (answer (lit (inflation_rate res))).

Definition try_bonded_ratio : StdResult (HandleResponse Empty) :=
  res ← unwrap_or (Querying.query (MintReq BondedRatio)) (mkBondedRatio "");
  Ok (answer (lit (bonded_ratio res))).

Definition handle (msg : HandleMsg) : StdResult (HandleResponse Empty) :=
  match msg with
  | InflationRate => try_inflation_rate
  | BondedRatioMsg => try_bonded_ratio
  end.

End Mint.
End Mint.

(** ** gov/src/contract.rs *)

Module Gov.

Inductive HandleMsg : Type := ProposalsMsg | VoteMsg.

Section Gov.
Context {RQ : RawQuerier} `{HQ : Serde (QueryRequest Empty)} `{HP : Serde ProposalsResponse}.

Definition init : StdResult (InitResponse Empty) := Ok default_init_response.

Definition try_vote : StdResult (HandleResponse Empty) :=
  Ok (mkHandleResponse [CosmosGov (Vote 1 Yes)] [] None).

Definition try_query_proposal : StdResult (HandleResponse Empty) :=
  res ← unwrap_or (Querying.query (GovReq Proposals)) (mkProposals []);
  Ok (answer (be_bytes 8 (Z.of_nat (length (proposals res))))).

Definition handle (msg : HandleMsg) : StdResult (HandleResponse Empty) :=
  match msg with
  | ProposalsMsg => try_query_proposal
  | VoteMsg => try_vote
  end.

End Gov.
End Gov.

(** ** dist/src/contract.rs *)

Module Dist.

Inductive HandleMsg : Type := RewardsMsg (address : HumanAddr).

Section Dist.
Context {RQ : RawQuerier} `{HQ : Serde (QueryRequest Empty)} `{HR : Serde RewardsResponse}.

Definition init : StdResult (InitResponse Empty) := Ok default_init_response.

(** The amount of the last coin, cut to 64 bits by [as u64]. *)
Definition reported (res : RewardsResponse) : Z :=
  (u128 (amount (default (mkCoin "stake" Uint.zero) (last (total res)))) mod 2^64)%Z.

Definition try_query_rewards (address : HumanAddr) : StdResult (HandleResponse Empty) :=
  res ← unwrap_or (Querying.query (DistReq (Rewards address))) (mkRewards [] []);
  Ok (answer (be_bytes 8 (reported res))).

Definition handle (msg : HandleMsg) : StdResult (HandleResponse Empty) :=
  match msg with RewardsMsg address => try_query_rewards address end.

End Dist.
End Dist.

(** ** The burner leaves nothing behind *)

Section BurnerTheorems.
Context {S : Type} `{HS : Storage S} {HL : StorageLaws S} {HR : RangeLaws S} {querier : Querier}.

Lemma remove_all_ok (ks : list bytes) (s : S) :
  store_ok s -> store_ok (foldl (fun s k => remove s k) s ks).
Proof. revert s. induction ks as [|k ks IH]; intros s Hs; cbn; [done|]. by apply IH, remove_ok. Qed.

Lemma get_remove_all (ks : list bytes) (s : S) k :
  get (foldl (fun s k => remove s k) s ks) k = if decide (k ∈ ks) then None else get s k.
Proof.
  revert s. induction ks as [|k' ks IH]; intros s; cbn.
  - case_decide as H; [by apply elem_of_nil in H|done].
  - rw IH get_remove. repeat case_decide; set_solver.
Qed.

Lemma contents_keys (s : S) k v : store_ok s -> get s k = Some v -> k ∈ (contents s).*1.
Proof.
  intros Hs Hk. destruct (contents_spec s Hs) as [Hok Hg]. rw -Hg btree_get_elem // in Hk.
  change k with ((k, v).1). by apply list_elem_of_fmap_2.
Qed.

Lemma contents_nil (s : S) : store_ok s -> (forall k, get s k = None) -> contents s = [].
Proof.
  intros Hs Hn. destruct (contents_spec s Hs) as [Hok Hg].
  destruct (contents s) as [|[k v] l] eqn:E; [done|].
  specialize (Hg k). rw Hn in Hg. cbn in Hg. by rw bool_decide_true in Hg.
Qed.

(** A migration to the burner leaves no key in the store whatever the chain answers, and on
    success pays the whole balance to the payout address and reports the number of keys. *)
Theorem burner_erases_everything env msg (s : S) :
  store_ok s ->
  contents (Burner.migrate env msg s).1 = [] /\
  (Burner.migrate env msg s).2
  = (balance ← query_all_balances (address (contract env));
     Ok (mkMigrateResponse
           [CosmosBank (Send (address (contract env)) (Burner.payout msg) balance)]
           [log "action" "burn"; log "payout" (Burner.payout msg)]
           (Some (lit ("burnt " +:+ pretty (length (contents s)) +:+ " keys"))))).
Proof.
  intros Hs.
  assert (Burner.migrate env msg s
          = (foldl (fun s k => remove s k) s (contents s).*1,
             balance ← query_all_balances (address (contract env));
             Ok (mkMigrateResponse
                   [CosmosBank (Send (address (contract env)) (Burner.payout msg) balance)]
                   [log "action" "burn"; log "payout" (Burner.payout msg)]
                   (Some (lit ("burnt " +:+ pretty (length (contents s).*1) +:+ " keys")))))) as ->.
  { unfold Burner.migrate. cbv [mbind M_bind readS modifyS liftR result_bind mret M_ret].
    rw range_all //. by destruct (query_all_balances _). }
  cbn [fst snd]. rw length_fmap. split; [|done].
  apply contents_nil; [by apply remove_all_ok|]. intros k. rw get_remove_all. case_decide as H; [done|].
  destruct (get s k) eqn:E; [|done]. destruct H. by eapply contents_keys.
Qed.

End BurnerTheorems.

(** ** Which messages of hackatom return *)

Section HackatomTheorems.
Context {S : Type} `{HS : Storage S} {api : Api} {querier : Querier} `{HSt : Serde Hackatom.State}.
Variable memory_grow : Z -> Z.
Variable debug_error : StdError -> string.

Lemma cpu_loop_runs fuel c :
  (0 <= c < 9000000000)%Z -> Hackatom.do_cpu_loop fuel c = None.
Proof.
  revert c. induction fuel as [|fuel IH]; intros c Hc; cbn [Hackatom.do_cpu_loop]; [done|].
  rw arith_in_range; [|unfold U64_MAX; lia].
  destruct (Z.leb_spec 9000000000 (c + 1)); apply IH; lia.
Qed.

Lemma storage_loop_runs fuel c (s : S) :
  (0 <= c)%Z -> (c + Z.of_nat fuel <= U64_MAX)%Z -> (Hackatom.do_storage_loop fuel c s).2 = None.
Proof.
  revert c s. induction fuel as [|fuel IH]; intros c s H0 Hc; cbn [Hackatom.do_storage_loop]; [done|].
  rw arith_in_range; [|lia]. apply IH; lia.
Qed.

Lemma memory_loop_runs fuel data l :
  last data = Some l -> (0 <= l)%Z -> (l + Z.of_nat fuel <= U32_MAX)%Z ->
  Hackatom.do_memory_loop fuel data = None.
Proof.
  revert data l. induction fuel as [|fuel IH]; intros data l Hl H0 Hf; cbn [Hackatom.do_memory_loop]; [done|].
  rw Hl arith_in_range; [|lia]. eapply IH; [by rw last_snoc|lia..].
Qed.

(** The messages that are meant to loop. *)
Definition looping (msg : Hackatom.HandleMsg) : bool :=
  match msg with Hackatom.CpuLoop | Hackatom.StorageLoop | Hackatom.MemoryLoop => true | _ => false end.

(** How many rounds of a loop are certain to run. *)
Definition rounds_of (msg : Hackatom.HandleMsg) (fuel : nat) : Prop :=
  match msg with
  | Hackatom.StorageLoop => (Z.of_nat fuel <= U64_MAX)%Z
  | Hackatom.MemoryLoop => (Z.of_nat fuel < U32_MAX)%Z
  | _ => True
  end.

(** Exactly the three looping messages of hackatom have not returned after any number of rounds
    (below the width of their counters); every other message returns. *)
Theorem hackatom_loops_do_not_return fuel env msg (s : S) :
  rounds_of msg fuel ->
  (Hackatom.handle memory_grow debug_error fuel env msg s).2 = None <-> looping msg = true.
Proof.
  intros Hr. destruct msg; cbn [looping Hackatom.handle]; cbn in Hr.
  - unfold Hackatom.returns. by destruct (Hackatom.do_release env s).
  - split; [done|]. intros _. cbn. apply cpu_loop_runs. lia.
  - split; [done|]. intros _. apply storage_loop_runs; lia.
  - split; [done|]. intros _. cbn. eapply memory_loop_runs; [reflexivity|lia..].
  - done.
  - done.
  - done.
Qed.

(** Funds of the hackatom contract are released only to the beneficiary and only when the
    verifier asks. *)
Theorem hackatom_release_is_guarded fuel env (s s' : S) r :
  Hackatom.handle memory_grow debug_error fuel env Hackatom.Release s = (s', Some (Ok r)) ->
  exists st to balance,
    s' = s /\ Hackatom.load_state s = Ok st /\
    canonical_address (sender (message env)) = Ok (Hackatom.verifier st) /\
    human_address (Hackatom.beneficiary st) = Ok to /\
    query_all_balances (address (contract env)) = Ok balance /\
    messages r = [CosmosBank (Send (address (contract env)) to balance)].
Proof.
  cbn [Hackatom.handle]. unfold Hackatom.returns.
  destruct (Hackatom.do_release env s) as [t [x| |]] eqn:E; [|done..]. intros [= -> ->].
  unfold Hackatom.do_release in E. inv_M E. case_bool_decide as Hv; [|done]. inv_M E.
  simplify_eq. by exists a, a1, a2.
Qed.

End HackatomTheorems.

(** Under the mock chain, every malformed address of do_user_errors_in_api_calls is refused with
    a generic error and the call succeeds. *)
Theorem user_errors_are_caught n debug_error :
  3 < n < 17 \/ 17 < n < 26 ->
  Hackatom.do_user_errors_in_api_calls (api := MockApi.api n) debug_error = Ok default_handle_response.
Proof.
  intros Hn. unfold Hackatom.do_user_errors_in_api_calls. cbn [canonical_address human_address MockApi.api].
  unfold MockApi.canonical_address, MockApi.human_address.
  cbn [String.length length replicate]. rw (proj2 (Nat.ltb_lt n 26)); [|lia].
  assert (forall m, m <> n -> (m =? n)%nat = false) as He by (intros; by apply Nat.eqb_neq).
  rw !He; [done|lia..].
Qed.

(** ** Only the owner is reflected *)

Section ReflectTheorems.
Context {S : Type} `{HS : Storage S} {HL : StorageLaws S} {api : Api}.
Context `{HSt : Serde Reflect.State} {HStL : SerdeLaws Reflect.State}.

Definition reflect_key : bytes := be_bytes 2 6 ++ Reflect.CONFIG_KEY.

Definition owned_by (s : S) (a : CanonicalAddr) : Prop :=
  Singleton.load s reflect_key = Ok (Reflect.mkState a).

Lemma reflect_config : Reflect.config = Ok reflect_key.
Proof. reflexivity. Qed.

(** The reflect contract forwards messages and changes its owner only when its owner asks;
    forwarding keeps the store, and a change of owner stores the new one and nothing else. *)
Theorem reflect_obeys_owner env msg (s s' : S) r :
  Reflect.handle env msg s = (s', Ok r) ->
  exists o, canonical_address (sender (message env)) = Ok o /\ owned_by s o /\
    match msg with
    | Reflect.ReflectMsg msgs => s' = s /\ messages r = msgs /\ msgs <> []
    | Reflect.ChangeOwner new_owner =>
        messages r = [] /\ exists o', canonical_address new_owner = Ok o' /\ owned_by s' o' /\
        forall k, k <> reflect_key -> get s' k = get s k
    end.
Proof.
  intros H. destruct msg as [msgs|new_owner]; cbn [Reflect.handle] in H.
  - unfold Reflect.try_reflect in H. rw reflect_config in H. inv_M H. simplify_eq.
    case_bool_decide as Ho; cbn [negb] in H; [|done]. destruct a0 as [o]. cbn in Ho. subst o.
    exists a1. split; [done|]. split; [done|].
    destruct msgs as [|m0 msgs]; [done|]. inv_M H. by split_and!.
  - unfold Reflect.try_change_owner in H. rw reflect_config in H. inv_M H.
    assert (a = reflect_key) as -> by by injection Hm.
    unfold Singleton.update in Hm0. inv_M Hm0.
    case_bool_decide as Ho; cbn [negb] in Hm2; [|done]. inv_M Hm2. destruct a as [o].
    cbn [Reflect.owner] in Ho. subst. exists o. split_and!; [done..|].
    eexists. split; [done|]. injection Hm2 as <-.
    unfold Singleton.save in Hm4. inv_M Hm4.
    match goal with H : modifyS _ _ = _ |- _ => injection H as <- _ end.
    split; [|intros k Hk; rw get_set; case_decide; congruence].
    unfold owned_by, Singleton.load. rw get_set. case_decide; [|done]. by apply from_to.
Qed.

End ReflectTheorems.

(** The rewards the dist contract reports are the real ones exactly when they fit 64 bits. *)
Theorem dist_reports_modulo res :
  (0 <= u128 (amount (default (mkCoin "stake" Uint.zero) (last (total res)))))%Z ->
  Dist.reported res = u128 (amount (default (mkCoin "stake" Uint.zero) (last (total res)))) <->
  (u128 (amount (default (mkCoin "stake" Uint.zero) (last (total res)))) <= U64_MAX)%Z.
Proof.
  unfold Dist.reported, U64_MAX. generalize (u128 (amount (default (mkCoin "stake" Uint.zero) (last (total res))))).
  intros z Hz. split; [|intros; apply Z.mod_small; lia].
  intros H. pose proof (Z.mod_pos_bound z (2^64) ltac:(lia)). lia.
Qed.

(** ** Concrete runs *)

Section Demo.
Import DemoWire.
Local Existing Instance demo_api.

Definition demo_funds : Querier := demo_chain [coin 9 "earth"].
Local Existing Instance demo_funds.

Definition demo_entries : MemoryStorage := mkMemory [(lit "bar", lit "2"); (lit "foo", lit "1")].

Lemma burner_erases_everything_witness :
  contents (Burner.migrate (demo_env "creator") (Burner.mkMigrateMsg "john") demo_entries).1 = [] /\
  (Burner.migrate (demo_env "creator") (Burner.mkMigrateMsg "john") demo_entries).2
  = Ok (mkMigrateResponse [CosmosBank (Send "contract" "john" [coin 9 "earth"])]
          [log "action" "burn"; log "payout" "john"] (Some (lit "burnt 2 keys"))).
Proof.
  refine (burner_erases_everything (demo_env "creator") (Burner.mkMigrateMsg "john") demo_entries _).
  cbn. repeat constructor.
Defined.

#[local] Instance hackatom_state_eq_dec : EqDecision Hackatom.State.
Proof. solve_decision. Defined.
#[local] Instance hackatom_state_countable : Countable Hackatom.State.
Proof.
  countable_by (fun s => (Hackatom.verifier s, Hackatom.beneficiary s, Hackatom.funder s))
    (fun p : bytes * bytes * bytes => Hackatom.mkState p.1.1 p.1.2 p.2).
Defined.
#[local] Instance hackatom_state : Serde Hackatom.State := countable_serde "State" _.

Definition demo_hackatom : MemoryStorage :=
  (Hackatom.init (demo_env "creator") (Hackatom.mkInitMsg "verifies" "benefits") Memory.new).1.
Definition demo_debug (e : StdError) : string := display_std_error e.

Lemma hackatom_loops_do_not_return_witness :
  (Hackatom.handle (fun _ => 17%Z) demo_debug 1000 (demo_env "anyone") Hackatom.StorageLoop demo_hackatom).2
  = None /\
  (Hackatom.handle (fun _ => 17%Z) demo_debug 1000 (demo_env "anyone") Hackatom.CpuLoop demo_hackatom).2
  = None.
Proof.
  split.
  - apply (hackatom_loops_do_not_return (fun _ => 17%Z) demo_debug 1000 (demo_env "anyone")
             Hackatom.StorageLoop demo_hackatom); [unfold rounds_of, U64_MAX; lia|reflexivity].
  - apply (hackatom_loops_do_not_return (fun _ => 17%Z) demo_debug 1000 (demo_env "anyone")
             Hackatom.CpuLoop demo_hackatom); [exact I|reflexivity].
Defined.

Lemma hackatom_release_is_guarded_witness :
  exists r, Hackatom.handle (fun _ => 17%Z) demo_debug 0 (demo_env "verifies") Hackatom.Release demo_hackatom
            = (demo_hackatom, Some (Ok r)) /\
    exists to balance, messages r = [CosmosBank (Send "contract" to balance)].
Proof.
  destruct (Hackatom.handle (fun _ => 17%Z) demo_debug 0 (demo_env "verifies") Hackatom.Release demo_hackatom)
    as [s' [[r| |]|]] eqn:E; [|vm_compute in E; discriminate E..].
  destruct (hackatom_release_is_guarded _ _ _ _ _ _ _ E) as (st & to & b & -> & _ & _ & _ & _ & Hm).
  exists r. split; [reflexivity|]. by exists to, b.
Defined.

Lemma user_errors_are_caught_witness :
  Hackatom.do_user_errors_in_api_calls (api := MockApi.api 20) demo_debug = Ok default_handle_response.
Proof. apply (user_errors_are_caught 20 demo_debug). lia. Defined.

(** *** Owners *)

#[local] Instance reflect_state_eq_dec : EqDecision Reflect.State.
Proof. solve_decision. Defined.
#[local] Instance reflect_state_countable : Countable Reflect.State.
Proof. countable_by Reflect.owner Reflect.mkState. Defined.
#[local] Instance reflect_state : Serde Reflect.State := countable_serde "State" _.

Definition demo_reflect : MemoryStorage := (Reflect.init (demo_env "alice") Memory.new).1.

Lemma reflect_obeys_owner_witness :
  exists s' r, Reflect.handle (demo_env "alice") (Reflect.ChangeOwner "bob") demo_reflect = (s', Ok r) /\
    owned_by demo_reflect (lit "alice") /\ owned_by s' (lit "bob").
Proof.
  destruct (Reflect.handle (demo_env "alice") (Reflect.ChangeOwner "bob") demo_reflect)
    as [s' [r| |]] eqn:E; [|vm_compute in E; discriminate E..].
  destruct (reflect_obeys_owner _ _ _ _ _ E) as (o & Ho & Hs & _ & o' & Ho' & Hs' & _).
  clear E. cbn in Ho, Ho'. exists s', r. split; [reflexivity|].
  injection Ho as <-. injection Ho' as <-. split; [exact Hs|exact Hs'].
Defined.

End Demo.
