(* ===== verification/Schema.v ===== *)
(** * The schema generator: cosmwasm/packages/schema/src

    casing.rs, export.rs and remove.rs: contracts write the JSON schemas of their messages to a
    directory, which is cleaned before.  Texts are lists of characters; the directory is a
    parameter where the operating system answers. *)

From stdpp Require Import base tactics list numbers gmap ssreflect.
From S2P Require Import Prelude.

Local Open Scope list_scope.
Local Open Scope Z_scope.

(** A [char] by its code point. *)
Abbreviation char := Z.
Definition chars (s : String.string) : list char := Z_of_byte <$> lit s.

(** ** casing.rs *)

Definition to_ascii_lowercase (ch : char) : char := if (65 <=? ch) && (ch <=? 90) then ch + 32 else ch.

Section Schema.
(** [char::is_uppercase] of Unicode. *)
Variable is_uppercase : char -> bool.
Hypothesis ascii_uppercase : forall ch, 0 <= ch < 128 -> is_uppercase ch = (65 <=? ch) && (ch <=? 90).

Fixpoint snake (first : bool) (name : list char) : list char :=
  match name with
  | [] => []
  | ch :: rest =>
      (if negb first && is_uppercase ch then [95] else []) ++ to_ascii_lowercase ch :: snake false rest
  end.
Definition to_snake_case (name : list char) : list char := snake true name.

(** ** export.rs *)

(** The title in the metadata, if there is metadata and it has one. *)
Record RootSchema (T : Type) : Type := mkSchema { metadata : option (option (list char)); body : T }.
Arguments mkSchema {T} metadata body.
Arguments metadata {T} r.
Arguments body {T} r.

Abbreviation Dir := (gmap (list Z) (list char)).

Section Export.
Context {T : Type}.
(** [serde_json::to_string_pretty]. *)
Variable to_string_pretty : RootSchema T -> option (list char).

Definition schema_file (title : list char) : list char := to_snake_case title ++ chars ".json".

(** Panics when the schema cannot be encoded or the file not written. *)
Definition write_schema (writable : bool) (schema : RootSchema T) (title : list char) (dir : Dir) : Dir * result unit unit :=
  match to_string_pretty schema with
  | None => (dir, Panic)
  | Some json => if writable then (<[schema_file title := json ++ [10]]> dir, Ok tt) else (dir, Panic)
  end.

Definition schema_title (schema : RootSchema T) : list char :=
  match metadata schema with
  | Some title => default (chars "untitled") title
  | None => chars "unknown"
  end.

Definition export_schema (writable : bool) (schema : RootSchema T) (dir : Dir) : Dir * result unit unit :=
  write_schema writable schema (schema_title schema) dir.

Definition export_schema_with_title (writable : bool) (schema : RootSchema T) (title : list char) (dir : Dir)
  : (RootSchema T * Dir) * result unit unit :=
  let schema := mkSchema (match metadata schema with Some _ => Some (Some title) | None => None end) (body schema) in
  let (dir, r) := write_schema writable schema title dir in ((schema, dir), r).
End Export.

(** ** remove.rs *)

(** What [symlink_metadata] says of a path. *)
Inductive PathKind : Type := RegularFile | DirOrLink | Unknown (e : String.string).

Record Path : Type := mkPath { file_name : option (list char); kind : PathKind }.

Definition is_regular_file (p : Path) : result String.string bool :=
  match kind p with RegularFile => Ok true | DirOrLink => Ok false | Unknown e => Err e end.

Definition is_hidden (p : Path) : bool :=
  match file_name p with Some (46 :: _) => true | _ => false end.

Definition ends_with (suffix name : list char) : bool := bool_decide (suffix `suffix_of` name).
Definition is_json (p : Path) : bool :=
  match file_name p with Some name => ends_with (chars ".json") name | None => false end.

Definition is_schema (p : Path) : bool :=
  match is_regular_file p with Ok true => true | _ => false end && negb (is_hidden p) && is_json p.

(** The loop: the paths removed, and the first error of [remove_file]. *)
Fixpoint remove_files (remove_file : Path -> option String.string) (paths : list Path) : list Path * result String.string unit :=
  match paths with
  | [] => ([], Ok tt)
  | p :: ps =>
      match remove_file p with
      | Some e => ([], Err e)
      | None => let (removed, r) := remove_files remove_file ps in (p :: removed, r)
      end
  end.

(** [entries] is the outcome of [read_dir]; an entry that cannot be read is skipped. *)
Definition remove_schemas (entries : result String.string (list (option Path)))
    (remove_file : Path -> option String.string) : list Path * result String.string unit :=
  match entries with
  | Ok entries => remove_files remove_file (List.filter is_schema (omap id entries))
  | Err e => ([], Err e)
  | Panic => ([], Panic)
  end.

(** ** Properties *)

Lemma lowercase_is_not_uppercase ch : 0 <= ch < 128 -> is_uppercase (to_ascii_lowercase ch) = false.
Proof.
  intros H. unfold to_ascii_lowercase. destruct (Z.leb_spec 65 ch), (Z.leb_spec ch 90); cbn;
    rw ascii_uppercase; lia.
Qed.

Lemma lowercase_idempotent ch : to_ascii_lowercase (to_ascii_lowercase ch) = to_ascii_lowercase ch.
Proof.
  unfold to_ascii_lowercase. destruct (Z.leb_spec 65 ch), (Z.leb_spec ch 90); cbn; repeat case_match; lia.
Qed.

(** Snake case stays as it is, for titles in ASCII. *)
Theorem snake_case_is_stable name :
  Forall (fun ch => 0 <= ch < 128) name -> to_snake_case (to_snake_case name) = to_snake_case name.
Proof.
  unfold to_snake_case. intros H. generalize true as first. induction H as [|ch rest Hc Hr IH]; intros first; [done|].
  cbn [snake]. destruct first; cbn [negb andb].
  - cbn [app snake negb andb]. by rw lowercase_idempotent IH.
  - destruct (is_uppercase ch) eqn:Hu; cbn [app snake negb andb].
    + by rw ascii_uppercase // lowercase_is_not_uppercase // lowercase_idempotent IH.
    + by rw lowercase_is_not_uppercase // lowercase_idempotent IH.
Qed.

(** When nothing fails, exactly the visible regular files with the suffix .json are removed. *)
Theorem schemas_are_removed entries remove_file p :
  (forall p, remove_file p = None) ->
  let (removed, r) := remove_schemas (Ok entries) remove_file in
  r = Ok tt /\ (In p removed <-> In (Some p) entries /\ kind p = RegularFile /\ is_hidden p = false /\ is_json p = true).
Proof.
  intros Hf. cbn. enough (forall l, remove_files remove_file l = (l, Ok tt)) as E.
  - rw E. split; [done|]. rw List.filter_In. unfold is_schema, is_regular_file.
    assert (In p (omap id entries) <-> In (Some p) entries) as ->.
    { rw -!list_elem_of_In list_elem_of_omap. split; [by intros (o & Ho & [= ->])|by exists (Some p)]. }
    destruct (kind p), (is_hidden p), (is_json p); cbn; naive_solver.
  - induction l as [|q l IH]; [done|]. cbn. by rw Hf IH.
Qed.

(** A schema that was written is among the files a later clean-up takes away, unless its title is
    empty or starts with a dot: such a file is hidden and stays. *)
Theorem written_schema_is_removed title :
  is_schema (mkPath (Some (schema_file title)) RegularFile) =
  match title with [] => false | ch :: _ => negb (ch =? 46) end.
Proof.
  assert (forall l, ends_with (chars ".json") (l ++ chars ".json") = true) as Hj.
  { intros l. apply bool_decide_true. by exists l. }
  unfold is_schema, is_regular_file, is_json, schema_file. cbn [kind file_name]. rw Hj andb_true_r.
  destruct title as [|ch rest]; [done|]. unfold is_hidden, to_snake_case. cbn [snake file_name negb andb app].
  unfold to_ascii_lowercase. destruct (Z.eqb_spec ch 46) as [->|Hc]; [done|].
  destruct (Z.leb_spec 65 ch), (Z.leb_spec ch 90); cbn [andb]; [|..]; repeat case_match; try done; simplify_eq; lia.
Qed.

End Schema.
