(* ===== verification/UnitTests.v ===== *)
(** * The unit tests of the repository, on the definitions

    What the tests in the source files assert of the code, evaluated on its translation:
    packages/std/src/math.rs, packages/storage/src/length_prefixed.rs, namespace_helpers.rs and
    transactions.rs, packages/wasmi-runtime/src/crypto/multisig.rs and exports.rs.  Each
    example has the name of the test it repeats, with the same inputs. *)

From Stdlib Require Import Strings.String.
From stdpp Require Import base tactics list numbers strings gmap.
From S2P Require Import Prelude Math Storage Transactions Prefixed Crypto Signatures Ecalls.

Local Open Scope string_scope.
Local Open Scope list_scope.

(** [unwrap_err] of a [StdError::GenericErr]. *)
Definition generic_message {A} (r : StdResult A) : option string :=
  match r with Err (GenericErr msg) => Some msg | _ => None end.

(** ** math.rs *)

Module MathTests.

Abbreviation frac := DECIMAL_FRACTIONAL.
Abbreviation Ok' := (@Ok StdError _).
Abbreviation percent := (Dec.percent (E := StdError)).
Abbreviation permille := (Dec.permille (E := StdError)).
Abbreviation from_ratio := (Dec.from_ratio (E := StdError)).
Abbreviation ratio := (Uint.multiply_ratio (E := StdError)).

Example decimal_percent : percent 50 = Ok (mkDecimal (frac / 2)).
Proof. reflexivity. Qed.

Example decimal_permille : permille 125 = Ok (mkDecimal (frac / 8)).
Proof. reflexivity. Qed.

Example decimal_from_ratio_works :
  Forall (fun p : Z * Z * Z => from_ratio p.1.1 p.1.2 = Ok (mkDecimal p.2))
    [(1, 1, frac); (53, 53, frac); (125, 125, frac);
     (3, 2, 3 * frac / 2); (150, 100, 3 * frac / 2); (333, 222, 3 * frac / 2);
     (1, 8, frac / 8); (125, 1000, frac / 8);
     (1, 3, 333333333333333333); (2, 3, 666666666666666666)]%Z.
Proof. by repeat constructor. Qed.

Example decimal_from_ratio_panics_for_zero_denominator : from_ratio 1 0 = Panic.
Proof. reflexivity. Qed.

Example decimal_from_str_works :
  Forall (fun p : string * StdResult Decimal => Dec.from_str p.1 = p.2)
    [("0", percent 0); ("1", percent 100); ("5", percent 500); ("42", percent 4200);
     ("000", percent 0); ("001", percent 100); ("005", percent 500); ("0042", percent 4200);
     ("1.0", percent 100); ("1.5", percent 150); ("0.5", percent 50); ("0.123", permille 123);
     ("40.00", percent 4000); ("04.00", percent 400); ("00.40", percent 40); ("00.04", percent 4);
     ("7.123456789012345678", Ok (mkDecimal 7123456789012345678));
     ("7.999999999999999999", Ok (mkDecimal 7999999999999999999));
     ("340282366920938463463.374607431768211455", Ok Dec.MAX)].
Proof. repeat constructor; by vm_compute. Qed.

(** The five tests of what is refused. *)
Example decimal_from_str_errors :
  Forall (fun p : string * string => generic_message (Dec.from_str p.1) = Some p.2)
    [(EmptyString, "Error parsing whole"); (" ", "Error parsing whole"); ("-1", "Error parsing whole");
     ("1.", "Error parsing fractional"); ("1. ", "Error parsing fractional");
     ("1.e", "Error parsing fractional"); ("1.2e3", "Error parsing fractional");
     ("7.1234567890123456789", "Cannot parse more than 18 fractional digits");
     ("7.1230000000000000000", "Cannot parse more than 18 fractional digits");
     ("1.2.3", "Unexpected number of dots"); ("1.2.3.4", "Unexpected number of dots");
     ("340282366920938463464", "Value too big"); ("340282366920938463464.0", "Value too big");
     ("340282366920938463463.374607431768211456", "Value too big")].
Proof. repeat constructor; by vm_compute. Qed.

Example decimal_add : (d ← percent 50; Dec.add Dec.one d) = Ok' (mkDecimal (frac * 3 / 2)).
Proof. reflexivity. Qed.

Example decimal_to_string :
  Forall (fun p : StdResult Decimal * string => Dec.to_string <$> p.1 = Ok p.2)
    [(Ok Dec.zero, "0"); (Ok Dec.one, "1"); (percent 500, "5");
     (percent 125, "1.25"); (percent 42638, "426.38"); (percent 1, "0.01"); (permille 987, "0.987");
     (Ok (mkDecimal 1), "0.000000000000000001"); (Ok (mkDecimal 10), "0.00000000000000001");
     (Ok (mkDecimal 1000000000), "0.000000001"); (Ok (mkDecimal 100000000000000000), "0.1")].
Proof. repeat constructor; by vm_compute. Qed.

Example to_and_from_uint128 :
  Uint.to_string (mkUint128 12345) = "12345" /\ Uint.try_from "34567" = Ok (mkUint128 34567) /\
  is_ok (Uint.try_from "1.23") = false.
Proof. by vm_compute. Qed.

Example uint128_math :
  Uint.add (mkUint128 12345) (mkUint128 23456) = Ok' (mkUint128 35801) /\
  Uint.sub (mkUint128 23456) (mkUint128 12345) = Ok (mkUint128 11111) /\
  Uint.sub (mkUint128 12345) (mkUint128 23456) = Err (Underflow "12345" "23456") /\
  Uint.add (E := StdError) (mkUint128 340282366920938463463374607431768211446) (mkUint128 12) = Panic.
Proof. by vm_compute. Qed.

Example u128_multiply_ratio_works :
  Forall (fun p : Z * Z * Z => ratio (mkUint128 500) p.1.1 p.1.2 = Ok (mkUint128 p.2))
    [(1, 1, 500); (3, 3, 500); (654321, 654321, 500); (3, 2, 750); (333333, 222222, 750);
     (2, 3, 333); (222222, 333333, 333); (5, 6, 416); (100, 120, 416)]%Z /\
  ratio (mkUint128 500) 1 0 = Panic.
Proof. split; [|done]. by repeat constructor. Qed.

Example uint128_decimal_multiply :
  Forall (fun p : Z * Z * Z => mul_dec (mkUint128 p.1.1) (mkDecimal p.1.2) = Ok' (mkUint128 p.2))
    [(300, frac * 3 / 2, 450); (300, 0, 0); (0, frac * 3 / 2, 0)]%Z.
Proof. by repeat constructor. Qed.

End MathTests.

(** ** length_prefixed.rs, namespace_helpers.rs *)

Module PrefixTests.
Import Byte.

Example to_length_prefixed_works :
  map to_length_prefixed [[]; lit "a"; lit "ab"; lit "abc"] =
  [Ok [x00; x00]; Ok (x00 :: x01 :: lit "a"); Ok (x00 :: x02 :: lit "ab"); Ok (x00 :: x03 :: lit "abc")].
Proof. reflexivity. Qed.

Example to_length_prefixed_nested_works :
  map to_length_prefixed_nested [[]; [[]]; [[]; []]; [lit "a"]; [lit "a"; lit "ab"; lit "abc"]] =
  [Ok []; Ok [x00; x00]; Ok [x00; x00; x00; x00]; Ok (x00 :: x01 :: lit "a");
   Ok (x00 :: x01 :: lit "a" ++ x00 :: x02 :: lit "ab" ++ x00 :: x03 :: lit "abc")].
Proof. reflexivity. Qed.

Example encode_length_works :
  Forall (fun p : nat * bytes => encode_length (replicate p.1 x01) = Ok p.2)
    [(0, [x00; x00]); (1, [x00; x01]); (3, [x00; x03]); (255, [x00; xff]); (256, [x01; x00]);
     (Z.to_nat 12345, [x30; x39]); (Z.to_nat 65535, [xff; xff])].
Proof. repeat constructor; by vm_compute. Qed.

Example encode_length_panics_for_large_values : encode_length (replicate (Z.to_nat 65536) x01) = Panic.
Proof. by vm_compute. Qed.

Example test_namespace_upper_bound :
  map namespace_upper_bound [lit "bob"; lit "fo" ++ [xfe]; lit "fo" ++ [xff]; lit "fo" ++ [xff; xff; xff]; xff :: lit "abc"] =
  [lit "boc"; lit "fo" ++ [xff]; lit "fp" ++ [x00]; lit "fp" ++ [x00; x00; x00]; xff :: lit "abd"].
Proof. reflexivity. Qed.

(** The namespaces of the tests, with two values inside the range and one outside. *)
Definition filled (ns other : bytes) : StdResult (bytes * MemoryStorage) :=
  prefix ← to_length_prefixed ns;
  other_prefix ← to_length_prefixed other;
  let s := set_with_prefix Memory.new prefix (lit "bar") (lit "none") in
  let s := set_with_prefix s prefix (lit "snowy") (lit "day") in
  Ok (prefix, set_with_prefix s other_prefix (lit "moon") (lit "buggy")).

Definition ranged (ns other : bytes) (start end_ : option bytes) (o : Order) : StdResult (list KV) :=
  p ← filled ns other; range_with_prefix p.2 p.1 start end_ o.

Abbreviation bar := (lit "bar", lit "none").
Abbreviation snowy := (lit "snowy", lit "day").

Example prefix_get_set :
  (p ← filled (lit "foo") (lit "fo"); q ← to_length_prefixed (lit "fo");
   Ok (get_with_prefix p.2 p.1 (lit "bar"), get_with_prefix p.2 q (lit "obar"))) =
  @Ok StdError _ (Some (lit "none"), None).
Proof. by vm_compute. Qed.

Example test_range : ranged (lit "foo") (lit "food") None None Descending = Ok [snowy; bar].
Proof. by vm_compute. Qed.

Abbreviation f255 := (lit "f" ++ [xff; xff]).
Abbreviation f68 := (lit "f" ++ [xff; x44]).

Example test_range_with_prefix_wrapover : ranged f255 f68 None None Descending = Ok [snowy; bar].
Proof. by vm_compute. Qed.

Example test_range_with_start_end_set :
  ranged f255 f68 (Some (lit "b")) (Some (lit "c")) Ascending = Ok [bar] /\
  ranged f255 f68 (Some (lit "bas")) (Some (lit "sno")) Ascending = Ok [] /\
  ranged f255 f68 (Some (lit "ant")) None Ascending = Ok [bar; snowy].
Proof. by vm_compute. Qed.

End PrefixTests.

(** ** storage.rs, transactions.rs *)

Module StorageTests.

Abbreviation ant := (lit "ant", lit "hill").
Abbreviation foo := (lit "foo", lit "bar").
Abbreviation ze := (lit "ze", lit "bra").

(** The suite that both files have: the ranges of a store with one key, [foo], after three more
    were written and one of them removed. *)
Definition suite_ranges : list (option bytes * option bytes * Order * list KV) :=
  [(None, None, Ascending, [ant; foo; ze]);
   (None, None, Descending, [ze; foo; ant]);
   (Some (lit "f"), Some (lit "n"), Ascending, [foo]);
   (Some (lit "air"), Some (lit "loop"), Descending, [foo; ant]);
   (Some (lit "foo"), Some (lit "foo"), Ascending, []);
   (Some (lit "foo"), Some (lit "foo"), Descending, []);
   (Some (lit "z"), Some (lit "a"), Ascending, []);
   (Some (lit "z"), Some (lit "a"), Descending, []);
   (Some (lit "f"), None, Ascending, [foo; ze]);
   (Some (lit "f"), None, Descending, [ze; foo]);
   (None, Some (lit "f"), Ascending, [ant]);
   (None, Some (lit "no"), Descending, [foo; ant])].

Definition suite_store {S} `{Storage S} (store : S) : S :=
  remove (set (set (set store (lit "ant") (lit "hill")) (lit "ze") (lit "bra")) (lit "bye") (lit "bye")) (lit "bye").

Definition iterator_test_suite {S} `{Storage S} (store : S) : Prop :=
  get store (lit "foo") = Some (lit "bar") /\ length <$> range store None None Ascending = Ok 1 /\
  Forall (fun q => range (suite_store store) q.1.1.1 q.1.1.2 q.1.2 = Ok q.2) suite_ranges.

Ltac run_suite := split_and!; [by vm_compute..|repeat constructor; by vm_compute].

Definition base : MemoryStorage := set Memory.new (lit "foo") (lit "bar").

Example memory_iterator : iterator_test_suite base.
Proof. run_suite. Qed.

Example storage_transaction_iterator_empty_base :
  iterator_test_suite (Tx.set (Tx.new Memory.new) (lit "foo") (lit "bar")).
Proof. run_suite. Qed.

Example storage_transaction_iterator_with_base_data : iterator_test_suite (Tx.new base).
Proof. run_suite. Qed.

Example storage_transaction_iterator_removed_items_from_base :
  iterator_test_suite (Tx.remove (Tx.new (set base (lit "food") (lit "bank"))) (lit "food")).
Proof. run_suite. Qed.

(** What no test of the source does: the suite on a transaction over a namespace. *)
Example storage_transaction_over_namespace :
  exists ps, Prefixed.new (lit "ns") Memory.new = Ok ps /\
    iterator_test_suite (Tx.new (Prefixed.set ps (lit "foo") (lit "bar"))).
Proof. eexists. split; [reflexivity|]. run_suite. Qed.

(** [delete_local] and [delete_from_base]. *)
Definition deleted (tx : StorageTransaction MemoryStorage) (start : MemoryStorage) : Prop :=
  let check := Tx.remove (Tx.set tx (lit "food") (lit "bank")) (lit "foo") in
  let after := commit (Tx.prepare check) start in
  (Tx.get check (lit "foo"), Tx.get check (lit "food")) = (None, Some (lit "bank")) /\
  (get after (lit "foo"), get after (lit "food")) = (None, Some (lit "bank")).

Example delete_local : deleted (Tx.set (Tx.new Memory.new) (lit "foo") (lit "bar")) Memory.new.
Proof. by vm_compute. Qed.

Example delete_from_base : deleted (Tx.new base) base.
Proof. by vm_compute. Qed.

Example storage_remains_readable :
  let stxn1 := Tx.set (Tx.new base) (lit "subtx") (lit "works") in
  Tx.get stxn1 (lit "foo") = Some (lit "bar") /\ Tx.get stxn1 (lit "subtx") = Some (lit "works") /\
  get (storage stxn1) (lit "subtx") = None /\
  get (commit (Tx.prepare stxn1) base) (lit "subtx") = Some (lit "works").
Proof. by vm_compute. Qed.

End StorageTests.

(** ** multisig.rs *)

Module MultisigTests.
#[local] Existing Instance demo_prost.

Definition byte_list (l : list Z) : bytes := map byte_of_Z l.
Definition decoded (l : list Z) : option (option (list bytes)) :=
  (fun r => match r with Ok sigs => Some sigs | _ => None end) <$> decode_multisig_signature (byte_list l).
Definition header : list Z := [0; 0; 0; 0; 0; 0; 0; 18]%Z.

Example test_decode_sig_sanity :
  decoded (header ++ [10; 1; 2; 3; 4; 5; 6; 7; 8; 9; 10; 18; 4; 1; 2; 3; 4])%Z =
  Some (Some [byte_list [1; 2; 3; 4; 5; 6; 7; 8; 9; 10]; byte_list [1; 2; 3; 4]])%Z.
Proof. by vm_compute. Qed.

Example test_decode_long_leb128 :
  decoded (header ++ [200; 1]%Z ++ replicate 200 0%Z) = Some (Some [byte_list (replicate 200 0%Z)]).
Proof. by vm_compute. Qed.

Example test_decode_wrong_long_leb128 :
  decoded (header ++ [205; 1; 1; 2; 3; 4; 5; 6; 7; 8; 9; 10; 11; 12; 13; 14; 15])%Z = Some None.
Proof. by vm_compute. Qed.

Example test_decode_malformed_sig_only_prefix : decoded header = Some None.
Proof. by vm_compute. Qed.

Example test_decode_sig_length_zero : decoded (header ++ [0]%Z) = Some (Some [[]]).
Proof. by vm_compute. Qed.

Example test_decode_malformed_sig_wrong_length : decoded (header ++ [10; 0; 0]%Z) = Some None.
Proof. by vm_compute. Qed.

End MultisigTests.

(** ** exports.rs: buffers *)

Module BufferTests.
Import Buffers.

Definition message (k : nat) : bytes := lit "message-" ++ be_bytes 1 (48 + Z.of_nat k).
Definition box_at (k : nat) : Z := (4096 + 64 * Z.of_nat k)%Z.

(** Ten messages, allocated in order. *)
Definition allocated_ten : Table :=
  foldl (fun t k => (allocate_body (Allocated (box_at k)) (message k) t).1) initial (seq 0 10).

(** Recovering some of them: what each call returns, and the length of the stack before it. *)
Fixpoint recover_all (ks : list nat) (t : Table) : list (nat * Recovered) * Table :=
  match ks with
  | [] => ([], t)
  | k :: ks' =>
      let (t', r) := recover_buffer (box_at k) t in
      let (rs, t'') := recover_all ks' t' in ((length (stack t), r) :: rs, t'')
  end.

Definition expected (ks : list nat) : list (nat * Recovered) :=
  zip (reverse (seq 1 10)) (map (fun k => Recovery (Ok (Some (message k)))) ks).

Example test_recover_enclave_buffer_valid :
  let (t, p) := allocate_body (Allocated 4096) (lit "some example text") initial in
  length (stack t) = 1 /\ recover_buffer p t = (initial, Recovery (Ok (Some (lit "some example text")))).
Proof. by vm_compute. Qed.

Example test_recover_enclave_buffer_invalid : recover_buffer 305419896 initial = (initial, Recovery (Err NoSuchBuffer)).
Proof. reflexivity. Qed.

Example test_recover_enclave_buffer_invalid_null : recover_buffer 0 initial = (initial, Recovery (Ok None)).
Proof. reflexivity. Qed.

Example test_recover_enclave_buffer_in_recursion_valid :
  recover_all (reverse (seq 0 10)) allocated_ten = (expected (reverse (seq 0 10)), initial).
Proof. by vm_compute. Qed.

Example test_recover_enclave_buffer_in_recursion_invalid :
  recover_buffer 12345 allocated_ten = (allocated_ten, Recovery (Err NoSuchBuffer)).
Proof. by vm_compute. Qed.

Example test_recover_enclave_buffer_multiple_out_of_order_valid :
  recover_all (seq 0 10) allocated_ten = (expected (seq 0 10), initial).
Proof. by vm_compute. Qed.

End BufferTests.
